(* ===== verification/_CoqProject ===== *)
-Q . S2P
Prelude.v
GoStrings.v
Sha256.v
Json.v
GoNet.v
Uci.v
UciShell.v
DeviceOperation.v
DeviceOperationFacts.v
Store.v
DeviceOperations.v
ChangeSets.v
ChangeSetFacts.v
Rollouts.v
UciState.v
UciStateSpec.v
PlanFilter.v
RolloutPlan.v
Renderer.v
RendererSpec.v
Orchestrator.v
Preview.v
SiteConfigs.v
Tickets.v
Access.v
Enrollment.v
Provision.v
Vpn.v
Worker.v
QueueFacts.v
Protocol.v
Generations.v
RolloutInvariants.v
Refinement.v
History.v
Scenario.v
Guarantees.v
DeviceQueueSpec.v
RolloutSpec.v
WorkerSpec.v
OrchestratorFacts.v
OrchestratorSpec.v
PlanSpec.v
PreviewSpec.v
SiteConfigsSpec.v
TicketsSpec.v
AccessSpec.v
EnrollmentSpec.v
ProvisionSpec.v
