(* ===== verification/Prelude.v ===== *)
(** * Verification of the OpenWrt controller's configuration protocol

    The controller (src/internal, Go) keeps the configuration of a fleet of OpenWrt
    devices.  A site has a template, which the renderer turns into UCI commands for
    each device by its role.  An operator previews a rollout: the commands that
    the devices do not satisfy yet become an immutable draft.  The apply handler turns the draft into change sets that the devices' agents fetch
    and report on, or runs the draft's scripts over SSH; a background worker moves
    a queued rollout from device to device.  All of it is state in a PostgreSQL
    schema per tenant (the tables [devices], [rollout_runs], [audit_logs]).  This
    development models that path from the text of one UCI command to the tables,
    and proves what each part promises.

    ** Files

    Foundations (Go and PostgreSQL, no code of the repository unless said so):
    - [Prelude]: errors and results ([gerror], [res], [errors_is]), sorting,
      tactics, generic lemmas.
    - [GoStrings]: Go strings as byte strings ([strings.*], runes, hexadecimal).
    - [Sha256]: SHA-256, executable, so that plan hashes and identities evaluate.
    - [Json]: JSON values, [encoding/json] (encoding with and without HTML escapes,
      decoding into structs with case-insensitive keys) and the operators of
      PostgreSQL's [jsonb].
    - [GoNet]: [net.ParseIP], host names and MAC addresses.
    - [Store]: three-valued SQL conditions, the tables, and computations on them:
      [M A] threads a tenant and a list of driver faults, [statement], [query] and
      [transaction] consult one fault each; also the schema names of
      internal/database/postgres.go and the audit insert of audit.go.

    Components, with the Go file each translates:
    - [Uci]: internal/services/uci_bridge.go and uci_restart_map.go, command
      rendering and batch scripts.
    - [DeviceOperation]: internal/services/device_operation.go and
      device_change_set.go.
    - [DeviceOperations], [ChangeSets], [Rollouts]: internal/database/
      device_operations.go, device_change_sets.go, rollout_drafts.go and
      rollout_worker.go, one Definition per SQL statement and per function.
    - [Renderer]: internal/services/orchestrator_engine.go, the template and the
      commands it renders; the leases and rules of edge_nexus.go.
    - [SiteConfigs]: loading and saving a template (orchestrator_engine.go,
      wlan_policy.go and the handlers of site_orchestrator.go) and changing the
      role of a device.
    - [UciState]: internal/api/handlers/central_config.go, reading [uci show] and
      matching commands with what a device reports; the filter of a plan.
    - [RolloutPlan], [Preview], [Orchestrator]: internal/api/handlers/
      site_orchestrator.go, its pure part, [PreviewSyncHandler] and
      [SyncFleetHandler] with all they call.
    - [Worker]: internal/rolloutworker/worker.go.

    Specifications and proofs:
    - [UciShell]: a reader of POSIX shell words; every rendered command is read back
      as the intended words, and the safe batch has the intended phases.
    - [DeviceOperationFacts], [ChangeSetFacts]: validators are exact, identities
      are stable, the controller and the database agree on change sets.
    - [Protocol], [Generations], [RolloutInvariants], [QueueFacts]: the abstract
      protocol, a step relation on the tables with time ([effect], [tick],
      [reachable]), and its invariants.
    - [Refinement], [History], [Scenario], [Guarantees]: every exported database
      function and every turn of the worker, with any driver faults, is a path of
      the protocol, so its invariants hold along every history of calls.
    - [DeviceQueueSpec], [RolloutSpec], [WorkerSpec], [OrchestratorFacts],
      [OrchestratorSpec], [PlanSpec]: what each function does on every branch.
    - [UciStateSpec]: what [uci show] prints is read back.  [PlanFilter]: running
      the commands the filter keeps leads where the whole plan leads, for plans
      that set options, and where it does not.
    - [RendererSpec], [SiteConfigsSpec], [PreviewSpec]: which commands a template
      renders and the translator accepts, what a save keeps, and that a preview
      stores what it shows; the three compose into when a site settles and which
      sites can never be previewed.

    ** Time, faults, fuel

    Time is the database's clock in microseconds, an argument of every statement; a
    history gives each call the time at which it runs, and times do not decrease.
    Random values (uuids, tokens, entropy) are arguments.  A fault list says which
    of the next statements (or commits) the driver fails; a failed transaction
    leaves the tables as they were.  Statements of one history are interleaved as
    whole calls; inside a transaction nothing else runs, which is what the
    per-site advisory lock and the row locks ensure for the rows concerned.
    [reconcileLease] takes the number of its rounds as fuel, since the Go loop runs
    until the lease is lost; theorems about it hold for every number of rounds.
    [fleet_batches] has one unit of fuel per device, and each turn advances.

    ** Integers

    Generations are BIGINT: [next_generation] fails at [int64_max], as PostgreSQL
    does.  Decoded integers outside int64 are errors, as in [encoding/json].

    ** Not modelled

    Log lines, response headers, contexts and timeouts, the goroutines of
    [executeBatch] (the phases in use have one device each), the unused fields of
    tables, formatted details of error texts, driver errors other than the faults
    above, and statements that fail in the middle of a result set.  Of the
    repository: the history handlers, enrollment, authentication, Sentinel,
    telemetry, the other services (radio, traffic, VPN, surveys, vault), the web
    console and the device agent's shell script.  [PreviewSyncHandler] takes the
    template and the devices of the site, which two queries read, as arguments. *)

From stdpp Require Export base tactics option list gmap strings.
From Stdlib Require Export ZArith Lia Ascii String Sorted.

#[export] Set Default Goal Selector "!".

(** ** Errors and results

    A Go [error] is a sentinel created with [errors.New], a plain
    [fmt.Errorf] text, a [%w] wrapping of another error, or an error the
    database driver (or the operating system's random source) reports. *)
Inductive gerror :=
  | ErrSentinel (text : string)
  | ErrText (text : string)
  | ErrWrap (inner : gerror) (text : string)
  | ErrDriver.

#[export] Instance gerror_eq_dec : EqDecision gerror.
Proof. solve_decision. Defined.

(** [errors.Is]: the chain of wrapped errors contains the sentinel. *)
Fixpoint errors_is (e target : gerror) : bool :=
  bool_decide (e = target) ||
  match e with
  | ErrWrap inner _ => errors_is inner target
  | _ => false
  end.

(** The [(value, error)] pair of a Go function, with the value present exactly
    when the error is nil. *)
Inductive res (A : Type) :=
  | Ok (a : A)
  | Err (e : gerror).
Arguments Ok {A} a.
Arguments Err {A} e.

#[export] Instance res_eq_dec {A} `{EqDecision A} : EqDecision (res A).
Proof. solve_decision. Defined.

Definition res_bind {A B} (r : res A) (k : A -> res B) : res B :=
  match r with
  | Ok a => k a
  | Err e => Err e
  end.

Definition is_ok {A} (r : res A) : bool :=
  match r with Ok _ => true | Err _ => false end.

(** [guard b e]: return early with [e] when the condition [b] holds. *)
Definition fail_if (b : bool) (e : gerror) : res unit :=
  if b then Err e else Ok tt.

Declare Scope go_scope.
Delimit Scope go_scope with go.
Notation "'let!' x ':=' r 'in' k" := (res_bind r (fun x => k))
  (at level 10, x name, r at level 100, k at level 200) : go_scope.
Notation "'let!' ' p ':=' r 'in' k" := (res_bind r (fun p => k))
  (at level 10, p strict pattern, r at level 100, k at level 200) : go_scope.
Open Scope go_scope.

(** [res_inv] follows the early returns of a function: it turns a successful
    run into the success of each of its steps, and an [if] guard into the
    boolean equation that let it pass. *)
Ltac res_inv_step :=
  match goal with
  | H : Ok _ = Err _ |- _ => discriminate H
  | H : Err _ = Ok _ |- _ => discriminate H
  | H : Ok _ = Ok _ |- _ => injection H as H
  | H : Err _ = Err _ |- _ => injection H as H
  | H : res_bind ?r _ = _ |- _ =>
      let E := fresh "E" in destruct r eqn:E; cbn [res_bind] in H; try discriminate H
  | H : fail_if ?b _ = Ok _ |- _ =>
      let E := fresh "E" in
      unfold fail_if in H; destruct b eqn:E; [discriminate H | clear H]
  | H : tt = tt |- _ => clear H
  | u : unit |- _ => destruct u
  | H : context [match ?x with _ => _ end] |- _ =>
      let E := fresh "E" in destruct x eqn:E; cbn [res_bind] in H; try discriminate H
  end.
Ltac res_inv := repeat res_inv_step; subst.

(** [bools] turns the boolean guards in the context into propositions. *)
Ltac bools :=
  repeat match goal with
  | H : _ && _ = true |- _ => apply andb_true_iff in H as [? ?]
  | H : _ || _ = false |- _ => apply orb_false_iff in H as [? ?]
  | H : negb _ = true |- _ => apply negb_true_iff in H
  | H : negb _ = false |- _ => apply negb_false_iff in H
  | H : bool_decide _ = true |- _ => apply bool_decide_eq_true in H
  | H : bool_decide _ = false |- _ => apply bool_decide_eq_false in H
  | H : (_ =? _)%Z = true |- _ => apply Z.eqb_eq in H
  | H : (_ =? _)%Z = false |- _ => apply Z.eqb_neq in H
  | H : (_ <? _)%Z = true |- _ => apply Z.ltb_lt in H
  | H : (_ <? _)%Z = false |- _ => apply Z.ltb_ge in H
  | H : (_ <=? _)%Z = true |- _ => apply Z.leb_le in H
  | H : (_ <=? _)%Z = false |- _ => apply Z.leb_gt in H
  | H : (_ =? _)%nat = true |- _ => apply Nat.eqb_eq in H
  | H : (_ =? _)%nat = false |- _ => apply Nat.eqb_neq in H
  | H : (_ <? _)%nat = true |- _ => apply Nat.ltb_lt in H
  | H : (_ <? _)%nat = false |- _ => apply Nat.ltb_ge in H
  | H : (_ =? _)%string = true |- _ => apply String.eqb_eq in H
  | H : (_ =? _)%string = false |- _ => apply String.eqb_neq in H
  end.

(** ** Lists *)

(** The [for _, x := range l { if seen[x] { continue }; seen[x] = true; ... }]
    loop that keeps the first occurrence of every element. *)
Fixpoint dedup_seen {A} `{Countable A} (seen : gset A) (l : list A) : list A :=
  match l with
  | [] => []
  | x :: l =>
      if bool_decide (x ∈ seen) then dedup_seen seen l
      else x :: dedup_seen ({[x]} ∪ seen) l
  end.
Abbreviation dedup_first := (dedup_seen ∅).

(** The first repeated element makes the loop stop with an error. *)
Fixpoint no_repeats {A} `{Countable A} (seen : gset A) (l : list A) : bool :=
  match l with
  | [] => true
  | x :: l => negb (bool_decide (x ∈ seen)) && no_repeats ({[x]} ∪ seen) l
  end.

Section dedup_lemmas.
  Context {A : Type} `{Countable A}.
  Implicit Types (l : list A) (seen : gset A).

Lemma elem_of_dedup_seen l seen x :
    x ∈ dedup_seen seen l ↔ x ∈ l ∧ x ∉ seen.
  Proof.
    revert seen; induction l as [|y l IH]; intros seen; simpl; [set_solver|].
    case_bool_decide.
    - rewrite IH. set_solver.
    - rewrite elem_of_cons, IH. destruct (decide (x = y)); set_solver.
  Qed.

Lemma NoDup_dedup_seen l seen : NoDup (dedup_seen seen l).
  Proof.
    revert seen; induction l as [|y l IH]; intros seen; simpl; [constructor|].
    case_bool_decide; [apply IH|].
    constructor; [|apply IH]. rewrite elem_of_dedup_seen. set_solver.
  Qed.

Lemma dedup_seen_id l seen :
    NoDup l → (∀ x, x ∈ l → x ∉ seen) → dedup_seen seen l = l.
  Proof.
    revert seen; induction l as [|y l IH]; intros seen Hnd Hs; simpl; [done|].
    apply NoDup_cons in Hnd as [Hy Hnd].
    rewrite bool_decide_eq_false_2 by (apply Hs; left).
    f_equal. apply IH; [done|]. intros x Hx. pose proof (Hs x). set_solver.
  Qed.

Lemma no_repeats_iff l seen :
    no_repeats seen l = true ↔ NoDup l ∧ ∀ x, x ∈ l → x ∉ seen.
  Proof.
    revert seen; induction l as [|y l IH]; intros seen; simpl.
    - split; [intros _; split; [constructor | set_solver] | done].
    - rewrite andb_true_iff, negb_true_iff, bool_decide_eq_false, IH, NoDup_cons.
      split.
      + intros (Hy & Hnd & Hs). repeat split; [|done|]; set_solver.
      + intros ((Hy & Hnd) & Hs). repeat split; [|done|]; set_solver.
  Qed.
End dedup_lemmas.

(** The first of a sequence of early returns. *)
Fixpoint first_some {A} (d : A) (l : list (option A)) : A :=
  match l with
  | [] => d
  | Some a :: _ => a
  | None :: l => first_some d l
  end.

(** A stable sort on a "less" comparison, as [sort.SliceStable] gives it (the
    result of a stable sort is unique, so the algorithm does not matter). *)
Fixpoint insert_by {A} (less : A → A → bool) (x : A) (l : list A) : list A :=
  match l with
  | [] => [x]
  | y :: l' => if less y x then y :: insert_by less x l' else x :: l
  end.
Definition stable_sort {A} (less : A → A → bool) (l : list A) : list A :=
  foldr (insert_by less) [] l.

Section sort_lemmas.
  Context {A : Type} (less : A → A → bool).

Lemma insert_by_perm x l : insert_by less x l ≡ₚ x :: l.
  Proof.
    induction l as [|y l IH]; simpl; [done|].
    destruct (less y x); [|done]. rewrite IH. apply Permutation_swap.
  Qed.

Lemma stable_sort_perm l : stable_sort less l ≡ₚ l.
  Proof. induction l as [|x l IH]; simpl; [done|]. by rewrite insert_by_perm, IH. Qed.

  (** Sortedness: nothing that comes later is strictly less than an earlier
      element, when "not less" is transitive. *)
Definition sorted_by : list A → Prop := StronglySorted (λ a b, less b a = false).

  Hypothesis less_trans : ∀ a b c,
    less b a = false → less c b = false → less c a = false.
  Hypothesis less_asym : ∀ a b, less a b = true → less b a = false.

Lemma insert_by_sorted x l : sorted_by l → sorted_by (insert_by less x l).
  Proof.
    induction 1 as [|y l Hs IH Hy]; simpl; [repeat constructor|].
    destruct (less y x) eqn:E.
    - constructor; [done|]. rewrite (insert_by_perm x l). constructor; [|done].
      by apply less_asym.
    - repeat constructor; [done..|].
      eapply Forall_impl; [exact Hy|]. intros z Hz. simpl in Hz. by eapply less_trans.
  Qed.

Lemma stable_sort_sorted l : sorted_by (stable_sort less l).
  Proof. induction l; simpl; [constructor | by apply insert_by_sorted]. Qed.
End sort_lemmas.

Lemma stable_sort_ext {A} (f g : A → A → bool) l :
  (∀ a b, a ∈ l → b ∈ l → f a b = g a b) → stable_sort f l = stable_sort g l.
Proof.
  induction l as [|x l IH]; intros Hfg; simpl; [done|].
  rewrite IH by (intros; apply Hfg; by right).
  assert (∀ m, m ⊆ l → insert_by f x m = insert_by g x m) as Hi.
  { induction m as [|y m IHm]; intros Hm; simpl; [done|].
    rewrite (Hfg y x), IHm by set_solver. done. }
  apply Hi. intros y. by rewrite (stable_sort_perm g l).
Qed.
