(* ===== verification/GoStrings.v ===== *)
(** The parts of Go's [strings], [unicode/utf8] and [fmt] packages the modelled
    code uses, on byte strings (a Go string is a sequence of bytes, and so is a
    Rocq [string]).

    Case mapping works on runes in Go.  The functions here map the ASCII
    letters and the four non-ASCII runes whose image under the mapping is an
    ASCII letter (U+017F, U+0131, U+0130 and U+212A); every other byte is kept.
    The results are exact whenever they are compared with an ASCII string,
    which is what every call site does. *)

From S2P Require Import Prelude.
From stdpp Require Export pretty.
Open Scope string_scope.

(** ** Bytes *)

Definition code (c : ascii) : N := N_of_ascii c.

Definition between (lo hi c : ascii) : bool := ((code lo <=? code c) && (code c <=? code hi))%N.

Definition is_digit (c : ascii) : bool := between "0" "9" c.
Definition is_upper (c : ascii) : bool := between "A" "Z" c.
Definition is_lower (c : ascii) : bool := between "a" "z" c.
Definition is_alnum (c : ascii) : bool := is_upper c || is_lower c || is_digit c.
Definition is_hex (c : ascii) : bool := between "A" "F" c || between "a" "f" c || is_digit c.
Definition is_ascii (c : ascii) : bool := (code c <? 128)%N.

Definition ascii_ltb (a b : ascii) : bool := (code a <? code b)%N.

(** [for _, c := range s { if !f(c) { return false } }; return true]. *)
Fixpoint str_forall (f : ascii → bool) (s : string) : bool :=
  match s with
  | EmptyString => true
  | String c s => f c && str_forall f s
  end.

Fixpoint str_exists (f : ascii → bool) (s : string) : bool :=
  match s with
  | EmptyString => false
  | String c s => f c || str_exists f s
  end.

Definition nonempty (s : string) : bool := negb (String.eqb s "").

(** [s < t] on Go strings: bytewise lexicographic order. *)
Definition str_less (s t : string) : bool :=
  match String.compare s t with Lt => true | _ => false end.

(** ** Case mapping *)

Definition lower_byte (c : ascii) : ascii :=
  if is_upper c then ascii_of_N (code c + 32) else c.
Definition upper_byte (c : ascii) : ascii :=
  if is_lower c then ascii_of_N (code c - 32) else c.

(** [strings.ToLower]: U+212A (bytes E2 84 AA) maps to [k], U+0130 (C4 B0) to [i]. *)
Fixpoint to_lower (s : string) : string :=
  match s with
  | EmptyString => EmptyString
  | String "226" (String "132" (String "170" r)) => String "k" (to_lower r)
  | String "196" (String "176" r) => String "i" (to_lower r)
  | String c r => String (lower_byte c) (to_lower r)
  end.

(** [strings.ToUpper]: U+017F (C5 BF) maps to [S], U+0131 (C4 B1) to [I]. *)
Fixpoint to_upper (s : string) : string :=
  match s with
  | EmptyString => EmptyString
  | String "197" (String "191" r) => String "S" (to_upper r)
  | String "196" (String "177" r) => String "I" (to_upper r)
  | String c r => String (upper_byte c) (to_upper r)
  end.

(** Simple case folding: U+017F folds with [s] and U+212A with [k]. *)
Fixpoint fold_case (s : string) : string :=
  match s with
  | EmptyString => EmptyString
  | String "226" (String "132" (String "170" r)) => String "k" (fold_case r)
  | String "197" (String "191" r) => String "s" (fold_case r)
  | String c r => String (lower_byte c) (fold_case r)
  end.

(** [strings.EqualFold]. *)
Definition equal_fold (s t : string) : bool := fold_case s =? fold_case t.

(** ** White space *)

(** The rest of [s] after one leading white-space rune ([unicode.IsSpace]). *)
Definition space_rest (s : string) : option string :=
  match s with
  | String c r =>
      if (between "009" "013" c || (code c =? 32)%N)%bool then Some r
      else match s with
      | String "194" (String "133" r) | String "194" (String "160" r) => Some r
      | String "225" (String "154" (String "128" r)) => Some r
      | String "226" (String "128" (String c r)) =>
          if between "128" "138" c || between "168" "169" c || (code c =? 175)%N then Some r else None
      | String "226" (String "129" (String "159" r)) => Some r
      | String "227" (String "128" (String "128" r)) => Some r
      | _ => None
      end
  | EmptyString => None
  end.

(** The same test on the reversed string, for the trailing side. *)
Definition space_rest_rev (s : string) : option string :=
  match s with
  | String c r =>
      if (between "009" "013" c || (code c =? 32)%N)%bool then Some r
      else match s with
      | String "133" (String "194" r) | String "160" (String "194" r) => Some r
      | String "128" (String "154" (String "225" r)) => Some r
      | String "159" (String "129" (String "226" r)) => Some r
      | String "128" (String "128" (String "227" r)) => Some r
      | String c (String "128" (String "226" r)) =>
          if between "128" "138" c || between "168" "169" c || (code c =? 175)%N then Some r else None
      | _ => None
      end
  | EmptyString => None
  end.

Fixpoint strip (rest : string → option string) (fuel : nat) (s : string) : string :=
  match fuel with
  | O => s
  | S fuel => match rest s with Some r => strip rest fuel r | None => s end
  end.

Fixpoint str_rev_app (s acc : string) : string :=
  match s with
  | EmptyString => acc
  | String c s => str_rev_app s (String c acc)
  end.
Definition str_rev (s : string) : string := str_rev_app s "".

(** [strings.TrimSpace]; the length of the string is enough fuel, since every
    step removes at least one byte. *)
Definition trim_space (s : string) : string :=
  let s := strip space_rest (String.length s) s in
  str_rev (strip space_rest_rev (String.length s) (str_rev s)).

(** [strings.Fields]. *)
Fixpoint fields_go (fuel : nat) (s word : string) : list string :=
  let flush := if nonempty word then [str_rev word] else [] in
  match fuel with
  | O => []
  | S fuel =>
      match s with
      | EmptyString => flush
      | String c r =>
          match space_rest s with
          | Some r => flush ++ fields_go fuel r ""
          | None => fields_go fuel r (String c word)
          end
      end
  end.
Definition fields (s : string) : list string := fields_go (S (String.length s)) s "".

(** ** Searching and splitting *)

(** [strings.ContainsAny(s, chars)] for an ASCII set of characters. *)
Definition in_chars (chars : string) (c : ascii) : bool := str_exists (Ascii.eqb c) chars.
Definition contains_any (s chars : string) : bool := str_exists (in_chars chars) s.

(** [strings.HasPrefix] and [strings.TrimPrefix]: the rest after the prefix. *)
Fixpoint strip_prefix (p s : string) : option string :=
  match p, s with
  | EmptyString, _ => Some s
  | String a p, String b s => if Ascii.eqb a b then strip_prefix p s else None
  | String _ _, EmptyString => None
  end.
Definition has_prefix (s p : string) : bool :=
  match strip_prefix p s with Some _ => true | None => false end.
Definition trim_prefix (s p : string) : string := default s (strip_prefix p s).
Definition has_suffix (s p : string) : bool := has_prefix (str_rev s) (str_rev p).

(** The first occurrence of [sep]: the parts before and after it
    ([strings.Index] with the two slices around the index, [strings.Cut]). *)
Fixpoint str_cut (sep s : string) : option (string * string) :=
  match strip_prefix sep s with
  | Some after => Some ("", after)
  | None =>
      match s with
      | EmptyString => None
      | String c s => prod_map (String c) id <$> str_cut sep s
      end
  end.

(** [strings.Split] on a one-byte separator. *)
Fixpoint str_split (sep : ascii) (s : string) : list string :=
  match s with
  | EmptyString => [""]
  | String c s =>
      if Ascii.eqb c sep then "" :: str_split sep s
      else match str_split sep s with
           | w :: ws => String c w :: ws
           | [] => [String c ""]
           end
  end.

(** [strings.Join]. *)
Fixpoint str_join (sep : string) (l : list string) : string :=
  match l with
  | [] => ""
  | [s] => s
  | s :: l => s +:+ sep +:+ str_join sep l
  end.

(** [strings.ReplaceAll] of a single byte, and of several bytes by nothing. *)
Fixpoint replace_byte (old : ascii) (new s : string) : string :=
  match s with
  | EmptyString => EmptyString
  | String c s => (if Ascii.eqb c old then new else String c "") +:+ replace_byte old new s
  end.
Fixpoint remove_bytes (chars s : string) : string :=
  match s with
  | EmptyString => EmptyString
  | String c s => if in_chars chars c then remove_bytes chars s else String c (remove_bytes chars s)
  end.

(** [m[key]] on a map literal with string keys. *)
Fixpoint assoc {A} (key : string) (m : list (string * A)) : option A :=
  match m with
  | [] => None
  | (k, v) :: m => if key =? k then Some v else assoc key m
  end.

Fixpoint concat_strings (l : list string) : string :=
  match l with [] => "" | s :: l => s +:+ concat_strings l end.

(** [strings.TrimLeft] and [strings.Trim] of a set of ASCII characters. *)
Fixpoint trim_left (chars s : string) : string :=
  match s with
  | EmptyString => ""
  | String c r => if in_chars chars c then trim_left chars r else s
  end.
Definition trim_chars (s chars : string) : string := str_rev (trim_left chars (str_rev (trim_left chars s))).

(** [strconv.Atoi] on a 64-bit platform: an optional sign and decimal digits, in the
    range of an int64. *)
Fixpoint digits_value (acc : Z) (s : string) : option Z :=
  match s with
  | EmptyString => Some acc
  | String c s => if is_digit c then digits_value (acc * 10 + (Z.of_N (code c) - 48))%Z s else None
  end.
Definition atoi (s : string) : option Z :=
  let '(sign, digits) := match s with
                         | String "-" r => ((-1)%Z, r)
                         | String "+" r => (1%Z, r)
                         | _ => (1%Z, s)
                         end in
  if nonempty digits then
    v ← digits_value 0 digits;
    if (-9223372036854775808 <=? sign * v)%Z && (sign * v <=? 9223372036854775807)%Z then Some (sign * v)%Z else None
  else None.

(** [%d]. *)
Definition dec (z : Z) : string := pretty z.

(** The newline byte, which the code's string literals write as [\n]. *)
Definition nl : string := String "010" "".
(** The double quote. *)
Definition dq : string := String "034" "".
Definition tab : string := String "009" "".
Definition cr : string := String "013" "".
Definition lines (l : list string) : string := concat_strings (map (λ s, s +:+ nl) l).

(** ** UTF-8 *)

(** The number of bytes of the encoding at the head of [s], [None] when the
    first byte starts no valid encoding ([utf8.DecodeRuneInString] reports
    [RuneError] with size one). *)
Definition rune_width (s : string) : option nat :=
  let cont c := between "128" "191" c in
  match s with
  | EmptyString => None
  | String a r =>
      if is_ascii a then Some 1%nat else
      match r with
      | String b r =>
          if between "194" "223" a then (if cont b then Some 2%nat else None) else
          match r with
          | String c r =>
              if between "224" "239" a then
                let lo := if Ascii.eqb a "224" then "160"%char else "128"%char in
                let hi := if Ascii.eqb a "237" then "159"%char else "191"%char in
                if between lo hi b && cont c then Some 3%nat else None
              else
                match r with
                | String d _ =>
                    if between "240" "244" a then
                      let lo := if Ascii.eqb a "240" then "144"%char else "128"%char in
                      let hi := if Ascii.eqb a "244" then "143"%char else "191"%char in
                      if between lo hi b && cont c && cont d then Some 4%nat else None
                    else None
                | EmptyString => None
                end
          | EmptyString => None
          end
      | EmptyString => None
      end
  end.

(** ** Hexadecimal *)

Definition hex_digit (n : N) : ascii :=
  if (n <? 10)%N then ascii_of_N (48 + n) else ascii_of_N (87 + n).
(** [hex.EncodeToString] on a list of byte values. *)
Fixpoint hex_encode (bytes : list N) : string :=
  match bytes with
  | [] => ""
  | b :: bytes => String (hex_digit (b / 16)) (String (hex_digit (b mod 16)) (hex_encode bytes))
  end.

Definition string_bytes (s : string) : list N := map N_of_ascii (list_ascii_of_string s).

(** ** Lemmas *)

Lemma str_cons_app c a b : String c a +:+ b = String c (a +:+ b).
Proof. done. Qed.
Lemma str_nil_app a : "" +:+ a = a.
Proof. done. Qed.
Lemma str_app_nil s : s +:+ "" = s.
Proof. induction s as [|c s IH]; [done|]. exact (f_equal (String c) IH). Qed.
Lemma str_app_assoc a b c : (a +:+ b) +:+ c = a +:+ (b +:+ c).
Proof. induction a as [|x a IH]; [done|]. exact (f_equal (String x) IH). Qed.
Lemma str_app_length a b : String.length (a +:+ b) = (String.length a + String.length b)%nat.
Proof. induction a as [|x a IH]; [done|]. exact (f_equal S IH). Qed.

Lemma str_forall_app f a b : str_forall f (a +:+ b) = str_forall f a && str_forall f b.
Proof. induction a; simpl; [done|]. by rewrite IHa, andb_assoc. Qed.
Lemma str_exists_app f a b : str_exists f (a +:+ b) = str_exists f a || str_exists f b.
Proof. induction a; simpl; [done|]. by rewrite IHa, orb_assoc. Qed.
Lemma str_forall_impl (f g : ascii → bool) s :
  (∀ c, f c = true → g c = true) → str_forall f s = true → str_forall g s = true.
Proof.
  intros Hfg. induction s as [|c s IH]; simpl; [done|].
  rewrite !andb_true_iff. intros [? ?]. auto.
Qed.
Lemma str_exists_forall f s : str_exists f s = negb (str_forall (λ c, negb (f c)) s).
Proof. induction s as [|c s IH]; simpl; [done|]. rewrite IH. by destruct (f c). Qed.

Lemma strip_prefix_Some p s r : strip_prefix p s = Some r ↔ s = p +:+ r.
Proof.
  revert s; induction p as [|a p IH]; intros s; simpl.
  - split; [by intros [= ->] | by intros ->].
  - destruct s as [|b s]; [done|]. destruct (Ascii.eqb_spec a b) as [->|Hne].
    + rewrite IH. split; [by intros -> | by intros [= ->]].
    + split; [done|]. by intros [= ->].
Qed.
Lemma strip_prefix_app p r : strip_prefix p (p +:+ r) = Some r.
Proof. by apply strip_prefix_Some. Qed.

Lemma str_cut_Some sep s a b : str_cut sep s = Some (a, b) → s = a +:+ sep +:+ b.
Proof.
  revert a b; induction s as [|c s IH]; intros a b; simpl;
    destruct (strip_prefix sep _) as [r|] eqn:E; intros ?; simplify_eq.
  - by apply strip_prefix_Some in E.
  - by apply strip_prefix_Some in E.
  - destruct (str_cut sep s) as [[a' b']|] eqn:E2; simplify_eq/=.
    rewrite (IH _ _ eq_refl). done.
Qed.

Lemma str_split_nonempty sep s : str_split sep s ≠ [].
Proof. destruct s as [|c s]; simpl; [done|]. destruct (Ascii.eqb c sep); [done|]. by destruct (str_split sep s). Qed.

Lemma str_join_split sep s : str_join (String sep "") (str_split sep s) = s.
Proof.
  induction s as [|c s IH]; simpl; [done|].
  destruct (Ascii.eqb_spec c sep) as [->|].
  - pose proof (str_split_nonempty sep s). destruct (str_split sep s) as [|w ws]; [done|].
    change (String sep (str_join (String sep "") (w :: ws)) = String sep s). by rewrite IH.
  - pose proof (str_split_nonempty sep s). destruct (str_split sep s) as [|w ws]; [done|].
    destruct ws; simpl in *; by rewrite <- IH.
Qed.

(** *** Cutting at a marker line

    A marker [m] followed by a new line, where [m] has none, cannot straddle
    the end of a text that is empty or ends with a new line. *)
Definition no_nl (s : string) : bool := str_forall (λ c, negb (Ascii.eqb c "010")) s.
Definition line_end (s : string) : Prop := s = "" ∨ ∃ b, s = b +:+ nl.

Lemma line_end_app a b : line_end a → line_end b → line_end (a +:+ b).
Proof.
  intros Ha [->|[b' ->]]; [by rewrite str_app_nil|].
  right. exists (a +:+ b'). by rewrite str_app_assoc.
Qed.
Lemma line_end_nl a : line_end (a +:+ nl).
Proof. right. by exists a. Qed.
Lemma line_end_lines l : line_end (lines l).
Proof.
  induction l as [|s l IH]; [by left|]. unfold lines. cbn. fold (lines l).
  apply line_end_app; [apply line_end_nl | done].
Qed.
Lemma line_end_tail c s : line_end (String c s) → Ascii.eqb c "010" = false → line_end s.
Proof.
  intros [?|[b Hb]] Hc; [done|]. destruct b as [|d b].
  - injection Hb as -> ->. done.
  - injection Hb as -> ->. right. by exists b.
Qed.
Lemma line_end_cons c s : line_end (String c s) → line_end s.
Proof.
  intros [?|[b Hb]]; [done|]. destruct b as [|d b].
  - injection Hb as -> ->. by left.
  - injection Hb as -> ->. right. by exists b.
Qed.

Lemma strip_marker_app m a r x :
  no_nl m = true → line_end a → a ≠ "" →
  strip_prefix (m +:+ nl) (a +:+ r) = Some x → is_Some (strip_prefix (m +:+ nl) a).
Proof.
  revert a. induction m as [|c m IH]; intros a Hm Ha Hne.
  - destruct a as [|d a]; [done|]. rewrite str_nil_app, str_cons_app. unfold nl.
    cbn [strip_prefix]. destruct (Ascii.eqb "010" d); [|done]. by eexists.
  - destruct a as [|d a]; [done|]. cbn in Hm. bools.
    rewrite !str_cons_app. cbn [strip_prefix]. destruct (Ascii.eqb_spec c d) as [<-|]; [|done].
    pose proof (line_end_tail _ _ Ha ltac:(done)) as Ha'. intros Hx.
    destruct a as [|e a]; [|by apply IH].
    destruct Ha as [?|[[|? b] Hb]]; [done|..]; injection Hb as; subst; [done|].
    by destruct b.
Qed.

Lemma str_cut_app_lines m a r :
  no_nl m = true → line_end a → str_cut (m +:+ nl) a = None →
  str_cut (m +:+ nl) (a +:+ r) = prod_map (String.append a) id <$> str_cut (m +:+ nl) r.
Proof.
  intros Hm. induction a as [|c a IH]; intros Ha Hcut.
  - destruct (str_cut _ r) as [[? ?]|] eqn:E; rewrite str_nil_app, E; done.
  - cbn [str_cut] in Hcut. destruct (strip_prefix (m +:+ nl) (String c a)) eqn:E1; [done|].
    rewrite str_cons_app. cbn [str_cut]. rewrite <- str_cons_app.
    destruct (strip_prefix _ (String c a +:+ r)) eqn:E2.
    { apply strip_marker_app in E2; [|done..]. rewrite E1 in E2. by destruct E2. }
    destruct (str_cut (m +:+ nl) a) eqn:E3; [done|].
    rewrite IH by (by eapply line_end_cons || done).
    by destruct (str_cut _ r) as [[? ?]|].
Qed.

Lemma str_cut_here sep r : str_cut sep (sep +:+ r) = Some ("", r).
Proof.
  pose proof (strip_prefix_app sep r) as H. destruct (sep +:+ r); cbn [str_cut]; by rewrite H.
Qed.

Lemma str_cut_marker m a r :
  no_nl m = true → line_end a → str_cut (m +:+ nl) a = None →
  str_cut (m +:+ nl) (a +:+ (m +:+ nl) +:+ r) = Some (a, r).
Proof.
  intros. rewrite str_cut_app_lines by done. rewrite str_cut_here. cbn. by rewrite str_app_nil.
Qed.

Lemma str_cut_nl a r : no_nl a = true → str_cut nl (a +:+ nl +:+ r) = Some (a, r).
Proof.
  induction a as [|c a IH]; intros Ha; [exact (str_cut_here nl r)|].
  rewrite str_cons_app. unfold no_nl in Ha. cbn [str_forall] in Ha. bools.
  cbn [str_cut]. unfold nl at 1. cbn [strip_prefix]. rewrite Ascii.eqb_sym, H.
  rewrite IH by done. done.
Qed.
