(* ===== verification/Sha256.v ===== *)
(** [crypto/sha256.Sum256] and its hexadecimal rendering, which the code uses
    to identify plans, observed device state and stored credentials.  The
    function is the one of FIPS 180-4, executable; the only facts the other
    files use are that it is a function and that its rendering is 64 lower-case
    hexadecimal digits. *)

From S2P Require Import Prelude GoStrings.

Section sha256.
Local Open Scope N_scope.

Definition mask32 : N := 4294967295.
Definition add32 (a b : N) : N := N.land (a + b) mask32.
Definition rotr (n x : N) : N :=
  N.lor (N.shiftr x n) (N.land (N.shiftl x (32 - n)) mask32).

(** The constants are the first 32 bits of the fractional parts of the cube
    and square roots of the first primes, computed once. *)
Definition is_prime_below (n : N) (divisors : list N) : bool :=
  forallb (λ d, negb (n mod d =? 0)) divisors.
Fixpoint primes (count : nat) (fuel : nat) (n : N) (found : list N) : list N :=
  match fuel, count with
  | S fuel, S count' =>
      if is_prime_below n found then primes count' fuel (n + 1) (found ++ [n])
      else primes count fuel (n + 1) found
  | _, _ => found
  end.
(** The integer cube root by bisection on its bits. *)
Fixpoint cbrt_bits (bit : nat) (x root : N) : N :=
  let r := root + N.shiftl 1 (N.of_nat bit) in
  let root := if r * r * r <=? x then r else root in
  match bit with O => root | S bit => cbrt_bits bit x root end.
Definition sha_k : list N :=
  Eval vm_compute in
    map (λ p, N.land (cbrt_bits 40 (N.shiftl p 96) 0) mask32) (primes 64 400 2 []).

Record sha_state := ShaState { sa : N; sb : N; sc : N; sd : N; se : N; sf : N; sg : N; sh : N }.

Definition sqrt_bits (p : N) : N := N.land (N.sqrt (N.shiftl p 64)) mask32.
Definition sha_init : sha_state :=
  Eval vm_compute in
    ShaState (sqrt_bits 2) (sqrt_bits 3) (sqrt_bits 5) (sqrt_bits 7)
             (sqrt_bits 11) (sqrt_bits 13) (sqrt_bits 17) (sqrt_bits 19).

(** The message schedule, newest word first. *)
Fixpoint schedule (n : nat) (w : list N) : list N :=
  match n with
  | O => w
  | S n =>
      let get i := nth i w 0 in
      let s1 := N.lxor (N.lxor (rotr 17 (get 1%nat)) (rotr 19 (get 1%nat))) (N.shiftr (get 1%nat) 10) in
      let s0 := N.lxor (N.lxor (rotr 7 (get 14%nat)) (rotr 18 (get 14%nat))) (N.shiftr (get 14%nat) 3) in
      schedule n (add32 (add32 s1 (get 6%nat)) (add32 s0 (get 15%nat)) :: w)
  end.

Definition sha_round (s : sha_state) (kw : N * N) : sha_state :=
  let '(k, w) := kw in
  let S1 := N.lxor (N.lxor (rotr 6 (se s)) (rotr 11 (se s))) (rotr 25 (se s)) in
  let ch := N.lxor (N.land (se s) (sf s)) (N.land (N.lxor (se s) mask32) (sg s)) in
  let t1 := add32 (add32 (add32 (sh s) S1) (add32 ch k)) w in
  let S0 := N.lxor (N.lxor (rotr 2 (sa s)) (rotr 13 (sa s))) (rotr 22 (sa s)) in
  let maj := N.lxor (N.lxor (N.land (sa s) (sb s)) (N.land (sa s) (sc s))) (N.land (sb s) (sc s)) in
  ShaState (add32 t1 (add32 S0 maj)) (sa s) (sb s) (sc s) (add32 (sd s) t1) (se s) (sf s) (sg s).

Definition sha_block (s : sha_state) (words : list N) : sha_state :=
  let t := fold_left sha_round (zip sha_k (rev (schedule 48 (rev words)))) s in
  ShaState (add32 (sa s) (sa t)) (add32 (sb s) (sb t)) (add32 (sc s) (sc t)) (add32 (sd s) (sd t))
           (add32 (se s) (se t)) (add32 (sf s) (sf t)) (add32 (sg s) (sg t)) (add32 (sh s) (sh t)).

Fixpoint be_words (bytes : list N) : list N :=
  match bytes with
  | a :: b :: c :: d :: r => (a * 16777216 + b * 65536 + c * 256 + d) :: be_words r
  | _ => []
  end.
Definition be_bytes (w : N) : list N :=
  [(w / 16777216) mod 256; (w / 65536) mod 256; (w / 256) mod 256; w mod 256].

Definition sha_pad (bytes : list N) : list N :=
  let len := List.length bytes in
  let zeros := ((119 - len mod 64) mod 64)%nat in
  bytes ++ [128] ++ repeat 0 zeros ++
  be_bytes (N.of_nat len * 8 / 4294967296) ++ be_bytes (N.of_nat len * 8 mod 4294967296).

Fixpoint sha_blocks (fuel : nat) (s : sha_state) (words : list N) : sha_state :=
  match fuel with
  | O => s
  | S fuel =>
      match words with
      | [] => s
      | _ => sha_blocks fuel (sha_block s (take 16 words)) (drop 16 words)
      end
  end.

Definition sha_digest (s : sha_state) : list N :=
  concat (map be_bytes [sa s; sb s; sc s; sd s; se s; sf s; sg s; sh s]).

(** [sha256.Sum256]. *)
Definition sum256 (msg : string) : list N :=
  let words := be_words (sha_pad (string_bytes msg)) in
  sha_digest (sha_blocks (S (List.length words)) sha_init words).
End sha256.

(** [hex.EncodeToString(sha256.Sum256(msg)[:])]. *)
Definition sha256_hex (msg : string) : string := hex_encode (sum256 msg).
(** The first sixteen bytes only, as the derived identifiers use them. *)
Definition sha256_hex16 (msg : string) : string := hex_encode (take 16 (sum256 msg)).

Example sha256_abc :
  sha256_hex "abc" = "ba7816bf8f01cfea414140de5dae2223b00361a396177a9cb410ff61f20015ad".
Proof. vm_compute. reflexivity. Qed.

Lemma sum256_shape msg : List.length (sum256 msg) = 32%nat ∧ Forall (λ b, (b < 256)%N) (sum256 msg).
Proof.
  unfold sum256. generalize (sha_blocks (S (List.length (be_words (sha_pad (string_bytes msg))))) sha_init
    (be_words (sha_pad (string_bytes msg)))); intros s.
  split; [done|]. unfold sha_digest, be_bytes. simpl.
  repeat (constructor; [apply N.mod_lt; done|]). constructor.
Qed.

Lemma hex_digit_hex n : (n < 16)%N → is_hex (hex_digit n) = true.
Proof.
  intros Hn.
  assert (forallb (λ k, is_hex (hex_digit (N.of_nat k))) (seq 0 16) = true) as Hall by done.
  rewrite forallb_forall in Hall. rewrite <- (N2Nat.id n). apply Hall, in_seq. lia.
Qed.

Lemma hex_encode_hex bytes :
  Forall (λ b, (b < 256)%N) bytes → str_forall is_hex (hex_encode bytes) = true.
Proof.
  induction 1 as [|b l Hb _ IH]; simpl; [done|].
  rewrite IH, !hex_digit_hex; [done| |].
  - apply N.mod_lt; done.
  - apply N.Div0.div_lt_upper_bound; lia.
Qed.

Lemma hex_encode_length bytes : String.length (hex_encode bytes) = (2 * List.length bytes)%nat.
Proof. induction bytes as [|b l IH]; simpl; [done|]. rewrite IH. lia. Qed.

Lemma sha256_hex_hex msg : str_forall is_hex (sha256_hex msg) = true.
Proof. apply hex_encode_hex, sum256_shape. Qed.
Lemma sha256_hex_length msg : String.length (sha256_hex msg) = 64%nat.
Proof. unfold sha256_hex. rewrite hex_encode_length. by rewrite (proj1 (sum256_shape msg)). Qed.

Lemma sha256_hex16_hex msg : str_forall is_hex (sha256_hex16 msg) = true.
Proof. apply hex_encode_hex, Forall_take, sum256_shape. Qed.
Lemma sha256_hex16_length msg : String.length (sha256_hex16 msg) = 32%nat.
Proof.
  unfold sha256_hex16. rewrite hex_encode_length, length_take.
  by rewrite (proj1 (sum256_shape msg)).
Qed.

#[global] Opaque sum256.
