(* ===== verification/Json.v ===== *)
(** JSON as the program uses it: documents as trees, Go's [encoding/json]
    decoding of a document into a struct (keys matched without regard to case,
    a later duplicate decoded over the earlier value, [null] a no-op) and
    encoding to text, and PostgreSQL's [jsonb]: its normal form, [->>],
    [jsonb_set], [||], [@>] and equality.

    A [json.RawMessage] that is not well-formed JSON is [None]; object members
    keep the order and the duplicates of the text.  Strings are the decoded
    ones. *)

From S2P Require Import Prelude GoStrings Sha256.

(** ** Documents *)

(** A number literal: its digits as one integer, the number of digits after the
    point, and the exponent if there is one. *)
Record number := Num { mant : Z; frac : nat; expo : option Z }.
Definition int_num (z : Z) : number := Num z 0 None.

#[export] Instance number_eq_dec : EqDecision number.
Proof. solve_decision. Defined.

Inductive json :=
  | JNull
  | JBool (b : bool)
  | JNum (n : number)
  | JStr (s : string)
  | JArr (l : list json)
  | JObj (l : list (string * json)).

Definition raw_message := option json.
Definition JInt (z : Z) : json := JNum (int_num z).

(** Induction with hypotheses for the elements and the member values. *)
Section json_induction.
  Context (P : json → Prop).
  Context (HNull : P JNull) (HBool : ∀ b, P (JBool b)) (HNum : ∀ n, P (JNum n)) (HStr : ∀ s, P (JStr s)).
  Context (HArr : ∀ l, Forall P l → P (JArr l)).
  Context (HObj : ∀ l, Forall (λ kv, P kv.2) l → P (JObj l)).

Fixpoint json_induction (j : json) : P j :=
  match j with
  | JNull => HNull
  | JBool b => HBool b
  | JNum n => HNum n
  | JStr s => HStr s
  | JArr l =>
      HArr l ((fix go l := match l return Forall P l with
                           | [] => Forall_nil_2 P
                           | x :: l => Forall_cons_2 P x l (json_induction x) (go l)
                           end) l)
  | JObj l =>
      HObj l ((fix go l := match l return Forall (λ kv, P kv.2) l with
                           | [] => Forall_nil_2 (λ kv, P kv.2)
                           | x :: l => Forall_cons_2 (λ kv, P kv.2) x l (json_induction (snd x)) (go l)
                           end) l)
  end.
End json_induction.

(** ** Encoding to text *)

(** [utf8.RuneError] in place of every byte that starts no valid rune, as the
    encoder (and then the decoder) leaves a string. *)
Fixpoint coerce_go (copy : nat) (s : string) : string :=
  match s with
  | EmptyString => EmptyString
  | String c r =>
      match copy with
      | S copy => String c (coerce_go copy r)
      | O =>
          match rune_width s with
          | Some n => String c (coerce_go (n - 1) r)
          | None => String "239" (String "191" (String "189" (coerce_go 0 r)))
          end
      end
  end.
Definition utf8_coerce (s : string) : string := coerce_go 0 s.

Definition hex4 (c : ascii) : string := "\u00" +:+ hex_encode [code c].

(** One ASCII byte of a string literal, as [encoding/json] writes it. *)
Definition escape_ascii (html : bool) (c : ascii) : string :=
  if in_chars (String "034" "\") c then String "\" (String c "")
  else if Ascii.eqb c "008" then "\b"
  else if Ascii.eqb c "012" then "\f"
  else if Ascii.eqb c "010" then "\n"
  else if Ascii.eqb c "013" then "\r"
  else if Ascii.eqb c "009" then "\t"
  else if (code c <? 32)%N || (html && in_chars "<>&" c) then hex4 c
  else String c "".

(** [skip] bytes of the rune under way are still to be copied or dropped. *)
Fixpoint escape_go (html drop : bool) (skip : nat) (s : string) : string :=
  match s with
  | EmptyString => EmptyString
  | String c r =>
      match skip with
      | S skip => (if drop then "" else String c "") +:+ escape_go html drop skip r
      | O =>
          match rune_width s with
          | None => "\ufffd" +:+ escape_go html false 0 r
          | Some 1%nat => escape_ascii html c +:+ escape_go html false 0 r
          | Some n =>
              match s with
              | String "226" (String "128" (String "168" _)) => "\u2028" +:+ escape_go html true (n - 1) r
              | String "226" (String "128" (String "169" _)) => "\u2029" +:+ escape_go html true (n - 1) r
              | _ => String c (escape_go html false (n - 1) r)
              end
          end
      end
  end.
Definition json_string (html : bool) (s : string) : string :=
  String "034" (escape_go html false 0 s +:+ String "034" "").

Definition num_literal (n : number) : string :=
  let digits := pretty (Z.abs (mant n)) in
  let pad := concat_strings (replicate (S (frac n) - String.length digits) "0") in
  let all := pad +:+ digits in
  let cut := (String.length all - frac n)%nat in
  (if (frac n =? 0)%nat then dec (mant n)
   else (if (mant n <? 0)%Z then "-" else "") +:+ String.substring 0 cut all +:+ "." +:+
        String.substring cut (frac n) all) +:+
  match expo n with Some e => "e" +:+ dec e | None => "" end.

(** [json.Marshal] ([html = true]) and an encoder with [SetEscapeHTML(false)]. *)
Fixpoint json_text (html : bool) (j : json) : string :=
  match j with
  | JNull => "null"
  | JBool b => if b then "true" else "false"
  | JNum n => num_literal n
  | JStr s => json_string html s
  | JArr l => "[" +:+ str_join "," (map (json_text html) l) +:+ "]"
  | JObj l =>
      "{" +:+ str_join "," (map (λ kv, json_string html kv.1 +:+ ":" +:+ json_text html kv.2) l) +:+ "}"
  end.

(** The document another component reads after [json.Marshal]: strings have
    become valid UTF-8. *)
Fixpoint json_coerce (j : json) : json :=
  match j with
  | JStr s => JStr (utf8_coerce s)
  | JArr l => JArr (map json_coerce l)
  | JObj l => JObj (map (λ kv, (kv.1, json_coerce kv.2)) l)
  | _ => j
  end.

Example json_text_example :
  json_text true (JObj [("a", JArr [JInt (-5); JNull]); ("b", JStr ("<" +:+ nl +:+ String "255" "x"))])
  = replace_byte "'" dq "{'a':[-5,null],'b':'\u003c\n\ufffdx'}".
Proof. vm_compute. reflexivity. Qed.

(** ** Decoding into Go values

    A decoder gets the value the field holds so far, since a duplicated key is
    decoded over the earlier one; [None] is a type error. *)
Definition decoder (A : Type) := json → A → option A.

Definition int64_min : Z := -9223372036854775808.
Definition int64_max : Z := 9223372036854775807.

Definition dec_string : decoder string := λ j old,
  match j with JNull => Some old | JStr s => Some s | _ => None end.
(** A [*int64] field; an integer literal out of range is a type error. *)
Definition dec_int64_ptr : decoder (option Z) := λ j old,
  match j with
  | JNull => Some None
  | JNum (Num z 0 None) =>
      if ((int64_min <=? z) && (z <=? int64_max))%Z then Some (Some z) else None
  | _ => None
  end.

Fixpoint dec_elements {A} (elem : decoder A) (zero : A) (l : list json) (old : list A) : option (list A) :=
  match l with
  | [] => Some []
  | j :: l =>
      match elem j (hd zero old) with
      | None => None
      | Some a => cons a <$> dec_elements elem zero l (tl old)
      end
  end.
(** A slice field; [None] inside is the nil slice. *)
Definition dec_slice {A} (elem : decoder A) (zero : A) : decoder (option (list A)) := λ j old,
  match j with
  | JNull => Some None
  | JArr l => Some <$> dec_elements elem zero l (default [] old)
  | _ => None
  end.

Fixpoint dec_members {A} (fields : list (string * decoder A)) (l : list (string * json)) (old : A) : option A :=
  match l with
  | [] => Some old
  | (key, j) :: l =>
      match List.find (λ f, equal_fold key f.1) fields with
      | Some (_, d) => d j old ≫= dec_members fields l
      | None => dec_members fields l old
      end
  end.
(** A struct with the given fields. *)
Definition dec_struct {A} (fields : list (string * decoder A)) : decoder A := λ j old,
  match j with
  | JNull => Some old
  | JObj l => dec_members fields l old
  | _ => None
  end.

(** [json.Unmarshal(raw, &v)] with a zero [v]. *)
Definition unmarshal {A} (d : decoder A) (zero : A) (raw : raw_message) : option A :=
  j ← raw; d j zero.

(** ** jsonb *)

(** Members ordered as [jsonb] orders keys: shorter ones first, then bytewise;
    of two equal keys the later member wins. *)
Definition key_less (a b : string) : bool :=
  (String.length a <? String.length b)%nat ||
  ((String.length a =? String.length b)%nat && str_less a b).
Fixpoint insert_member (kv : string * json) (l : list (string * json)) : list (string * json) :=
  match l with
  | [] => [kv]
  | kv' :: l' =>
      if kv'.1 =? kv.1 then kv :: l'
      else if key_less kv'.1 kv.1 then kv' :: insert_member kv l' else kv :: l
  end.

(** A [numeric] value: an integer and a scale. *)
Definition num_norm (n : number) : number :=
  let shift := (Z.of_nat (frac n) - default 0 (expo n))%Z in
  if (shift <=? 0)%Z then int_num (mant n * 10 ^ (- shift)) else Num (mant n) (Z.to_nat shift) None.

Fixpoint jsonb_of (j : json) : json :=
  match j with
  | JNum n => JNum (num_norm n)
  | JArr l => JArr (map jsonb_of l)
  | JObj l => JObj (fold_left (λ acc kv, insert_member (kv.1, jsonb_of kv.2) acc) l [])
  | _ => j
  end.

(** Equality of two [jsonb] values: numbers by value. *)
Definition num_eqb (a b : number) : bool :=
  (mant a * 10 ^ Z.of_nat (frac b) =? mant b * 10 ^ Z.of_nat (frac a))%Z.
Fixpoint jsonb_eqb (a b : json) {struct a} : bool :=
  match a, b with
  | JNull, JNull => true
  | JBool a, JBool b => Bool.eqb a b
  | JNum a, JNum b => num_eqb a b
  | JStr a, JStr b => a =? b
  | JArr a, JArr b =>
      (fix go a b := match a, b with
                     | [], [] => true
                     | x :: a, y :: b => jsonb_eqb x y && go a b
                     | _, _ => false
                     end) a b
  | JObj a, JObj b =>
      (fix go a b := match a, b with
                     | [], [] => true
                     | x :: a, y :: b => (x.1 =? y.1) && jsonb_eqb (snd x) (snd y) && go a b
                     | _, _ => false
                     end) a b
  | _, _ => false
  end.

(** [->] on an object, with [None] for SQL NULL. *)
Definition jsonb_field (key : string) (j : json) : option json :=
  match j with JObj l => assoc key l | _ => None end.

Fixpoint jsonb_text (j : json) : string :=
  match j with
  | JNull => "null"
  | JBool b => if b then "true" else "false"
  | JNum n => num_literal n
  | JStr s => json_string false s
  | JArr l => "[" +:+ str_join ", " (map jsonb_text l) +:+ "]"
  | JObj l => "{" +:+ str_join ", " (map (λ kv, json_string false kv.1 +:+ ": " +:+ jsonb_text kv.2) l) +:+ "}"
  end.
(** [->>]. *)
Definition jsonb_field_text (key : string) (j : json) : option string :=
  v ← jsonb_field key j;
  match v with
  | JNull => None
  | JStr s => Some s
  | _ => Some (jsonb_text v)
  end.

(** [jsonb_set(j, '{key}', v, true)] on an object. *)
Definition jsonb_set (key : string) (v : json) (j : json) : json :=
  match j with JObj l => JObj (insert_member (key, v) l) | _ => j end.
(** [||] on two objects. *)
Definition jsonb_merge (a b : json) : json :=
  match a, b with
  | JObj a, JObj b => JObj (fold_left (λ acc kv, insert_member kv acc) b a)
  | _, _ => a
  end.
Definition jsonb_build_object (l : list (string * json)) : json := jsonb_of (JObj l).

(** [@>]: containment. *)
Fixpoint jsonb_contains (a b : json) {struct b} : bool :=
  match b with
  | JObj bl =>
      match a with
      | JObj al =>
          forallb (λ kv, match assoc kv.1 al with Some v => jsonb_contains v kv.2 | None => false end) bl
      | _ => false
      end
  | JArr bl =>
      match a with
      | JArr al => forallb (λ y, existsb (λ x, jsonb_contains x y) al) bl
      | _ => false
      end
  | _ =>
      jsonb_eqb a b
  end.

(** ** Lemmas *)

Lemma dec_inj a b : dec a = dec b → a = b.
Proof. unfold dec. apply (inj pretty). Qed.

Lemma assoc_insert_eq k v l : assoc k (insert_member (k, v) l) = Some v.
Proof.
  induction l as [|[k1 v1] l IH]; cbn [insert_member fst]; [cbn; by rewrite String.eqb_refl|].
  destruct (String.eqb_spec k1 k) as [->|Hne]; [cbn; by rewrite String.eqb_refl|].
  destruct (key_less k1 k); cbn [assoc]; [|by rewrite String.eqb_refl].
  destruct (String.eqb_spec k k1); [congruence | done].
Qed.
Lemma assoc_insert_ne k k' v l : k' ≠ k → assoc k' (insert_member (k, v) l) = assoc k' l.
Proof.
  intros Hne. induction l as [|[k1 v1] l IH]; cbn [insert_member fst].
  { cbn. by destruct (String.eqb_spec k' k). }
  destruct (String.eqb_spec k1 k) as [->|]; [cbn; by destruct (String.eqb_spec k' k)|].
  destruct (key_less k1 k); cbn [assoc]; [by rewrite IH|].
  by destruct (String.eqb_spec k' k).
Qed.

Lemma jsonb_of_int m : jsonb_of (JNum (Num m 0 None)) = JNum (Num m 0 None).
Proof.
  change (JNum (int_num (m * 10 ^ 0)) = JNum (int_num m)). do 2 f_equal. rewrite Z.pow_0_r. lia.
Qed.

(** A member of the [jsonb] form comes from a member of the document. *)
Lemma assoc_jsonb k l acc v :
  assoc k (fold_left (λ acc kv, insert_member (kv.1, jsonb_of kv.2) acc) l acc) = Some v →
  (∃ j, (k, j) ∈ l ∧ v = jsonb_of j) ∨ assoc k acc = Some v.
Proof.
  revert acc. induction l as [|[k1 j1] l IH]; intros acc H; [by right|]. cbn [fold_left fst snd] in H.
  destruct (IH _ H) as [(j & Hin & ->)|Ha]; [left; exists j; split; [by right | done]|].
  destruct (decide (k = k1)) as [->|Hne].
  - rewrite assoc_insert_eq in Ha. injection Ha as <-. left. exists j1. split; [left | done].
  - rewrite assoc_insert_ne in Ha by done. by right.
Qed.

(** The keys of an object are pairwise different, without regard to case. *)
Definition distinct_keys (j : json) : Prop :=
  match j with JObj l => NoDup (map (λ kv, fold_case kv.1) l) | _ => True end.

(** *** Following one integer field through a decoder *)

Section int_field.
  Context {A : Type} (fields : list (string * decoder A)) (get : A → option Z) (name : string).
  Context (d : decoder A).
  Hypothesis Hname : List.find (λ f, equal_fold name f.1) fields = Some (name, d).
  Hypothesis Hd : ∀ j a a', d j a = Some a' → dec_int64_ptr j (get a) = Some (get a').
  Hypothesis Hother : ∀ n d' j a a', (n, d') ∈ fields → fold_case n ≠ fold_case name → d' j a = Some a' → get a' = get a.

Lemma dec_members_other l old new :
    (∀ kv, kv ∈ l → fold_case kv.1 ≠ fold_case name) → dec_members fields l old = Some new → get new = get old.
  Proof.
    revert old. induction l as [|[k j] l IH]; intros old Hl H; cbn [dec_members] in H; [by injection H as ->|].
    destruct (List.find (λ f, equal_fold k f.1) fields) as [[n d']|] eqn:E.
    - destruct (d' j old) as [a|] eqn:Ea; [|done]. cbn in H.
      apply List.find_some in E as [Hin Heq]. unfold equal_fold in Heq. cbn in Heq. apply String.eqb_eq in Heq.
      rewrite (IH a) by (done || (intros; apply Hl; by right)).
      eapply Hother; [by apply list_elem_of_In| |exact Ea]. rewrite <- Heq. apply (Hl (k, j)). left.
    - apply IH; [|done]. intros. apply Hl. by right.
  Qed.

Lemma dec_members_int l old new j :
    NoDup (map (λ kv : string * json, fold_case kv.1) l) → (name, j) ∈ l → dec_members fields l old = Some new →
    dec_int64_ptr j (get old) = Some (get new).
  Proof.
    revert old. induction l as [|[k j1] l IH]; intros old Hnd Hin H; [by apply elem_of_nil in Hin|].
    cbn [map] in Hnd. apply NoDup_cons in Hnd as [Hk Hnd]. cbn [dec_members] in H.
    apply elem_of_cons in Hin as [[= <- <-]|Hin].
    - rewrite Hname in H. destruct (d j old) as [a|] eqn:Ea; [|done]. cbn in H.
      rewrite (Hd _ _ _ Ea). f_equal. symmetry. eapply dec_members_other; [|exact H].
      intros kv Hkv He. apply Hk. cbn. rewrite <- He. apply list_elem_of_fmap. by exists kv.
    - assert (fold_case k ≠ fold_case name) as Hne.
      { intros He. apply Hk. cbn. rewrite He. apply list_elem_of_fmap. by exists (name, j). }
      destruct (List.find (λ f, equal_fold k f.1) fields) as [[n d']|] eqn:E; [|by apply IH].
      destruct (d' j1 old) as [a|] eqn:Ea; [|done]. cbn in H.
      apply List.find_some in E as [Hf Heq]. unfold equal_fold in Heq. cbn in Heq. apply String.eqb_eq in Heq.
      assert (get a = get old) as Ho by (eapply Hother; [by apply list_elem_of_In| |exact Ea]; by rewrite <- Heq).
      rewrite <- Ho. by apply IH.
  Qed.

  (** With distinct keys, the integer decoded is the one [jsonb] shows. *)
Lemma int_field_agree j old new z :
    distinct_keys j → dec_struct fields j old = Some new → get old = None →
    jsonb_field_text name (jsonb_of j) = Some (dec z) → get new = Some z.
  Proof.
    intros Hdist Hdec Hold Htext. unfold jsonb_field_text in Htext.
    destruct (jsonb_field name (jsonb_of j)) as [v|] eqn:Ev; [|done]. cbn in Htext.
    destruct j; try done. cbn in Hdec, Hdist, Ev.
    apply assoc_jsonb in Ev as [(j & Hin & ->)|?]; [|done].
    pose proof (dec_members_int _ _ _ _ Hdist Hin Hdec) as Hi. rewrite Hold in Hi.
    destruct j as [| |[m [|fr] [e|]]| | |]; try done. cbn [dec_int64_ptr] in Hi.
    destruct (_ && _); [|done]. injection Hi as Hi. rewrite <- Hi.
    rewrite jsonb_of_int in Htext. cbv beta iota in Htext. change (Some (dec m +:+ "") = Some (dec z)) in Htext. rewrite str_app_nil in Htext. injection Htext as Htext.
    by apply dec_inj in Htext as ->.
  Qed.
End int_field.
