(* ===== verification/GoNet.v ===== *)
(** [net.ParseIP] and [net.IP.To4] ([net/netip]'s parser), and the two regular
    expressions over host names and MAC addresses the code matches with
    [regexp]. *)

From S2P Require Import Prelude GoStrings.
Local Open Scope N_scope.

Definition digit_val (c : ascii) : N := code c - 48.
Definition hex_val (c : ascii) : option N :=
  if is_digit c then Some (code c - 48)
  else if between "a" "f" c then Some (code c - 87)
  else if between "A" "F" c then Some (code c - 55)
  else None.

Fixpoint dec_val (acc : N) (s : string) : N :=
  match s with
  | EmptyString => acc
  | String c s => dec_val (acc * 10 + digit_val c) s
  end.

(** One field of a dotted quad: decimal digits, no leading zero, at most 255. *)
Definition ipv4_octet (s : string) : option N :=
  match s with
  | EmptyString => None
  | String "0" EmptyString => Some 0
  | String "0" _ => None
  | _ => if str_forall is_digit s && (String.length s <=? 3)%nat && (dec_val 0 s <=? 255)
         then Some (dec_val 0 s) else None
  end.

Definition parse_ipv4 (s : string) : option (list N) :=
  match str_split "." s with
  | [a; b; c; d] =>
      a ← ipv4_octet a; b ← ipv4_octet b; c ← ipv4_octet c; d ← ipv4_octet d;
      Some [a; b; c; d]
  | _ => None
  end.

(** Up to four hexadecimal digits at the head of [s]: how many were read, their
    value and the rest; [None] for a fifth digit. *)
Fixpoint hex_group (s : string) (n : nat) (acc : N) : option (nat * N * string) :=
  match s with
  | String c r =>
      match hex_val c with
      | Some v => if (3 <? n)%nat then None else hex_group r (S n) (acc * 16 + v)
      | None => Some (n, acc, s)
      end
  | EmptyString => Some (n, acc, s)
  end.

(** The loop of [parseIPv6]: [done] bytes so far, the position of the ellipsis,
    the rest of the text.  Every round adds two bytes, so eight rounds of fuel
    fill the address. *)
Fixpoint ipv6_loop (fuel : nat) (s : string) (out : list N) (ellipsis : option nat)
    : option (list N * option nat * string) :=
  match fuel with
  | O => Some (out, ellipsis, s)
  | S fuel =>
      '(off, acc, rest) ← hex_group s 0 0;
      if (off =? 0)%nat then None else
      match rest with
      | String "." _ =>
          let i := List.length out in
          if bool_decide (ellipsis = None) && negb (i =? 12)%nat then None
          else if (16 <? i + 4)%nat then None
          else v4 ← parse_ipv4 s; Some ((out ++ v4)%list, ellipsis, "")
      | EmptyString => Some ((out ++ [acc / 256; acc mod 256])%list, ellipsis, "")
      | String ":" EmptyString => None
      | String ":" (String ":" rest) =>
          if bool_decide (ellipsis = None) then
            let out := (out ++ [acc / 256; acc mod 256])%list in
            if nonempty rest then ipv6_loop fuel rest out (Some (List.length out))
            else Some (out, Some (List.length out), "")
          else None
      | String ":" rest => ipv6_loop fuel rest (out ++ [acc / 256; acc mod 256])%list ellipsis
      | _ => None
      end
  end.

Definition parse_ipv6 (s : string) : option (list N) :=
  if str_exists (Ascii.eqb "%") s then None else
  let parsed :=
    match s with
    | String ":" (String ":" EmptyString) => Some ([], Some 0%nat, "")
    | String ":" (String ":" r) => ipv6_loop 8 r [] (Some 0%nat)
    | _ => ipv6_loop 8 s [] None
    end in
  match parsed with
  | Some (out, ellipsis, rest) =>
      if nonempty rest then None
      else match ellipsis with
      | Some p =>
          if (List.length out <? 16)%nat
          then Some (take p out ++ replicate (16 - List.length out)%nat 0 ++ drop p out)%list
          else None
      | None => if (List.length out <? 16)%nat then None else Some out
      end
  | None => None
  end.

(** [netip.ParseAddr] looks for the first of [.], [:] and [%]. *)
Fixpoint addr_kind (s : string) : option ascii :=
  match s with
  | EmptyString => None
  | String c s => if in_chars ".:%" c then Some c else addr_kind s
  end.

(** [net.ParseIP]: the sixteen bytes of the address, [None] for nil. *)
Definition ParseIP (s : string) : option (list N) :=
  match addr_kind s with
  | Some "."%char => v4 ← parse_ipv4 s; Some (replicate 10 0 ++ [255; 255] ++ v4)%list
  | Some ":"%char => parse_ipv6 s
  | _ => None
  end.

(** [net.IP.To4() != nil]. *)
Definition is_v4 (ip : list N) : bool :=
  bool_decide (List.length ip = 16%nat) && bool_decide (take 12 ip = (replicate 10 0 ++ [255; 255])%list).

Example parse_ip_examples :
  ParseIP "1.1.1.1" = Some [0;0;0;0;0;0;0;0;0;0;255;255;1;1;1;1] ∧
  ParseIP "2001:db8::1" = Some [32;1;13;184;0;0;0;0;0;0;0;0;0;0;0;1] ∧
  ParseIP "::ffff:10.0.0.1" = Some [0;0;0;0;0;0;0;0;0;0;255;255;10;0;0;1] ∧
  ParseIP "1::2::3" = None ∧ ParseIP "10.0.0.01" = None ∧ ParseIP "fe80::1%eth0" = None ∧
  ParseIP "1:2:3:4:5:6:7:8" = Some [0;1;0;2;0;3;0;4;0;5;0;6;0;7;0;8] ∧
  ParseIP "1:2:3:4:5:6:7:8:9" = None ∧ ParseIP "::" = Some (replicate 16 0) ∧
  ParseIP "router.lan" = None.
Proof. vm_compute. repeat split. Qed.

(** [^[A-Za-z0-9.-]{1,253}$] *)
Definition host_char (c : ascii) : bool := is_alnum c || in_chars ".-" c.
Definition host_pattern (s : string) : bool :=
  nonempty s && (String.length s <=? 253)%nat && str_forall host_char s.

(** [(?i)(?:[0-9a-f]{2}:){5}[0-9a-f]{2}] at the head of [s]: the matched text
    and the rest.  (Case folding adds no letter to [a-f].) *)
Definition take2 (s : string) : option (string * string) :=
  match s with
  | String a (String b r) => if is_hex a && is_hex b then Some (String a (String b ""), r) else None
  | _ => None
  end.
Fixpoint mac_at_go (groups : nat) (s : string) : option (string * string) :=
  '(two, r) ← take2 s;
  match groups with
  | O => Some (two, r)
  | S groups =>
      match r with
      | String ":" r => '(m, r) ← mac_at_go groups r; Some (two +:+ ":" +:+ m, r)
      | _ => None
      end
  end.
Definition mac_at (s : string) : option (string * string) := mac_at_go 5 s.

(** [FindAllString] and [ReplaceAllString(_, "")] of that expression: the
    leftmost non-overlapping matches, and the text between them.  Every round
    consumes a byte, so the length of the text is enough fuel. *)
Fixpoint mac_scan (fuel : nat) (s : string) : list string * string :=
  match fuel with
  | O => ([], s)
  | S fuel =>
      match mac_at s with
      | Some (m, r) => let '(ms, rem) := mac_scan fuel r in (m :: ms, rem)
      | None =>
          match s with
          | EmptyString => ([], "")
          | String c r => let '(ms, rem) := mac_scan fuel r in (ms, String c rem)
          end
      end
  end.
Definition mac_matches (s : string) : list string * string := mac_scan (String.length s) s.
