(* ===== verification/Uci.v ===== *)
(** [internal/services/uci_bridge.go] and [uci_restart_map.go]: the typed UCI
    commands, their rendering to shell text, the batch scripts built from them
    and the validators of health targets, MAC lists and raw commands. *)

From S2P Require Import Prelude GoStrings GoNet.

(** ** Data *)

(** [UciCommand] *)
Record UciCommand := Cmd {
  Action : string;
  Config : string;
  Sect : string;
  Opt : string;
  Value : string
}.

#[export] Instance UciCommand_eq_dec : EqDecision UciCommand.
Proof. solve_decision. Defined.

(** [ServiceRestartMap] *)
Definition ServiceRestartMap : list (string * string) := [
  ("network", "/etc/init.d/network restart");
  ("wireless", "wifi");
  ("dhcp", "/etc/init.d/dnsmasq restart");
  ("firewall", "/etc/init.d/firewall restart");
  ("system", "/etc/init.d/system restart");
  ("dropbear", "/etc/init.d/dropbear restart");
  ("uhttpd", "/etc/init.d/uhttpd restart");
  ("openvpn", "/etc/init.d/openvpn restart");
  ("hostblock", "/etc/init.d/hostblock restart")
].

(** ** Validators *)

(** [ValidateHealthTargets] *)
Definition health_target_ok (target : string) : bool :=
  nonempty target && (bool_decide (is_Some (ParseIP target)) || host_pattern target).
Fixpoint ValidateHealthTargets_go (seen : gset string) (targets : list string) : res (list string) :=
  match targets with
  | [] => Ok []
  | target :: targets =>
      let! _ := fail_if (negb (health_target_ok target)) (ErrText "invalid health check target") in
      if bool_decide (target ∈ seen) then ValidateHealthTargets_go seen targets
      else let! valid := ValidateHealthTargets_go ({[target]} ∪ seen) targets in Ok (target :: valid)
  end.
Definition ValidateHealthTargets (targets : list string) : res (list string) :=
  ValidateHealthTargets_go ∅ targets.

(** [ParseMACList] *)
Definition ParseMACList (raw : string) : res (list string) :=
  let '(macs, remainder) := mac_matches raw in
  let! _ := fail_if (bool_decide (macs = [])) (ErrText "invalid MAC address list") in
  let remainder := remove_bytes ("' " +:+ dq +:+ tab +:+ cr +:+ nl) remainder in
  let! _ := fail_if (nonempty remainder) (ErrText "invalid MAC address list") in
  Ok (dedup_first (map to_upper macs)).

(** [uciNamePattern] and [uciSectionPattern] *)
Definition name_char (c : ascii) : bool := is_alnum c || in_chars "_-" c.
Definition validUCIName (value : string) : bool := nonempty value && str_forall name_char value.

(** The optional index of an anonymous section: [(?:\[-?[0-9]+\])?] to the end. *)
Fixpoint index_digits (s : string) (some : bool) : bool :=
  match s with
  | String "]" EmptyString => some
  | String c s => is_digit c && index_digits s true
  | EmptyString => false
  end.
Definition section_index (s : string) : bool :=
  match s with
  | EmptyString => true
  | String "[" (String "-" r) => index_digits r false
  | String "[" r => index_digits r false
  | _ => false
  end.
Fixpoint anon_section (s : string) (some : bool) : bool :=
  match s with
  | String c r => if name_char c then anon_section r true else some && section_index s
  | EmptyString => some
  end.
Definition validUCISection (value : string) : bool :=
  match value with
  | String "@" r => anon_section r false
  | _ => validUCIName value
  end.

(** [validUCIPath] *)
Definition validUCIPath (path config : string) (minParts maxParts : nat) : bool :=
  match str_split "." path with
  | [] => false
  | first :: rest =>
      negb ((S (List.length rest) <? minParts)%nat || (maxParts <? S (List.length rest))%nat ||
            negb (first =? config)) &&
      forallb validUCISection rest
  end.

(** [validUCIValueToken] *)
Fixpoint str_init_last (s : string) : option (string * ascii) :=
  match s with
  | EmptyString => None
  | String c EmptyString => Some ("", c)
  | String c s => '(i, l) ← str_init_last s; Some (String c i, l)
  end.
Definition validUCIValueToken (value : string) : bool :=
  match value with
  | String "'" r =>
      match str_init_last r with
      | Some (body, "'"%char) => negb (contains_any body ("'" +:+ cr +:+ nl))
      | _ => validUCIName value
      end
  | _ => validUCIName value
  end.

(** [ValidRawUCICommand] *)
Definition raw_value_command (command config prefix : string) : option bool :=
  body ← strip_prefix prefix command;
  Some match str_cut "=" body with
       | Some (path, value) => validUCIPath path config 2 3 && validUCIValueToken value
       | None => false
       end.
Definition raw_delete_command (command config prefix : string) : option bool :=
  path ← strip_prefix prefix command; Some (validUCIPath path config 2 3).
Definition raw_add_command (command config : string) : option bool :=
  body ← strip_prefix "uci add " command;
  Some match fields body with
       | [c; name] => (c =? config) && validUCIName name
       | _ => false
       end.
Definition ValidRawUCICommand (command config : string) : bool :=
  if negb (validUCIName config) || negb (trim_space command =? command) ||
     contains_any command (cr +:+ nl +:+ ";|&$`()<>\") then false
  else
    first_some false [
      raw_value_command command config "uci set ";
      raw_value_command command config "uci add_list ";
      raw_value_command command config "uci del_list ";
      raw_delete_command command config "uci delete ";
      raw_delete_command command config "uci -q delete ";
      raw_add_command command config].

(** ** Rendering *)

(** [escapeVal] and [shellQuote] *)
Definition escapeVal (s : string) : string := replace_byte "'" "'\''" s.
Definition shellQuote (s : string) : string := "'" +:+ escapeVal s +:+ "'".

(** [SetOption], [AddList], [DelList], [Delete], [DeleteOption],
    [AddAnonymousSection], [Rename] and [Reorder]; the empty text means that
    the command is invalid. *)
Definition SetOption (config section option value : string) : string :=
  if negb (validUCIName config) || negb (validUCISection section) ||
     (nonempty option && negb (validUCIName option)) then ""
  else if option =? "" then
    "uci set " +:+ config +:+ "." +:+ section +:+ "='" +:+ escapeVal value +:+ "'"
  else "uci set " +:+ config +:+ "." +:+ section +:+ "." +:+ option +:+ "='" +:+ escapeVal value +:+ "'".

Definition AddList (config section option value : string) : string :=
  if negb (validUCIName config) || negb (validUCISection section) || negb (validUCIName option) then ""
  else "uci add_list " +:+ config +:+ "." +:+ section +:+ "." +:+ option +:+ "='" +:+ escapeVal value +:+ "'".

Definition DelList (config section option value : string) : string :=
  if negb (validUCIName config) || negb (validUCISection section) || negb (validUCIName option) then ""
  else "uci del_list " +:+ config +:+ "." +:+ section +:+ "." +:+ option +:+ "='" +:+ escapeVal value +:+ "'".

Definition Delete (config section : string) : string :=
  if negb (validUCIName config) || negb (validUCISection section) then ""
  else "uci -q delete " +:+ config +:+ "." +:+ section +:+ " || true".

Definition DeleteOption (config section option : string) : string :=
  if negb (validUCIName config) || negb (validUCISection section) || negb (validUCIName option) then ""
  else "uci -q delete " +:+ config +:+ "." +:+ section +:+ "." +:+ option +:+ " || true".

Definition AddAnonymousSection (config sectionType : string) : string :=
  if negb (validUCIName config) || negb (validUCIName sectionType) then ""
  else "uci add " +:+ config +:+ " " +:+ sectionType.

Definition Rename (config section option newName : string) : string :=
  if negb (validUCIName config) || negb (validUCISection section) ||
     (nonempty option && negb (validUCIName option)) || negb (validUCIName newName) then ""
  else if option =? "" then
    "uci rename " +:+ config +:+ "." +:+ section +:+ "='" +:+ escapeVal newName +:+ "'"
  else "uci rename " +:+ config +:+ "." +:+ section +:+ "." +:+ option +:+ "='" +:+ escapeVal newName +:+ "'".

Definition Reorder (config section : string) (position : Z) : string :=
  if negb (validUCIName config) || negb (validUCISection section) then ""
  else "uci reorder " +:+ config +:+ "." +:+ section +:+ "=" +:+ dec position.

(** The part of [ensureDHCPHost]'s script that does not depend on the lease. *)
Definition ensure_host_script : string :=
  str_join nl [
    "host_ref=";
    "for host_mac in $host_macs; do";
    "  host_ref=$(uci show dhcp | grep -i -F " +:+ dq +:+ "$host_mac" +:+ dq +:+ " | grep -F " +:+ dq +:+ ".mac=" +:+ dq +:+ " | cut -d= -f1 | cut -d. -f2 | head -n 1)";
    "  if [ -n " +:+ dq +:+ "$host_ref" +:+ dq +:+ " ]; then";
    "    break";
    "  fi";
    "done";
    "if [ -z " +:+ dq +:+ "$host_ref" +:+ dq +:+ " ]; then";
    "  host_ref=$(";
    "    uci show dhcp | grep -F " +:+ dq +:+ ".ip=" +:+ dq +:+ " | while IFS= read -r host_line; do";
    "      host_path=${host_line%=*}";
    "      host_value=${host_line#*=}";
    "      host_value=$(printf '%s' " +:+ dq +:+ "$host_value" +:+ dq +:+ " | sed " +:+ dq +:+ "s/^'//; s/'$//" +:+ dq +:+ ")";
    "      if [ " +:+ dq +:+ "$host_value" +:+ dq +:+ " = " +:+ dq +:+ "$host_ip" +:+ dq +:+ " ]; then";
    "        host_path=${host_path#dhcp.}";
    "        host_path=${host_path%.ip}";
    "        printf '%s\n' " +:+ dq +:+ "$host_path" +:+ dq;
    "        break";
    "      fi";
    "    done";
    "  )";
    "fi";
    "if [ -z " +:+ dq +:+ "$host_ref" +:+ dq +:+ " ]; then";
    "  uci add dhcp host";
    "  host_ref=@host[-1]";
    "fi";
    "uci set " +:+ dq +:+ "dhcp.$host_ref.name=$host_name" +:+ dq;
    "uci -q delete " +:+ dq +:+ "dhcp.$host_ref.mac" +:+ dq +:+ " || true";
    "if [ " +:+ dq +:+ "$host_mac_count" +:+ dq +:+ " -eq 1 ]; then";
    "  uci set " +:+ dq +:+ "dhcp.$host_ref.mac=$host_macs" +:+ dq;
    "else";
    "  for host_mac in $host_macs; do";
    "    uci add_list " +:+ dq +:+ "dhcp.$host_ref.mac=$host_mac" +:+ dq;
    "  done";
    "fi";
    "uci set " +:+ dq +:+ "dhcp.$host_ref.ip=$host_ip" +:+ dq
  ].

(** [ensureDHCPHost] *)
Definition ensure_host_text (ip name : string) (macs : list string) : string :=
  "host_ip=" +:+ shellQuote ip +:+ nl +:+
  "host_name=" +:+ shellQuote name +:+ nl +:+
  "host_macs=" +:+ shellQuote (str_join " " macs) +:+ nl +:+
  "host_mac_count=" +:+ dec (Z.of_nat (List.length macs)) +:+ nl +:+ ensure_host_script.
Definition ensureDHCPHost (cmd : UciCommand) : string :=
  match ParseIP (Value cmd) with
  | Some ip =>
      if negb (Config cmd =? "dhcp") || (Sect cmd =? "") || (128 <? String.length (Sect cmd))%nat ||
         contains_any (Sect cmd) (cr +:+ nl) || (Opt cmd =? "") || negb (is_v4 ip) then ""
      else match ParseMACList (Opt cmd) with
           | Err _ => ""
           | Ok macs => ensure_host_text (Value cmd) (Sect cmd) macs
           end
  | None => ""
  end.

(** [translateCommand] *)
Definition delete_all_text (cmd : UciCommand) : string :=
  if negb (validUCIName (Config cmd)) || negb (validUCIName (Sect cmd)) || nonempty (Opt cmd) || nonempty (Value cmd)
  then "" else "while uci -q delete " +:+ Config cmd +:+ ".@" +:+ Sect cmd +:+ "[0]; do :; done".
Definition translateCommand (cmd : UciCommand) : string :=
  let act a := Action cmd =? a in
  if act "set" then SetOption (Config cmd) (Sect cmd) (Opt cmd) (Value cmd)
  else if act "delete" then
    if nonempty (Opt cmd) then DeleteOption (Config cmd) (Sect cmd) (Opt cmd)
    else Delete (Config cmd) (Sect cmd)
  else if act "add_list" then AddList (Config cmd) (Sect cmd) (Opt cmd) (Value cmd)
  else if act "del_list" then DelList (Config cmd) (Sect cmd) (Opt cmd) (Value cmd)
  else if act "add" then AddAnonymousSection (Config cmd) (Value cmd)
  else if act "ensure_host" then ensureDHCPHost cmd
  else if act "delete_all" then delete_all_text cmd
  else if act "rename" then Rename (Config cmd) (Sect cmd) (Opt cmd) (Value cmd)
  else "".

(** [PreviewCommands] *)
Definition PreviewCommands (commands : list UciCommand) : list string :=
  filter (λ line, nonempty line = true) (map translateCommand commands).

(** ** Batch scripts *)

(** The loop that [BuildBatchScript] and [BuildDryRunScript] share: one line per
    command, [None] when a command names another config or is invalid. *)
Fixpoint render_commands (config : string) (commands : list UciCommand) : option string :=
  match commands with
  | [] => Some ""
  | cmd :: commands =>
      if negb (Config cmd =? config) then None
      else if translateCommand cmd =? "" then None
      else rest ← render_commands config commands; Some (translateCommand cmd +:+ nl +:+ rest)
  end.

(** [restartCmd] of [BuildBatchScript] *)
Definition restart_command (config : string) : string :=
  match assoc config ServiceRestartMap with
  | Some svc => svc +:+ " && logger -t central_luci '" +:+ config +:+ " service restarted'"
  | None => ""
  end.

Definition lock_marker : string := "set -e" +:+ nl.
Definition mutation_marker : string := "# Phase 2: Apply UCI mutations" +:+ nl.
Definition restart_marker : string := "# Phase 5: Service restart" +:+ nl.

(** The script text of [BuildBatchScript]: the part up to the mutations, the
    part from the commit to the restart command, and the clean-up. *)
Definition batch_head (config restartCmd : string) : string := lines [
  "";
  "# ──────────────────────────────────────────────────────────────";
  "# CENTRAL_LUCI — Atomic UCI batch push (Nerve Center)";
  "# Config namespace: " +:+ config;
  "# ──────────────────────────────────────────────────────────────";
  "";
  "logger -t central_luci " +:+ dq +:+ "CENTRAL_LUCI: starting batch push for '" +:+ config +:+ "'" +:+ dq;
  "";
  "# Phase 1: Snapshot current state for rollback";
  "backup_exists=0";
  "if [ -f /etc/config/" +:+ config +:+ " ]; then";
  "  cp /etc/config/" +:+ config +:+ " /tmp/central_luci_bak_" +:+ config +:+ ".conf";
  "  backup_exists=1";
  "else";
  "  : > /tmp/central_luci_bak_" +:+ config +:+ ".conf";
  "fi";
  "";
  tab +:+ "rollback() {";
  "  logger -t central_luci " +:+ dq +:+ "CENTRAL_LUCI: ROLLBACK — restoring '" +:+ config +:+ "' from snapshot" +:+ dq;
  "  uci revert " +:+ config +:+ " 2>/dev/null || true";
  "  if [ " +:+ dq +:+ "$backup_exists" +:+ dq +:+ " -eq 1 ]; then";
  "    cp /tmp/central_luci_bak_" +:+ config +:+ ".conf /etc/config/" +:+ config;
  "  else";
  "    rm -f /etc/config/" +:+ config;
  "  fi";
  "  uci revert " +:+ config +:+ " 2>/dev/null || true";
  "  " +:+ restartCmd +:+ " || true";
  "  rm -f /tmp/central_luci_bak_" +:+ config +:+ ".conf";
  "  exit 1";
  "}";
  "";
  "trap 'status=$?; echo " +:+ dq +:+ "CENTRAL_LUCI: command failed at line $LINENO with status $status" +:+ dq +:+ " >&2; rollback' ERR";
  ""
].
Definition batch_commit (config : string) : string := lines [
  "";
  "# Phase 3: Commit to flash";
  "uci commit " +:+ config;
  "";
  "# Phase 4: Syntax validation";
  "uci show " +:+ config +:+ " > /dev/null 2>&1 || {";
  "  logger -t central_luci " +:+ dq +:+ "CENTRAL_LUCI: VALIDATION FAILED for '" +:+ config +:+ "'" +:+ dq;
  "  rollback";
  "}";
  ""
].
Definition batch_tail (config : string) : string := lines [
  "";
  "logger -t central_luci " +:+ dq +:+ "CENTRAL_LUCI: batch push complete for '" +:+ config +:+ "'" +:+ dq;
  "rm -f /tmp/central_luci_bak_" +:+ config +:+ ".conf";
  "exit 0"
].
Definition batch_text (config body : string) : string :=
  "#!/bin/sh" +:+ nl +:+ lock_marker +:+ batch_head config (restart_command config) +:+ mutation_marker +:+
  body +:+ batch_commit config +:+ restart_marker +:+ restart_command config +:+ nl +:+ batch_tail config.

(** [withUciMutationLock] *)
Definition uci_lock : string := nl +:+ lines [
  "uci_lock_dir=/tmp/central_luci_uci.lock";
  "uci_lock_acquired=0";
  "release_uci_lock() {";
  "  if [ " +:+ dq +:+ "$uci_lock_acquired" +:+ dq +:+ " -eq 1 ]; then";
  "    rmdir " +:+ dq +:+ "$uci_lock_dir" +:+ dq +:+ " 2>/dev/null || true";
  "    uci_lock_acquired=0";
  "  fi";
  "}";
  "trap release_uci_lock EXIT";
  "";
  "uci_lock_attempt=0";
  "while ! mkdir " +:+ dq +:+ "$uci_lock_dir" +:+ dq +:+ " 2>/dev/null; do";
  "  uci_lock_mtime=$(stat -c %Y " +:+ dq +:+ "$uci_lock_dir" +:+ dq +:+ " 2>/dev/null || printf '0')";
  "  uci_lock_now=$(date +%s)";
  "  if [ " +:+ dq +:+ "$uci_lock_mtime" +:+ dq +:+ " -gt 0 ] && [ " +:+ dq +:+ "$uci_lock_now" +:+ dq +:+ " -gt " +:+ dq +:+ "$uci_lock_mtime" +:+ dq +:+ " ] && [ " +:+ dq +:+ "$((uci_lock_now - uci_lock_mtime))" +:+ dq +:+ " -ge 1800 ]; then";
  "    rmdir " +:+ dq +:+ "$uci_lock_dir" +:+ dq +:+ " 2>/dev/null || true";
  "    continue";
  "  fi";
  "  uci_lock_attempt=$((uci_lock_attempt + 1))";
  "  if [ " +:+ dq +:+ "$uci_lock_attempt" +:+ dq +:+ " -ge 60 ]; then";
  "    printf 'CENTRAL_LUCI: timed out waiting for UCI lock\n' >&2";
  "    exit 1";
  "  fi";
  "  sleep 1";
  "done";
  "uci_lock_acquired=1"
].
Definition withUciMutationLock (script : string) : string :=
  match str_cut lock_marker script with
  | None => script
  | Some (before, after) => before +:+ lock_marker +:+ uci_lock +:+ after
  end.

(** [BuildBatchScript] *)
Definition BuildBatchScript (config : string) (commands : list UciCommand) : string :=
  if negb (validUCIName config) then ""
  else match render_commands config commands with
       | None => ""
       | Some body => withUciMutationLock (batch_text config body)
       end.

(** [BuildSafeBatchScript] *)
Definition health_check_text (target : string) : string := lines [
  "health_target=" +:+ shellQuote target;
  "health_ok=0";
  "for health_attempt in 1 2 3; do";
  "  if ping -c 1 -W 2 " +:+ shellQuote target +:+ " >/dev/null 2>&1; then";
  "    health_ok=1";
  "    break";
  "  fi";
  "  sleep 1";
  "done";
  "if [ " +:+ dq +:+ "$health_ok" +:+ dq +:+ " -ne 1 ]; then";
  "  printf 'CENTRAL_LUCI: health check failed for target %s\n' " +:+ dq +:+ "$health_target" +:+ dq +:+ " >&2";
  "  rollback";
  "fi"
].
Definition health_checks_text (targets : list string) : string :=
  nl +:+ concat_strings (map health_check_text targets) +:+ nl.
Definition BuildSafeBatchScript (config : string) (commands : list UciCommand) (healthTargets : list string) : string :=
  let script := BuildBatchScript config commands in
  if script =? "" then ""
  else
    let healthTargets := match healthTargets with [] => ["1.1.1.1"] | _ => healthTargets end in
    match str_cut restart_marker script with
    | None => script
    | Some (before, after) =>
        match str_cut nl after with
        | None => script
        | Some (restart, after) =>
            before +:+ restart_marker +:+ restart +:+ nl +:+ health_checks_text healthTargets +:+ after
        end
    end.

(** [BuildDryRunScript] *)
Definition BuildDryRunScript (config : string) (commands : list UciCommand) : string :=
  if bool_decide (commands = []) || negb (validUCIName config) then ""
  else default "" (render_commands config commands).

