(* ===== verification/UciShell.v ===== *)
(** The shell safety of the texts [Uci] renders: an independent reading of
    POSIX shell words, against which every rendered command means exactly the
    intended [uci] invocation, the layout of the batch scripts, and what the
    validators accept. *)

From S2P Require Import Prelude GoStrings GoNet Uci.

(** ** How a POSIX shell reads the rendered text

    [sh_lex] splits a command line into words and the operators [||] and [;],
    following the shell's token recognition for literal characters, single
    quotes and backslash escapes.  Any other special character outside quotes
    (expansions, redirections, pipes, background, comments, new lines) makes it
    fail: such a text is not a plain command line.  A bracket expression that
    matches no file name is kept as it is. *)
Inductive token := TWord (s : string) | TOr | TSemi.
Inductive lex_mode := Out | InWord (w : string) | InQuote (w : string).

Definition plain (c : ascii) : bool := is_alnum c || in_chars "_-.=@[]:/" c.
Definition mode_word (m : lex_mode) : string :=
  match m with Out => "" | InWord w | InQuote w => w end.
Definition snoc (w : string) (c : ascii) : string := w +:+ String c "".
Definition end_word (m : lex_mode) (k : option (list token)) : option (list token) :=
  match m with InWord w => (TWord w ::.) <$> k | _ => k end.

Fixpoint sh_lex (m : lex_mode) (s : string) {struct s} : option (list token) :=
  match s with
  | EmptyString => match m with Out => Some [] | InWord w => Some [TWord w] | InQuote _ => None end
  | String c r =>
      match m with
      | InQuote w =>
          if Ascii.eqb c "'" then sh_lex (InWord w) r else sh_lex (InQuote (snoc w c)) r
      | _ =>
          if Ascii.eqb c " " then end_word m (sh_lex Out r)
          else if Ascii.eqb c "'" then sh_lex (InQuote (mode_word m)) r
          else if Ascii.eqb c "\" then
            match r with
            | String d r => if Ascii.eqb d "010" then None else sh_lex (InWord (snoc (mode_word m) d)) r
            | EmptyString => None
            end
          else if Ascii.eqb c "|" then
            match r with
            | String "|" r => end_word m ((TOr ::.) <$> sh_lex Out r)
            | _ => None
            end
          else if Ascii.eqb c ";" then end_word m ((TSemi ::.) <$> sh_lex Out r)
          else if plain c then sh_lex (InWord (snoc (mode_word m) c)) r
          else None
      end
  end.
Definition sh_tokens (s : string) : option (list token) := sh_lex Out s.

Definition uci_ref (cmd : UciCommand) : string :=
  Config cmd +:+ "." +:+ Sect cmd +:+ (if Opt cmd =? "" then "" else "." +:+ Opt cmd).

(** The intended meaning of a command: the words of the [uci] invocation. *)
Definition uci_tokens (cmd : UciCommand) : list token :=
  let act a := Action cmd =? a in
  let words := map TWord in
  if act "delete" then words ["uci"; "-q"; "delete"; uci_ref cmd] ++ [TOr; TWord "true"]
  else if act "add" then words ["uci"; "add"; Config cmd; Value cmd]
  else if act "delete_all" then
    words ["while"; "uci"; "-q"; "delete"; Config cmd +:+ ".@" +:+ Sect cmd +:+ "[0]"] ++
    [TSemi] ++ words ["do"; ":"] ++ [TSemi; TWord "done"]
  else words ["uci"; Action cmd; uci_ref cmd +:+ "=" +:+ Value cmd].

Lemma snoc_app w c r : snoc w c +:+ r = w +:+ String c r.
Proof. unfold snoc. by rewrite str_app_assoc. Qed.

Lemma name_char_plain c : name_char c = true → plain c = true.
Proof.
  unfold name_char, plain. rewrite !orb_true_iff. intros [?|Hc]; [by left|right].
  revert Hc. unfold in_chars. cbn [str_exists]. rewrite !orb_true_iff. tauto.
Qed.

Lemma plain_special c :
  plain c = true →
  Ascii.eqb c " " = false ∧ Ascii.eqb c "'" = false ∧ Ascii.eqb c "\" = false ∧
  Ascii.eqb c "|" = false ∧ Ascii.eqb c ";" = false.
Proof. intros Hc. destruct c as [[] [] [] [] [] [] [] []]; vm_compute in Hc |- *; repeat split; done. Qed.

Lemma sh_lex_plain_char m c r :
  plain c = true → (∀ w, m ≠ InQuote w) →
  sh_lex m (String c r) = sh_lex (InWord (snoc (mode_word m) c)) r.
Proof.
  intros Hc Hm. destruct (plain_special c Hc) as (E1 & E2 & E3 & E4 & E5).
  cbn [sh_lex]. destruct m as [|w|w]; [| |by destruct (Hm w)]; by rewrite E1, E2, E3, E4, E5, Hc.
Qed.

Lemma sh_lex_plain w a r :
  str_forall plain a = true → sh_lex (InWord w) (a +:+ r) = sh_lex (InWord (w +:+ a)) r.
Proof.
  revert w. induction a as [|c a IH]; intros w Ha; [by rewrite str_app_nil|].
  cbn in Ha. bools. change (String c a +:+ r) with (String c (a +:+ r)).
  rewrite sh_lex_plain_char by (done || discriminate). rewrite IH by done. cbn [mode_word].
  by rewrite snoc_app.
Qed.

Lemma sh_lex_out a r :
  str_forall plain a = true → nonempty a = true → sh_lex Out (a +:+ r) = sh_lex (InWord a) r.
Proof.
  destruct a as [|c a]; [done|]. intros Ha _. cbn in Ha. bools.
  change (String c a +:+ r) with (String c (a +:+ r)).
  rewrite sh_lex_plain_char by (done || discriminate). by rewrite sh_lex_plain.
Qed.

Lemma sh_lex_quoted w v r :
  sh_lex (InQuote w) (escapeVal v +:+ "'" +:+ r) = sh_lex (InWord (w +:+ v)) r.
Proof.
  revert w. induction v as [|c v IH]; intros w; [simpl; by rewrite str_app_nil|].
  unfold escapeVal. cbn [replace_byte]. fold (escapeVal v). rewrite str_app_assoc.
  destruct (Ascii.eqb_spec c "'") as [->|Hc].
  - rewrite <- (snoc_app w "'" v), <- IH. done.
  - rewrite <- (snoc_app w c v), <- IH. apply Ascii.eqb_neq in Hc.
    rewrite str_cons_app, str_nil_app. cbn [sh_lex]. by rewrite Hc.
Qed.

Lemma validUCIName_plain s : validUCIName s = true → str_forall plain s = true ∧ nonempty s = true.
Proof.
  unfold validUCIName. intros. bools. split; [|done].
  eapply str_forall_impl; [exact name_char_plain | done].
Qed.

Lemma index_digits_plain s b : index_digits s b = true → str_forall plain s = true.
Proof.
  revert b. induction s as [|c s IH]; intros b; [done|]. cbn [str_forall].
  assert (is_digit c && index_digits s true = true → plain c && str_forall plain s = true) as Hd.
  { intros H. bools. rewrite (IH true) by done. unfold plain, is_alnum.
    by rewrite H, !orb_true_r. }
  destruct c as [[] [] [] [] [] [] [] []]; try exact Hd.
  destruct s; [done|]. exact Hd.
Qed.

Lemma section_index_plain s : section_index s = true → str_forall plain s = true.
Proof.
  destruct s as [|c s]; [done|].
  destruct (Ascii.eqb_spec c "[") as [->|Hc].
  - intros H. cbn [str_forall]. apply andb_true_iff; split; [done|].
    destruct s as [|d s]; [done|].
    destruct (Ascii.eqb_spec d "-") as [->|Hd].
    + cbn [str_forall]. apply andb_true_iff; split; [done|]. by eapply index_digits_plain.
    + eapply (index_digits_plain _ false). revert H.
      destruct d as [[] [] [] [] [] [] [] []]; done.
  - intros H. exfalso. destruct c as [[] [] [] [] [] [] [] []]; done.
Qed.

Lemma anon_section_plain s b : anon_section s b = true → str_forall plain s = true.
Proof.
  revert b. induction s as [|c s IH]; intros b; [done|]. cbn [anon_section].
  destruct (name_char c) eqn:E.
  - intros H. cbn [str_forall]. by rewrite (name_char_plain _ E), (IH true).
  - intros H. bools. by apply section_index_plain.
Qed.

Lemma validUCISection_plain s : validUCISection s = true → str_forall plain s = true ∧ nonempty s = true.
Proof.
  destruct s as [|c s]; [by intros ?%validUCIName_plain|].
  destruct (Ascii.eqb_spec c "@") as [->|Hc].
  - intros H. split; [|done]. cbn [str_forall]. apply andb_true_iff; split; [done|].
    by eapply anon_section_plain.
  - intros H. apply validUCIName_plain. revert H. destruct c as [[] [] [] [] [] [] [] []]; done.
Qed.

(** A literal word followed by a space, and one at the end of the line. *)
Lemma sh_lex_word w r :
  str_forall plain w = true → nonempty w = true →
  sh_lex Out (w +:+ " " +:+ r) = (TWord w ::.) <$> sh_lex Out r.
Proof. intros. by rewrite sh_lex_out. Qed.

Lemma sh_lex_assign w v :
  sh_lex (InWord w) ("='" +:+ escapeVal v +:+ "'") = Some [TWord (w +:+ "=" +:+ v)].
Proof.
  change ("='" +:+ escapeVal v +:+ "'") with (String "=" (String "'" (escapeVal v +:+ "'" +:+ ""))).
  rewrite sh_lex_plain_char by (done || discriminate). cbn [sh_lex]. cbn [Ascii.eqb].
  change (Ascii.eqb "'" " ") with false. change (Ascii.eqb "'" "'") with true. cbn iota.
  rewrite sh_lex_quoted. cbn. by rewrite snoc_app.
Qed.
Lemma sh_lex_or_true w : sh_lex (InWord w) " || true" = Some [TWord w; TOr; TWord "true"].
Proof. done. Qed.

(** The path of a command, read inside a word. *)
Lemma sh_lex_ref config section r :
  validUCIName config = true → validUCISection section = true →
  sh_lex Out (config +:+ "." +:+ section +:+ r) = sh_lex (InWord (config +:+ "." +:+ section)) r.
Proof.
  intros [Hc Hc']%validUCIName_plain [Hs _]%validUCISection_plain.
  rewrite sh_lex_out by done. rewrite (sh_lex_plain _ ".") by done.
  rewrite sh_lex_plain by done. by rewrite str_app_assoc.
Qed.
Lemma sh_lex_opt w option r :
  validUCIName option = true →
  sh_lex (InWord w) ("." +:+ option +:+ r) = sh_lex (InWord (w +:+ "." +:+ option)) r.
Proof.
  intros [Ho _]%validUCIName_plain.
  rewrite (sh_lex_plain _ ".") by done. rewrite sh_lex_plain by done. by rewrite str_app_assoc.
Qed.

(** Every rendering function returns the empty text when its guard fails. *)
Ltac pass_guard :=
  match goal with
  | H : (if ?b then "" else _) ≠ "" |- _ =>
      let E := fresh "G" in destruct b eqn:E; [by destruct H | clear H]
  end.

Lemma uci_words3 verb X r ts :
  str_forall plain verb = true → nonempty verb = true →
  sh_lex Out (X +:+ r) = Some ts →
  sh_lex Out ("uci " +:+ verb +:+ " " +:+ X +:+ r) = Some (TWord "uci" :: TWord verb :: ts).
Proof.
  intros Hv Hn HX. change ("uci " +:+ ?t) with ("uci" +:+ " " +:+ t).
  rewrite sh_lex_word by done. rewrite sh_lex_word by done. by rewrite HX.
Qed.

Section rendered.
  Context (config section option value : string).
  Context (Hc : validUCIName config = true) (Hs : validUCISection section = true).

Lemma lex_assign_section :
    sh_lex Out (config +:+ "." +:+ section +:+ "='" +:+ escapeVal value +:+ "'") =
    Some [TWord ((config +:+ "." +:+ section +:+ "") +:+ "=" +:+ value)].
  Proof. by rewrite sh_lex_ref, sh_lex_assign, str_app_nil. Qed.

Lemma lex_assign_option :
    validUCIName option = true →
    sh_lex Out (config +:+ "." +:+ section +:+ "." +:+ option +:+ "='" +:+ escapeVal value +:+ "'") =
    Some [TWord ((config +:+ "." +:+ section +:+ "." +:+ option) +:+ "=" +:+ value)].
  Proof. intros. rewrite sh_lex_ref, sh_lex_opt, sh_lex_assign by done. by rewrite !str_app_assoc. Qed.

Lemma lex_delete_section :
    sh_lex Out (config +:+ "." +:+ section +:+ " || true") =
    Some [TWord (config +:+ "." +:+ section +:+ ""); TOr; TWord "true"].
  Proof. by rewrite sh_lex_ref, sh_lex_or_true, str_app_nil. Qed.

Lemma lex_delete_option :
    validUCIName option = true →
    sh_lex Out (config +:+ "." +:+ section +:+ "." +:+ option +:+ " || true") =
    Some [TWord (config +:+ "." +:+ section +:+ "." +:+ option); TOr; TWord "true"].
  Proof. intros. rewrite sh_lex_ref, sh_lex_opt, sh_lex_or_true by done. by rewrite !str_app_assoc. Qed.
End rendered.

Lemma validUCIName_nonempty s : validUCIName s = true → (s =? "") = false.
Proof. unfold validUCIName, nonempty. intros. bools. by apply String.eqb_neq. Qed.

Lemma lex_verb verb t ts :
  str_forall plain verb = true → nonempty verb = true → sh_lex Out t = Some ts →
  sh_lex Out ("uci " +:+ verb +:+ " " +:+ t) = Some (TWord "uci" :: TWord verb :: ts).
Proof. intros. rewrite <- (str_app_nil t). apply uci_words3; [done..|]. by rewrite str_app_nil. Qed.

Lemma lex_delete t ts :
  sh_lex Out t = Some ts →
  sh_lex Out ("uci -q delete " +:+ t) = Some (TWord "uci" :: TWord "-q" :: TWord "delete" :: ts).
Proof.
  intros Ht. change ("uci -q delete " +:+ t) with ("uci " +:+ "-q" +:+ " " +:+ "delete" +:+ " " +:+ t).
  apply lex_verb; [done..|]. rewrite sh_lex_word by done. by rewrite Ht.
Qed.

Lemma lex_delete_all config section :
  validUCIName config = true → validUCIName section = true →
  sh_lex Out ("while uci -q delete " +:+ config +:+ ".@" +:+ section +:+ "[0]; do :; done") =
  Some (map TWord ["while"; "uci"; "-q"; "delete"; config +:+ ".@" +:+ section +:+ "[0]"] ++
        [TSemi] ++ map TWord ["do"; ":"] ++ [TSemi; TWord "done"])%list.
Proof.
  intros [Hc Hc']%validUCIName_plain [Hs Hs']%validUCIName_plain.
  change ("while uci -q delete " +:+ ?t) with ("while" +:+ " " +:+ "uci -q delete " +:+ t).
  rewrite sh_lex_word by done.
  erewrite lex_delete; [done|].
  rewrite sh_lex_out by done. rewrite (sh_lex_plain _ ".@") by done.
  rewrite (sh_lex_plain _ section) by done.
  change ("[0]; do :; done") with ("[0]" +:+ "; do :; done").
  rewrite (sh_lex_plain _ "[0]") by done. cbn. by rewrite !str_app_assoc.
Qed.

(** The commands the executors render, without the lease script. *)
Definition simple_actions : list string :=
  ["set"; "delete"; "add_list"; "del_list"; "add"; "delete_all"; "rename"].

Lemma translateCommand_lex cmd :
  Action cmd ≠ "ensure_host" → translateCommand cmd ≠ "" →
  sh_tokens (translateCommand cmd) = Some (uci_tokens cmd).
Proof.
  unfold sh_tokens, translateCommand, uci_tokens, uci_ref. intros Hne.
  destruct (String.eqb_spec (Action cmd) "set") as [->|Hset].
  { unfold SetOption. intros H. pass_guard. bools. change (map TWord ["uci"; "set"; ?x]) with
      (TWord "uci" :: TWord "set" :: [TWord x]).
    destruct (String.eqb_spec (Opt cmd) "") as [Ho|Ho].
    - apply (lex_verb "set"); [done..|]. by apply lex_assign_section.
    - apply (lex_verb "set"); [done..|]. apply lex_assign_option; [done..|].
      unfold nonempty in *. destruct (String.eqb_spec (Opt cmd) ""); [done|]. by destruct (validUCIName (Opt cmd)). }
  destruct (String.eqb_spec (Action cmd) "delete") as [_|Hdel].
  { unfold nonempty. destruct (String.eqb_spec (Opt cmd) "") as [Ho|Ho]; cbn [negb].
    - unfold Delete. intros H. pass_guard. bools. apply lex_delete. by apply lex_delete_section.
    - unfold DeleteOption. intros H. pass_guard. bools. apply lex_delete. by apply lex_delete_option. }
  destruct (String.eqb_spec (Action cmd) "add_list") as [->|Hal].
  { unfold AddList. intros H. pass_guard. bools. rewrite validUCIName_nonempty by done.
    apply (lex_verb "add_list"); [done..|]. by apply lex_assign_option. }
  destruct (String.eqb_spec (Action cmd) "del_list") as [->|Hdl].
  { unfold DelList. intros H. pass_guard. bools. rewrite validUCIName_nonempty by done.
    apply (lex_verb "del_list"); [done..|]. by apply lex_assign_option. }
  destruct (String.eqb_spec (Action cmd) "add") as [_|Hadd].
  { unfold AddAnonymousSection. intros H. pass_guard. bools.
    apply (lex_verb "add"); [done..|].
    apply validUCIName_plain in H as [? ?]. apply validUCIName_plain in H0 as [? ?].
    rewrite sh_lex_word by done. rewrite <- (str_app_nil (Value cmd)) at 1. by rewrite sh_lex_out. }
  destruct (String.eqb_spec (Action cmd) "ensure_host"); [done|].
  destruct (String.eqb_spec (Action cmd) "delete_all") as [_|Hda].
  { unfold delete_all_text. intros H. pass_guard. bools. by apply lex_delete_all. }
  destruct (String.eqb_spec (Action cmd) "rename") as [->|Hr]; [|done].
  unfold Rename. intros H. pass_guard. bools.
  destruct (String.eqb_spec (Opt cmd) "") as [Ho|Ho].
  - apply (lex_verb "rename"); [done..|]. by apply lex_assign_section.
  - apply (lex_verb "rename"); [done..|]. apply lex_assign_option; [done..|].
    unfold nonempty in *. destruct (String.eqb_spec (Opt cmd) ""); [done|]. by destruct (validUCIName (Opt cmd)).
Qed.

(** ** Quoting and the lease script *)

Lemma sh_lex_quote w s r : sh_lex (InWord w) (shellQuote s +:+ r) = sh_lex (InWord (w +:+ s)) r.
Proof.
  unfold shellQuote. rewrite !str_app_assoc, str_cons_app, str_nil_app.
  cbn [sh_lex]. change (Ascii.eqb "'" " ") with false. change (Ascii.eqb "'" "'") with true. cbn iota.
  apply sh_lex_quoted.
Qed.

Lemma sh_tokens_assign name s :
  str_forall plain name = true → nonempty name = true →
  sh_tokens (name +:+ "=" +:+ shellQuote s) = Some [TWord (name +:+ "=" +:+ s)].
Proof.
  intros. unfold sh_tokens. rewrite sh_lex_out by done. rewrite (sh_lex_plain _ "=") by done.
  rewrite <- (str_app_nil (shellQuote s)), sh_lex_quote. cbn. by rewrite str_app_assoc.
Qed.

(** ** MAC lists *)

Definition upper_hex (c : ascii) : bool := between "A" "F" c || is_digit c.
(** Six upper-case pairs of hexadecimal digits separated by colons. *)
Fixpoint canonical_mac_go (groups : nat) (s : string) : bool :=
  match s with
  | String a (String b r) =>
      upper_hex a && upper_hex b &&
      match groups, r with
      | O, EmptyString => true
      | S groups, String ":" r => canonical_mac_go groups r
      | _, _ => false
      end
  | _ => false
  end.
Definition canonical_mac (s : string) : bool := canonical_mac_go 5 s.

Lemma is_hex_upper c r :
  is_hex c = true →
  to_upper (String c r) = String (upper_byte c) (to_upper r) ∧ upper_hex (upper_byte c) = true.
Proof.
  intros Hc. assert (code c < 128)%N as Hlt.
  { revert Hc. unfold is_hex, is_digit, between. rewrite !orb_true_iff, !andb_true_iff, !N.leb_le. cbn. lia. }
  split.
  - destruct c as [[] [] [] [] [] [] [] []]; try done; vm_compute in Hlt; lia.
  - destruct c as [[] [] [] [] [] [] [] []]; vm_compute in Hc |- *; done.
Qed.

Lemma take2_Some s two r :
  take2 s = Some (two, r) →
  ∃ a b, two = String a (String b "") ∧ s = String a (String b r) ∧ is_hex a = true ∧ is_hex b = true.
Proof.
  destruct s as [|a [|b s]]; [done..|]. cbn. destruct (_ && _) eqn:E; [|done]. intros [= <- <-].
  bools. by exists a, b.
Qed.

Lemma mac_at_canonical n s m r :
  mac_at_go n s = Some (m, r) → canonical_mac_go n (to_upper m) = true ∧ s = m +:+ r.
Proof.
  revert s m r. induction n as [|n IH]; intros s m r; cbn [mac_at_go];
    destruct (take2 s) as [[two s1]|] eqn:E; try done;
    apply take2_Some in E as (a & b & -> & -> & Ha & Hb); cbn [mbind option_bind].
  - intros [= <- <-]. split; [|done].
    destruct (is_hex_upper a (String b "") Ha) as (-> & Ha').
    destruct (is_hex_upper b "" Hb) as (-> & Hb'). cbn. by rewrite Ha', Hb'.
  - destruct s1 as [|c s1]; [done|]. destruct (Ascii.eqb_spec c ":") as [->|Hc].
    + destruct (mac_at_go n s1) as [[m1 r1]|] eqn:E; [|done]. intros [= <- <-].
      apply IH in E as [Hm ->]. split; [|done].
      change (String a (String b "") +:+ ":" +:+ m1) with (String a (String b (String ":" m1))).
      destruct (is_hex_upper a (String b (String ":" m1)) Ha) as (-> & Ha').
      destruct (is_hex_upper b (String ":" m1) Hb) as (-> & Hb').
      change (to_upper (String ":" m1)) with (String ":" (to_upper m1)).
      cbn [canonical_mac_go]. by rewrite Ha', Hb', Hm.
    + destruct c as [[] [] [] [] [] [] [] []]; done.
Qed.

Lemma mac_scan_canonical fuel s :
  Forall (λ m, canonical_mac (to_upper m) = true) (mac_scan fuel s).1.
Proof.
  revert s. induction fuel as [|fuel IH]; intros s; cbn [mac_scan]; [by constructor|].
  destruct (mac_at s) as [[m r]|] eqn:E.
  - apply mac_at_canonical in E as [Hm _]. pose proof (IH r). destruct (mac_scan fuel r).
    constructor; done.
  - destruct s as [|c s]; [by constructor|]. pose proof (IH s). by destruct (mac_scan fuel s).
Qed.

Lemma ParseMACList_canonical raw macs :
  ParseMACList raw = Ok macs →
  macs ≠ [] ∧ NoDup macs ∧ Forall (λ m, canonical_mac m = true) macs.
Proof.
  unfold ParseMACList. destruct (mac_matches raw) as [ms rem] eqn:E. intros. res_inv. bools.
  split; [|split; [apply NoDup_dedup_seen|]].
  - destruct ms as [|m ms]; [done|]. intros Hn.
    assert (to_upper m ∈ dedup_first (map to_upper (m :: ms))) as Hin.
    { apply elem_of_dedup_seen. split; [left | set_solver]. }
    rewrite Hn in Hin. by apply elem_of_nil in Hin.
  - apply Forall_forall. intros x Hx. apply elem_of_dedup_seen in Hx as [Hx _].
    apply list_elem_of_fmap in Hx as (m & -> & Hm).
    pose proof (mac_scan_canonical (String.length raw) raw) as Hall.
    unfold mac_matches in E. rewrite E in Hall. rewrite Forall_forall in Hall. by apply Hall.
Qed.

(** Separator bytes of a stored MAC list. *)
Definition mac_seps : string := "' " +:+ dq +:+ tab +:+ cr +:+ nl.

Lemma upper_hex_facts c :
  upper_hex c = true → is_hex c = true ∧ upper_byte c = c ∧ code c ≠ 197%N ∧ code c ≠ 196%N.
Proof. destruct c as [[] [] [] [] [] [] [] []]; intros Hc; vm_compute in Hc |- *; done. Qed.

Lemma mac_at_exact n m r :
  canonical_mac_go n m = true → mac_at_go n (m +:+ r) = Some (m, r) ∧ to_upper m = m.
Proof.
  revert m. induction n as [|n IH]; intros m; destruct m as [|a [|b m]]; try done; cbn [canonical_mac_go];
    intros H; bools; rewrite !str_cons_app; cbn [mac_at_go take2].
  - destruct m as [|? ?]; [|done].
    destruct (upper_hex_facts a) as (Ha & Hua & _); [done|].
    destruct (upper_hex_facts b) as (Hb & Hub & _); [done|].
    rewrite Ha, Hb. split; [done|].
    destruct (is_hex_upper a (String b "") Ha) as (-> & _).
    destruct (is_hex_upper b "" Hb) as (-> & _). by rewrite Hua, Hub.
  - destruct m as [|c m]; [done|]. destruct (Ascii.eqb_spec c ":") as [->|Hc].
    2:{ destruct c as [[] [] [] [] [] [] [] []]; done. }
    destruct (upper_hex_facts a) as (Ha & Hua & _); [done|].
    destruct (upper_hex_facts b) as (Hb & Hub & _); [done|].
    destruct (IH m) as [IHm IHu]; [done|].
    rewrite Ha, Hb. cbn [andb mbind option_bind]. rewrite str_cons_app. rewrite IHm. cbn [mbind option_bind].
    split; [done|].
    destruct (is_hex_upper a (String b (String ":" m)) Ha) as (-> & _).
    destruct (is_hex_upper b (String ":" m) Hb) as (-> & _).
    change (to_upper (String ":" m)) with (String ":" (to_upper m)). by rewrite Hua, Hub, IHu.
Qed.

Lemma canonical_mac_length n m : canonical_mac_go n m = true → (String.length m = 3 * n + 2)%nat.
Proof.
  revert m. induction n as [|n IH]; intros m; destruct m as [|a [|b m]]; try done; cbn [canonical_mac_go];
    intros H; bools.
  - by destruct m.
  - destruct m as [|c m]; [done|]. destruct (Ascii.eqb_spec c ":") as [->|Hc].
    + cbn. rewrite (IH m) by done. lia.
    + destruct c as [[] [] [] [] [] [] [] []]; done.
Qed.

Lemma sep_not_hex c : in_chars mac_seps c = true → is_hex c = false.
Proof. destruct c as [[] [] [] [] [] [] [] []]; intros Hc; vm_compute in Hc |- *; done. Qed.

Lemma mac_scan_seps fuel seps r :
  str_forall (in_chars mac_seps) seps = true → (String.length seps ≤ fuel)%nat →
  mac_scan fuel (seps +:+ r) = prod_map id (String.append seps) (mac_scan (fuel - String.length seps) r).
Proof.
  revert fuel. induction seps as [|c s IH]; intros fuel Hs Hf.
  - rewrite str_nil_app, Nat.sub_0_r. by destruct (mac_scan fuel r).
  - cbn in Hs. bools. destruct fuel as [|fuel]; [cbn in Hf; lia|]. rewrite str_cons_app.
    cbn [mac_scan]. assert (mac_at (String c (s +:+ r)) = None) as ->.
    { unfold mac_at. cbn [mac_at_go take2]. destruct (s +:+ r); [done|].
      by rewrite (sep_not_hex c). }
    rewrite IH by (done || (cbn in Hf; lia)). cbn [String.length Nat.sub].
    by destruct (mac_scan _ r).
Qed.

Lemma mac_scan_join sep macs fuel :
  str_forall (in_chars mac_seps) sep = true → sep ≠ "" →
  Forall (λ m, canonical_mac m = true) macs →
  (String.length (str_join sep macs) ≤ fuel)%nat →
  ∃ rem, mac_scan fuel (str_join sep macs) = (macs, rem) ∧ str_forall (in_chars mac_seps) rem = true.
Proof.
  intros Hsep Hne Hall. revert fuel.
  induction Hall as [|m macs Hm Hall IH]; intros fuel Hf.
  { exists "". split; [by destruct fuel | done]. }
  pose proof (canonical_mac_length _ _ Hm) as Hlen. cbn in Hlen.
  destruct macs as [|m' macs].
  - cbn [str_join] in *. destruct fuel as [|fuel]; [lia|].
    destruct (mac_at_exact _ _ "" Hm) as [E _]. rewrite str_app_nil in E.
    exists "". cbn [mac_scan]. unfold mac_at. rewrite E. by destruct fuel.
  - change (str_join sep (m :: m' :: macs)) with (m +:+ sep +:+ str_join sep (m' :: macs)) in *.
    rewrite !str_app_length in Hf. destruct fuel as [|fuel]; [lia|].
    destruct (mac_at_exact _ _ (sep +:+ str_join sep (m' :: macs)) Hm) as [E _].
    destruct (IH (fuel - String.length sep)%nat) as (rem & Erem & Hrem); [lia|].
    exists (sep +:+ rem). cbn [mac_scan]. unfold mac_at. rewrite E.
    rewrite mac_scan_seps by (done || lia). rewrite Erem. cbn [prod_map fst snd id].
    split; [done|]. by rewrite str_forall_app, Hsep, Hrem.
Qed.

Lemma remove_bytes_all chars s : str_forall (in_chars chars) s = true → remove_bytes chars s = "".
Proof. induction s as [|c s IH]; [done|]. cbn. intros H. bools. rewrite H. auto. Qed.

Lemma to_upper_canonical macs : Forall (λ m, canonical_mac m = true) macs → map to_upper macs = macs.
Proof.
  induction 1 as [|m macs Hm Hall IH]; [done|]. cbn. rewrite IH.
  by destruct (mac_at_exact _ _ "" Hm) as [_ ->].
Qed.

Lemma ParseMACList_join sep macs :
  str_forall (in_chars mac_seps) sep = true → sep ≠ "" →
  macs ≠ [] → NoDup macs → Forall (λ m, canonical_mac m = true) macs →
  ParseMACList (str_join sep macs) = Ok macs.
Proof.
  intros Hsep Hne Hm Hnd Hall. unfold ParseMACList, mac_matches.
  destruct (mac_scan_join sep macs _ Hsep Hne Hall (le_n _)) as (rem & -> & Hrem).
  rewrite bool_decide_eq_false_2 by done. cbn [fail_if res_bind].
  unfold mac_seps in Hrem. rewrite (remove_bytes_all _ _ Hrem). rewrite to_upper_canonical by done.
  change (Ok (dedup_first macs) = Ok macs). f_equal. apply dedup_seen_id; [done | set_solver].
Qed.

(** ** Health targets *)

Lemma ValidateHealthTargets_go_spec seen targets :
  ValidateHealthTargets_go seen targets =
  if forallb health_target_ok targets then Ok (dedup_seen seen targets)
  else Err (ErrText "invalid health check target").
Proof.
  revert seen. induction targets as [|t targets IH]; intros seen; [done|].
  cbn [ValidateHealthTargets_go forallb dedup_seen]. destruct (health_target_ok t); [|done].
  cbn [negb fail_if res_bind andb]. rewrite !IH.
  destruct (bool_decide (t ∈ seen)); [done|]. by destruct (forallb _ targets).
Qed.

(** ** Batch scripts *)

Lemma render_commands_spec config commands :
  render_commands config commands =
  if forallb (λ cmd, (Config cmd =? config) && nonempty (translateCommand cmd)) commands
  then Some (lines (map translateCommand commands)) else None.
Proof.
  induction commands as [|cmd commands IH]; [done|]. cbn [render_commands forallb].
  destruct (Config cmd =? config); [|done]. unfold nonempty at 1.
  destruct (String.eqb_spec (translateCommand cmd) ""); [done|]. cbn [negb andb].
  rewrite IH. destruct (forallb _ commands); [|done]. cbn [mbind option_bind].
  unfold lines. cbn [map concat_strings]. by rewrite str_app_assoc.
Qed.

Lemma str_cut_None_app m a b :
  no_nl m = true → line_end a →
  str_cut (m +:+ nl) a = None → str_cut (m +:+ nl) b = None → str_cut (m +:+ nl) (a +:+ b) = None.
Proof. intros Hm Ha Hcut Hb. rewrite str_cut_app_lines by done. by rewrite Hb. Qed.

Lemma assoc_In {A} key (l : list (string * A)) v : assoc key l = Some v → (key, v) ∈ l.
Proof.
  induction l as [|[k x] l IH]; [done|]. cbn. destruct (String.eqb_spec key k) as [->|].
  - intros [= ->]. left.
  - intros. right. auto.
Qed.

Definition restart_text : string := "# Phase 5: Service restart".
Lemma restart_marker_eq : restart_marker = restart_text +:+ nl.
Proof. done. Qed.

Lemma known_config_markers config svc :
  assoc config ServiceRestartMap = Some svc →
  validUCIName config = true ∧
  str_cut restart_marker (("#!/bin/sh" +:+ nl +:+ lock_marker +:+ uci_lock +:+
    batch_head config (restart_command config)) +:+ mutation_marker) = None ∧
  str_cut restart_marker (batch_commit config) = None ∧
  no_nl (restart_command config) = true ∧
  restart_command config = svc +:+ " && logger -t central_luci '" +:+ config +:+ " service restarted'".
Proof.
  intros H%assoc_In. unfold ServiceRestartMap in H.
  repeat (apply elem_of_cons in H as [[= -> ->]|H]; [vm_compute; repeat split | ]).
  by apply elem_of_nil in H.
Qed.

Lemma lock_cut r : str_cut lock_marker ("#!/bin/sh" +:+ nl +:+ lock_marker +:+ r) = Some ("#!/bin/sh" +:+ nl, r).
Proof.
  change ("#!/bin/sh" +:+ nl +:+ lock_marker +:+ r)
    with (("#!/bin/sh" +:+ nl) +:+ ("set -e" +:+ nl) +:+ r).
  change lock_marker with ("set -e" +:+ nl). apply str_cut_marker; [done | apply line_end_nl | done].
Qed.

Lemma line_end_marker a m : line_end (a +:+ (m +:+ nl)).
Proof. right. exists (a +:+ m). by rewrite str_app_assoc. Qed.

Lemma line_end_lines_app a l : line_end a → line_end (a +:+ lines l).
Proof. intros. apply line_end_app; [done | apply line_end_lines]. Qed.

(** The batch script, with the mutation lock in place. *)
Lemma BuildBatchScript_text config commands body :
  validUCIName config = true → render_commands config commands = Some body →
  BuildBatchScript config commands =
    "#!/bin/sh" +:+ nl +:+ lock_marker +:+ uci_lock +:+ batch_head config (restart_command config) +:+
    mutation_marker +:+ body +:+ batch_commit config +:+ restart_marker +:+
    restart_command config +:+ nl +:+ batch_tail config.
Proof.
  intros Hc Hb. unfold BuildBatchScript. rewrite Hc, Hb. cbn [negb].
  unfold withUciMutationLock, batch_text. rewrite lock_cut. by rewrite str_app_assoc.
Qed.

Lemma BuildSafeBatchScript_text config svc commands targets body :
  assoc config ServiceRestartMap = Some svc →
  render_commands config commands = Some body →
  str_cut restart_marker body = None →
  BuildSafeBatchScript config commands targets =
    "#!/bin/sh" +:+ nl +:+ lock_marker +:+ uci_lock +:+ batch_head config (restart_command config) +:+
    mutation_marker +:+ body +:+ batch_commit config +:+ restart_marker +:+
    (svc +:+ " && logger -t central_luci '" +:+ config +:+ " service restarted'") +:+ nl +:+
    health_checks_text (if bool_decide (targets = []) then ["1.1.1.1"] else targets) +:+ batch_tail config.
Proof.
  intros Hsvc Hb Hcut. pose proof (known_config_markers _ _ Hsvc) as (Hc & Hpre & Hcom & Hnl & <-).
  unfold BuildSafeBatchScript. rewrite (BuildBatchScript_text config commands body) by done.
  assert (line_end body) as Hbody.
  { rewrite render_commands_spec in Hb. destruct (forallb _ commands); [|done].
    injection Hb as <-. apply line_end_lines. }
  set (pre := ("#!/bin/sh" +:+ nl +:+ lock_marker +:+ uci_lock +:+
    batch_head config (restart_command config)) +:+ mutation_marker) in *.
  assert (∀ r, "#!/bin/sh" +:+ nl +:+ lock_marker +:+ uci_lock +:+ batch_head config (restart_command config) +:+
    mutation_marker +:+ r = pre +:+ r) as Hpre_eq.
  { intros r. unfold pre. by rewrite !str_app_assoc. }
  rewrite !Hpre_eq. rewrite restart_marker_eq in *.
  assert (line_end pre) as Hle by (apply line_end_marker).
  rewrite (str_cut_app_lines restart_text pre) by done.
  rewrite (str_cut_app_lines restart_text body) by done.
  rewrite str_cut_marker; [|done|apply line_end_lines|done].
  cbn [fmap option_fmap option_map prod_map fst snd id].
  rewrite str_cut_nl by done.
  destruct (String.eqb_spec (pre +:+ body +:+ batch_commit config +:+ (restart_text +:+ nl) +:+
    restart_command config +:+ nl +:+ batch_tail config) "") as [He|_]; [done|].
  rewrite !str_app_assoc. by destruct targets.
Qed.

Lemma BuildSafeBatchScript_invalid config commands targets :
  (validUCIName config = false ∨ render_commands config commands = None) →
  BuildSafeBatchScript config commands targets = "" ∧ BuildBatchScript config commands = "".
Proof.
  unfold BuildSafeBatchScript, BuildBatchScript. intros [-> | ->]; [done|].
  by destruct (negb _).
Qed.

(** ** Raw commands *)

Lemma str_join_plain rest :
  forallb validUCISection rest = true → str_forall plain (str_join "." rest) = true.
Proof.
  induction rest as [|s rest IH]; [done|]. cbn [forallb]. intros H. bools.
  destruct (validUCISection_plain s) as [Hs _]; [done|].
  destruct rest as [|s' rest]; [done|].
  change (str_join "." (s :: s' :: rest)) with (s +:+ "." +:+ str_join "." (s' :: rest)).
  rewrite !str_forall_app, Hs, IH by done. done.
Qed.

Lemma validUCIPath_plain path config lo hi :
  (2 ≤ lo)%nat → validUCIName config = true → validUCIPath path config lo hi = true →
  str_forall plain path = true ∧ nonempty path = true ∧ ∃ rest, path = config +:+ "." +:+ rest.
Proof.
  intros Hlo [Hc Hne]%validUCIName_plain. unfold validUCIPath.
  pose proof (str_join_split "." path) as Hj.
  destruct (str_split "." path) as [|first rest]; [done|]. intros. bools. subst first.
  destruct rest as [|s rest]; [exfalso; cbn [List.length] in *; lia|].
  rewrite <- Hj. change (str_join "." (config :: s :: rest)) with (config +:+ "." +:+ str_join "." (s :: rest)).
  rewrite !str_forall_app, Hc, str_join_plain by done.
  split; [done|]. split; [by destruct config | by eexists].
Qed.

Lemma str_init_last_Some s i l : str_init_last s = Some (i, l) → s = i +:+ String l "".
Proof.
  revert i l. induction s as [|c s IH]; intros i l; [done|]. cbn. destruct s as [|d s].
  - by intros [= <- <-].
  - destruct (str_init_last (String d s)) as [[i' l']|] eqn:E; [|done]. intros [= <- <-].
    rewrite (IH _ _ eq_refl). done.
Qed.

Lemma escapeVal_id s : str_exists (Ascii.eqb "'") s = false → escapeVal s = s.
Proof.
  unfold escapeVal. induction s as [|c s IH]; [done|]. cbn [str_exists replace_byte]. intros H. bools.
  rewrite (Ascii.eqb_sym c), H, IH by done. done.
Qed.

Lemma contains_any_not s chars c :
  contains_any s chars = false → in_chars chars c = true → str_exists (Ascii.eqb c) s = false.
Proof.
  unfold contains_any. intros Hs Hc. induction s as [|d s IH]; [done|]. cbn in *. bools.
  rewrite IH by done. destruct (Ascii.eqb_spec c d) as [->|]; [congruence | done].
Qed.

Lemma validUCIValueToken_lex w value :
  validUCIValueToken value = true → ∃ v, sh_lex (InWord w) value = Some [TWord (w +:+ v)].
Proof.
  intros H.
  assert (validUCIName value = true → ∃ v, sh_lex (InWord w) value = Some [TWord (w +:+ v)]) as Hn.
  { intros [Hv _]%validUCIName_plain. exists value. rewrite <- (str_app_nil value) at 1.
    by rewrite sh_lex_plain. }
  destruct value as [|c value]; [by apply Hn|].
  destruct (Ascii.eqb_spec c "'") as [->|Hc].
  2:{ apply Hn. destruct c as [[] [] [] [] [] [] [] []]; done. }
  unfold validUCIValueToken in H. destruct (str_init_last value) as [[body l]|] eqn:E; [|by apply Hn].
  destruct (Ascii.eqb_spec l "'") as [->|Hl].
  2:{ apply Hn. destruct l as [[] [] [] [] [] [] [] []]; done. }
  bools. apply str_init_last_Some in E as ->. exists body.
  pose proof (sh_lex_quote w body "") as Hq. unfold shellQuote in Hq.
  rewrite escapeVal_id, str_app_nil in Hq; [exact Hq|].
  by eapply contains_any_not.
Qed.

Lemma lex_raw_value verb path value :
  str_forall plain verb = true → nonempty verb = true →
  str_forall plain path = true → nonempty path = true → validUCIValueToken value = true →
  ∃ v, sh_tokens ("uci " +:+ verb +:+ " " +:+ path +:+ "=" +:+ value) =
    Some (map TWord ["uci"; verb; path +:+ "=" +:+ v]).
Proof.
  intros Hv Hvn Hp Hpn Hval.
  destruct (validUCIValueToken_lex (path +:+ "=") value Hval) as [v Hlex].
  exists v. unfold sh_tokens. cbn [map]. apply lex_verb; [done..|].
  rewrite sh_lex_out by done. rewrite (sh_lex_plain _ "=") by done. rewrite Hlex.
  by rewrite str_app_assoc.
Qed.

Lemma lex_raw_path path :
  str_forall plain path = true → nonempty path = true →
  sh_lex Out path = Some [TWord path].
Proof. intros. rewrite <- (str_app_nil path) at 1. by rewrite sh_lex_out. Qed.

(** What an accepted raw command runs: one [uci] invocation with literal
    arguments on the requested configuration. *)
Definition raw_meaning (config : string) (words : list string) : Prop :=
  (∃ verb rest, verb ∈ ["set"; "add_list"; "del_list"] ∧ words = ["uci"; verb; config +:+ "." +:+ rest]) ∨
  (∃ rest, words = ["uci"; "delete"; config +:+ "." +:+ rest]) ∨
  (∃ rest, words = ["uci"; "-q"; "delete"; config +:+ "." +:+ rest]).

Lemma raw_value_meaning command config verb b :
  validUCIName config = true →
  verb ∈ ["set"; "add_list"; "del_list"] →
  raw_value_command command config ("uci " +:+ verb +:+ " ") = Some b → b = true →
  ∃ words, sh_tokens command = Some (map TWord words) ∧ raw_meaning config words.
Proof.
  unfold raw_value_command. intros Hc Hverb Hraw ->.
  destruct (strip_prefix _ command) as [body|] eqn:E; [|done]. apply strip_prefix_Some in E as ->.
  cbn in Hraw. destruct (str_cut "=" body) as [[path value]|] eqn:E; [|discriminate Hraw].
  apply str_cut_Some in E as ->. injection Hraw as Hraw. bools.
  destruct (validUCIPath_plain path config 2 3) as (Hp & Hpn & rest & ->); [lia|done..|].
  assert (str_forall plain verb = true ∧ nonempty verb = true) as [Hv Hvn].
  { rewrite !elem_of_cons, elem_of_nil in Hverb. by destruct Hverb as [-> | [-> | [-> | []]]]. }
  destruct (lex_raw_value verb (config +:+ "." +:+ rest) value Hv Hvn Hp Hpn) as [v Hlex]; [done|].
  eexists. split.
  - rewrite !str_app_assoc in Hlex |- *. exact Hlex.
  - left. exists verb, (rest +:+ "=" +:+ v). done.
Qed.

Lemma raw_delete_meaning command config q b :
  validUCIName config = true → q ∈ [""; "-q "] →
  raw_delete_command command config ("uci " +:+ q +:+ "delete ") = Some b → b = true →
  ∃ words, sh_tokens command = Some (map TWord words) ∧ raw_meaning config words.
Proof.
  unfold raw_delete_command. intros Hc Hq Hraw ->.
  destruct (strip_prefix _ command) as [path|] eqn:E; [|done]. apply strip_prefix_Some in E as ->.
  cbn in Hraw. injection Hraw as Hraw.
  destruct (validUCIPath_plain path config 2 3) as (Hp & Hpn & rest & ->); [lia|done..|].
  pose proof (lex_raw_path _ Hp Hpn) as Hlex.
  rewrite !elem_of_cons, elem_of_nil in Hq. destruct Hq as [-> | [-> | []]].
  - exists ["uci"; "delete"; config +:+ "." +:+ rest]. split; [|right; left; by eexists].
    apply (lex_verb "delete"); done.
  - exists ["uci"; "-q"; "delete"; config +:+ "." +:+ rest]. split; [|right; right; by eexists].
    apply lex_delete. done.
Qed.

Lemma ValidRawUCICommand_meaning command config :
  ValidRawUCICommand command config = true → has_prefix command "uci add " = false →
  ∃ words, sh_tokens command = Some (map TWord words) ∧ raw_meaning config words.
Proof.
  unfold ValidRawUCICommand. destruct (negb _ || _ || _) eqn:G; [done|]. bools.
  cbn [first_some]. intros Hacc Hadd.
  destruct (raw_value_command command config "uci set ") as [b|] eqn:E1.
  { apply (raw_value_meaning command config "set" b); [done|set_solver|exact E1|destruct b; [done|exact Hacc]]. }
  destruct (raw_value_command command config "uci add_list ") as [b|] eqn:E2.
  { apply (raw_value_meaning command config "add_list" b); [done|set_solver|exact E2|destruct b; [done|exact Hacc]]. }
  destruct (raw_value_command command config "uci del_list ") as [b|] eqn:E3.
  { apply (raw_value_meaning command config "del_list" b); [done|set_solver|exact E3|destruct b; [done|exact Hacc]]. }
  destruct (raw_delete_command command config "uci delete ") as [b|] eqn:E4.
  { apply (raw_delete_meaning command config "" b); [done|set_solver|exact E4|destruct b; [done|exact Hacc]]. }
  destruct (raw_delete_command command config "uci -q delete ") as [b|] eqn:E5.
  { apply (raw_delete_meaning command config "-q " b); [done|set_solver|exact E5|destruct b; [done|exact Hacc]]. }
  unfold raw_add_command in Hacc. unfold has_prefix in Hadd.
  destruct (strip_prefix "uci add " command); done.
Qed.

Lemma lines_app l r : lines (l ++ r)%list = lines l +:+ lines r.
Proof.
  induction l as [|x l IH]; [done|]. unfold lines in *. cbn [map concat_strings app].
  rewrite IH. by rewrite !str_app_assoc.
Qed.

Lemma lines_cons s l : lines (s :: l) = s +:+ nl +:+ lines l.
Proof. unfold lines. cbn [map concat_strings]. by rewrite str_app_assoc. Qed.

(** The snapshot part of a script without a restart command. *)
Lemma batch_head_empty_restart config :
  ∃ before after, batch_head config "" = before +:+ nl +:+ "   || true" +:+ nl +:+ after.
Proof.
  unfold batch_head.
  match goal with |- context [lines ?l] =>
    replace l with (take 25 l ++ (nth 25 l "" :: "   || true" :: drop 27 l))%list by done end.
  rewrite lines_app, !lines_cons. rewrite <- (str_app_assoc _ (nth _ _ _)). by do 2 eexists.
Qed.

(** ** Properties *)

(** C37: every rendered command other than a lease script is, read by a POSIX
    shell, exactly the [uci] invocation with the command's own configuration,
    section, option and value as literal words: no byte of a value is ever
    interpreted by the shell. *)
Theorem rendered_command_words (cmd : UciCommand) :
  Action cmd ≠ "ensure_host" → translateCommand cmd ≠ "" →
  sh_tokens (translateCommand cmd) = Some (uci_tokens cmd).
Proof. apply translateCommand_lex. Qed.

Definition injection_command : UciCommand :=
  Cmd "set" "wireless" "@wifi-iface[0]" "ssid" ("it's; $(reboot) `x` " +:+ dq +:+ " || rm -rf /").

Lemma rendered_command_words_witness :
  Action injection_command ≠ "ensure_host" ∧
  sh_tokens (translateCommand injection_command) = Some (uci_tokens injection_command).
Proof. split; [done|]. apply (rendered_command_words injection_command); done. Defined.

(** A rendered lease command sets the address, the host name and the MAC
    list as literal shell words (the address is IPv4, the MACs are canonical
    and distinct, their count is the number of MACs) and then runs the fixed
    script, which contains no text of the command. *)
Theorem ensure_host_assignments (cmd : UciCommand) :
  Action cmd = "ensure_host" → translateCommand cmd ≠ "" →
  ∃ macs l_ip l_name l_macs,
    ParseMACList (Opt cmd) = Ok macs ∧ macs ≠ [] ∧ NoDup macs ∧
    Forall (λ m, canonical_mac m = true) macs ∧
    (∃ ip, ParseIP (Value cmd) = Some ip ∧ is_v4 ip = true) ∧
    translateCommand cmd =
      l_ip +:+ nl +:+ l_name +:+ nl +:+ l_macs +:+ nl +:+
      "host_mac_count=" +:+ dec (Z.of_nat (List.length macs)) +:+ nl +:+ ensure_host_script ∧
    sh_tokens l_ip = Some [TWord ("host_ip=" +:+ Value cmd)] ∧
    sh_tokens l_name = Some [TWord ("host_name=" +:+ Sect cmd)] ∧
    sh_tokens l_macs = Some [TWord ("host_macs=" +:+ str_join " " macs)].
Proof.
  unfold translateCommand. intros ->. cbn [String.eqb Ascii.eqb]. cbn.
  unfold ensureDHCPHost. destruct (ParseIP (Value cmd)) as [ip|] eqn:Eip; [|done].
  destruct (ParseMACList (Opt cmd)) as [macs|] eqn:Em; [|by destruct (_ || _)].
  intros H. pass_guard. bools.
  destruct (ParseMACList_canonical _ _ Em) as (? & ? & ?).
  exists macs, ("host_ip" +:+ "=" +:+ shellQuote (Value cmd)), ("host_name" +:+ "=" +:+ shellQuote (Sect cmd)),
    ("host_macs" +:+ "=" +:+ shellQuote (str_join " " macs)).
  rewrite !sh_tokens_assign by done. rewrite !str_app_assoc.
  do 4 (split; [done|]). split; [by exists ip|]. repeat split; done.
Qed.

Lemma ensure_host_assignments_witness :
  ∃ macs l_ip l_name l_macs,
    let cmd := Cmd "ensure_host" "dhcp" "tv's box" "aa:bb:cc:00:11:22" "10.0.0.7" in
    ParseMACList (Opt cmd) = Ok macs ∧ macs ≠ [] ∧ NoDup macs ∧
    Forall (λ m, canonical_mac m = true) macs ∧
    (∃ ip, ParseIP (Value cmd) = Some ip ∧ is_v4 ip = true) ∧
    translateCommand cmd =
      l_ip +:+ nl +:+ l_name +:+ nl +:+ l_macs +:+ nl +:+
      "host_mac_count=" +:+ dec (Z.of_nat (List.length macs)) +:+ nl +:+ ensure_host_script ∧
    sh_tokens l_ip = Some [TWord ("host_ip=" +:+ Value cmd)] ∧
    sh_tokens l_name = Some [TWord ("host_name=" +:+ Sect cmd)] ∧
    sh_tokens l_macs = Some [TWord ("host_macs=" +:+ str_join " " macs)].
Proof.
  apply (ensure_host_assignments (Cmd "ensure_host" "dhcp" "tv's box" "aa:bb:cc:00:11:22" "10.0.0.7")).
  - reflexivity.
  - vm_compute. discriminate.
Defined.

(** C38: for a configuration with a restart entry, a batch of valid commands of
    that configuration becomes the script that takes the lock right after
    [set -e], snapshots, applies one line per command in order, commits and
    validates, restarts, and checks every health target before the snapshot is
    removed; anything else becomes the empty script.  (No rendered command may
    itself contain the restart marker line.) *)
Theorem safe_batch_layout (config svc : string) (commands : list UciCommand) (targets : list string) :
  assoc config ServiceRestartMap = Some svc →
  str_cut restart_marker (lines (map translateCommand commands)) = None →
  BuildSafeBatchScript config commands targets =
  if forallb (λ cmd, (Config cmd =? config) && nonempty (translateCommand cmd)) commands then
    "#!/bin/sh" +:+ nl +:+ lock_marker +:+ uci_lock +:+ batch_head config (restart_command config) +:+
    mutation_marker +:+ lines (map translateCommand commands) +:+ batch_commit config +:+ restart_marker +:+
    (svc +:+ " && logger -t central_luci '" +:+ config +:+ " service restarted'") +:+ nl +:+
    health_checks_text (if bool_decide (targets = []) then ["1.1.1.1"] else targets) +:+ batch_tail config
  else "".
Proof.
  intros Hsvc Hcut. pose proof (render_commands_spec config commands) as Hr.
  destruct (forallb _ commands); [by apply BuildSafeBatchScript_text|].
  apply BuildSafeBatchScript_invalid. by right.
Qed.

Lemma safe_batch_layout_witness :
  let commands := [Cmd "set" "dhcp" "lan" "start" "100"; Cmd "add" "dhcp" "" "" "host"] in
  assoc "dhcp" ServiceRestartMap = Some "/etc/init.d/dnsmasq restart" ∧
  BuildSafeBatchScript "dhcp" commands ["10.0.0.1"] =
    if forallb (λ cmd, (Config cmd =? "dhcp") && nonempty (translateCommand cmd)) commands then
      "#!/bin/sh" +:+ nl +:+ lock_marker +:+ uci_lock +:+ batch_head "dhcp" (restart_command "dhcp") +:+
      mutation_marker +:+ lines (map translateCommand commands) +:+ batch_commit "dhcp" +:+ restart_marker +:+
      ("/etc/init.d/dnsmasq restart" +:+ " && logger -t central_luci '" +:+ "dhcp" +:+ " service restarted'") +:+ nl +:+
      health_checks_text (if bool_decide (["10.0.0.1"] = []) then ["1.1.1.1"] else ["10.0.0.1"]) +:+ batch_tail "dhcp"
    else "".
Proof.
  split; [reflexivity|].
  apply (safe_batch_layout "dhcp" "/etc/init.d/dnsmasq restart"
    [Cmd "set" "dhcp" "lan" "start" "100"; Cmd "add" "dhcp" "" "" "host"] ["10.0.0.1"]); reflexivity.
Defined.

(** A configuration without a restart entry yields a script whose rollback
    function contains the command line [|| true] with nothing on its left, which
    is not a shell command: its first token is the operator. *)
Theorem restartless_batch_broken (config : string) (commands : list UciCommand) (body : string) :
  validUCIName config = true → assoc config ServiceRestartMap = None →
  render_commands config commands = Some body →
  sh_tokens "   || true" = Some [TOr; TWord "true"] ∧
  ∃ before after,
    BuildBatchScript config commands = before +:+ nl +:+ "   || true" +:+ nl +:+ after.
Proof.
  intros Hc Hno Hb. split; [done|]. rewrite (BuildBatchScript_text _ _ _ Hc Hb).
  assert (restart_command config = "") as Hr by (unfold restart_command; by rewrite Hno).
  rewrite Hr. destruct (batch_head_empty_restart config) as (before & after & ->).
  exists ("#!/bin/sh" +:+ nl +:+ lock_marker +:+ uci_lock +:+ before).
  eexists. rewrite !str_app_assoc. reflexivity.
Qed.

Lemma restartless_batch_broken_witness :
  assoc "sqm" ServiceRestartMap = None ∧
  ∃ before after,
    BuildBatchScript "sqm" [Cmd "set" "sqm" "eth1" "enabled" "1"] = before +:+ nl +:+ "   || true" +:+ nl +:+ after.
Proof.
  split; [reflexivity|].
  apply (restartless_batch_broken "sqm" [Cmd "set" "sqm" "eth1" "enabled" "1"]
    ("uci set sqm.eth1.enabled='1'" +:+ nl)); reflexivity.
Defined.

(** C35: [ParseMACList] returns a nonempty list of distinct canonical MACs, and
    reads back every such list however it is joined with quotes and blanks. *)
Theorem ParseMACList_roundtrip (raw sep : string) (macs : list string) :
  (ParseMACList raw = Ok macs →
   macs ≠ [] ∧ NoDup macs ∧ Forall (λ m, canonical_mac m = true) macs) ∧
  (str_forall (in_chars mac_seps) sep = true → sep ≠ "" →
   macs ≠ [] → NoDup macs → Forall (λ m, canonical_mac m = true) macs →
   ParseMACList (str_join sep macs) = Ok macs).
Proof. split; [apply ParseMACList_canonical | apply ParseMACList_join]. Qed.

Lemma ParseMACList_roundtrip_witness :
  ParseMACList (str_join "' '" ["AA:BB:CC:DD:EE:01"; "AA:BB:CC:DD:EE:02"]) =
    Ok ["AA:BB:CC:DD:EE:01"; "AA:BB:CC:DD:EE:02"].
Proof.
  apply (ParseMACList_roundtrip "" "' '" ["AA:BB:CC:DD:EE:01"; "AA:BB:CC:DD:EE:02"]);
    [reflexivity | discriminate | discriminate | by apply (bool_decide_unpack _) | repeat constructor].
Defined.

(** C37: [ValidateHealthTargets] fails when one target is neither an address nor a
    host name, and otherwise returns the targets without repetitions, in
    order. *)
Theorem ValidateHealthTargets_exact (targets : list string) :
  ValidateHealthTargets targets =
  if forallb health_target_ok targets then Ok (dedup_first targets)
  else Err (ErrText "invalid health check target").
Proof. apply ValidateHealthTargets_go_spec. Qed.

(** A raw command that passes [ValidRawUCICommand] (and is not an [uci add])
    is one [uci] invocation with literal words on the requested configuration;
    no operator or expansion remains in it. *)
Theorem raw_command_words (command config : string) :
  ValidRawUCICommand command config = true → has_prefix command "uci add " = false →
  ∃ words, sh_tokens command = Some (map TWord words) ∧ raw_meaning config words.
Proof. apply ValidRawUCICommand_meaning. Qed.

Lemma raw_command_words_witness :
  ∃ words, sh_tokens "uci set network.lan.ipaddr='10.0.0.1 #x'" = Some (map TWord words) ∧
           raw_meaning "network" words.
Proof. apply (raw_command_words "uci set network.lan.ipaddr='10.0.0.1 #x'" "network"); reflexivity. Defined.
