(* ===== verification/DeviceOperation.v ===== *)
(** [internal/services/device_operation.go] and [device_change_set.go]: the
    typed units of configuration change the controller delivers to a device,
    their validation, content hashes and identities. *)

From S2P Require Import Prelude GoStrings Sha256 Json GoNet Uci UciShell.

(** ** Data *)

(** A Go slice of strings whose nil value is told apart: [nil] is encoded as
    [null], an empty slice as [[]]. *)
Definition gslice := option (list string).
Definition elems (s : gslice) : list string := default [] s.
(** [append([]string(nil), s...)] *)
Definition append_nil (s : gslice) : gslice :=
  match elems s with [] => None | l => Some l end.

(** [DeviceOperationPlan] *)
Record DeviceOperationPlan := Plan {
  p_OperationID : string;
  p_PlanHash : string;
  p_Generation : Z;
  p_Config : string;
  p_Commands : list UciCommand;
  p_HealthChecks : gslice;
  p_AutoConfirm : bool
}.

(** [DeviceChangeOperation] and [DeviceChangeSet] *)
Record DeviceChangeOperation := ChangeOperation {
  o_OperationID : string;
  o_Config : string;
  o_Commands : list UciCommand;
  o_ObservedStateHash : string
}.
Record DeviceChangeSet := ChangeSet {
  cs_ChangeSetID : string;
  cs_DeviceID : string;
  cs_PlanHash : string;
  cs_Generation : Z;
  cs_Operations : list DeviceChangeOperation;
  cs_HealthChecks : gslice;
  cs_ConfirmationPolicy : string
}.

#[export] Instance DeviceChangeOperation_eq_dec : EqDecision DeviceChangeOperation.
Proof. solve_decision. Defined.
#[export] Instance DeviceChangeSet_eq_dec : EqDecision DeviceChangeSet.
Proof. solve_decision. Defined.

Definition ConfirmationLocalAuto : string := "local_auto".

(** ** Identities *)

Definition id_char (c : ascii) : bool := is_alnum c || in_chars "._-" c.
(** [validDeviceOperationID] *)
Definition validDeviceOperationID (id : string) : bool :=
  nonempty id && (String.length id <=? 128)%nat && str_forall id_char id.
(** [validDeviceOperationPlanHash] *)
Definition validDeviceOperationPlanHash (hash : string) : bool :=
  (String.length hash =? 64)%nat && str_forall is_hex hash.
(** [validDeviceChangeSetID] and [validDeviceChangeSetDeviceID] *)
Definition validDeviceChangeSetID (id : string) : bool := validDeviceOperationID id.
Definition device_id_char (c : ascii) : bool := id_char c || in_chars ":" c.
Definition validDeviceChangeSetDeviceID (id : string) : bool :=
  nonempty id && (String.length id <=? 50)%nat && str_forall device_id_char id.

(** The operating system's random source: sixteen bytes or an error. *)
Definition entropy := option (list N).
(** [newDeviceOperationID] and [newDeviceChangeSetID] *)
Definition new_id (prefix : string) (rand : entropy) : res string :=
  match rand with
  | Some bytes => Ok (prefix +:+ hex_encode (take 16 bytes))
  | None => Err ErrDriver
  end.
Definition newDeviceOperationID (rand : entropy) : res string := new_id "op-" rand.
Definition newDeviceChangeSetID (rand : entropy) : res string := new_id "cs-" rand.

(** ** Operations *)

(** [deviceOperationConfigs] *)
Definition deviceOperationConfigs : list string :=
  ["wireless"; "network"; "dhcp"; "firewall"; "dropbear"; "system"; "sqm"].

(** The [switch command.Action] of [ValidateDeviceOperation]. *)
Definition ValidateDeviceOperation_action (config : string) (command : UciCommand) : res unit :=
  let act a := Action command =? a in
  if act "set" || act "delete" || act "add_list" || act "del_list" || act "add" || act "rename" then Ok tt
  else if act "ensure_host" then
    fail_if (negb (config =? "dhcp")) (ErrText "ensure_host is only valid for DHCP operations")
  else if act "delete_all" then
    fail_if (negb (config =? "firewall") || negb (Sect command =? "redirect") ||
             nonempty (Opt command) || nonempty (Value command))
            (ErrText "delete_all is only valid for firewall redirects")
  else Err (ErrText "unsupported device operation action").

Fixpoint ValidateDeviceOperation_commands (config : string) (commands : list UciCommand) : res unit :=
  match commands with
  | [] => Ok tt
  | command :: commands =>
      let! _ := fail_if (negb (Config command =? config)) (ErrText "operation command crosses config namespace") in
      let! _ := ValidateDeviceOperation_action config command in
      let! _ := fail_if (translateCommand command =? "") (ErrText "invalid UCI command") in
      ValidateDeviceOperation_commands config commands
  end.

(** [ValidateDeviceOperation] *)
Definition ValidateDeviceOperation (config : string) (commands : list UciCommand) (healthChecks : gslice) : res unit :=
  let! _ := fail_if (negb (bool_decide (config ∈ deviceOperationConfigs))) (ErrText "invalid UCI config namespace") in
  let! _ := fail_if (bool_decide (commands = [])) (ErrText "empty device operation") in
  let! _ := fail_if ((config =? "network") && bool_decide (elems healthChecks = []))
                    (ErrText "network operations require at least one health check") in
  let! _ := ValidateHealthTargets (elems healthChecks) in
  ValidateDeviceOperation_commands config commands.

(** [ValidateDeviceOperationPlan] *)
Definition ValidateDeviceOperationPlan (plan : DeviceOperationPlan) : res unit :=
  let! _ := fail_if (negb (validDeviceOperationID (p_OperationID plan)) ||
                     negb (validDeviceOperationPlanHash (p_PlanHash plan)))
                    (ErrText "invalid operation identity") in
  let! _ := fail_if (p_Generation plan <? 0)%Z (ErrText "invalid operation generation") in
  ValidateDeviceOperation (p_Config plan) (p_Commands plan) (p_HealthChecks plan).

(** The JSON of commands and health checks. *)
Definition command_json (c : UciCommand) : json :=
  JObj [("action", JStr (Action c)); ("config", JStr (Config c)); ("section", JStr (Sect c));
        ("option", JStr (Opt c)); ("value", JStr (Value c))].
Definition slice_json (s : gslice) : json :=
  match s with None => JNull | Some l => JArr (map JStr l) end.

(** The canonical content that [NewDeviceOperationPlanForGeneration] hashes. *)
Definition operation_content (config : string) (commands : list UciCommand) (healthChecks : gslice)
    (autoConfirm : bool) : json :=
  JObj [("config", JStr config); ("commands", JArr (map command_json commands));
        ("health_checks", slice_json healthChecks); ("auto_confirm", JBool autoConfirm)].

(** [NewDeviceOperationPlanForGeneration] and [NewDeviceOperationPlan] *)
Definition NewDeviceOperationPlanForGeneration (generation : Z) (config : string) (commands : list UciCommand)
    (healthChecks : gslice) (autoConfirm : bool) (rand : entropy) : res DeviceOperationPlan :=
  let! _ := fail_if (generation <? 0)%Z (ErrText "operation generation cannot be negative") in
  let! _ := ValidateDeviceOperation config commands healthChecks in
  let hash := sha256_hex (json_text true (operation_content config commands healthChecks autoConfirm)) in
  match newDeviceOperationID rand with
  | Err e => Err (ErrWrap e "generate device operation id")
  | Ok operationID => Ok (Plan operationID hash generation config commands (append_nil healthChecks) autoConfirm)
  end.
Definition NewDeviceOperationPlan (config : string) (commands : list UciCommand) (healthChecks : gslice)
    (autoConfirm : bool) (rand : entropy) : res DeviceOperationPlan :=
  NewDeviceOperationPlanForGeneration 0 config commands healthChecks autoConfirm rand.

(** ** Change sets *)

(** [deviceChangeSetConfigAllowed] *)
Definition deviceChangeSetConfigs : list string := ["system"; "dhcp"; "firewall"; "dropbear"; "sqm"].
Definition deviceChangeSetConfigAllowed (config : string) : bool :=
  bool_decide (config ∈ deviceChangeSetConfigs).

(** [deviceChangeSetPlanHash] *)
Definition operation_json (o : DeviceChangeOperation) : json :=
  JObj [("config", JStr (o_Config o)); ("commands", JArr (map command_json (o_Commands o)));
        ("observed_state_hash", JStr (o_ObservedStateHash o))].
Definition change_set_content (operations : list DeviceChangeOperation) (healthChecks : gslice) (policy : string) : json :=
  JObj [("operations", JArr (map operation_json operations)); ("health_checks", slice_json healthChecks);
        ("confirmation_policy", JStr policy)].
Definition deviceChangeSetPlanHash (cs : DeviceChangeSet) : string :=
  sha256_hex (json_text false (change_set_content (cs_Operations cs) (cs_HealthChecks cs) (cs_ConfirmationPolicy cs))).

(** The loop over the operations in [ValidateDeviceChangeSet]. *)
Fixpoint ValidateDeviceChangeSet_operations (healthChecks : gslice) (seen : gset string)
    (operations : list DeviceChangeOperation) : res unit :=
  match operations with
  | [] => Ok tt
  | operation :: operations =>
      let! _ := fail_if (negb (validDeviceOperationID (o_OperationID operation)) ||
                         negb (deviceChangeSetConfigAllowed (o_Config operation)))
                        (ErrText "unsupported device change set namespace") in
      let! _ := fail_if (bool_decide (o_Config operation ∈ seen))
                        (ErrText "device change set contains duplicate namespace") in
      let! _ := fail_if (negb (validDeviceOperationPlanHash (o_ObservedStateHash operation)))
                        (ErrText "invalid observed state hash") in
      let! _ := ValidateDeviceOperation (o_Config operation) (o_Commands operation) healthChecks in
      ValidateDeviceChangeSet_operations healthChecks ({[o_Config operation]} ∪ seen) operations
  end.

(** [ValidateDeviceChangeSet] *)
Definition ValidateDeviceChangeSet (cs : DeviceChangeSet) : res unit :=
  let! _ := fail_if (negb (validDeviceChangeSetID (cs_ChangeSetID cs)) ||
                     negb (validDeviceOperationPlanHash (cs_PlanHash cs)))
                    (ErrText "invalid device change set identity") in
  let! _ := fail_if (negb (validDeviceChangeSetDeviceID (cs_DeviceID cs)))
                    (ErrText "invalid device change set device") in
  let! _ := fail_if (cs_Generation cs <? 0)%Z (ErrText "invalid device change set generation") in
  let! _ := fail_if (negb (cs_ConfirmationPolicy cs =? ConfirmationLocalAuto))
                    (ErrText "unsupported device change set confirmation policy") in
  let! _ := fail_if (bool_decide (cs_Operations cs = []) || (8 <? List.length (cs_Operations cs))%nat)
                    (ErrText "device change set must contain between one and eight operations") in
  let! _ := ValidateHealthTargets (elems (cs_HealthChecks cs)) in
  let! _ := ValidateDeviceChangeSet_operations (cs_HealthChecks cs) ∅ (cs_Operations cs) in
  fail_if (negb (deviceChangeSetPlanHash cs =? cs_PlanHash cs))
          (ErrText "device change set plan hash does not match content").

(** The common end of the constructors: set the hash, then validate. *)
Definition with_plan_hash (cs : DeviceChangeSet) : DeviceChangeSet :=
  ChangeSet (cs_ChangeSetID cs) (cs_DeviceID cs) (deviceChangeSetPlanHash cs) (cs_Generation cs)
            (cs_Operations cs) (cs_HealthChecks cs) (cs_ConfirmationPolicy cs).
Definition finish_change_set (cs : DeviceChangeSet) : res DeviceChangeSet :=
  let cs := with_plan_hash cs in
  let! _ := ValidateDeviceChangeSet cs in Ok cs.

(** [newDeviceChangeSetWithIDs] *)
Definition newDeviceChangeSetWithIDs (operationID changeSetID deviceID config : string) (commands : list UciCommand)
    (observedStateHash : string) (healthChecks : gslice) (policy : string) : res DeviceChangeSet :=
  finish_change_set (ChangeSet changeSetID deviceID "" 0
    [ChangeOperation operationID config commands observedStateHash] (append_nil healthChecks) policy).

(** [NewDeviceChangeSet] *)
Definition NewDeviceChangeSet (deviceID config : string) (commands : list UciCommand) (observedStateHash : string)
    (healthChecks : gslice) (policy : string) (rand_op rand_cs : entropy) : res DeviceChangeSet :=
  match newDeviceOperationID rand_op with
  | Err e => Err (ErrWrap e "generate device change operation id")
  | Ok operationID =>
      match newDeviceChangeSetID rand_cs with
      | Err e => Err (ErrWrap e "generate device change set id")
      | Ok changeSetID =>
          newDeviceChangeSetWithIDs operationID changeSetID deviceID config commands observedStateHash healthChecks policy
      end
  end.

Definition identity_seed (rolloutID deviceID : string) : string := to_lower rolloutID +:+ ":" +:+ to_lower deviceID.

(** [NewDeviceChangeSetForRollout] *)
Definition NewDeviceChangeSetForRollout (rolloutID deviceID config : string) (commands : list UciCommand)
    (observedStateHash : string) (healthChecks : gslice) (policy : string) : res DeviceChangeSet :=
  let seed := identity_seed rolloutID deviceID in
  newDeviceChangeSetWithIDs
    ("op-" +:+ sha256_hex16 ("device-operation:" +:+ seed))
    ("cs-" +:+ sha256_hex16 ("device-change-set:" +:+ seed))
    deviceID config commands observedStateHash healthChecks policy.

(** The identity loop of [NewDeviceChangeSetForRolloutOperations]. *)
Fixpoint rollout_operation_ids (seed : string) (index : Z) (operations : list DeviceChangeOperation)
    : list DeviceChangeOperation :=
  match operations with
  | [] => []
  | o :: operations =>
      ChangeOperation
        ("op-" +:+ sha256_hex16 ("device-operation:" +:+ seed +:+ ":" +:+ dec index +:+ ":" +:+ o_Config o))
        (o_Config o) (o_Commands o) (o_ObservedStateHash o)
      :: rollout_operation_ids seed (index + 1) operations
  end.

(** [NewDeviceChangeSetForRolloutOperations] *)
Definition NewDeviceChangeSetForRolloutOperations (rolloutID deviceID : string)
    (operations : list DeviceChangeOperation) (healthChecks : gslice) (policy : string) : res DeviceChangeSet :=
  let seed := identity_seed rolloutID deviceID in
  finish_change_set (ChangeSet
    ("cs-" +:+ sha256_hex16 ("device-change-set:" +:+ seed)) deviceID "" 0
    (rollout_operation_ids seed 0 operations) (append_nil healthChecks) policy).

(** The documents [json.Marshal] gives for the two units ([omitempty] drops a
    zero generation and an empty list of health checks). *)
Definition omit_zero (key : string) (z : Z) : list (string * json) :=
  if (z =? 0)%Z then [] else [(key, JInt z)].
Definition omit_empty (key : string) (s : gslice) : list (string * json) :=
  match elems s with [] => [] | l => [(key, JArr (map JStr l))] end.
Definition plan_json (p : DeviceOperationPlan) : json :=
  json_coerce (JObj ([("operation_id", JStr (p_OperationID p)); ("plan_hash", JStr (p_PlanHash p))] ++
    omit_zero "generation" (p_Generation p) ++
    [("config", JStr (p_Config p)); ("commands", JArr (map command_json (p_Commands p)))] ++
    omit_empty "health_checks" (p_HealthChecks p) ++ [("auto_confirm", JBool (p_AutoConfirm p))]))%list.
Definition change_operation_json (o : DeviceChangeOperation) : json :=
  JObj [("operation_id", JStr (o_OperationID o)); ("config", JStr (o_Config o));
        ("commands", JArr (map command_json (o_Commands o)));
        ("observed_state_hash", JStr (o_ObservedStateHash o))].
Definition change_set_json (cs : DeviceChangeSet) : json :=
  json_coerce (JObj ([("change_set_id", JStr (cs_ChangeSetID cs)); ("device_id", JStr (cs_DeviceID cs));
    ("plan_hash", JStr (cs_PlanHash cs))] ++ omit_zero "generation" (cs_Generation cs) ++
    [("operations", JArr (map change_operation_json (cs_Operations cs)))] ++
    omit_empty "health_checks" (cs_HealthChecks cs) ++
    [("confirmation_policy", JStr (cs_ConfirmationPolicy cs))]))%list.
