(* ===== verification/DeviceOperationFacts.v ===== *)
(** What the constructors and validators of [DeviceOperation] guarantee: the
    units they return are valid, their identities are stable, and every command
    in them renders to a safe [uci] invocation of its own namespace. *)

From S2P Require Import Prelude GoStrings Sha256 Json GoNet Uci UciShell DeviceOperation.

(** ** Identities *)

Lemma is_hex_id c : is_hex c = true → id_char c = true.
Proof. destruct c as [[] [] [] [] [] [] [] []]; intros Hc; vm_compute in Hc |- *; done. Qed.

Lemma id_char_device c : id_char c = true → device_id_char c = true.
Proof. unfold device_id_char. by intros ->. Qed.

Lemma hashed_id_valid prefix hex :
  str_forall id_char prefix = true → nonempty prefix = true → (String.length prefix <= 8)%nat →
  str_forall is_hex hex = true → (String.length hex <= 64)%nat →
  validDeviceOperationID (prefix +:+ hex) = true.
Proof.
  intros Hp Hn Hl Hh Hl'. unfold validDeviceOperationID.
  rewrite str_app_length, str_forall_app, Hp, (str_forall_impl _ _ _ is_hex_id Hh).
  assert (nonempty (prefix +:+ hex) = true) as -> by (destruct prefix; done).
  rewrite andb_true_r. cbn [andb]. apply Nat.leb_le. lia.
Qed.

Lemma new_id_valid prefix bytes :
  str_forall id_char prefix = true → nonempty prefix = true → (String.length prefix <= 8)%nat →
  Forall (λ b, (b < 256)%N) bytes →
  ∃ id, new_id prefix (Some bytes) = Ok id ∧ validDeviceOperationID id = true.
Proof.
  intros Hp Hn Hl Hb. eexists; split; [done|]. apply hashed_id_valid; [done..| |].
  - apply hex_encode_hex. by apply Forall_take.
  - rewrite hex_encode_length, length_take. lia.
Qed.

Lemma plan_hash_valid msg : validDeviceOperationPlanHash (sha256_hex msg) = true.
Proof. unfold validDeviceOperationPlanHash. by rewrite sha256_hex_length, sha256_hex_hex. Qed.

Lemma rollout_id_valid prefix msg :
  str_forall id_char prefix = true → nonempty prefix = true → (String.length prefix <= 8)%nat →
  validDeviceOperationID (prefix +:+ sha256_hex16 msg) = true.
Proof.
  intros. apply hashed_id_valid; [done..| |].
  - apply sha256_hex16_hex.
  - rewrite sha256_hex16_length. lia.
Qed.

(** ** Operations *)

Lemma append_nil_elems hc : elems (append_nil hc) = elems hc.
Proof. unfold append_nil. by destruct (elems hc). Qed.

Lemma ValidateDeviceOperation_elems config commands hc hc' :
  elems hc = elems hc' → ValidateDeviceOperation config commands hc = ValidateDeviceOperation config commands hc'.
Proof. unfold ValidateDeviceOperation. by intros ->. Qed.

(** The actions the device executes, and those restricted to one namespace. *)
Definition operation_action_ok (config : string) (c : UciCommand) : Prop :=
  Action c ∈ ["set"; "delete"; "add_list"; "del_list"; "add"; "rename"] ∨
  (Action c = "ensure_host" ∧ config = "dhcp") ∨
  (Action c = "delete_all" ∧ config = "firewall" ∧ Sect c = "redirect" ∧ Opt c = "" ∧ Value c = "").

Lemma ValidateDeviceOperation_action_spec config c :
  ValidateDeviceOperation_action config c = Ok tt ↔ operation_action_ok config c.
Proof.
  unfold ValidateDeviceOperation_action, operation_action_ok.
  destruct (_ || _) eqn:E.
  { split; [intros _; left | done]. rewrite !orb_true_iff, !String.eqb_eq in E. set_solver. }
  bools.
  assert (Action c ∉ ["set"; "delete"; "add_list"; "del_list"; "add"; "rename"]) as Hnot by set_solver.
  destruct (String.eqb_spec (Action c) "ensure_host") as [Ha|Hen].
  { unfold fail_if. destruct (String.eqb_spec config "dhcp"); cbn; split; try done.
    - intros _. right. by left.
    - intros [?|[[_ ?]|[? _]]]; try done; congruence. }
  destruct (String.eqb_spec (Action c) "delete_all") as [Ha|Hda].
  2:{ split; [done|]. tauto. }
  unfold nonempty, fail_if.
  destruct (String.eqb_spec config "firewall"), (String.eqb_spec (Sect c) "redirect"),
    (String.eqb_spec (Opt c) ""), (String.eqb_spec (Value c) ""); cbn; split; try done; intros; try tauto.
  all: exfalso; naive_solver.
Qed.

Definition operation_commands_ok (config : string) (commands : list UciCommand) : Prop :=
  Forall (λ c, Config c = config ∧ operation_action_ok config c ∧ translateCommand c ≠ "") commands.

Lemma ValidateDeviceOperation_commands_spec config commands :
  ValidateDeviceOperation_commands config commands = Ok tt ↔ operation_commands_ok config commands.
Proof.
  unfold operation_commands_ok. induction commands as [|c commands IH]; [by split; [constructor|]|].
  cbn [ValidateDeviceOperation_commands]. rewrite Forall_cons, <- IH, <- ValidateDeviceOperation_action_spec.
  destruct (String.eqb_spec (Config c) config); cbn; [|naive_solver].
  destruct (ValidateDeviceOperation_action config c) as [[]|]; cbn; [|naive_solver].
  destruct (String.eqb_spec (translateCommand c) ""); cbn; naive_solver.
Qed.

(** What [ValidateDeviceOperation] accepts. *)
Definition operation_ok (config : string) (commands : list UciCommand) (targets : list string) : Prop :=
  config ∈ deviceOperationConfigs ∧ commands ≠ [] ∧ (config = "network" → targets ≠ []) ∧
  Forall (λ t, health_target_ok t = true) targets ∧ operation_commands_ok config commands.

Lemma ValidateHealthTargets_ok targets :
  is_ok (ValidateHealthTargets targets) = true ↔ Forall (λ t, health_target_ok t = true) targets.
Proof.
  unfold ValidateHealthTargets. rewrite ValidateHealthTargets_go_spec.
  destruct (forallb health_target_ok targets) eqn:E; cbn.
  - split; [|done]. intros _. apply Forall_forall. rewrite forallb_forall in E.
    intros x Hx. apply E. by apply list_elem_of_In.
  - split; [done|]. intros Hall. exfalso. apply not_true_iff_false in E. apply E, forallb_forall.
    rewrite Forall_forall in Hall. intros x Hx. apply Hall. by apply list_elem_of_In.
Qed.

Lemma ValidateDeviceOperation_spec config commands hc :
  ValidateDeviceOperation config commands hc = Ok tt ↔ operation_ok config commands (elems hc).
Proof.
  unfold ValidateDeviceOperation, operation_ok, fail_if.
  rewrite <- ValidateDeviceOperation_commands_spec, <- ValidateHealthTargets_ok.
  destruct (bool_decide_reflect (config ∈ deviceOperationConfigs)); cbn; [|naive_solver].
  destruct (bool_decide_reflect (commands = [])); cbn; [naive_solver|].
  assert ((config =? "network") && bool_decide (elems hc = []) = false ↔ (config = "network" → elems hc ≠ [])) as Hn.
  { rewrite andb_false_iff, String.eqb_neq, bool_decide_eq_false.
    destruct (decide (config = "network")); naive_solver. }
  rewrite <- Hn. destruct (_ && _); cbn; [naive_solver|].
  destruct (ValidateHealthTargets (elems hc)); cbn; naive_solver.
Qed.

Lemma NewPlan_spec g config commands hc auto bytes p :
  Forall (λ b, (b < 256)%N) bytes →
  NewDeviceOperationPlanForGeneration g config commands hc auto (Some bytes) = Ok p →
  ValidateDeviceOperationPlan p = Ok tt ∧ p_Generation p = g ∧ p_Config p = config ∧ p_Commands p = commands ∧
  elems (p_HealthChecks p) = elems hc ∧ p_AutoConfirm p = auto ∧
  p_PlanHash p = sha256_hex (json_text true (operation_content config commands hc auto)).
Proof.
  intros Hb H. unfold NewDeviceOperationPlanForGeneration in H.
  destruct (new_id_valid "op-" bytes) as (id & Hid & Hv); [done..|vm_compute; lia|done|].
  unfold newDeviceOperationID in H. rewrite Hid in H.
  unfold fail_if in H. destruct (g <? 0)%Z eqn:Eg; [done|]. cbn [res_bind] in H.
  destruct (ValidateDeviceOperation config commands hc) as [[]|] eqn:Ev; [|done]. cbn [res_bind] in H.
  injection H as <-. cbn. rewrite append_nil_elems.
  split; [|done]. unfold ValidateDeviceOperationPlan. cbn. rewrite Hv, plan_hash_valid, Eg. cbn.
  rewrite (ValidateDeviceOperation_elems _ _ _ hc); [done | by apply append_nil_elems].
Qed.

Lemma NewPlan_total g config commands hc auto bytes :
  is_ok (NewDeviceOperationPlanForGeneration g config commands hc auto (Some bytes)) =
  (0 <=? g)%Z && is_ok (ValidateDeviceOperation config commands hc).
Proof.
  unfold NewDeviceOperationPlanForGeneration, fail_if. rewrite Z.leb_antisym.
  destruct (g <? 0)%Z; [done|]. cbn [res_bind negb andb].
  by destruct (ValidateDeviceOperation config commands hc).
Qed.

(** ** Change sets *)

Definition change_operation_ok (targets : list string) (o : DeviceChangeOperation) : Prop :=
  validDeviceOperationID (o_OperationID o) = true ∧ o_Config o ∈ deviceChangeSetConfigs ∧
  validDeviceOperationPlanHash (o_ObservedStateHash o) = true ∧ operation_ok (o_Config o) (o_Commands o) targets.

Lemma ValidateDeviceChangeSet_operations_spec hc seen operations :
  ValidateDeviceChangeSet_operations hc seen operations = Ok tt ↔
  Forall (change_operation_ok (elems hc)) operations ∧
  NoDup (map o_Config operations) ∧ (∀ o, o ∈ operations → o_Config o ∉ seen).
Proof.
  revert seen. induction operations as [|o operations IH]; intros seen.
  { split; [|done]. intros _. split; [constructor|]. split; [constructor | set_solver]. }
  cbn [ValidateDeviceChangeSet_operations map]. unfold fail_if.
  rewrite Forall_cons, NoDup_cons. unfold change_operation_ok at 1.
  rewrite <- ValidateDeviceOperation_spec. unfold deviceChangeSetConfigAllowed.
  destruct (validDeviceOperationID (o_OperationID o)); cbn; [|naive_solver].
  destruct (bool_decide_reflect (o_Config o ∈ deviceChangeSetConfigs)); cbn; [|naive_solver].
  destruct (bool_decide_reflect (o_Config o ∈ seen)) as [Hs|Hs]; cbn; [set_solver|].
  destruct (validDeviceOperationPlanHash (o_ObservedStateHash o)); cbn; [|naive_solver].
  destruct (ValidateDeviceOperation (o_Config o) (o_Commands o) hc) as [[]|]; cbn; [|naive_solver].
  rewrite IH. split.
  - intros (Hall & Hnd & Hseen). repeat split; [done..| |done|].
    + intros (o' & Ho' & Hin)%list_elem_of_fmap. specialize (Hseen o' Hin). set_solver.
    + intros o' [->|Hin]%elem_of_cons; [done|]. specialize (Hseen o' Hin). set_solver.
  - intros ((_ & Hall) & (Hn & Hnd) & Hseen). repeat split; [done..|].
    intros o' Hin. pose proof (Hseen o' ltac:(by right)).
    assert (o_Config o' ≠ o_Config o) by (intros He; apply Hn; rewrite <- He; by apply list_elem_of_fmap_2).
    set_solver.
Qed.

(** What [ValidateDeviceChangeSet] accepts. *)
Record change_set_ok (cs : DeviceChangeSet) : Prop := {
  ok_id : validDeviceChangeSetID (cs_ChangeSetID cs) = true;
  ok_device : validDeviceChangeSetDeviceID (cs_DeviceID cs) = true;
  ok_generation : (0 ≤ cs_Generation cs)%Z;
  ok_policy : cs_ConfirmationPolicy cs = ConfirmationLocalAuto;
  ok_count : (1 ≤ List.length (cs_Operations cs) ≤ 8)%nat;
  ok_targets : Forall (λ t, health_target_ok t = true) (elems (cs_HealthChecks cs));
  ok_operations : Forall (change_operation_ok (elems (cs_HealthChecks cs))) (cs_Operations cs);
  ok_namespaces : NoDup (map o_Config (cs_Operations cs));
  ok_hash : cs_PlanHash cs = deviceChangeSetPlanHash cs
}.

Lemma ValidateDeviceChangeSet_spec cs : ValidateDeviceChangeSet cs = Ok tt ↔ change_set_ok cs.
Proof.
  unfold ValidateDeviceChangeSet, fail_if. split.
  - intros H.
    destruct (validDeviceChangeSetID (cs_ChangeSetID cs)) eqn:E1; [|done]. cbn [negb orb res_bind] in H.
    destruct (validDeviceOperationPlanHash (cs_PlanHash cs)) eqn:E2; [|done]. cbn [negb orb res_bind] in H.
    destruct (validDeviceChangeSetDeviceID (cs_DeviceID cs)) eqn:E3; [|done]. cbn [negb orb res_bind] in H.
    destruct (cs_Generation cs <? 0)%Z eqn:E4; cbn [negb orb res_bind] in H; [done|].
    destruct (String.eqb_spec (cs_ConfirmationPolicy cs) ConfirmationLocalAuto) as [E5|]; [|done]. cbn [negb orb res_bind] in H.
    destruct (bool_decide_reflect (cs_Operations cs = [])); cbn [negb orb res_bind] in H; [done|].
    destruct (8 <? List.length (cs_Operations cs))%nat eqn:E6; cbn [negb orb res_bind] in H; [done|].
    destruct (ValidateHealthTargets (elems (cs_HealthChecks cs))) eqn:E7; [|done]. cbn [negb orb res_bind] in H.
    destruct (ValidateDeviceChangeSet_operations _ ∅ _) as [[]|] eqn:E8; [|done]. cbn [negb orb res_bind] in H.
    destruct (String.eqb_spec (deviceChangeSetPlanHash cs) (cs_PlanHash cs)); [|done].
    apply ValidateDeviceChangeSet_operations_spec in E8 as (? & ? & _). bools.
    split; try done.
    + destruct (cs_Operations cs); [done|]. cbn in *. lia.
    + apply ValidateHealthTargets_ok. by rewrite E7.
  - intros [H1 H2 H3 H4 H5 H6 H7 H8 H9].
    assert (validDeviceOperationPlanHash (cs_PlanHash cs) = true) as E2 by (rewrite H9; apply plan_hash_valid).
    assert ((cs_Generation cs <? 0)%Z = false) as E4 by (by apply Z.ltb_ge).
    assert (bool_decide (cs_Operations cs = []) = false) as E5.
    { apply bool_decide_eq_false. intros He. rewrite He in H5. cbn in H5. lia. }
    assert ((8 <? List.length (cs_Operations cs))%nat = false) as E6 by (apply Nat.ltb_ge; lia).
    assert (ValidateDeviceChangeSet_operations (cs_HealthChecks cs) ∅ (cs_Operations cs) = Ok tt) as E8
      by (apply ValidateDeviceChangeSet_operations_spec; set_solver).
    apply ValidateHealthTargets_ok in H6. destruct (ValidateHealthTargets _) as [l|] eqn:E7; [|done].
    rewrite H1, E2, H2, E4, H4, E5, E6, E8, String.eqb_refl. cbn [negb orb res_bind].
    by rewrite <- H9, String.eqb_refl.
Qed.

(** ** Constructors *)

Lemma finish_change_set_ok cs cs' :
  finish_change_set cs = Ok cs' ↔ cs' = with_plan_hash cs ∧ change_set_ok cs'.
Proof.
  unfold finish_change_set. rewrite <- ValidateDeviceChangeSet_spec.
  destruct (ValidateDeviceChangeSet (with_plan_hash cs)) as [[]|] eqn:E; cbn.
  - split; [by intros [= <-] | by intros [-> _]].
  - split; [done|]. intros [-> H]. congruence.
Qed.

(** The content of an operation, without its identity. *)
Definition operation_body (o : DeviceChangeOperation) : string * list UciCommand * string :=
  (o_Config o, o_Commands o, o_ObservedStateHash o).

Lemma rollout_operation_ids_body seed i operations :
  map operation_body (rollout_operation_ids seed i operations) = map operation_body operations.
Proof. revert i. induction operations as [|o l IH]; intros i; [done|]. cbn. by rewrite IH. Qed.

Lemma rollout_operation_ids_valid seed i operations :
  Forall (λ o, validDeviceOperationID (o_OperationID o) = true) (rollout_operation_ids seed i operations).
Proof.
  revert i. induction operations as [|o l IH]; intros i; [constructor|]. cbn.
  constructor; [|done]. apply rollout_id_valid; [done..|vm_compute; lia].
Qed.

Definition commands_of (cs : DeviceChangeSet) : list UciCommand :=
  concat (map o_Commands (cs_Operations cs)).

(** In a valid change set every command renders, inside its own namespace. *)
Lemma change_set_commands cs o c :
  change_set_ok cs → o ∈ cs_Operations cs → c ∈ o_Commands o →
  Config c = o_Config o ∧ o_Config o ∈ deviceChangeSetConfigs ∧ translateCommand c ≠ "" ∧
  operation_action_ok (o_Config o) c.
Proof.
  intros Hok Ho Hc. pose proof (ok_operations _ Hok) as Hall. rewrite Forall_forall in Hall.
  destruct (Hall o Ho) as (_ & Hns & _ & Hop). destruct Hop as (_ & _ & _ & _ & Hcmds).
  unfold operation_commands_ok in Hcmds. rewrite Forall_forall in Hcmds.
  by destruct (Hcmds c Hc) as (? & ? & ?).
Qed.

(** ** Properties *)

(** A device operation plan is built exactly from a non-negative generation
    and a valid operation; the plan is then valid as delivered, carries the given
    content unchanged, and its hash is a function of the content alone. *)
Theorem NewDeviceOperationPlan_exact (g : Z) (config : string) (commands : list UciCommand) (hc : gslice)
    (auto : bool) (bytes : list N) :
  Forall (λ b, (b < 256)%N) bytes →
  is_ok (NewDeviceOperationPlanForGeneration g config commands hc auto (Some bytes)) =
    (0 <=? g)%Z && is_ok (ValidateDeviceOperation config commands hc) ∧
  ∀ p, NewDeviceOperationPlanForGeneration g config commands hc auto (Some bytes) = Ok p →
    ValidateDeviceOperationPlan p = Ok tt ∧ p_Generation p = g ∧ p_Config p = config ∧ p_Commands p = commands ∧
    elems (p_HealthChecks p) = elems hc ∧ p_AutoConfirm p = auto ∧
    p_PlanHash p = sha256_hex (json_text true (operation_content config commands hc auto)).
Proof. intros Hb. split; [apply NewPlan_total|]. intros p. by apply NewPlan_spec. Qed.

Lemma NewDeviceOperationPlan_exact_witness :
  is_ok (NewDeviceOperationPlanForGeneration 3 "dhcp" [Cmd "set" "dhcp" "lan" "start" "100"] None true
    (Some (replicate 16 7%N))) = true.
Proof.
  rewrite (proj1 (NewDeviceOperationPlan_exact 3 "dhcp" [Cmd "set" "dhcp" "lan" "start" "100"] None true
    (replicate 16 7%N) ltac:(by apply (bool_decide_unpack _)))).
  vm_compute. reflexivity.
Defined.

(** C39: [ValidateDeviceChangeSet] accepts exactly the well-formed change sets:
    valid identities, the local policy, one to eight operations on distinct
    allowed namespaces, every command rendering inside its operation's namespace,
    valid targets, and the hash of its own content. *)
Theorem ValidateDeviceChangeSet_exact (cs : DeviceChangeSet) :
  ValidateDeviceChangeSet cs = Ok tt ↔ change_set_ok cs.
Proof. apply ValidateDeviceChangeSet_spec. Qed.

(** The change set of a rollout for one device is valid, keeps the operations'
    contents in order, and its identities and hash do not depend on the letter case
    in which the rollout and the device are named, so a retried apply yields the
    same unit of work. *)
Theorem rollout_change_set_stable (rollout rollout' device device' : string)
    (operations : list DeviceChangeOperation) (hc : gslice) (policy : string) (cs cs' : DeviceChangeSet) :
  to_lower rollout = to_lower rollout' → to_lower device = to_lower device' →
  NewDeviceChangeSetForRolloutOperations rollout device operations hc policy = Ok cs →
  NewDeviceChangeSetForRolloutOperations rollout' device' operations hc policy = Ok cs' →
  change_set_ok cs ∧ map operation_body (cs_Operations cs) = map operation_body operations ∧
  cs_DeviceID cs = device ∧ elems (cs_HealthChecks cs) = elems hc ∧
  cs_ChangeSetID cs' = cs_ChangeSetID cs ∧ cs_Operations cs' = cs_Operations cs ∧ cs_PlanHash cs' = cs_PlanHash cs.
Proof.
  unfold NewDeviceChangeSetForRolloutOperations, identity_seed. intros -> ->.
  rewrite !finish_change_set_ok. intros [-> Hok] [-> _]. cbn.
  rewrite rollout_operation_ids_body, append_nil_elems. done.
Qed.

Definition example_operations : list DeviceChangeOperation :=
  [ChangeOperation "" "dhcp" [Cmd "set" "dhcp" "lan" "start" "100"] (concat_strings (replicate 64 "a"))].
Definition example_rollout : string := "a0eebc99-9c0b-4ef8-bb6d-6bb9bd380a11".
Definition result_or {A} (d : A) (r : res A) : A := match r with Ok a => a | Err _ => d end.
Definition zero_change_set : DeviceChangeSet := ChangeSet "" "" "" 0 [] None "".

Lemma rollout_change_set_stable_witness :
  let mk r d := result_or zero_change_set
    (NewDeviceChangeSetForRolloutOperations r d example_operations None ConfirmationLocalAuto) in
  cs_ChangeSetID (mk example_rollout "ap-1") = cs_ChangeSetID (mk (to_upper example_rollout) "AP-1").
Proof.
  intros mk.
  destruct (rollout_change_set_stable example_rollout (to_upper example_rollout) "ap-1" "AP-1" example_operations None
    ConfirmationLocalAuto (mk example_rollout "ap-1") (mk (to_upper example_rollout) "AP-1"))
    as (_ & _ & _ & _ & He & _); [vm_compute; reflexivity..|].
  symmetry. exact He.
Defined.
