(* ===== verification/Store.v ===== *)
(** The tenant database the Go code works on: the rows it reads and writes, SQL's
    three-valued logic and uuids, and statements as state transformers that the
    driver can make fail.

    One tenant schema is modelled; an operation first checks the schema name it
    is given ([SafeSchemaIdent]).  [CURRENT_TIMESTAMP] is the time of the call,
    in microseconds.  A value of type [faults] says, for each statement that is
    still to be executed, whether the driver reports an error for it. *)

From S2P Require Import Prelude GoStrings Json.

(** ** Three-valued logic *)

(** [None] is SQL's unknown. *)
Definition tri := option bool.
Definition tri_and (a b : tri) : tri :=
  match a, b with
  | Some false, _ | _, Some false => Some false
  | Some true, Some true => Some true
  | _, _ => None
  end.
Definition tri_or (a b : tri) : tri :=
  match a, b with
  | Some true, _ | _, Some true => Some true
  | Some false, Some false => Some false
  | _, _ => None
  end.
Definition tri_not (a : tri) : tri := negb <$> a.
(** A condition selects a row, or a [CASE] branch, when it is true. *)
Definition holds (a : tri) : bool := match a with Some b => b | None => false end.

Declare Scope sql_scope.
Delimit Scope sql_scope with sql.
Infix "AND" := tri_and (at level 40, left associativity) : sql_scope.
Infix "OR" := tri_or (at level 50, left associativity) : sql_scope.
Notation "'NOT' a" := (tri_not a) (at level 30, right associativity) : sql_scope.
Definition fact (b : bool) : tri := Some b.
(** [a = b] on texts. *)
Definition text_eq (a b : option string) : tri := x ← a; y ← b; Some (x =? y).
Notation "a '==' b" := (text_eq a b) (at level 35) : sql_scope.
Definition coalesce (a : option string) (d : string) : string := default d a.
(** [j->>'key'] on a nullable column. *)
Definition col_text (key : string) (j : option json) : option string := j ≫= jsonb_field_text key.
Definition is_null {A} (a : option A) : tri := Some (match a with None => true | _ => false end).
(** [a IN (...)] for a text that is not NULL. *)
Definition text_in (a : string) (l : list string) : bool := existsb (String.eqb a) l.

Lemma holds_and a b : holds (tri_and a b) = holds a && holds b.
Proof. by destruct a as [[]|], b as [[]|]. Qed.
Lemma holds_or a b : holds (tri_or a b) = holds a || holds b.
Proof. by destruct a as [[]|], b as [[]|]. Qed.
Lemma holds_fact b : holds (fact b) = b.
Proof. done. Qed.
Lemma holds_text_eq a b : holds (text_eq a (Some b)) = bool_decide (a = Some b).
Proof.
  destruct a as [a|]; [|done]. cbn. destruct (String.eqb_spec a b) as [->|].
  - by rewrite bool_decide_eq_true_2.
  - rewrite bool_decide_eq_false_2 by congruence. done.
Qed.

(** ** Values *)

(** PostgreSQL's [jsonb] input: no NUL character in a string or a key. *)
Definition no_nul (s : string) : bool := str_forall (λ c, negb (Ascii.eqb c "000")) s.
Fixpoint jsonb_accepts (j : json) : bool :=
  match j with
  | JStr s => no_nul s
  | JArr l => forallb jsonb_accepts l
  | JObj l => forallb (λ kv, no_nul kv.1 && jsonb_accepts kv.2) l
  | _ => true
  end.
Definition jsonb_in (j : json) : option json :=
  if jsonb_accepts j then Some (jsonb_of j) else None.

(** The uuid type: sixteen bytes in hexadecimal, braces optional, a hyphen
    allowed after every four digits; the output form is the canonical one. *)
Fixpoint uuid_digits (groups : nat) (s : string) : option (list string * string) :=
  match groups with
  | O => Some ([], s)
  | S groups =>
      match s with
      | String a (String b (String c (String d r))) =>
          if str_forall is_hex (String a (String b (String c (String d "")))) then
            let r := match r with
                     | String "-" r' => match groups with O => r | _ => r' end
                     | _ => r
                     end in
            '(gs, r) ← uuid_digits groups r; Some (to_lower (String a (String b (String c (String d "")))) :: gs, r)
          else None
      | _ => None
      end
  end.
Definition uuid_in (s : string) : option string :=
  let body := match s with String "{" r => strip_prefix "}" (str_rev r) ≫= λ r, Some (str_rev r) | _ => Some s end in
  b ← body;
  match uuid_digits 8 b with
  | Some ([a; b; c; d; e; f; g; h], "") =>
      Some (a +:+ b +:+ "-" +:+ c +:+ "-" +:+ d +:+ "-" +:+ e +:+ "-" +:+ f +:+ g +:+ h)
  | _ => None
  end.

Example uuid_in_example :
  uuid_in "{A0EEBC99-9C0B-4EF8-BB6D-6BB9BD380A11}" = Some "a0eebc99-9c0b-4ef8-bb6d-6bb9bd380a11" ∧
  uuid_in "a0eebc999c0b4ef8bb6d6bb9bd380a11" = Some "a0eebc99-9c0b-4ef8-bb6d-6bb9bd380a11" ∧
  uuid_in "rollout-1" = None.
Proof. by vm_compute. Qed.

Definition minutes (n : Z) : Z := n * 60000000.

(** ** Rows *)

(** [devices], the columns of the configuration protocol. *)
Record device_row := Device {
  d_site_id : option string;
  d_device_role : option string;
  d_capabilities : option json;
  d_desired : Z;
  d_observed : Z;
  d_last_successful : Z;
  d_pending_operation : option json;
  d_last_operation : option json;
  d_pending_change_set : option json;
  d_last_change_set : option json;
  d_rollout_status : option string;
  d_rollout_at : option Z;
  d_health_check_at : option Z;
  d_updated_at : option Z
}.

(** [rollout_runs] *)
Record rollout_row := Rollout {
  r_site_id : string;
  r_generation : Z;
  r_status : string;
  r_claim_token : option string;
  r_worker_token : option string;
  r_worker_lease_until : option Z;
  r_worker_cursor : Z;
  r_plan_hash : string;
  r_requested_by : string;
  r_target_device_ids : json;
  r_plan : json;
  r_results : json;
  r_updated_at : Z
}.

(** One entry of the audit log. *)
Record audit_row := Audit {
  a_username : string;
  a_action : string;
  a_resource_type : string;
  a_resource_id : string;
  a_payload : string;
  a_ip_addr : string
}.

Record tenant := Tenant {
  sites : gset string;
  devices : gmap string device_row;
  rollout_runs : gmap string rollout_row;
  audit_logs : list audit_row
}.
Definition set_devices (f : gmap string device_row → gmap string device_row) (t : tenant) : tenant :=
  Tenant (sites t) (f (devices t)) (rollout_runs t) (audit_logs t).
Definition set_rollouts (f : gmap string rollout_row → gmap string rollout_row) (t : tenant) : tenant :=
  Tenant (sites t) (devices t) (f (rollout_runs t)) (audit_logs t).
Definition add_audit (a : audit_row) (t : tenant) : tenant :=
  Tenant (sites t) (devices t) (rollout_runs t) (audit_logs t ++ [a])%list.

(** ** Computations on the database *)

Record world := World { tn : tenant; faults : list bool }.
Definition set_tenant (t : tenant) (w : world) : world := World t (faults w).

(** A Go function with a [context] and an [error] result. *)
Definition M (A : Type) := world → res A * world.
Definition mret {A} (a : A) : M A := λ w, (Ok a, w).
Definition mfail {A} (e : gerror) : M A := λ w, (Err e, w).
Definition mbind_ {A B} (m : M A) (k : A → M B) : M B := λ w,
  match m w with
  | (Ok a, w) => k a w
  | (Err e, w) => (Err e, w)
  end.
(** [m] with its error handled by [h]: the code looks at [err] itself. *)
Definition mtry {A B} (m : M A) (k : res A → M B) : M B := λ w, let '(r, w) := m w in k r w.
Definition lift {A} (r : res A) : M A := λ w, (r, w).

Notation "'let*' x ':=' m 'in' k" := (mbind_ m (fun x => k))
  (at level 10, x name, m at level 100, k at level 200) : go_scope.
Notation "'let*' ' p ':=' m 'in' k" := (mbind_ m (fun p => k))
  (at level 10, p strict pattern, m at level 100, k at level 200) : go_scope.

(** One SQL statement: the driver may report an error before it has any effect;
    otherwise it computes a result from the tenant's tables. *)
Definition statement {A} (f : tenant → res (A * tenant)) : M A := λ w,
  match faults w with
  | true :: fs => (Err ErrDriver, World (tn w) fs)
  | _ =>
      match f (tn w) with
      | Ok (a, t) => (Ok a, World t (tl (faults w)))
      | Err e => (Err e, World (tn w) (tl (faults w)))
      end
  end.
Definition query {A} (f : tenant → res A) : M A :=
  statement (λ t, let! a := f t in Ok (a, t)).

(** [BeginTx], the body, [Commit] on success and [Rollback] otherwise; both ends
    are statements that can fail, and a failed commit leaves the tables as they
    were. *)
Definition transaction {A} (body : M A) : M A := λ w,
  match statement (λ t, Ok (tt, t)) w with
  | (Err e, w) => (Err e, w)
  | (Ok _, w1) =>
      match body w1 with
      | (Err e, w2) => (Err e, World (tn w1) (faults w2))
      | (Ok a, w2) =>
          match statement (λ t, Ok (tt, t)) w2 with
          | (Ok _, w3) => (Ok a, w3)
          | (Err e, w3) => (Err e, World (tn w1) (faults w3))
          end
      end
  end.

Lemma transaction_err {A} (body : M A) w e w' :
  transaction body w = (Err e, w') → tn w' = tn w.
Proof.
  unfold transaction, statement. destruct (faults w) as [|[] fs].
  all: cbn; try (by intros [= <- <-]).
  all: destruct (body _) as [[a|e'] w2] eqn:E; cbn.
  all: try (intros [= <- <-]; done).
  all: destruct (faults w2) as [|[] fs2]; cbn; try discriminate.
  all: by intros [= <- <-].
Qed.

(** A successful transaction ran its body without a fault around it. *)
Lemma transaction_ok {A} (body : M A) w a w' :
  transaction body w = (Ok a, w') →
  ∃ w2, body (World (tn w) (tl (faults w))) = (Ok a, w2) ∧ tn w' = tn w2.
Proof.
  unfold transaction, statement. destruct (faults w) as [|[] fs]; cbn; try discriminate.
  all: destruct (body _) as [[a'|e'] w2] eqn:E; cbn; try discriminate.
  all: destruct (faults w2) as [|[] fs2]; cbn; try discriminate.
  all: intros [= <- <-]; by exists w2.
Qed.

(** [SafeSchemaIdent] and the helpers of [postgres.go] for schema names. *)
Definition schema_start (c : ascii) : bool := is_upper c || is_lower c || Ascii.eqb c "_".
Definition isValidSchemaName (name : string) : bool :=
  match name with
  | EmptyString => false
  | String c r =>
      schema_start c && str_forall (λ c, schema_start c || is_digit c) r && (String.length r <=? 62)%nat
  end.
Definition SafeSchemaIdent (schema : string) : res string :=
  if isValidSchemaName schema then Ok schema else Err (ErrText "invalid schema identifier").
Definition SafeTenantSchema (alias : string) : res string :=
  let! _ := fail_if (alias =? "") (ErrText "empty tenant alias") in
  let! _ := fail_if (55 <? String.length alias)%nat (ErrText "tenant alias too long") in
  let! _ := fail_if (negb (isValidSchemaName alias)) (ErrText "invalid tenant alias") in
  Ok ("tenant_" +:+ alias).

(** A uuid parameter; the driver rejects other texts. *)
Definition uuid_param (s : string) : res string :=
  match uuid_in s with Some u => Ok u | None => Err ErrDriver end.
Definition jsonb_param (j : json) : res json :=
  match jsonb_in j with Some v => Ok v | None => Err ErrDriver end.

(** [InsertAuditLogContext] *)
Definition InsertAuditLogContext (username action resourceType resourceID payload ipAddr : string) : M unit :=
  statement (λ t, Ok (tt, add_audit (Audit username action resourceType resourceID payload ipAddr) t)).

(** ** Following a computation *)

Lemma mbind_inv {A B} (m : M A) (k : A → M B) w r w' :
  mbind_ m k w = (r, w') →
  (∃ e, m w = (Err e, w') ∧ r = Err e) ∨ (∃ a w1, m w = (Ok a, w1) ∧ k a w1 = (r, w')).
Proof.
  unfold mbind_. destruct (m w) as [[a|e] w1] eqn:E.
  - intros H. right. by exists a, w1.
  - intros [= <- <-]. left. by exists e.
Qed.
Lemma lift_inv {A} (x : res A) w r w' : lift x w = (r, w') → r = x ∧ w' = w.
Proof. by intros [= <- <-]. Qed.
Lemma mret_inv {A} (a : A) w r w' : mret a w = (r, w') → r = Ok a ∧ w' = w.
Proof. by intros [= <- <-]. Qed.
Lemma mfail_inv {A} (e : gerror) w (r : res A) w' : mfail e w = (r, w') → r = Err e ∧ w' = w.
Proof. by intros [= <- <-]. Qed.
Lemma statement_inv {A} (f : tenant → res (A * tenant)) w r w' :
  statement f w = (r, w') →
  (∃ a t, r = Ok a ∧ f (tn w) = Ok (a, t) ∧ tn w' = t) ∨ (∃ e, r = Err e ∧ tn w' = tn w).
Proof.
  unfold statement. destruct (faults w) as [|[] fs]; [|by intros [= <- <-]; right; eexists|].
  all: destruct (f (tn w)) as [[a t]|e] eqn:E; intros [= <- <-]; [left; by exists a, t | right; by exists e].
Qed.
Lemma query_inv {A} (f : tenant → res A) w r w' :
  query f w = (r, w') → tn w' = tn w ∧ ∀ a, r = Ok a → f (tn w) = Ok a.
Proof.
  intros H. apply statement_inv in H as [(a & t & -> & Hf & <-)|(e & -> & ->)]; [|done].
  destruct (f (tn w)); [|done]. cbn in Hf. injection Hf as -> ->. split; [done|]. by intros ? [= <-].
Qed.
(** A transaction that fails leaves the tables unchanged; one that succeeds ran
    its body. *)
Lemma transaction_inv {A} (body : M A) w r w' :
  transaction body w = (r, w') →
  (∃ e, r = Err e ∧ tn w' = tn w) ∨
  (∃ a w2, r = Ok a ∧ body (World (tn w) (tl (faults w))) = (Ok a, w2) ∧ tn w' = tn w2).
Proof.
  intros H. destruct r as [a|e].
  - right. apply transaction_ok in H as (w2 & ? & ?). by exists a, w2.
  - left. apply transaction_err in H. by exists e.
Qed.

(** A statement of the driver that no fault hits. *)
Lemma statement_run {A} (f : tenant → res (A * tenant)) t :
  statement f (World t []) = match f t with Ok (a, t') => (Ok a, World t' []) | Err e => (Err e, World t []) end.
Proof. done. Qed.

(** [m_bind H as a w1 H1] splits the run [H] of [let* x := m in k] into the run of [m] and,
    if [m] succeeded, the run of [k]; a pure first step is resolved at once. *)
Tactic Notation "m_bind" hyp(H) "as" ident(a) ident(w1) ident(H1) :=
  let E := fresh in
  apply mbind_inv in H as [(? & H1 & E)|(a & w1 & H1 & H)];
  [first [discriminate E | injection E as <- | match type of E with ?r = _ => subst r end] |];
  try (apply lift_inv in H1 as [H1 ->]); try (apply mret_inv in H1 as [H1 ->]);
  try (apply mfail_inv in H1 as [H1 ->]); try discriminate H1.
Ltac m_end H :=
  first [apply lift_inv in H as [H ->] | apply mret_inv in H as [H ->] | apply mfail_inv in H as [H ->]];
  first [discriminate H | match type of H with ?r = _ => subst r end | injection H as <- | injection H as -> | idtac].
