(* ===== verification/DeviceOperations.v ===== *)
(** [internal/database/device_operations.go]: the durable queue of one operation
    per device, bound to the device's desired generation, and the recording of
    the statuses the device's agent reports. *)

From S2P Require Import Prelude GoStrings Json DeviceOperation Store.
Local Open Scope sql_scope.

Definition ErrDeviceNotFound : gerror := ErrSentinel "device not found".
Definition ErrDeviceOperationGenerationConflict : gerror := ErrSentinel "device operation generation conflict".
Definition ErrDeviceOperationStatusNotApplied : gerror := ErrSentinel "device operation status was not applied".

(** ** Identities *)

(** [deviceOperationIdentity] *)
Record deviceOperationIdentity := OperationIdentity {
  oi_ID : string;
  oi_PlanHash : string;
  oi_Generation : Z
}.

(** The envelope struct of [parseOperationIdentity] *)
Record operation_envelope := OperationEnvelope {
  oe_operation_id : string;
  oe_id : string;
  oe_plan_hash : string;
  oe_generation : option Z
}.
Definition operation_envelope_fields : list (string * decoder operation_envelope) := [
  ("operation_id", λ j e, v ← dec_string j (oe_operation_id e);
     Some (OperationEnvelope v (oe_id e) (oe_plan_hash e) (oe_generation e)));
  ("id", λ j e, v ← dec_string j (oe_id e);
     Some (OperationEnvelope (oe_operation_id e) v (oe_plan_hash e) (oe_generation e)));
  ("plan_hash", λ j e, v ← dec_string j (oe_plan_hash e);
     Some (OperationEnvelope (oe_operation_id e) (oe_id e) v (oe_generation e)));
  ("generation", λ j e, v ← dec_int64_ptr j (oe_generation e);
     Some (OperationEnvelope (oe_operation_id e) (oe_id e) (oe_plan_hash e) v))
].
Definition dec_operation_envelope : decoder operation_envelope := dec_struct operation_envelope_fields.

(** [parseOperationIdentity] and [parseDeviceOperationEnvelope] *)
Definition parseOperationIdentity (raw : raw_message) (status : bool) : res deviceOperationIdentity :=
  match unmarshal dec_operation_envelope (OperationEnvelope "" "" "" None) raw with
  | None => Err (ErrText "invalid device operation envelope")
  | Some envelope =>
      let id := if status then oe_id envelope else oe_operation_id envelope in
      let hash := oe_plan_hash envelope in
      let! _ := fail_if ((id =? "") || negb (validDeviceOperationID id))
                        (ErrText "invalid device operation identity") in
      let! _ := fail_if (negb status && negb (validDeviceOperationPlanHash hash))
                        (ErrText "invalid device operation identity") in
      let! _ := fail_if (status && nonempty hash && negb (validDeviceOperationPlanHash hash))
                        (ErrText "invalid device operation status") in
      match oe_generation envelope with
      | Some g =>
          let! _ := fail_if (g <? 0)%Z (ErrText "invalid operation generation") in
          Ok (OperationIdentity id hash g)
      | None => Ok (OperationIdentity id hash 0)
      end
  end.
Definition parseDeviceOperationEnvelope (plan : raw_message) : res (string * string) :=
  let! identity := parseOperationIdentity plan false in Ok (oi_ID identity, oi_PlanHash identity).

(** The [{State string}] struct, decoded from a status. *)
Definition dec_state : decoder string := dec_struct [("state", dec_string)].

(** [validDeviceOperationState] *)
Definition operation_states : list string :=
  ["APPLYING"; "PENDING_CONFIRM"; "ROLLING_BACK"; "COMMITTED"; "RESTORED"; "RECOVERY_REQUIRED"].
Definition validDeviceOperationState (state : string) : bool := text_in state operation_states.

(** ** Queueing *)

(** [EXISTS (SELECT 1 FROM rollout_runs AS active_rollout WHERE site_id =
    device.site_id AND status = 'RUNNING' AND updated_at >= now - 20 minutes)],
    restricted to the rollouts that satisfy [other]. *)
Definition active_rollout (now : Z) (other : string → bool) (site : option string) (t : tenant) : bool :=
  existsb (λ '(id, r),
    bool_decide (site = Some (r_site_id r)) && (r_status r =? "RUNNING") &&
    (now - minutes 20 <=? r_updated_at r)%Z && other id) (map_to_list (rollout_runs t)).

(** [desired_generation + 1] on a [BIGINT]. *)
Definition next_generation (g : Z) : res Z :=
  if (g <? int64_max)%Z then Ok (g + 1)%Z else Err ErrDriver.

(** The [WHERE] clause of the UPDATE in [QueueDeviceOperation]; [$1] is the
    plan, [$3] the operation id and [$4] the requested generation. *)
Definition queue_operation_where (now : Z) (plan : json) (id : string) (generation : Z) (t : tenant)
    (d : device_row) : tri :=
  fact (negb (coalesce (d_rollout_status d) "" =? "RUNNING")) AND
  is_null (d_pending_operation d) AND is_null (d_pending_change_set d) AND
  fact (negb (coalesce (col_text "state" (d_last_operation d)) "" =? "RECOVERY_REQUIRED")) AND
  fact (negb (coalesce (col_text "state" (d_last_change_set d)) "" =? "RECOVERY_REQUIRED")) AND
  fact (negb (active_rollout now (λ _, true) (d_site_id d) t)) AND
  ((fact (0 <? generation)%Z AND fact (d_desired d =? generation)%Z AND
     ((is_null (d_pending_operation d) AND fact (negb (coalesce (col_text "id" (d_last_operation d)) "" =? id))) OR
      ((col_text "operation_id" (d_pending_operation d) == Some id) AND
       (p ← d_pending_operation d; Some (jsonb_eqb p plan))))) OR
   (fact (generation =? 0)%Z AND is_null (d_pending_operation d) AND
    fact (negb (coalesce (col_text "id" (d_last_operation d)) "" =? id)))).

(** The [SET] clause. *)
Definition queue_operation_set (now : Z) (plan : json) (generation : Z) (d : device_row) : res device_row :=
  let! g := if (0 <? generation)%Z then Ok (d_desired d) else next_generation (d_desired d) in
  let pending := if (0 <? generation)%Z then plan else jsonb_set "generation" (JInt g) plan in
  Ok (Device (d_site_id d) (d_device_role d) (d_capabilities d) g (d_observed d) (d_last_successful d)
        (Some pending) None (d_pending_change_set d) (d_last_change_set d)
        (Some "QUEUED") (Some now) (d_health_check_at d) (Some now)).

Definition update_device {A} (deviceID : string) (t : tenant) (d : device_row) (a : A) : res (option A * tenant) :=
  Ok (Some a, set_devices <[deviceID := d]> t).

(** The UPDATE ... RETURNING statement: [None] when it selects no row. *)
Definition queue_operation_update (now : Z) (deviceID : string) (plan : json) (id : string) (generation : Z)
    : M (option Z) :=
  statement (λ t,
    let! plan := jsonb_param plan in
    match devices t !! deviceID with
    | None => Ok (None, t)
    | Some d =>
        if holds (queue_operation_where now plan id generation t d) then
          let! d' := queue_operation_set now plan generation d in update_device deviceID t d' (d_desired d')
        else Ok (None, t)
    end).

(** The SELECT that explains why nothing was updated. *)
Definition operation_lookup (deviceID : string) : M (option (Z * option json * option json)) :=
  query (λ t, Ok ((λ d, (d_desired d, d_pending_operation d, d_last_operation d)) <$> devices t !! deviceID)).

Definition generation_conflict : gerror :=
  ErrWrap ErrDeviceOperationGenerationConflict "operation is bound to another generation".

(** The rest of [QueueDeviceOperation] after an update without a row: the plan
    may already be pending, or already be recorded. *)
Definition requires_recovery (last : option json) : bool :=
  match last with
  | Some l => match dec_state l "" with Some s => s =? "RECOVERY_REQUIRED" | None => false end
  | None => false
  end.
Definition queue_pending_reply (identity : deviceOperationIdentity) (pending : json) : res Z :=
  match parseOperationIdentity (Some pending) false with
  | Ok p =>
      if oi_ID p =? oi_ID identity then
        let! _ := fail_if (negb (oi_PlanHash p =? oi_PlanHash identity))
                          (ErrText "operation id already used for a different plan") in
        let! _ := fail_if ((0 <? oi_Generation identity)%Z && negb (oi_Generation p =? oi_Generation identity)%Z)
                          generation_conflict in
        Ok (oi_Generation p)
      else Err (ErrText "device already has a different pending operation")
  | Err _ => Err (ErrText "device already has a different pending operation")
  end.
Definition queue_last_reply (identity : deviceOperationIdentity) (desired : Z) (last : json) : option (res Z) :=
  match parseOperationIdentity (Some last) true with
  | Ok l =>
      if oi_ID l =? oi_ID identity then Some (
        let! _ := fail_if (nonempty (oi_PlanHash l) && negb (oi_PlanHash l =? oi_PlanHash identity))
                          (ErrText "operation id already used for a different plan") in
        if (0 <? oi_Generation identity)%Z then
          let! _ := fail_if ((0 <? oi_Generation l)%Z && negb (oi_Generation l =? oi_Generation identity)%Z)
                            generation_conflict in
          let! _ := fail_if (negb (desired =? oi_Generation identity)%Z) generation_conflict in
          Ok (oi_Generation identity)
        else Ok (oi_Generation l))
      else None
  | Err _ => None
  end.
Definition queue_operation_reply (identity : deviceOperationIdentity) (desired : Z) (pending last : option json) : res Z :=
  let! _ := fail_if (requires_recovery last) (ErrText "device requires recovery before accepting operations") in
  match pending with
  | Some p => queue_pending_reply identity p
  | None =>
      match last ≫= queue_last_reply identity desired with
      | Some r => r
      | None =>
          let! _ := fail_if ((0 <? oi_Generation identity)%Z && negb (desired =? oi_Generation identity)%Z)
                            generation_conflict in
          Err (ErrText "device operation could not be queued")
      end
  end.

(** [QueueDeviceOperation] *)
Definition QueueDeviceOperation (now : Z) (schema deviceID : string) (plan : raw_message) : M Z :=
  let* _ := lift (SafeSchemaIdent schema) in
  let* identity := lift (parseOperationIdentity plan false) in
  let* queued := queue_operation_update now deviceID (default JNull plan) (oi_ID identity) (oi_Generation identity) in
  match queued with
  | Some generation => mret generation
  | None =>
      let* found := operation_lookup deviceID in
      match found with
      | None => mfail ErrDeviceNotFound
      | Some (desired, pending, last) => lift (queue_operation_reply identity desired pending last)
      end
  end.

(** [GetPendingDeviceOperation] and [GetLastDeviceOperation]: no document for an
    absent row or an empty column, and also when the driver fails, since the
    length of the unscanned bytes is tested before the error. *)
Definition not_null (j : option json) : option json :=
  match j with Some JNull => None | _ => j end.
Definition read_operation (column : device_row → option json) (schema deviceID : string) : M (option json) :=
  let* _ := lift (SafeSchemaIdent schema) in
  mtry (query (λ t, Ok (devices t !! deviceID ≫= column))) (λ r,
    match r with
    | Ok raw => mret (not_null raw)
    | Err _ => mret None
    end).
Definition GetPendingDeviceOperation : string → string → M (option json) := read_operation d_pending_operation.
Definition GetLastDeviceOperation : string → string → M (option json) := read_operation d_last_operation.

(** ** Statuses *)

(** The values bound to the statement of [RecordDeviceOperationStatus]: [$1]
    the status, [$2] whether it is terminal, [$3] the id, [$4] the state, [$6]
    the plan hash, [$7] the generation as text (or nothing) and [$8] as a
    number. *)
Record status_args := StatusArgs {
  s_status : json;
  s_terminal : bool;
  s_id : string;
  s_state : string;
  s_plan_hash : string;
  s_generation_text : string;
  s_generation : Z
}.

Definition generation_text (g : Z) : string := if (0 <? g)%Z then dec g else "".

(** The identity part that [pendingMatch] and [lastMatch] share. *)
Definition identity_match (a : status_args) (id_key : string) (j : option json) : tri :=
  (col_text id_key j == Some (s_id a)) AND
  ((fact (nonempty (s_plan_hash a)) AND (col_text "plan_hash" j == Some (s_plan_hash a))) OR
   (fact (s_plan_hash a =? "") AND fact (coalesce (col_text "generation" j) "" =? ""))) AND
  (fact (s_generation_text a =? "") OR (col_text "generation" j == Some (s_generation_text a))).
(** [pendingMatch] and [lastMatch] *)
Definition operation_pending_match (a : status_args) (d : device_row) : tri :=
  identity_match a "operation_id" (d_pending_operation d).
Definition operation_last_match (a : status_args) (d : device_row) : tri :=
  is_null (d_pending_change_set d) AND identity_match a "id" (d_last_operation d) AND
  (fact (negb (text_in (coalesce (col_text "state" (d_last_operation d)) "") ["COMMITTED"; "RESTORED"])) OR
   (col_text "state" (d_last_operation d) == Some (s_state a))).

(** The [SET] clause of [RecordDeviceOperationStatus]. *)
Definition record_operation_set (now : Z) (a : status_args) (d : device_row) : device_row :=
  let applied := s_terminal a && (s_state a =? "COMMITTED") && (0 <? s_generation a)%Z in
  Device (d_site_id d) (d_device_role d) (d_capabilities d) (d_desired d)
    (if applied then Z.max (d_observed d) (s_generation a) else d_observed d)
    (if applied then Z.max (d_last_successful d) (s_generation a) else d_last_successful d)
    (if s_terminal a && holds (operation_pending_match a d) then None else d_pending_operation d)
    (Some (s_status a)) (d_pending_change_set d) (d_last_change_set d)
    (if coalesce (d_rollout_status d) "" =? "RUNNING" then d_rollout_status d else Some (s_state a))
    (d_rollout_at d)
    (if s_terminal a then Some now else d_health_check_at d)
    (Some now).

(** The number of rows the UPDATE touches. *)
Definition record_operation_update (now : Z) (deviceID : string) (status : json) (a : json → status_args) : M nat :=
  statement (λ t,
    let! status := jsonb_param status in
    match devices t !! deviceID with
    | None => Ok (0%nat, t)
    | Some d =>
        if holds (operation_pending_match (a status) d OR operation_last_match (a status) d) then
          Ok (1%nat, set_devices <[deviceID := record_operation_set now (a status) d]> t)
        else Ok (0%nat, t)
    end).

(** [RecordDeviceOperationStatus] *)
Definition RecordDeviceOperationStatus (now : Z) (schema deviceID : string) (status : raw_message) : M unit :=
  let* _ := lift (SafeSchemaIdent schema) in
  match parseOperationIdentity status true with
  | Err _ => mfail (ErrText "invalid device operation status")
  | Ok identity =>
      match unmarshal dec_state "" status with
      | None => mfail (ErrText "invalid device operation status")
      | Some state =>
          let* _ := lift (fail_if (negb (validDeviceOperationState state)) (ErrText "invalid device operation status")) in
          let terminal := (state =? "COMMITTED") || (state =? "RESTORED") in
          let* affected := record_operation_update now deviceID (default JNull status) (λ j,
            StatusArgs j terminal (oi_ID identity) state (oi_PlanHash identity)
              (generation_text (oi_Generation identity)) (oi_Generation identity)) in
          lift (fail_if (negb (affected =? 1)%nat)
                  (ErrWrap ErrDeviceOperationStatusNotApplied "device operation"))
      end
  end.
