(* ===== verification/ChangeSets.v ===== *)
(** [internal/database/device_change_sets.go]: parsing and validation of change
    sets and their statuses, the queue of one change set per device, and the
    recording of statuses with the aggregation of rollout results. *)

From S2P Require Import Prelude GoStrings Sha256 Json GoNet Uci DeviceOperation Store DeviceOperations.
Local Open Scope sql_scope.

Definition ErrDeviceChangeSetStatusNotApplied : gerror := ErrSentinel "device change set status was not applied".
Definition ErrDeviceChangeSetCapability : gerror := ErrSentinel "device does not support device changesets".

(** ** Documents *)

(** [deviceChangeSetIdentity] *)
Record deviceChangeSetIdentity := ChangeSetIdentity {
  ci_ID : string;
  ci_DeviceID : string;
  ci_PlanHash : string;
  ci_Generation : Z;
  ci_HasGen : bool
}.

(** [deviceChangeSetEnvelope]; the commands have the fields of [UciCommand]. *)
Record envelope_operation := EnvelopeOperation {
  eo_OperationID : string;
  eo_Config : string;
  eo_ObservedStateHash : string;
  eo_Commands : option (list UciCommand)
}.
Record deviceChangeSetEnvelope := Envelope {
  e_ChangeSetID : string;
  e_DeviceID : string;
  e_PlanHash : string;
  e_Generation : option Z;
  e_State : string;
  e_Failure : string;
  e_ConfirmationPolicy : string;
  e_Operations : option (list envelope_operation);
  e_HealthChecks : gslice
}.

Definition zero_command : UciCommand := Cmd "" "" "" "" "".
Definition dec_command : decoder UciCommand := dec_struct [
  ("action", λ j c, v ← dec_string j (Action c); Some (Cmd v (Config c) (Sect c) (Opt c) (Value c)));
  ("config", λ j c, v ← dec_string j (Config c); Some (Cmd (Action c) v (Sect c) (Opt c) (Value c)));
  ("section", λ j c, v ← dec_string j (Sect c); Some (Cmd (Action c) (Config c) v (Opt c) (Value c)));
  ("option", λ j c, v ← dec_string j (Opt c); Some (Cmd (Action c) (Config c) (Sect c) v (Value c)));
  ("value", λ j c, v ← dec_string j (Value c); Some (Cmd (Action c) (Config c) (Sect c) (Opt c) v))
].
Definition zero_operation : envelope_operation := EnvelopeOperation "" "" "" None.
Definition dec_operation : decoder envelope_operation := dec_struct [
  ("operation_id", λ j o, v ← dec_string j (eo_OperationID o);
     Some (EnvelopeOperation v (eo_Config o) (eo_ObservedStateHash o) (eo_Commands o)));
  ("config", λ j o, v ← dec_string j (eo_Config o);
     Some (EnvelopeOperation (eo_OperationID o) v (eo_ObservedStateHash o) (eo_Commands o)));
  ("observed_state_hash", λ j o, v ← dec_string j (eo_ObservedStateHash o);
     Some (EnvelopeOperation (eo_OperationID o) (eo_Config o) v (eo_Commands o)));
  ("commands", λ j o, v ← dec_slice dec_command zero_command j (eo_Commands o);
     Some (EnvelopeOperation (eo_OperationID o) (eo_Config o) (eo_ObservedStateHash o) v))
].
Definition zero_envelope : deviceChangeSetEnvelope := Envelope "" "" "" None "" "" "" None None.
Definition envelope_fields : list (string * decoder deviceChangeSetEnvelope) := [
  ("change_set_id", λ j '(Envelope id dev hash gen st fl pol ops hc),
     v ← dec_string j id; Some (Envelope v dev hash gen st fl pol ops hc));
  ("device_id", λ j '(Envelope id dev hash gen st fl pol ops hc),
     v ← dec_string j dev; Some (Envelope id v hash gen st fl pol ops hc));
  ("plan_hash", λ j '(Envelope id dev hash gen st fl pol ops hc),
     v ← dec_string j hash; Some (Envelope id dev v gen st fl pol ops hc));
  ("generation", λ j '(Envelope id dev hash gen st fl pol ops hc),
     v ← dec_int64_ptr j gen; Some (Envelope id dev hash v st fl pol ops hc));
  ("state", λ j '(Envelope id dev hash gen st fl pol ops hc),
     v ← dec_string j st; Some (Envelope id dev hash gen v fl pol ops hc));
  ("failure", λ j '(Envelope id dev hash gen st fl pol ops hc),
     v ← dec_string j fl; Some (Envelope id dev hash gen st v pol ops hc));
  ("confirmation_policy", λ j '(Envelope id dev hash gen st fl pol ops hc),
     v ← dec_string j pol; Some (Envelope id dev hash gen st fl v ops hc));
  ("operations", λ j '(Envelope id dev hash gen st fl pol ops hc),
     v ← dec_slice dec_operation zero_operation j ops; Some (Envelope id dev hash gen st fl pol v hc));
  ("health_checks", λ j '(Envelope id dev hash gen st fl pol ops hc),
     v ← dec_slice dec_string "" j hc; Some (Envelope id dev hash gen st fl pol ops v))
].
Definition dec_envelope : decoder deviceChangeSetEnvelope := dec_struct envelope_fields.

(** [deviceChangeSetCapabilityContract] *)
Definition deviceChangeSetCapabilityContract : json := JObj [
  ("version", JInt 2);
  ("namespaces", JArr (map JStr ["system"; "dhcp"; "firewall"; "dropbear"; "sqm"]));
  ("max_operations", JInt 8);
  ("confirmation_policies", JArr [JStr "local_auto"])].

(** [validDeviceChangeSetHealthChecks] *)
Definition health_check_ok (target : string) : bool :=
  bool_decide (is_Some (ParseIP target)) || host_pattern target.
Definition validDeviceChangeSetHealthChecks (targets : list string) : bool := forallb health_check_ok targets.

(** [validDeviceChangeSetCommand]; the patterns are those of the UCI bridge. *)
Definition validDeviceChangeSetCommand (command : UciCommand) : bool :=
  let act a := Action command =? a in
  deviceChangeSetConfigAllowed (Config command) &&
  (if act "set" || act "delete" || act "rename" then
     validUCISection (Sect command) &&
     ((Opt command =? "") || validUCIName (Opt command)) &&
     (negb (act "rename") || validUCIName (Value command))
   else if act "add_list" || act "del_list" then
     validUCISection (Sect command) && validUCIName (Opt command)
   else if act "add" then validUCIName (Value command)
   else false).

(** The database's own [deviceChangeSetPlanHash]: the content type has the same
    fields as the controller's. *)
Definition envelope_content (e : deviceChangeSetEnvelope) : json :=
  change_set_content
    (map (λ o, ChangeOperation (eo_OperationID o) (eo_Config o) (default [] (eo_Commands o)) (eo_ObservedStateHash o))
       (default [] (e_Operations e)))
    (e_HealthChecks e) (e_ConfirmationPolicy e).
Definition envelopePlanHash (e : deviceChangeSetEnvelope) : string := sha256_hex (json_text false (envelope_content e)).

(** [validDeviceChangeSetState] *)
Definition change_set_states : list string :=
  ["PREPARED"; "APPLYING"; "PENDING_CONFIRM"; "ROLLING_BACK"; "COMMITTED"; "RESTORED"; "RECOVERY_REQUIRED"; "REJECTED"].
Definition terminal_states : list string := ["COMMITTED"; "RESTORED"; "RECOVERY_REQUIRED"; "REJECTED"].
Definition validDeviceChangeSetState (state : string) : bool := text_in state change_set_states.

(** The loop over the operations of a parsed change set. *)
Fixpoint parse_operations (seen : gset string) (operations : list envelope_operation) : bool :=
  match operations with
  | [] => true
  | o :: operations =>
      validDeviceOperationID (eo_OperationID o) && deviceChangeSetConfigAllowed (eo_Config o) &&
      negb (bool_decide (eo_Config o ∈ seen)) && validDeviceOperationPlanHash (eo_ObservedStateHash o) &&
      negb (bool_decide (default [] (eo_Commands o) = [])) &&
      parse_operations ({[eo_Config o]} ∪ seen) operations
  end.

Definition envelope_identity (e : deviceChangeSetEnvelope) : deviceChangeSetIdentity :=
  ChangeSetIdentity (e_ChangeSetID e) (e_DeviceID e) (e_PlanHash e)
    (default 0%Z (e_Generation e)) (bool_decide (is_Some (e_Generation e))).

(** The checks of [parseDeviceChangeSet] that a decoded change set passes. *)
Definition parse_change_set (e : deviceChangeSetEnvelope) : res deviceChangeSetIdentity :=
  let operations := default [] (e_Operations e) in
  let! _ := fail_if (bool_decide (e_Generation e = Some 0%Z)) (ErrText "invalid device change set generation") in
  let! _ := fail_if (negb (e_ConfirmationPolicy e =? "local_auto") || bool_decide (operations = []) ||
                     (8 <? List.length operations)%nat) (ErrText "unsupported device change set") in
  let! _ := fail_if (negb (parse_operations ∅ operations)) (ErrText "unsupported device change set operation") in
  let! _ := fail_if (negb (validDeviceChangeSetHealthChecks (elems (e_HealthChecks e))))
                    (ErrText "invalid device change set health checks") in
  let! _ := fail_if (negb (forallb (λ o, forallb validDeviceChangeSetCommand (default [] (eo_Commands o))) operations))
                    (ErrText "invalid device change set command") in
  let! _ := fail_if (negb (envelopePlanHash e =? e_PlanHash e))
                    (ErrText "device change set plan hash does not match content") in
  Ok (envelope_identity e).
(** Those of a status. *)
Definition parse_status (e : deviceChangeSetEnvelope) : res deviceChangeSetIdentity :=
  match e_Generation e with
  | Some g =>
      let! _ := fail_if ((g <=? 0)%Z || negb (validDeviceChangeSetState (e_State e)))
                        (ErrText "invalid device change set status") in
      Ok (envelope_identity e)
  | None => Err (ErrText "invalid device change set status")
  end.

(** [parseDeviceChangeSet] *)
Definition parseDeviceChangeSet (raw : raw_message) (status : bool) : res deviceChangeSetIdentity :=
  match unmarshal dec_envelope zero_envelope raw with
  | None => Err (ErrText "invalid device change set")
  | Some e =>
      let! _ := fail_if (negb (validDeviceChangeSetID (e_ChangeSetID e)) ||
                         negb (validDeviceChangeSetDeviceID (e_DeviceID e)) ||
                         negb (validDeviceOperationPlanHash (e_PlanHash e)))
                        (ErrText "invalid device change set identity") in
      let! _ := fail_if (match e_Generation e with Some g => (g <? 0)%Z | None => false end)
                        (ErrText "invalid device change set generation") in
      if status then parse_status e else parse_change_set e
  end.

(** ** Queueing *)

(** The rollout that owns the work: its id, the site and the role the device is
    expected to have; none for a change set of its own. *)
Record rollout_owner := Owner {
  ow_rollout : string;
  ow_site : string;
  ow_role : string
}.

(** [ownerConstraints] *)
Definition owner_where (owner : rollout_owner) (t : tenant) (d : device_row) : tri :=
  (site ← d_site_id d; Some (to_lower site =? to_lower (ow_site owner))) AND
  fact (existsb (λ '(id, r),
    (to_lower id =? to_lower (ow_rollout owner)) && bool_decide (d_site_id d = Some (r_site_id r)) &&
    (r_status r =? "RUNNING")) (map_to_list (rollout_runs t))) AND
  fact (coalesce (d_device_role d) "AP" =? ow_role owner).

(** [COALESCE(capabilities->'device_change_set' = contract, false)] *)
Definition change_set_capability (d : device_row) : bool :=
  match d_capabilities d ≫= jsonb_field "device_change_set" with
  | Some c => jsonb_eqb c (jsonb_of deviceChangeSetCapabilityContract)
  | None => false
  end.
Definition change_set_contains (d : device_row) : bool :=
  match d_capabilities d ≫= jsonb_field "device_change_set" with
  | Some c => jsonb_contains c (jsonb_of deviceChangeSetCapabilityContract)
  | None => false
  end.

(** The [WHERE] clause of the UPDATE in [queueDeviceChangeSet]. *)
Definition queue_change_set_where (now : Z) (owner : option rollout_owner) (id : string) (generation : Z)
    (t : tenant) (d : device_row) : tri :=
  match owner with Some o => owner_where o t d | None => fact true end AND
  fact (change_set_capability d) AND fact (change_set_contains d) AND
  is_null (d_pending_operation d) AND is_null (d_pending_change_set d) AND
  fact (negb (coalesce (col_text "state" (d_last_operation d)) "" =? "RECOVERY_REQUIRED")) AND
  fact (negb (coalesce (col_text "state" (d_last_change_set d)) "" =? "RECOVERY_REQUIRED")) AND
  fact (negb (coalesce (col_text "change_set_id" (d_last_change_set d)) "" =? id)) AND
  fact (negb (coalesce (d_rollout_status d) "" =? "RUNNING")) AND
  fact (negb (active_rollout now
    (λ rid, match owner with Some o => negb (to_lower rid =? to_lower (ow_rollout o)) | None => true end)
    (d_site_id d) t)) AND
  fact ((generation =? 0)%Z || (d_desired d =? generation)%Z).

(** The [SET] clause. *)
Definition queue_change_set_set (now : Z) (change_set : json) (generation : Z) (d : device_row) : res device_row :=
  let! g := if (0 <? generation)%Z then Ok (d_desired d) else next_generation (d_desired d) in
  let pending := if (0 <? generation)%Z then change_set else jsonb_set "generation" (JInt g) change_set in
  Ok (Device (d_site_id d) (d_device_role d) (d_capabilities d) g (d_observed d) (d_last_successful d)
        (d_pending_operation d) (d_last_operation d) (Some pending) (d_last_change_set d)
        (Some "QUEUED") (Some now) (d_health_check_at d) (Some now)).

Definition queue_change_set_update (now : Z) (owner : option rollout_owner) (deviceID : string) (change_set : json)
    (id : string) (generation : Z) : M (option Z) :=
  statement (λ t,
    let! change_set := jsonb_param change_set in
    match devices t !! deviceID with
    | None => Ok (None, t)
    | Some d =>
        if holds (queue_change_set_where now owner id generation t d) then
          let! d' := queue_change_set_set now change_set generation d in update_device deviceID t d' (d_desired d')
        else Ok (None, t)
    end).

(** What the SELECT after an update without a row reads.  Scanning a NULL
    [site_id] into a string fails. *)
Definition change_set_lookup (deviceID : string) : M (option (string * device_row)) :=
  query (λ t,
    match devices t !! deviceID with
    | None => Ok None
    | Some d => match d_site_id d with Some site => Ok (Some (site, d)) | None => Err ErrDriver end
    end).

Definition queue_pending_change_set (identity : deviceChangeSetIdentity) (pending : json) : res Z :=
  match parseDeviceChangeSet (Some pending) false with
  | Ok p =>
      if ci_ID p =? ci_ID identity then
        let! _ := fail_if (negb (ci_PlanHash p =? ci_PlanHash identity))
                          (ErrText "change set id already used for a different plan") in
        let! _ := fail_if (ci_HasGen identity && negb (ci_Generation p =? ci_Generation identity)%Z)
                          generation_conflict in
        Ok (ci_Generation p)
      else Err (ErrText "device already has a different pending change set")
  | Err _ => Err (ErrText "device already has a different pending change set")
  end.
Definition queue_last_change_set (identity : deviceChangeSetIdentity) (last : json) : option (res Z) :=
  match parseDeviceChangeSet (Some last) true with
  | Ok l =>
      if ci_ID l =? ci_ID identity then Some (
        let! _ := fail_if (negb (ci_PlanHash l =? ci_PlanHash identity))
                          (ErrText "change set id already used for a different plan") in
        let! _ := fail_if (ci_HasGen identity && negb (ci_Generation l =? ci_Generation identity)%Z)
                          generation_conflict in
        Ok (ci_Generation l))
      else None
  | Err _ => None
  end.
Definition queue_change_set_reply (owner : option rollout_owner) (identity : deviceChangeSetIdentity)
    (site : string) (d : device_row) : res Z :=
  let! _ := match owner with
            | Some o =>
                let! _ := fail_if (negb (equal_fold site (ow_site o))) (ErrText "device is not in the owning rollout site") in
                fail_if (negb (coalesce (d_device_role d) "AP" =? ow_role o)) (ErrText "device role is no longer current")
            | None => Ok tt
            end in
  let! _ := fail_if (negb (change_set_capability d)) ErrDeviceChangeSetCapability in
  let! _ := fail_if (requires_recovery (not_null (d_last_change_set d)))
                    (ErrText "device requires recovery before accepting changesets") in
  match not_null (d_pending_change_set d) with
  | Some pending => queue_pending_change_set identity pending
  | None =>
      match not_null (d_last_change_set d) ≫= queue_last_change_set identity with
      | Some r => r
      | None =>
          let! _ := fail_if (ci_HasGen identity && negb (d_desired d =? ci_Generation identity)%Z)
                            generation_conflict in
          Err (ErrText "device change set could not be queued")
      end
  end.

(** [queueDeviceChangeSet] *)
Definition queueDeviceChangeSet (now : Z) (schema : string) (owner : option rollout_owner) (deviceID : string)
    (changeSet : raw_message) : M Z :=
  let* _ := lift (SafeSchemaIdent schema) in
  let* identity := lift (parseDeviceChangeSet changeSet false) in
  let* _ := lift (fail_if (negb (equal_fold (ci_DeviceID identity) deviceID))
                          (ErrText "device change set targets a different device")) in
  let* queued := queue_change_set_update now owner deviceID (default JNull changeSet) (ci_ID identity)
                   (ci_Generation identity) in
  match queued with
  | Some generation => mret generation
  | None =>
      let* found := change_set_lookup deviceID in
      match found with
      | None => mfail ErrDeviceNotFound
      | Some (site, d) => lift (queue_change_set_reply owner identity site d)
      end
  end.

(** [QueueDeviceChangeSet] and [QueueDeviceChangeSetForRollout]: an empty rollout
    id means no owner. *)
Definition QueueDeviceChangeSet (now : Z) (schema deviceID : string) (changeSet : raw_message) : M Z :=
  queueDeviceChangeSet now schema None deviceID changeSet.
Definition QueueDeviceChangeSetForRollout (now : Z) (schema siteID deviceRole deviceID : string)
    (changeSet : raw_message) (rolloutID : string) : M Z :=
  queueDeviceChangeSet now schema (if rolloutID =? "" then None else Some (Owner rolloutID siteID deviceRole))
    deviceID changeSet.

(** [GetPendingDeviceChangeSet] and [GetLastDeviceChangeSet] *)
Definition read_change_set (column : device_row → option json) (schema deviceID : string) : M (option json) :=
  let* _ := lift (SafeSchemaIdent schema) in
  query (λ t, Ok (not_null (devices t !! deviceID ≫= column))).
Definition GetPendingDeviceChangeSet : string → string → M (option json) := read_change_set d_pending_change_set.
Definition GetLastDeviceChangeSet : string → string → M (option json) := read_change_set d_last_change_set.

(** ** Statuses *)

Definition terminal_state (state : string) : bool := text_in state terminal_states.

(** [statusTransition]: the states the last recorded status may be in, when it
    is about the same change set. *)
Definition previous_states (state : string) : list string :=
  if state =? "PREPARED" then [""; "PREPARED"]
  else if state =? "APPLYING" then ["PREPARED"; "APPLYING"]
  else if state =? "PENDING_CONFIRM" then ["APPLYING"; "PENDING_CONFIRM"]
  else if state =? "ROLLING_BACK" then ["PREPARED"; "APPLYING"; "PENDING_CONFIRM"; "ROLLING_BACK"]
  else if state =? "COMMITTED" then ["APPLYING"; "PENDING_CONFIRM"; "COMMITTED"]
  else if state =? "RESTORED" then ["ROLLING_BACK"; "RESTORED"]
  else if state =? "RECOVERY_REQUIRED" then
    ["PREPARED"; "APPLYING"; "PENDING_CONFIRM"; "ROLLING_BACK"; "RECOVERY_REQUIRED"]
  else if state =? "REJECTED" then [""; "PREPARED"; "APPLYING"; "REJECTED"]
  else [].
Definition status_transition (a : status_args) (d : device_row) : tri :=
  fact (negb (coalesce (col_text "change_set_id" (d_last_change_set d)) "" =? s_id a)) OR
  fact (text_in (coalesce (col_text "state" (d_last_change_set d)) "") (previous_states (s_state a))).

(** [pendingMatch] and [lastMatch]; [$5] is the device id. *)
Definition change_set_match (a : status_args) (deviceID : string) (j : option json) : tri :=
  (col_text "change_set_id" j == Some (s_id a)) AND (col_text "device_id" j == Some deviceID) AND
  (col_text "plan_hash" j == Some (s_plan_hash a)) AND (col_text "generation" j == Some (s_generation_text a)).
Definition change_set_pending_match (a : status_args) (deviceID : string) (d : device_row) : tri :=
  is_null (d_pending_operation d) AND change_set_match a deviceID (d_pending_change_set d) AND status_transition a d.
Definition change_set_last_match (a : status_args) (deviceID : string) (d : device_row) : tri :=
  is_null (d_pending_operation d) AND is_null (d_pending_change_set d) AND
  change_set_match a deviceID (d_last_change_set d) AND
  (fact (negb (text_in (coalesce (col_text "state" (d_last_change_set d)) "") terminal_states)) OR
   (col_text "state" (d_last_change_set d) == Some (s_state a))) AND
  status_transition a d.

(** The [SET] clause of [RecordDeviceChangeSetStatus]. *)
Definition record_change_set_set (now : Z) (a : status_args) (deviceID : string) (d : device_row) : device_row :=
  let applied := s_terminal a && (s_state a =? "COMMITTED") in
  Device (d_site_id d) (d_device_role d) (d_capabilities d) (d_desired d)
    (if applied then Z.max (d_observed d) (s_generation a) else d_observed d)
    (if applied then Z.max (d_last_successful d) (s_generation a) else d_last_successful d)
    (d_pending_operation d) (d_last_operation d)
    (if s_terminal a && holds (change_set_pending_match a deviceID d) then None else d_pending_change_set d)
    (Some (s_status a))
    (if coalesce (d_rollout_status d) "" =? "RUNNING" then d_rollout_status d else Some (s_state a))
    (Some now)
    (if s_terminal a then Some now else d_health_check_at d)
    (Some now).

Definition record_change_set_update (now : Z) (deviceID : string) (status : json) (a : json → status_args) : M nat :=
  statement (λ t,
    let! status := jsonb_param status in
    match devices t !! deviceID with
    | None => Ok (0%nat, t)
    | Some d =>
        if holds (change_set_pending_match (a status) deviceID d OR change_set_last_match (a status) deviceID d) then
          Ok (1%nat, set_devices <[deviceID := record_change_set_set now (a status) deviceID d]> t)
        else Ok (0%nat, t)
    end).

(** *** The rollout the device belongs to *)

(** [jsonb_array_elements]; another value than an array is an error. *)
Definition jsonb_elements (j : json) : res (list json) :=
  match j with JArr l => Ok l | _ => Err ErrDriver end.
Definition elem_text (key : string) (j : json) : option string := jsonb_field_text key j.

(** [result->>'device_id' = $2 AND result->>'change_set_id' = $3] *)
Definition result_is (deviceID id : string) (r : json) : tri :=
  (elem_text "device_id" r == Some deviceID) AND (elem_text "change_set_id" r == Some id).

(** The new status of the rollout: the two EXISTS of the CASE. *)
Definition rollout_next_status (deviceID id rolloutStatus : string) (results : list json) : string :=
  let others (p : json → bool) := existsb (λ r, holds (NOT (result_is deviceID id r) AND fact (p r))) results in
  if others (λ r, negb (text_in (coalesce (elem_text "change_set_state" r) "") terminal_states)) then "QUEUED"
  else if others (λ r, negb (coalesce (elem_text "change_set_state" r) "" =? "COMMITTED")) then "failed"
  else rolloutStatus.
(** The new results. *)
Definition rollout_result (a : status_args) (deviceID resultStatus failure : string) (r : json) : json :=
  if holds (result_is deviceID (s_id a) r) then
    let r := jsonb_merge r (jsonb_build_object [("status", JStr resultStatus); ("change_set_state", JStr (s_state a));
               ("plan_hash", JStr (s_plan_hash a)); ("device_generation", JInt (s_generation a))]) in
    if nonempty failure then jsonb_merge r (JObj [("error", JStr failure)]) else r
  else r.

(** The [WHERE] clause: a QUEUED rollout of the device's site whose results name
    the device and the change set. *)
Definition rollout_results_where (deviceID id : string) (site : option string) (r : rollout_row) : bool :=
  (r_status r =? "QUEUED") && bool_decide (site = Some (r_site_id r)) &&
  jsonb_contains (r_results r) (JArr [JObj [("device_id", JStr deviceID); ("change_set_id", JStr id)]]).
Definition rollout_results_set (now : Z) (a : status_args) (deviceID rolloutStatus resultStatus failure : string)
    (r : rollout_row) : res rollout_row :=
  let! results := jsonb_elements (r_results r) in
  Ok (Rollout (r_site_id r) (r_generation r) (rollout_next_status deviceID (s_id a) rolloutStatus results)
        (r_claim_token r) (r_worker_token r) (r_worker_lease_until r) (r_worker_cursor r) (r_plan_hash r)
        (r_requested_by r) (r_target_device_ids r) (r_plan r)
        (JArr (map (rollout_result a deviceID resultStatus failure) results)) now).

(** An UPDATE of the rows that satisfy a condition; one failing row fails the
    statement. *)
Fixpoint update_rows {A} (where_ : A → bool) (set : A → res A) (rows : list (string * A)) : res (list (string * A)) :=
  match rows with
  | [] => Ok []
  | (id, r) :: rows =>
      let! r := if where_ r then set r else Ok r in
      let! rows := update_rows where_ set rows in Ok ((id, r) :: rows)
  end.
Definition update_rollouts (where_ : rollout_row → bool) (set : rollout_row → res rollout_row) (t : tenant) : res tenant :=
  let! rows := update_rows where_ set (map_to_list (rollout_runs t)) in
  Ok (set_rollouts (λ _, list_to_map rows) t).

Definition record_rollout_results (now : Z) (a : status_args) (deviceID rolloutStatus resultStatus failure : string)
    : M unit :=
  statement (λ t,
    let site := devices t !! deviceID ≫= d_site_id in
    let! _ := fail_if (negb (no_nul failure)) ErrDriver in
    let! t := update_rollouts (rollout_results_where deviceID (s_id a) site)
                (rollout_results_set now a deviceID rolloutStatus resultStatus failure) t in
    Ok (tt, t)).

(** [RecordDeviceChangeSetStatus] *)
Definition RecordDeviceChangeSetStatus (now : Z) (schema deviceID : string) (status : raw_message) : M unit :=
  let* _ := lift (SafeSchemaIdent schema) in
  match parseDeviceChangeSet status true, unmarshal dec_envelope zero_envelope status with
  | Ok identity, Some envelope =>
      let* _ := lift (fail_if (negb (equal_fold (ci_DeviceID identity) deviceID)) ErrDeviceChangeSetStatusNotApplied) in
      let args j := StatusArgs j (terminal_state (e_State envelope)) (ci_ID identity) (e_State envelope)
        (ci_PlanHash identity) (dec (ci_Generation identity)) (ci_Generation identity) in
      let* affected := record_change_set_update now deviceID (default JNull status) args in
      let* _ := lift (fail_if (negb (affected =? 1)%nat)
                        (ErrWrap ErrDeviceChangeSetStatusNotApplied "device changeset")) in
      if terminal_state (e_State envelope) then
        let committed := e_State envelope =? "COMMITTED" in
        record_rollout_results now (args JNull) deviceID (if committed then "completed" else "failed")
          (if committed then "SUCCESS" else "FAILED") (e_Failure envelope)
      else mret tt
  | _, _ => mfail ErrDeviceChangeSetStatusNotApplied
  end.
