(* ===== verification/ChangeSetFacts.v ===== *)
(** Agreement of the controller's change sets ([internal/services]) with the
    database's reading of them ([internal/database]): which of them the queue
    accepts, and under which identity, before and after they are stored. *)

From S2P Require Import Prelude GoStrings Sha256 Json GoNet Uci UciShell DeviceOperation DeviceOperationFacts Store.
From S2P Require Import DeviceOperations ChangeSets.

(** ** Decoding the documents *)

Definition utf8_ok (s : string) : Prop := utf8_coerce s = s.
Definition command_utf8 (c : UciCommand) : Prop :=
  utf8_ok (Action c) ∧ utf8_ok (Config c) ∧ utf8_ok (Sect c) ∧ utf8_ok (Opt c) ∧ utf8_ok (Value c).

Lemma coerce_command c : command_utf8 c → json_coerce (command_json c) = command_json c.
Proof. intros (Ha & Hc & Hs & Ho & Hv). cbn. by rewrite Ha, Hc, Hs, Ho, Hv. Qed.

Lemma dec_command_doc c :
  dec_command (command_json c) zero_command = Some c ∧ dec_command (jsonb_of (command_json c)) zero_command = Some c.
Proof. destruct c. split; vm_compute; reflexivity. Qed.

Lemma dec_elements_map {A B} (elem : decoder A) zero (f : B → json) (g : B → A) l :
  (∀ x, x ∈ l → elem (f x) zero = Some (g x)) → dec_elements elem zero (map f l) [] = Some (map g l).
Proof.
  induction l as [|x l IH]; intros Hf; [done|]. cbn [map dec_elements hd tl].
  rewrite Hf by left. rewrite IH by (intros; apply Hf; by right). done.
Qed.

Definition op_envelope (o : DeviceChangeOperation) : envelope_operation :=
  EnvelopeOperation (o_OperationID o) (o_Config o) (o_ObservedStateHash o) (Some (o_Commands o)).

Lemma dec_operation_members a b c l :
  (dec_operation (JObj [("operation_id", JStr a); ("config", JStr b); ("commands", JArr l); ("observed_state_hash", JStr c)]) zero_operation =
   (v ← dec_elements dec_command zero_command l []; Some (EnvelopeOperation a b c (Some v)))) ∧
  (dec_operation (jsonb_of (JObj [("operation_id", JStr a); ("config", JStr b); ("commands", JArr l); ("observed_state_hash", JStr c)])) zero_operation =
   (v ← dec_elements dec_command zero_command (map jsonb_of l) []; Some (EnvelopeOperation a b c (Some v)))).
Proof.
  split.
  - cbv -[dec_elements dec_command zero_command]. by destruct (dec_elements _ _ _ _).
  - cbn [jsonb_of map fold_left fst snd]. cbv -[dec_elements dec_command zero_command jsonb_of map]. by destruct (dec_elements _ _ _ _).
Qed.

Lemma dec_operation_doc o :
  dec_operation (change_operation_json o) zero_operation = Some (op_envelope o) ∧
  dec_operation (jsonb_of (change_operation_json o)) zero_operation = Some (op_envelope o).
Proof.
  pose proof (dec_operation_members (o_OperationID o) (o_Config o) (o_ObservedStateHash o)
    (map command_json (o_Commands o))) as [H1 H2].
  unfold change_operation_json. rewrite H1, H2, map_map.
  rewrite (dec_elements_map dec_command zero_command command_json id) by (intros x _; exact (proj1 (dec_command_doc x))).
  rewrite (dec_elements_map dec_command zero_command (λ x, jsonb_of (command_json x)) id)
    by (intros x _; exact (proj2 (dec_command_doc x))).
  rewrite map_id. done.
Qed.

(** The document of a change set, and the one stored with its generation. *)
Definition members (a b c : string) (gen : list (string * json)) (ops hc : list json) (pol : string) : json :=
  JObj ([("change_set_id", JStr a); ("device_id", JStr b); ("plan_hash", JStr c)] ++ gen ++
    [("operations", JArr ops)] ++ match hc with [] => [] | l => [("health_checks", JArr l)] end ++
    [("confirmation_policy", JStr pol)])%list.
Lemma dec_envelope_members a b c ops hc pol :
  (unmarshal dec_envelope zero_envelope (Some (members a b c [] ops hc pol)) =
  (o ← dec_elements dec_operation zero_operation ops [];
   h ← (match hc with [] => Some None | l => Some <$> dec_elements dec_string "" l [] end);
   Some (Envelope a b c None "" "" pol (Some o) h))).
Proof.
  destruct hc as [|h hc];
  cbv -[dec_elements dec_operation zero_operation]; destruct (dec_elements dec_operation _ _ _); 
   try destruct (dec_elements _ _ _ _); done.
Qed.

Lemma dec_members_app {A} (fields : list (string * decoder A)) l1 l2 old :
  dec_members fields (l1 ++ l2) old = dec_members fields l1 old ≫= dec_members fields l2.
Proof.
  revert old. induction l1 as [|[k j] l1 IH]; intros old; [done|]. cbn [dec_members app].
  destruct (List.find _ fields) as [[n d]|]; [|apply IH].
  destruct (d j old); [|done]. apply IH.
Qed.

Lemma dec_int64_in g old : (int64_min ≤ g ≤ int64_max)%Z → dec_int64_ptr (JInt g) old = Some (Some g).
Proof.
  intros [H1 H2]. unfold dec_int64_ptr, JInt, int_num.
  apply Z.leb_le in H1 as ->. by apply Z.leb_le in H2 as ->.
Qed.

(** The member list of a stored change set. *)
Lemma stored_members a b c g ops hc pol :
  jsonb_set "generation" (JInt g) (jsonb_of (members a b c [] ops hc pol)) =
  JObj ([("device_id", JStr b); ("plan_hash", JStr c)] ++ [("generation", JInt g)] ++
    [("operations", JArr (map jsonb_of ops)); ("change_set_id", JStr a)] ++
    match hc with [] => [] | l => [("health_checks", JArr (map jsonb_of l))] end ++
    [("confirmation_policy", JStr pol)])%list.
Proof.
  destruct hc as [|h hc]; unfold members; cbn [app]; cbn [jsonb_of map fold_left fst snd];
  cbv -[jsonb_of map JInt]; reflexivity.
Qed.

Lemma dec_envelope_stored a b c g ops hc pol :
  (int64_min ≤ g ≤ int64_max)%Z →
  unmarshal dec_envelope zero_envelope (Some (jsonb_set "generation" (JInt g) (jsonb_of (members a b c [] ops hc pol)))) =
  (o ← dec_elements dec_operation zero_operation (map jsonb_of ops) [];
   h ← (match hc with [] => Some None | l => Some <$> dec_elements dec_string "" (map jsonb_of l) [] end);
   Some (Envelope a b c (Some g) "" "" pol (Some o) h)).
Proof.
  intros Hg. rewrite stored_members. unfold unmarshal, dec_envelope, dec_struct.
  change (mbind ?f (Some ?x)) with (f x). cbv beta iota.
  rewrite dec_members_app.
  match goal with |- context [dec_members ?f ?l zero_envelope] =>
    assert (dec_members f l zero_envelope = Some (Envelope "" b c None "" "" "" None None)) as -> by reflexivity end.
  change (mbind ?f (Some ?x)) with (f x). cbv beta.
  rewrite dec_members_app.
  match goal with |- context [dec_members ?f [("generation", ?v)] ?e] =>
    assert (dec_members f [("generation", v)] e = Some (Envelope "" b c (Some g) "" "" "" None None)) as -> end.
  { cbv -[dec_int64_ptr JInt]. by rewrite dec_int64_in. }
  change (mbind ?f (Some ?x)) with (f x). cbv beta.
  destruct hc as [|h hc]; cbv -[dec_elements dec_operation zero_operation jsonb_of map];
  destruct (dec_elements dec_operation _ _ _); try destruct (dec_elements _ _ _ _); done.
Qed.

(** ** The document of a valid change set *)

Lemma coerce_ascii s : str_forall is_ascii s = true → utf8_ok s.
Proof.
  unfold utf8_ok, utf8_coerce. induction s as [|c s IH]; [done|]. cbn [str_forall coerce_go].
  intros H. bools. unfold rune_width. rewrite H. cbn [Nat.sub]. by rewrite IH.
Qed.

Lemma coerce_forall (f : ascii → bool) s :
  (∀ c, f c = true → is_ascii c = true) → str_forall f s = true → utf8_ok s.
Proof. intros Hf Hs. apply coerce_ascii. by eapply str_forall_impl. Qed.

Lemma is_hex_ascii c : is_hex c = true → is_ascii c = true.
Proof. destruct c as [[] [] [] [] [] [] [] []]; intros Hc; vm_compute in Hc |- *; done. Qed.
Lemma device_id_ascii c : device_id_char c = true → is_ascii c = true.
Proof. destruct c as [[] [] [] [] [] [] [] []]; intros Hc; vm_compute in Hc |- *; done. Qed.
Lemma id_ascii c : id_char c = true → is_ascii c = true.
Proof. intros. by apply device_id_ascii, id_char_device. Qed.

Lemma operation_id_utf8 id : validDeviceOperationID id = true → utf8_ok id.
Proof. unfold validDeviceOperationID. intros. bools. by eapply coerce_forall; [exact id_ascii|]. Qed.
Lemma device_id_utf8 id : validDeviceChangeSetDeviceID id = true → utf8_ok id.
Proof. unfold validDeviceChangeSetDeviceID. intros. bools. by eapply coerce_forall; [exact device_id_ascii|]. Qed.
Lemma hash_utf8 h : validDeviceOperationPlanHash h = true → utf8_ok h.
Proof. unfold validDeviceOperationPlanHash. intros. bools. by eapply coerce_forall; [exact is_hex_ascii|]. Qed.
Lemma config_utf8 c : c ∈ deviceChangeSetConfigs → utf8_ok c.
Proof.
  unfold deviceChangeSetConfigs. rewrite !elem_of_cons, elem_of_nil.
  by intros [-> | [-> | [-> | [-> | [-> | []]]]]].
Qed.

(** The free texts of a change set are valid UTF-8. *)
Definition texts_utf8 (cs : DeviceChangeSet) : Prop :=
  Forall (λ o, Forall command_utf8 (o_Commands o)) (cs_Operations cs) ∧ Forall utf8_ok (elems (cs_HealthChecks cs)).

Definition command_utf8b (c : UciCommand) : bool :=
  forallb (λ s, utf8_coerce s =? s) [Action c; Config c; Sect c; Opt c; Value c].
Definition texts_utf8b (cs : DeviceChangeSet) : bool :=
  forallb (λ o, forallb command_utf8b (o_Commands o)) (cs_Operations cs) &&
  forallb (λ s, utf8_coerce s =? s) (elems (cs_HealthChecks cs)).
Lemma texts_utf8_sound cs : texts_utf8b cs = true → texts_utf8 cs.
Proof.
  unfold texts_utf8b, texts_utf8. intros H. apply andb_true_iff in H as [H1 H2].
  rewrite forallb_forall in H1, H2. split; apply Forall_forall; intros x Hx%list_elem_of_In.
  - specialize (H1 x Hx). rewrite forallb_forall in H1. apply Forall_forall. intros c Hc%list_elem_of_In.
    specialize (H1 c Hc). cbn in H1. bools. by repeat split.
  - by apply String.eqb_eq, H2.
Qed.

Lemma coerce_operation targets o :
  change_operation_ok targets o → Forall command_utf8 (o_Commands o) →
  json_coerce (change_operation_json o) = change_operation_json o.
Proof.
  intros (Hid & Hc & Hh & _) Hcmds. cbn.
  rewrite (operation_id_utf8 _ Hid), (config_utf8 _ Hc), (hash_utf8 _ Hh).
  rewrite map_map, (map_ext_in _ command_json); [done|]. intros c Hin. apply coerce_command.
  rewrite Forall_forall in Hcmds. apply Hcmds. by apply list_elem_of_In.
Qed.

Lemma change_set_json_members cs :
  change_set_ok cs → texts_utf8 cs → cs_Generation cs = 0%Z →
  change_set_json cs = members (cs_ChangeSetID cs) (cs_DeviceID cs) (cs_PlanHash cs) []
    (map change_operation_json (cs_Operations cs)) (map JStr (elems (cs_HealthChecks cs))) ConfirmationLocalAuto.
Proof.
  intros Hok [Hcmds Hhc] Hg. unfold change_set_json, omit_zero, omit_empty, members. rewrite Hg. cbn [Z.eqb app].
  pose proof (hash_utf8 (cs_PlanHash cs)) as Hh. rewrite (ok_hash _ Hok) in Hh at 1.
  cbn [json_coerce map fst snd]. rewrite !map_app. cbn [map fst snd json_coerce].
  rewrite (operation_id_utf8 _ (ok_id _ Hok)), (device_id_utf8 _ (ok_device _ Hok)), Hh by apply plan_hash_valid.
  rewrite (ok_policy _ Hok). change (utf8_coerce ConfirmationLocalAuto) with ConfirmationLocalAuto.
  rewrite map_map, (map_ext_in _ change_operation_json).
  2:{ intros o Hin%list_elem_of_In. pose proof (ok_operations _ Hok) as Hops. rewrite Forall_forall in Hops, Hcmds.
      eapply coerce_operation; eauto. }
  assert (map json_coerce (map JStr (elems (cs_HealthChecks cs))) = map JStr (elems (cs_HealthChecks cs))) as Hs.
  { rewrite map_map. apply map_ext_in. intros x Hx%list_elem_of_In. rewrite Forall_forall in Hhc. cbn.
    by rewrite (Hhc x). }
  destruct (elems (cs_HealthChecks cs)) as [|t l]; [done|].
  cbn [map fst snd json_coerce app] in *. by rewrite Hs.
Qed.

Lemma dec_strings l : dec_elements dec_string "" (map JStr l) [] = Some l.
Proof. rewrite (dec_elements_map dec_string "" JStr id) by done. by rewrite map_id. Qed.

(** The envelope the database decodes. *)
Definition envelope_of (cs : DeviceChangeSet) (g : option Z) : deviceChangeSetEnvelope :=
  Envelope (cs_ChangeSetID cs) (cs_DeviceID cs) (cs_PlanHash cs) g "" "" ConfirmationLocalAuto
    (Some (map op_envelope (cs_Operations cs))) (append_nil (cs_HealthChecks cs)).

Lemma decode_change_set cs :
  change_set_ok cs → texts_utf8 cs → cs_Generation cs = 0%Z →
  unmarshal dec_envelope zero_envelope (Some (change_set_json cs)) = Some (envelope_of cs None).
Proof.
  intros Hok Hu Hg. rewrite change_set_json_members by done. rewrite dec_envelope_members.
  rewrite (dec_elements_map dec_operation zero_operation change_operation_json op_envelope)
    by (intros x _; exact (proj1 (dec_operation_doc x))).
  unfold envelope_of, append_nil. cbn [mbind option_bind].
  destruct (elems (cs_HealthChecks cs)) as [|t l]; [done|].
  rewrite (dec_strings (t :: l)). done.
Qed.

Lemma decode_stored cs g :
  change_set_ok cs → texts_utf8 cs → cs_Generation cs = 0%Z → (int64_min ≤ g ≤ int64_max)%Z →
  unmarshal dec_envelope zero_envelope (Some (jsonb_set "generation" (JInt g) (jsonb_of (change_set_json cs)))) =
  Some (envelope_of cs (Some g)).
Proof.
  intros Hok Hu Hg Hr. rewrite change_set_json_members by done. rewrite dec_envelope_stored by done.
  rewrite (map_map change_operation_json jsonb_of), (dec_elements_map dec_operation zero_operation (λ o, jsonb_of (change_operation_json o)) op_envelope)
    by (intros x _; exact (proj2 (dec_operation_doc x))).
  unfold envelope_of, append_nil. cbn [mbind option_bind].
  destruct (elems (cs_HealthChecks cs)) as [|t l]; [done|].
  pose proof (dec_strings (t :: l)) as Hd.
  assert (map jsonb_of (map JStr (t :: l)) = map JStr (t :: l)) as Hm by (by rewrite map_map).
  cbn [map] in *. rewrite Hm, Hd. done.
Qed.

(** ** What the queue accepts *)

(** The actions the database's own command check knows. *)
Definition queueable_action (c : UciCommand) : bool :=
  negb (Action c =? "ensure_host") && negb (Action c =? "delete_all").

Lemma validUCIName_guard (b : bool) (t : string) : (if b then "" else t) ≠ "" → b = false.
Proof. by destruct b. Qed.

(** For a command that renders, the database's check is exactly that. *)
Lemma command_check c :
  Config c ∈ deviceChangeSetConfigs → operation_action_ok (Config c) c → translateCommand c ≠ "" →
  validDeviceChangeSetCommand c = queueable_action c.
Proof.
  intros Hns Hact Hr. unfold validDeviceChangeSetCommand, queueable_action, deviceChangeSetConfigAllowed.
  rewrite bool_decide_eq_true_2 by done. unfold translateCommand in Hr. cbn [andb].
  destruct Hact as [Hact|[[Ha _]|[Ha _]]]; [|rewrite Ha; done..].
  rewrite !elem_of_cons, elem_of_nil in Hact.
  destruct Hact as [Ha|[Ha|[Ha|[Ha|[Ha|[Ha|[]]]]]]]; rewrite Ha in *; cbn in Hr |- *;
    unfold SetOption, DeleteOption, Delete, AddList, DelList, AddAnonymousSection, Rename, nonempty in *.
  all: try (destruct (Opt c =? ""); cbn in Hr |- *).
  all: apply validUCIName_guard in Hr; bools.
  all: repeat match goal with H : ?x = true |- context [?x] => rewrite H end; try done.
  all: by destruct (validUCIName (Opt c)).
Qed.

Lemma parse_operations_ok targets seen operations :
  Forall (change_operation_ok targets) operations → NoDup (map o_Config operations) →
  (∀ o, o ∈ operations → o_Config o ∉ seen) →
  parse_operations seen (map op_envelope operations) = true.
Proof.
  revert seen. induction operations as [|o l IH]; intros seen Hall Hnd Hs; [done|].
  apply Forall_cons in Hall as [(Hid & Hc & Hh & Hop) Hall]. cbn [map] in Hnd. apply NoDup_cons in Hnd as [Hn Hnd].
  cbn [map parse_operations op_envelope eo_OperationID eo_Config eo_ObservedStateHash eo_Commands default].
  unfold deviceChangeSetConfigAllowed. rewrite Hid, Hh, bool_decide_eq_true_2 by done.
  rewrite (bool_decide_eq_false_2 (o_Config o ∈ seen)) by (apply Hs; left).
  destruct Hop as (_ & Hne & _). rewrite bool_decide_eq_false_2 by done. cbn [negb andb].
  apply IH; [done..|]. intros o' Hin. pose proof (Hs o' ltac:(by right)).
  assert (o_Config o' ≠ o_Config o) by (intros He; apply Hn; rewrite <- He; by apply list_elem_of_fmap_2).
  set_solver.
Qed.

Lemma health_checks_ok l : Forall (λ t, health_target_ok t = true) l → validDeviceChangeSetHealthChecks l = true.
Proof.
  induction 1 as [|t l Ht Hl IH]; [done|]. cbn. unfold health_target_ok in Ht. bools.
  unfold health_check_ok. by rewrite H0.
Qed.

Definition queueable (cs : DeviceChangeSet) : bool :=
  forallb (λ o, forallb queueable_action (o_Commands o)) (cs_Operations cs).

Lemma envelope_hash cs g :
  cs_ConfirmationPolicy cs = ConfirmationLocalAuto → append_nil (cs_HealthChecks cs) = cs_HealthChecks cs →
  envelopePlanHash (envelope_of cs g) = deviceChangeSetPlanHash cs.
Proof.
  intros Hp Hhc. unfold envelopePlanHash, deviceChangeSetPlanHash, envelope_content.
  change (default [] (e_Operations (envelope_of cs g))) with (map op_envelope (cs_Operations cs)).
  cbn [envelope_of e_HealthChecks e_ConfirmationPolicy]. rewrite Hp, Hhc, map_map.
  rewrite (map_ext _ id), map_id; [done|]. by intros [].
Qed.

Lemma command_checks cs :
  change_set_ok cs →
  forallb (λ o, forallb validDeviceChangeSetCommand (default [] (eo_Commands o))) (map op_envelope (cs_Operations cs)) =
  queueable cs.
Proof.
  intros Hok. unfold queueable. pose proof (change_set_commands cs) as Hc.
  assert (∀ o, o ∈ cs_Operations cs → ∀ c, c ∈ o_Commands o → validDeviceChangeSetCommand c = queueable_action c) as Hv.
  { intros o Ho c Hin. destruct (Hc o c Hok Ho Hin) as (He & Hns & Hr & Ha). rewrite <- He in *.
    by apply command_check. }
  clear Hc Hok. induction (cs_Operations cs) as [|o l IH]; [done|]. cbn. rewrite IH by (intros; eapply Hv; [by right|done]).
  f_equal. specialize (Hv o ltac:(by left)). induction (o_Commands o) as [|c cl IHc]; [done|]. cbn.
  rewrite Hv by left. rewrite IHc by (intros; apply Hv; by right). done.
Qed.

Definition stored_identity (cs : DeviceChangeSet) (g : option Z) : deviceChangeSetIdentity :=
  ChangeSetIdentity (cs_ChangeSetID cs) (cs_DeviceID cs) (cs_PlanHash cs) (default 0%Z g) (bool_decide (is_Some g)).

(** The checks of [parseDeviceChangeSet] on the decoded document. *)
Lemma parse_decoded cs g raw :
  change_set_ok cs → append_nil (cs_HealthChecks cs) = cs_HealthChecks cs →
  match g with Some z => (0 < z)%Z | None => True end →
  unmarshal dec_envelope zero_envelope raw = Some (envelope_of cs g) →
  parseDeviceChangeSet raw false =
  if queueable cs then Ok (stored_identity cs g) else Err (ErrText "invalid device change set command").
Proof.
  intros Hok Hhc Hg Hdec. unfold parseDeviceChangeSet. rewrite Hdec.
  cbn [envelope_of e_ChangeSetID e_DeviceID e_PlanHash e_Generation].
  rewrite (ok_id _ Hok), (ok_device _ Hok).
  assert (validDeviceOperationPlanHash (cs_PlanHash cs) = true) as -> by (rewrite (ok_hash _ Hok); apply plan_hash_valid).
  cbn [negb orb fail_if res_bind].
  assert (match g with Some z => (z <? 0)%Z | None => false end = false) as ->
    by (destruct g; [apply Z.ltb_ge; lia | done]).
  cbn [fail_if res_bind]. unfold parse_change_set.
  rewrite envelope_hash by (done || apply Hok).
  change (default [] (e_Operations (envelope_of cs g))) with (map op_envelope (cs_Operations cs)).
  cbn [envelope_of e_Generation e_ConfirmationPolicy e_HealthChecks e_PlanHash].
  rewrite (bool_decide_eq_false_2 (g = Some 0%Z)) by (destruct g; [intros [=]; lia | done]).
  destruct (ok_count _ Hok) as [Hlo Hhi].
  rewrite (bool_decide_eq_false_2 (map op_envelope (cs_Operations cs) = []))
    by (intros He%map_eq_nil; rewrite He in Hlo; cbn in Hlo; lia).
  rewrite length_map. apply Nat.ltb_ge in Hhi. rewrite Hhi.
  rewrite (parse_operations_ok _ ∅ _ (ok_operations _ Hok) (ok_namespaces _ Hok)) by set_solver.
  rewrite append_nil_elems, (health_checks_ok _ (ok_targets _ Hok)), command_checks, <- (ok_hash _ Hok), String.eqb_refl by done.
  cbn [String.eqb negb orb fail_if res_bind].
  change (ConfirmationLocalAuto =? "local_auto") with true. cbn [negb orb fail_if res_bind].
  rewrite String.eqb_refl. by destruct (queueable cs).
Qed.

(** *** Properties *)

Lemma constructed_healthchecks rollout device operations hc policy cs :
  NewDeviceChangeSetForRolloutOperations rollout device operations hc policy = Ok cs →
  change_set_ok cs ∧ append_nil (cs_HealthChecks cs) = cs_HealthChecks cs ∧ cs_Generation cs = 0%Z.
Proof.
  intros H. apply finish_change_set_ok in H as [-> Hok]. split; [done|]. cbn.
  unfold append_nil at 1 2. unfold append_nil. by destruct (elems hc).
Qed.


