(* ===== verification/Rollouts.v ===== *)
(** [internal/database/rollout_drafts.go] and [rollout_worker.go]: the durable
    rollouts of a site (drafts, claims, the atomic claim-and-queue, rejection,
    release, staleness) and the leases of the rollout worker. *)

From S2P Require Import Prelude GoStrings Json DeviceOperation Store DeviceOperations ChangeSets.

Definition ErrRolloutDraftNotFound : gerror := ErrSentinel "rollout draft not found".
Definition ErrRolloutDraftNotAvailable : gerror := ErrSentinel "rollout draft is not available".
Definition ErrRolloutLeaseUnavailable : gerror := ErrSentinel "rollout worker lease unavailable".
Definition ErrRolloutLeaseLost : gerror := ErrSentinel "rollout worker lease lost".

(** [RolloutDraftRecord] *)
Record RolloutDraftRecord := DraftRecord {
  rd_ID : string;
  rd_SiteID : string;
  rd_Generation : Z;
  rd_Status : string;
  rd_ClaimToken : string;
  rd_PlanHash : string;
  rd_RequestedBy : string;
  rd_TargetDeviceIDs : json;
  rd_Plan : json;
  rd_Results : json
}.

(** ** Row updates *)

Definition set_status (status : string) (token : option string) (now : Z) (r : rollout_row) : rollout_row :=
  Rollout (r_site_id r) (r_generation r) status token (r_worker_token r) (r_worker_lease_until r) (r_worker_cursor r)
    (r_plan_hash r) (r_requested_by r) (r_target_device_ids r) (r_plan r) (r_results r) now.
Definition set_results (status : string) (token : option string) (results : json) (now : Z) (r : rollout_row) : rollout_row :=
  Rollout (r_site_id r) (r_generation r) status token (r_worker_token r) (r_worker_lease_until r) (r_worker_cursor r)
    (r_plan_hash r) (r_requested_by r) (r_target_device_ids r) (r_plan r) results now.
(** [last_rollout_status] and [last_rollout_at] of a device. *)
Definition set_rollout_status (status : string) (now : Z) (d : device_row) : device_row :=
  Device (d_site_id d) (d_device_role d) (d_capabilities d) (d_desired d) (d_observed d) (d_last_successful d)
    (d_pending_operation d) (d_last_operation d) (d_pending_change_set d) (d_last_change_set d)
    (Some status) (Some now) (d_health_check_at d) (d_updated_at d).
Definition fail_device : Z → device_row → device_row := set_rollout_status "FAILED".
Definition update_where {A} (p : A → bool) (f : A → A) (m : gmap string A) : gmap string A :=
  (λ a, if p a then f a else a) <$> m.

Definition of_site (site : string) (r : rollout_row) : bool := r_site_id r =? site.
Definition site_rows (site : string) (t : tenant) : list rollout_row :=
  filter (λ r, of_site site r = true) (map snd (map_to_list (rollout_runs t))).
(** [last_rollout_status = 'RUNNING'] devices of the site become FAILED. *)
Definition fail_running_devices (now : Z) (site : string) : gmap string device_row → gmap string device_row :=
  update_where (λ d, bool_decide (d_site_id d = Some site) && bool_decide (d_rollout_status d = Some "RUNNING"))
    (fail_device now).

(** [pg_advisory_xact_lock]: no effect on the tables. *)
Definition advisory_lock : M unit := query (λ _, Ok tt).

(** ** Drafts *)

(** Characters of a text (bytes that are not UTF-8 continuation bytes). *)
Fixpoint char_length (s : string) : nat :=
  match s with
  | EmptyString => 0
  | String c s => (if between "128" "191" c then 0 else 1) + char_length s
  end.
(** [CHAR(64)] and [VARCHAR(100)] columns: longer texts are errors, and the
    former pads with blanks. *)
Definition char64 (s : string) : res string :=
  if (char_length s <=? 64)%nat
  then Ok (s +:+ concat_strings (replicate (64 - char_length s) " ")) else Err ErrDriver.
Definition varchar (n : nat) (s : string) : res string :=
  if (char_length s <=? n)%nat then Ok s else Err ErrDriver.

Definition max_generation (rows : list rollout_row) : Z := foldr Z.max 0%Z (map r_generation rows).

Definition draft_sequence (siteID : string) : M Z :=
  query (λ t, let! site := uuid_param siteID in next_generation (max_generation (site_rows site t))).
Definition stale_older_drafts (now : Z) (siteID : string) (sequence : Z) : M unit :=
  statement (λ t,
    let! site := uuid_param siteID in
    Ok (tt, set_rollouts (update_where
      (λ r, of_site site r && (r_status r =? "DRAFT") && (r_generation r <? sequence)%Z)
      (set_status "STALE" None now)) t)).
Definition insert_draft (now : Z) (new_id siteID requestedBy planHash : string) (sequence : Z)
    (targets plan : raw_message) : M string :=
  statement (λ t,
    let! site := uuid_param siteID in
    let! hash := char64 planHash in
    let! requested := varchar 100 requestedBy in
    let! targets := match targets with Some j => jsonb_param j | None => Err ErrDriver end in
    let! plan := match plan with Some j => jsonb_param j | None => Err ErrDriver end in
    let! _ := fail_if (negb (bool_decide (site ∈ sites t)) || bool_decide (is_Some (rollout_runs t !! new_id)) ||
                       existsb (λ r, (r_generation r =? sequence)%Z) (site_rows site t)) ErrDriver in
    Ok (new_id, set_rollouts <[new_id := Rollout site sequence "DRAFT" None None None 0 hash requested targets plan
                                          (JArr []) now]> t)).

(** [CreateRolloutDraft]; [new_id] is the uuid the database generates. *)
Definition CreateRolloutDraft (now : Z) (new_id schema siteID requestedBy planHash : string)
    (targets plan : raw_message) : M RolloutDraftRecord :=
  let* _ := lift (SafeSchemaIdent schema) in
  transaction (
    let* _ := advisory_lock in
    let* sequence := draft_sequence siteID in
    let* _ := stale_older_drafts now siteID sequence in
    let* id := insert_draft now new_id siteID requestedBy planHash sequence targets plan in
    mret (DraftRecord id siteID sequence "DRAFT" "" planHash requestedBy (default JNull targets) (default JNull plan) (JArr []))).

(** [GetRolloutDraft] *)
Definition record_of (id : string) (r : rollout_row) : RolloutDraftRecord :=
  DraftRecord id (r_site_id r) (r_generation r) (r_status r) (default "" (r_claim_token r)) (r_plan_hash r)
    (r_requested_by r) (r_target_device_ids r) (r_plan r) (r_results r).
(** The row [WHERE id = $1 AND site_id = $2]. *)
Definition find_rollout (rolloutID siteID : string) (t : tenant) : res (string * option rollout_row) :=
  let! id := uuid_param rolloutID in
  let! site := uuid_param siteID in
  Ok (id, r ← rollout_runs t !! id; if of_site site r then Some r else None).
Definition GetRolloutDraft (schema siteID rolloutID : string) : M RolloutDraftRecord :=
  let* _ := lift (SafeSchemaIdent schema) in
  let* found := query (find_rollout rolloutID siteID) in
  match found with
  | (id, Some r) => mret (record_of id r)
  | (_, None) => mfail (ErrWrap ErrRolloutDraftNotFound rolloutID)
  end.

(** ** Claims *)

Definition is_draft (r : rollout_row) : bool := r_status r =? "DRAFT".
Definition is_running (r : rollout_row) : bool := r_status r =? "RUNNING".
(** A RUNNING rollout whose last update is less than 20 minutes old is active. *)
Definition recent (now : Z) (r : rollout_row) : bool := (now - minutes 20 <=? r_updated_at r)%Z.
Definition newer_draft (rows : list rollout_row) (r : rollout_row) : bool :=
  existsb (λ n, is_draft n && (r_generation r <? r_generation n)%Z) rows.

(** The four data-modifying parts of the statement of [claimRolloutDraftTx] all
    read the tables as they were before it: expired runs become STALE (and the
    site's running devices FAILED), superseded drafts become STALE, and the
    candidate, if it qualifies, RUNNING. *)
Definition claim_candidate (now : Z) (site : string) (rows : list rollout_row) (r : rollout_row) : bool :=
  of_site site r && is_draft r && negb (newer_draft rows r) &&
  negb (existsb (λ a, is_running a && recent now a) rows).
Definition expire_row (now : Z) (site : string) (rows : list rollout_row) (r : rollout_row) : rollout_row :=
  if of_site site r && ((is_running r && negb (recent now r)) || (is_draft r && newer_draft rows r))
  then set_status "STALE" None now r else r.
Definition expire_devices (now : Z) (site : string) (rows : list rollout_row) :
    gmap string device_row → gmap string device_row :=
  if existsb (λ r, is_running r && negb (recent now r)) rows then fail_running_devices now site else id.
Definition claim_statement (now : Z) (token rolloutID siteID : string) : M (option (string * rollout_row)) :=
  statement (λ t,
    let! id := uuid_param rolloutID in
    let! site := uuid_param siteID in
    let rows := site_rows site t in
    let t' := set_devices (expire_devices now site rows) (set_rollouts (fmap (expire_row now site rows)) t) in
    match rollout_runs t !! id with
    | Some r =>
        if claim_candidate now site rows r then
          let r := set_status "RUNNING" (Some token) now r in
          Ok (Some (id, r), set_rollouts <[id := r]> t')
        else Ok (None, t')
    | None => Ok (None, t')
    end).
(** [claimRolloutDraftTx]; [token] is the generated claim token. *)
Definition claimRolloutDraftTx (now : Z) (token siteID rolloutID : string) : M RolloutDraftRecord :=
  let* claimed := claim_statement now token rolloutID siteID in
  match claimed with
  | Some (id, r) => mret (record_of id r)
  | None => mfail (ErrWrap ErrRolloutDraftNotAvailable rolloutID)
  end.

(** [ClaimRolloutDraft] *)
Definition ClaimRolloutDraft (now : Z) (token schema siteID rolloutID : string) : M RolloutDraftRecord :=
  let* _ := lift (SafeSchemaIdent schema) in
  transaction (let* _ := advisory_lock in claimRolloutDraftTx now token siteID rolloutID).

(** ** Claim and queue *)

(** A decoded [[]map[string]interface{}]: the objects of an array, their keys
    unique (a later duplicate wins) and in the order [json.Marshal] writes them;
    a null element is a nil map.  Numbers stay as they are: the results hold
    integers below 2^53 only, which a float64 keeps. *)
Fixpoint map_insert (kv : string * json) (l : list (string * json)) : list (string * json) :=
  match l with
  | [] => [kv]
  | kv' :: l' =>
      if kv'.1 =? kv.1 then kv :: l'
      else if str_less kv'.1 kv.1 then kv' :: map_insert kv l' else kv :: l
  end.
Fixpoint go_value (j : json) : json :=
  match j with
  | JArr l => JArr (map go_value l)
  | JObj l => JObj (fold_left (λ acc kv, map_insert (kv.1, go_value kv.2) acc) l [])
  | _ => j
  end.
Definition go_map := list (string * json).
Definition dec_maps (raw : raw_message) : option (list (option go_map)) :=
  j ← raw;
  match j with
  | JNull => Some []
  | JArr l => mapM (λ x, match x with
                         | JNull => Some None
                         | JObj _ => match go_value x with JObj m => Some (Some m) | _ => None end
                         | _ => None
                         end) l
  | _ => None
  end.
Definition maps_json (l : list (option go_map)) : json :=
  JArr (map (λ m, match m with Some m => JObj m | None => JNull end) l).
Definition map_get (key : string) (m : option go_map) : option json := m ≫= assoc key.

(** The loop and the coverage check of [addDeviceGenerations]. *)
Fixpoint add_generations (generations : gmap string Z) (seen : gset string) (results : list (option go_map))
    : res (list (option go_map) * gset string) :=
  match results with
  | [] => Ok ([], seen)
  | result :: results =>
      match map_get "device_id" result with
      | Some (JStr deviceID) =>
          match generations !! deviceID with
          | None =>
              match map_get "status" result with
              | Some (JStr "WAITING") =>
                  let! ' (rest, seen) := add_generations generations ({[deviceID]} ∪ seen) results in
                  Ok (result :: rest, seen)
              | _ => Err (ErrText "queued rollout result has unknown device")
              end
          | Some generation =>
              let! _ := fail_if (bool_decide (deviceID ∈ seen))
                                (ErrText "queued rollout results contain duplicate device") in
              let! ' (rest, seen) := add_generations generations ({[deviceID]} ∪ seen) results in
              Ok ((map_insert ("device_generation", JInt generation) <$> result) :: rest, seen)
          end
      | _ => Err (ErrText "queued rollout result is missing device_id")
      end
  end.
(** [addDeviceGenerations] *)
Definition addDeviceGenerations (raw : raw_message) (generations : gmap string Z) : res json :=
  match dec_maps raw with
  | None => Err (ErrText "invalid queued rollout results")
  | Some results =>
      let! ' (results, seen) := add_generations generations ∅ results in
      let! _ := fail_if (negb (bool_decide (dom generations ⊆ seen)))
                        (ErrText "queued rollout results do not cover changeset device") in
      Ok (maps_json results)
  end.

(** [DeviceChangeSetQueueItem] *)
Record DeviceChangeSetQueueItem := QueueItem {
  qi_DeviceRole : string;
  qi_ChangeSet : raw_message
}.

(** The loop over the items: parse, queue under the rollout, remember. *)
Fixpoint queue_items (now : Z) (schema siteID rolloutID : string) (items : list DeviceChangeSetQueueItem)
    (generations : gmap string Z) : M (gmap string Z * list deviceChangeSetIdentity) :=
  match items with
  | [] => mret (generations, [])
  | item :: items =>
      let* identity := lift (parseDeviceChangeSet (qi_ChangeSet item) false) in
      let* g := QueueDeviceChangeSetForRollout now schema siteID (qi_DeviceRole item) (ci_DeviceID identity)
                  (qi_ChangeSet item) rolloutID in
      let* ' (generations, identities) :=
        queue_items now schema siteID rolloutID items (<[ci_DeviceID identity := g]> generations) in
      mret (generations, identity :: identities)
  end.

(** The UPDATE that closes the claim: RUNNING to QUEUED under the claim token. *)
Definition close_claim (now : Z) (results : json) (rolloutID siteID token : string) : M nat :=
  statement (λ t,
    let! results := jsonb_param results in
    let! ' (id, found) := find_rollout rolloutID siteID t in
    match found with
    | Some r =>
        if is_running r && bool_decide (r_claim_token r = Some token)
        then Ok (1%nat, set_rollouts <[id := set_results "QUEUED" None results now r]> t)
        else Ok (0%nat, t)
    | None => Ok (0%nat, t)
    end).
Fixpoint audit_queued (username siteID remoteAddr rolloutID : string) (generations : gmap string Z)
    (identities : list deviceChangeSetIdentity) : M unit :=
  match identities with
  | [] => mret tt
  | i :: identities =>
      let* _ := InsertAuditLogContext username "SITE_ORCHESTRATOR_CHANGESET_QUEUED" "SITE" siteID
        ("Rollout " +:+ rolloutID +:+ " queued changeset " +:+ ci_ID i +:+ " for device " +:+ ci_DeviceID i +:+
         " at generation " +:+ dec (default 0%Z (generations !! ci_DeviceID i))) remoteAddr in
      audit_queued username siteID remoteAddr rolloutID generations identities
  end.

(** [ClaimAndQueueDeviceChangeSets] *)
Definition ClaimAndQueueDeviceChangeSets (now : Z) (token schema siteID rolloutID : string)
    (items : list DeviceChangeSetQueueItem) (queuedResults : raw_message) (username remoteAddr : string)
    : M (gmap string Z) :=
  let* _ := lift (fail_if (bool_decide (List.length items = 0%nat)) (ErrText "at least one device changeset is required")) in
  let* _ := lift (SafeSchemaIdent schema) in
  transaction (
    let* _ := advisory_lock in
    let* record := claimRolloutDraftTx now token siteID rolloutID in
    let* ' (generations, identities) := queue_items now schema siteID rolloutID items ∅ in
    let* results := lift (addDeviceGenerations queuedResults generations) in
    let* affected := close_claim now results rolloutID siteID (rd_ClaimToken record) in
    let* _ := lift (fail_if (negb (affected =? 1)%nat) (ErrWrap ErrRolloutDraftNotAvailable "claim lost")) in
    let* _ := InsertAuditLogContext username "SITE_ORCHESTRATOR_ROLLOUT_START" "SITE" siteID
      ("Claimed rollout draft " +:+ rolloutID +:+ " rollout sequence " +:+ dec (rd_Generation record) +:+
       " plan_hash " +:+ rd_PlanHash record) remoteAddr in
    let* _ := audit_queued username siteID remoteAddr rolloutID generations identities in
    mret generations).
(** [ClaimAndQueueDeviceChangeSet] *)
Definition ClaimAndQueueDeviceChangeSet (now : Z) (token schema siteID rolloutID deviceRole : string)
    (changeSet queuedResult : raw_message) (username remoteAddr : string) : M Z :=
  let* generations := ClaimAndQueueDeviceChangeSets now token schema siteID rolloutID
    [QueueItem deviceRole changeSet] queuedResult username remoteAddr in
  let* identity := lift (parseDeviceChangeSet changeSet false) in
  mret (default 0%Z (generations !! ci_DeviceID identity)).

(** ** Closing a draft *)

(** An UPDATE of the rollout [id] of the site under a condition. *)
Definition update_rollout (rolloutID siteID : string) (p : rollout_row → bool) (f : rollout_row → rollout_row) : M nat :=
  statement (λ t,
    let! ' (id, found) := find_rollout rolloutID siteID t in
    match found with
    | Some r => if p r then Ok (1%nat, set_rollouts <[id := f r]> t) else Ok (0%nat, t)
    | None => Ok (0%nat, t)
    end).
Definition one_row (e : gerror) (affected : nat) : M unit := lift (fail_if (negb (affected =? 1)%nat) e).

(** [RejectRolloutDraft] *)
Definition RejectRolloutDraft (now : Z) (schema siteID rolloutID reason : string) : M unit :=
  let* _ := lift (SafeSchemaIdent schema) in
  let* _ := lift (fail_if (negb (no_nul reason)) ErrDriver) in
  let* affected := update_rollout rolloutID siteID is_draft (λ r,
    set_results "REJECTED" (r_claim_token r)
      (JArr [jsonb_build_object [("status", JStr "REJECTED"); ("error", JStr reason)]]) now r) in
  one_row (ErrWrap ErrRolloutDraftNotAvailable rolloutID) affected.

(** [ReleaseRolloutDraft] *)
Definition held_by (token : string) (r : rollout_row) : bool :=
  is_running r && bool_decide (r_claim_token r = Some token).
Definition ReleaseRolloutDraft (now : Z) (schema siteID rolloutID claimToken : string) : M unit :=
  let* _ := lift (SafeSchemaIdent schema) in
  let* affected := update_rollout rolloutID siteID (held_by claimToken) (set_status "DRAFT" None now) in
  one_row (ErrWrap ErrRolloutDraftNotAvailable rolloutID) affected.

(** [MarkRolloutDraftStale] *)
Definition MarkRolloutDraftStale (now : Z) (schema siteID rolloutID claimToken : string) : M unit :=
  let* _ := lift (SafeSchemaIdent schema) in
  transaction (
    let* previous := query (λ t,
      let! ' (_, found) := find_rollout rolloutID siteID t in
      Ok (r ← found; if is_draft r || held_by claimToken r then Some (r_status r) else None)) in
    match previous with
    | None => mfail (ErrWrap ErrRolloutDraftNotAvailable rolloutID)
    | Some previousStatus =>
        let* affected := update_rollout rolloutID siteID (λ _, true) (set_status "STALE" None now) in
        let* _ := one_row (ErrWrap ErrRolloutDraftNotAvailable rolloutID) affected in
        if previousStatus =? "RUNNING" then
          statement (λ t,
            let! site := uuid_param siteID in
            Ok (tt, set_devices (fail_running_devices now site) t))
        else mret tt
    end).

(** ** The worker's leases *)

(** [RolloutLease] *)
Record RolloutLease := Lease {
  l_RolloutID : string;
  l_SiteID : string;
  l_Token : string;
  l_Cursor : Z
}.

(** [RolloutProgress] *)
Record RolloutProgress := Progress {
  pg_Status : string;
  pg_TerminalCount : Z;
  pg_ResultCount : Z;
  pg_FailureCount : Z;
  pg_Plan : json;
  pg_Results : json
}.

(** The [{Status; ChangeSetState}] struct of [GetRolloutProgress] *)
Definition dec_result_status : decoder (string * string) := dec_struct [
  ("status", λ j r, v ← dec_string j r.1; Some (v, r.2));
  ("change_set_state", λ j r, v ← dec_string j r.2; Some (r.1, v))
].
Definition terminal_result (r : string * string) : bool :=
  (r.1 =? "SUCCESS") || (r.1 =? "SKIPPED") || (r.2 =? "COMMITTED") || (r.2 =? "RESTORED") ||
  (r.2 =? "RECOVERY_REQUIRED") || (r.2 =? "REJECTED").
Definition failed_result (r : string * string) : bool :=
  terminal_result r && negb (r.1 =? "SUCCESS") && negb (r.1 =? "SKIPPED") && negb (r.2 =? "COMMITTED").
Definition count {A} (p : A → bool) (l : list A) : Z := Z.of_nat (List.length (filter (λ x, p x = true) l)).
Definition rollout_progress (r : rollout_row) : res RolloutProgress :=
  let decoded := match r_results r with
                 | JNull => Some []
                 | j => default [] <$> dec_slice dec_result_status ("", "") j None
                 end in
  match decoded with
  | None => Err (ErrText "json")
  | Some results =>
      Ok (Progress (r_status r) (count terminal_result results) (Z.of_nat (List.length results))
            (count failed_result results) (r_plan r) (r_results r))
  end.

(** [GetRolloutProgress] *)
Definition GetRolloutProgress (schema rolloutID siteID : string) : M RolloutProgress :=
  let* _ := lift (SafeSchemaIdent schema) in
  let* found := query (find_rollout rolloutID siteID) in
  match found with
  | (_, Some r) => lift (rollout_progress r)
  | (_, None) => mfail (ErrSentinel "sql: no rows in result set")
  end.

(** The worker's fence: RUNNING, the current token, an unexpired lease. *)
Definition fenced (now : Z) (token : string) (r : rollout_row) : bool :=
  is_running r && bool_decide (r_worker_token r = Some token) &&
  match r_worker_lease_until r with Some until => (now <=? until)%Z | None => false end.
Definition set_worker (token : option string) (until : option Z) (cursor : Z) (results : json) (now : Z)
    (r : rollout_row) : rollout_row :=
  Rollout (r_site_id r) (r_generation r) "RUNNING" (r_claim_token r) token until cursor
    (r_plan_hash r) (r_requested_by r) (r_target_device_ids r) (r_plan r) results now.
Definition fenced_update (now : Z) (schema : string) (lease : RolloutLease) (f : rollout_row → rollout_row) : M unit :=
  let* _ := lift (SafeSchemaIdent schema) in
  let* affected := update_rollout (l_RolloutID lease) (l_SiteID lease) (fenced now (l_Token lease)) f in
  one_row ErrRolloutLeaseLost affected.

(** [UpdateRolloutWorkerCursor], [UpdateRolloutWorkerResults] and
    [RenewRolloutLease] *)
Definition UpdateRolloutWorkerCursor (now : Z) (schema : string) (lease : RolloutLease) (cursor : Z) : M unit :=
  fenced_update now schema lease (λ r,
    set_worker (r_worker_token r) (r_worker_lease_until r) (Z.max (r_worker_cursor r) cursor) (r_results r) now r).
Definition UpdateRolloutWorkerResults (now : Z) (schema : string) (lease : RolloutLease) (results : json) : M unit :=
  match jsonb_in results with
  | None => let* _ := lift (SafeSchemaIdent schema) in mfail ErrDriver
  | Some results =>
      fenced_update now schema lease (λ r,
        set_worker (r_worker_token r) (r_worker_lease_until r) (r_worker_cursor r) results now r)
  end.
Definition RenewRolloutLease (now : Z) (schema : string) (lease : RolloutLease) (leaseDuration : Z) : M unit :=
  fenced_update now schema lease (λ r,
    set_worker (r_worker_token r) (Some (now + leaseDuration)%Z) (r_worker_cursor r) (r_results r) now r).

(** The candidates of [ClaimQueuedRollout]: queued, or running with an expired
    lease, on a site without an unexpired lease; the least generation comes
    first (of several sites' equal generations, the first in the table). *)
Definition lease_active (now : Z) (r : rollout_row) : bool :=
  is_running r && match r_worker_lease_until r with Some until => (now <=? until)%Z | None => false end.
Definition lease_expired (now : Z) (r : rollout_row) : bool :=
  is_running r && match r_worker_lease_until r with Some until => (until <? now)%Z | None => false end.
Definition claimable (now : Z) (t : tenant) (r : rollout_row) : bool :=
  ((r_status r =? "QUEUED") || lease_expired now r) &&
  negb (existsb (λ a, lease_active now a) (site_rows (r_site_id r) t)).
Definition claim_order (t : tenant) (now : Z) : list (string * rollout_row) :=
  stable_sort (λ a b, (r_generation a.2 <? r_generation b.2)%Z)
    (filter (λ kr, claimable now t kr.2 = true) (map_to_list (rollout_runs t))).

(** [ClaimQueuedRollout]; [token] is the generated worker token. *)
Definition ClaimQueuedRollout (now : Z) (token schema : string) (leaseDuration : Z) : M RolloutLease :=
  let* _ := lift (SafeSchemaIdent schema) in
  let* _ := lift (fail_if (leaseDuration <=? 0)%Z (ErrText "lease duration must be positive")) in
  let* claimed := statement (λ t,
    match claim_order t now with
    | [] => Ok (None, t)
    | (id, r) :: _ =>
        let r := set_worker (Some token) (Some (now + leaseDuration)%Z) (r_worker_cursor r) (r_results r) now r in
        Ok (Some (Lease id (r_site_id r) token (r_worker_cursor r)), set_rollouts <[id := r]> t)
    end) in
  match claimed with
  | Some lease => mret lease
  | None => mfail ErrRolloutLeaseUnavailable
  end.
