(* ===== verification/UciState.v ===== *)
(** [internal/api/handlers/central_config.go] from [UCISection] on, and the filter
    of [site_orchestrator.go]: reading the output of [uci show], and deciding
    which commands of a plan the observed state already satisfies. *)

From S2P Require Import Prelude GoStrings Uci Store.

(** A value of [Options]: a string or a []string. *)
Inductive uci_value :=
  | Text (s : string)
  | Texts (l : list string).
#[export] Instance uci_value_eq_dec : EqDecision uci_value.
Proof. solve_decision. Defined.

Record UCISection := Section_ {
  us_ID : string;
  us_Type : string;
  us_Name : string;
  us_IsAnon : bool;
  us_Options : gmap string uci_value
}.

(** ** Reading [uci show] *)

(** The inner loop of [parseUCIValue], after an opening quote: the value up to the
    closing quote, where ['\''] stands for a quote, and what follows. *)
Fixpoint quoted_value (raw : string) : string * string :=
  match raw with
  | EmptyString => ("", "")
  | String "'" (String "\" (String "'" (String "'" raw))) =>
      let '(value, rest) := quoted_value raw in (String "'" value, rest)
  | String "'" raw => ("", raw)
  | String c raw => let '(value, rest) := quoted_value raw in (String c value, rest)
  end.
(** The outer loop; each turn takes a quote, so the length is enough fuel. *)
Fixpoint quoted_values (fuel : nat) (raw : string) : list string :=
  match fuel with
  | O => []
  | S fuel =>
      match trim_space raw with
      | String "'" raw => let '(value, rest) := quoted_value raw in value :: quoted_values fuel rest
      | _ => []
      end
  end.
Definition single (values : list string) : uci_value :=
  match values with [value] => Text value | _ => Texts values end.
(** [parseUCIValue] *)
Definition parseUCIValue (raw : string) : uci_value :=
  let raw := trim_space raw in
  match raw with
  | String "'" _ => single (quoted_values (String.length raw) raw)
  | _ => Text (trim_chars raw "'")
  end.
(** [mergeUCIValues] *)
Definition value_list (v : uci_value) : list string := match v with Text s => [s] | Texts l => l end.
Definition mergeUCIValues (existing next : uci_value) : uci_value := single (value_list existing ++ value_list next).

(** The sections in the order in which they were first named. *)
Definition has_section (id : string) (sections : list UCISection) : bool := existsb (λ s, us_ID s =? id) sections.
Definition update_section (id : string) (f : UCISection → UCISection) (sections : list UCISection) : list UCISection :=
  map (λ s, if us_ID s =? id then f s else s) sections.
Definition add_section (id type : string) (sections : list UCISection) : list UCISection :=
  sections ++ [Section_ id type id (has_prefix id "@") ∅].
Definition text_of (v : uci_value) : string := match v with Text s => s | Texts _ => "" end.
Definition set_type (v : uci_value) (s : UCISection) : UCISection :=
  match v with
  | Text t => Section_ (us_ID s) t (us_Name s) (us_IsAnon s) (us_Options s)
  | Texts _ => s
  end.
Definition put_option (key : string) (v : uci_value) (s : UCISection) : UCISection :=
  Section_ (us_ID s) (us_Type s) (us_Name s) (us_IsAnon s)
    (<[key := match us_Options s !! key with Some old => mergeUCIValues old v | None => v end]> (us_Options s)).

(** One line of the loop of [parseUciShow]. *)
Definition show_line (prefix : string) (sections : list UCISection) (line : string) : list UCISection :=
  match strip_prefix prefix (trim_space line) with
  | None => sections
  | Some rest =>
      match str_cut "=" rest with
      | None => sections
      | Some (keyPart, raw) =>
          let value := parseUCIValue raw in
          match str_cut "." keyPart with
          | None =>
              if has_section keyPart sections then update_section keyPart (set_type value) sections
              else add_section keyPart (text_of value) sections
          | Some (sectionID, optKey) =>
              update_section sectionID (put_option optKey value)
                (if has_section sectionID sections then sections else add_section sectionID "" sections)
          end
      end
  end.
(** [parseUciShow]; the prefix is never empty, so neither is a line that has it. *)
Definition parseUciShow (raw config : string) : list UCISection :=
  fold_left (show_line (config +:+ ".")) (str_split "010" raw) [].

(** ** Comparing a command with the observed state *)

(** The submatches of [uciAnonymousSectionPattern]. *)
Definition anonymous_reference (reference : string) : option (string * string) :=
  rest ← strip_prefix "@" reference;
  '(name, rest) ← str_cut "[" rest;
  '(index, after) ← str_cut "]" rest;
  let digits := trim_prefix index "-" in
  if nonempty name && str_forall name_char name && nonempty digits && str_forall is_digit digits && (after =? "")
  then Some (name, index) else None.

(** The position of the section among those of its type, counted from 0: of several
    with its id, the last. *)
Fixpoint type_index (id : string) (candidates : list UCISection) (position : Z) (found : option Z) : option Z :=
  match candidates with
  | [] => found
  | c :: candidates => type_index id candidates (position + 1)%Z (if us_ID c =? id then Some position else found)
  end.
(** [uciSectionMatchesReference] *)
Definition uciSectionMatchesReference (reference : string) (section : UCISection) (sections : list UCISection) : bool :=
  if reference =? us_ID section then true
  else match anonymous_reference reference with
       | None => false
       | Some (type, digits) =>
           if negb (us_Type section =? type) then false
           else match atoi digits with
                | None => false
                | Some index =>
                    let candidates := filter (λ c, us_Type c = type) sections in
                    match type_index (us_ID section) candidates 0 None with
                    | None => false
                    | Some position =>
                        (position =? (if (index <? 0)%Z then Z.of_nat (List.length candidates) - 1 + index + 1 else index))%Z
                    end
                end
       end.
(** The sections a reference means, in order. *)
Definition referenced (reference : string) (sections : list UCISection) : list UCISection :=
  filter (λ s, uciSectionMatchesReference reference s sections = true) sections.

(** [uciOptionValues], [uciListEquals] and [uciMACListsEqual] *)
Definition uciListEquals (observed : uci_value) (desired : list string) : bool := bool_decide (value_list observed = desired).
Fixpoint fold_equal (observed desired : list string) : bool :=
  match observed, desired with
  | [], [] => true
  | o :: observed, d :: desired => equal_fold o d && fold_equal observed desired
  | _, _ => false
  end.
Definition uciMACListsEqual (observed : uci_value) (desired : list string) : bool := fold_equal (value_list observed) desired.
(** [uciOptionContains], which is always called case-sensitively. *)
Definition uciOptionContains (value : uci_value) (want : string) : bool := existsb (λ s, s =? want) (value_list value).
(** [uciCommandValueMatches] *)
Definition uciCommandValueMatches (action : string) (observed : uci_value) (want : string) : bool :=
  if action =? "add_list" then uciOptionContains observed want
  else if action =? "del_list" then negb (uciOptionContains observed want)
  else match observed with
       | Texts values => (List.length values =? 1)%nat && uciOptionContains observed want
       | Text _ => uciOptionContains observed want
       end.

(** A lease that [ensure_host] asks for. *)
Definition is_host (command : UciCommand) (macs : list string) (section : UCISection) : bool :=
  (us_Type section =? "host") &&
  match us_Options section !! "name", us_Options section !! "mac", us_Options section !! "ip" with
  | Some (Text name), Some mac, Some ip =>
      (name =? Sect command) && uciMACListsEqual mac macs && uciOptionContains ip (Value command)
  | _, _, _ => false
  end.
(** [uciCommandMatchesObserved] *)
Definition uciCommandMatchesObserved (command : UciCommand) (sections : list UCISection) : bool :=
  if Action command =? "ensure_host" then
    match ParseMACList (Opt command) with
    | Err _ => false
    | Ok macs => existsb (is_host command macs) sections
    end
  else if Action command =? "delete" then
    match referenced (Sect command) sections with
    | [] => true
    | section :: _ =>
        if Opt command =? "" then false else negb (bool_decide (is_Some (us_Options section !! Opt command)))
    end
  else
    existsb (λ section,
      match us_Options section !! Opt command with
      | Some value => uciCommandValueMatches (Action command) value (Value command)
      | None => false
      end) (referenced (Sect command) sections).

(** [plannedListAfterDelete]: the values that later commands of the plan add to the
    deleted list, unless one of them sets or deletes again. *)
Fixpoint planned_list (command : UciCommand) (later : list UciCommand) : option (list string) :=
  match later with
  | [] => Some []
  | l :: later =>
      if negb (Config l =? Config command) || negb (Sect l =? Sect command) || negb (Opt l =? Opt command)
      then planned_list command later
      else if Action l =? "add_list" then cons (Value l) <$> planned_list command later
      else if text_in (Action l) ["delete"; "set"; "del_list"] then None
      else planned_list command later
  end.
Definition plannedListAfterDelete (command : UciCommand) (later : list UciCommand) : option (list string) :=
  match planned_list command later with
  | Some [] | None => None
  | Some desired => Some desired
  end.
(** [observedUCIOption] *)
Definition observedUCIOption (sectionID key : string) (sections : list UCISection) : option uci_value :=
  match referenced sectionID sections with
  | [] => None
  | section :: _ => us_Options section !! key
  end.
(** [uciCommandMatchesObservedInPlan]; [later] are the commands after this one. *)
Definition uciCommandMatchesObservedInPlan (command : UciCommand) (later : list UciCommand) (sections : list UCISection)
    : bool :=
  match (if Action command =? "delete" then plannedListAfterDelete command later else None) with
  | Some desired =>
      match observedUCIOption (Sect command) (Opt command) sections with
      | Some observed => uciListEquals observed desired
      | None => false
      end
  | None => uciCommandMatchesObserved command sections
  end.
(** [isDefaultDifference] *)
Definition isDefaultDifference (command : UciCommand) : bool :=
  (Config command =? "wireless") && (Opt command =? "disabled") && (Value command =? "0").

(** [filterUCICommandsByObservedState] *)
Definition already_observed (command : UciCommand) (later : list UciCommand) (sections : list UCISection) : bool :=
  negb (Opt command =? "") &&
  (uciCommandMatchesObservedInPlan command later sections || isDefaultDifference command).
Fixpoint filterUCICommandsByObservedState (commands : list UciCommand) (sections : list UCISection) : list UciCommand :=
  match commands with
  | [] => []
  | command :: later =>
      let rest := filterUCICommandsByObservedState later sections in
      if already_observed command later sections then rest else command :: rest
  end.

Example show_example : parseUciShow (lines ["dhcp.lan=dhcp"; "dhcp.lan.start='100'"; "dhcp.cfg01=dnsmasq";
    "dhcp.cfg01.server='9.9.9.9' '1.1.1.1'"; "dhcp.cfg01.domain='it'\''s'"]) "dhcp" =
  [Section_ "lan" "dhcp" "lan" false {["start" := Text "100"]};
   Section_ "cfg01" "dnsmasq" "cfg01" false {["server" := Texts ["9.9.9.9"; "1.1.1.1"]; "domain" := Text "it's"]}].
Proof. by vm_compute. Qed.
