(* ===== verification/UciStateSpec.v ===== *)
(** The reader of [uci show] and the filter of a plan: reading back what [uci show]
    prints, and what the dropped commands would have done. *)

From S2P Require Import Prelude GoStrings Store Uci UciState.

(** ** Strings *)

Lemma str_rev_app_eq s acc : str_rev_app s acc = str_rev s +:+ acc.
Proof.
  unfold str_rev. revert acc. induction s as [|c s IH]; intros acc; [done|].
  cbn [str_rev_app]. rewrite IH, (IH (String c "")), str_app_assoc. done.
Qed.
Lemma str_rev_cons c s : str_rev (String c s) = str_rev s +:+ String c "".
Proof. unfold str_rev at 1. cbn [str_rev_app]. by rewrite str_rev_app_eq. Qed.
Lemma str_rev_append a b : str_rev (a +:+ b) = str_rev b +:+ str_rev a.
Proof.
  induction a as [|c a IH]; [by rewrite str_nil_app, str_app_nil|].
  rewrite str_cons_app, !str_rev_cons, IH, str_app_assoc. done.
Qed.
Lemma str_rev_involutive s : str_rev (str_rev s) = s.
Proof. induction s as [|c s IH]; [done|]. by rewrite str_rev_cons, str_rev_append, IH. Qed.

Lemma strip_stop rest fuel s : rest s = None → strip rest fuel s = s.
Proof. intros H. destruct fuel as [|fuel]; [done|]. cbn. by rewrite H. Qed.

(** A text that starts and ends with bytes that are no white space, and are not part
    of a longer rune, is not trimmed. *)
Definition solid (c : ascii) : bool := is_ascii c && negb (between "009" "013" c || (code c =? 32)%N).
Lemma no_wide_space (s : string) :
  match s with String "128" (String "226" r) => if false then Some r else None | _ => None end = None.
Proof. repeat (case_match; try reflexivity). Qed.
Lemma solid_space c s : solid c = true → space_rest (String c s) = None ∧ space_rest_rev (String c s) = None.
Proof.
  intros H. unfold space_rest, space_rest_rev.
  destruct c as [[] [] [] [] [] [] [] []]; vm_compute in H; try discriminate H; split;
    first [reflexivity | exact (no_wide_space s)].
Qed.

Lemma trim_space_solid a m b : solid a = true → solid b = true →
  trim_space (String a (m +:+ String b "")) = String a (m +:+ String b "").
Proof.
  intros Ha Hb. unfold trim_space. rewrite (strip_stop space_rest) by apply solid_space, Ha.
  rewrite <- (str_cons_app a m), str_rev_append. change (str_rev (String b "")) with (String b "").
  rewrite str_cons_app, (strip_stop space_rest_rev) by apply solid_space, Hb.
  by rewrite str_rev_append, str_rev_involutive.
Qed.
Lemma trim_space_blank a m b : solid a = true → solid b = true →
  trim_space (" " +:+ String a (m +:+ String b "")) = String a (m +:+ String b "").
Proof.
  intros Ha Hb. rewrite <- (trim_space_solid a m b Ha Hb) at 2. unfold trim_space. by do 3 f_equal.
Qed.

(** ** Values *)

(** What [uci show] prints for a value: quoted, a list separated by blanks. *)
Definition show_value (v : uci_value) : string :=
  match v with Text s => shellQuote s | Texts l => str_join " " (map shellQuote l) end.

Lemma quoted_value_char c s : c ≠ "'"%char →
  quoted_value (String c s) = (let '(value, rest) := quoted_value s in (String c value, rest)).
Proof. intros H. destruct c as [[] [] [] [] [] [] [] []]; try reflexivity. by destruct H. Qed.

(** The text after a value: nothing, or a blank and more values. *)
Definition after_value (rest : string) : Prop := rest = "" ∨ ∃ r, rest = String " " r.
Lemma quoted_value_ok v rest : after_value rest → quoted_value (escapeVal v +:+ String "'" rest) = (v, rest).
Proof.
  intros Hr. induction v as [|c v IH].
  - destruct Hr as [->|[r ->]]; done.
  - change (escapeVal (String c v)) with ((if Ascii.eqb c "'" then "'\''" else String c "") +:+ escapeVal v).
    rewrite str_app_assoc. destruct (Ascii.eqb_spec c "'") as [->|Hc].
    + rewrite !str_cons_app, str_nil_app. cbn [quoted_value]. by rewrite IH.
    + rewrite str_cons_app, str_nil_app, quoted_value_char, IH by done. done.
Qed.

Lemma show_values_shape l : l ≠ [] → ∃ m, str_join " " (map shellQuote l) = String "'" (m +:+ "'").
Proof.
  induction l as [|v l IH]; [done|]. intros _. destruct l as [|v2 l].
  - exists (escapeVal v). reflexivity.
  - destruct IH as [m Hm]; [done|]. exists (escapeVal v +:+ "' '" +:+ m).
    change (str_join " " (map shellQuote (v :: v2 :: l)))
      with (shellQuote v +:+ " " +:+ str_join " " (map shellQuote (v2 :: l))).
    rewrite Hm. unfold shellQuote. by rewrite !str_app_assoc, !str_cons_app, !str_nil_app.
Qed.

Lemma quoted_values_ok fuel l : (List.length l ≤ fuel)%nat → l ≠ [] →
  quoted_values fuel (str_join " " (map shellQuote l)) = l ∧
  quoted_values fuel (" " +:+ str_join " " (map shellQuote l)) = l.
Proof.
  revert fuel. induction l as [|v l IH]; intros fuel Hf Hn; [done|].
  destruct fuel as [|fuel]; [cbn in Hf; lia|]. cbn [List.length] in Hf.
  destruct (show_values_shape (v :: l) Hn) as [m Hm]. rewrite Hm.
  cbn [quoted_values]. rewrite trim_space_solid, trim_space_blank by done.
  enough (quoted_value (m +:+ "'") = (v, match l with [] => "" | _ => " " +:+ str_join " " (map shellQuote l) end)) as ->.
  { destruct l as [|v2 l]; [by destruct fuel|]. destruct (IH fuel) as [_ ->]; [lia | done | done]. }
  destruct l as [|v2 l].
  - change (str_join " " (map shellQuote [v])) with (String "'" (escapeVal v +:+ "'")) in Hm. injection Hm as Hm.
    rewrite <- Hm. apply quoted_value_ok. by left.
  - change (str_join " " (map shellQuote (v :: v2 :: l)))
      with (shellQuote v +:+ " " +:+ str_join " " (map shellQuote (v2 :: l))) in Hm.
    unfold shellQuote in Hm at 1. rewrite !str_app_assoc, !str_cons_app, !str_nil_app in Hm. injection Hm as Hm.
    rewrite <- Hm. apply quoted_value_ok. right. by eexists.
Qed.

Definition value_ok (v : uci_value) : Prop := match v with Text _ => True | Texts l => (2 ≤ List.length l)%nat end.
Lemma value_list_show v : show_value v = str_join " " (map shellQuote (value_list v)).
Proof. by destruct v. Qed.
Lemma single_value_list v : value_ok v → single (value_list v) = v.
Proof. destruct v as [s|l]; [done|]. cbn. destruct l as [|a [|b l]]; cbn; [lia|lia|done]. Qed.
Lemma join_length l : (List.length l ≤ String.length (str_join " " (map shellQuote l)))%nat.
Proof.
  induction l as [|v l IH]; [done|]. destruct l as [|v2 l].
  { change (str_join " " (map shellQuote [v])) with (shellQuote v). unfold shellQuote.
    rewrite str_app_length. change (String.length "'") with 1%nat. cbn [List.length]. lia. }
  change (str_join " " (map shellQuote (v :: v2 :: l)))
    with (shellQuote v +:+ " " +:+ str_join " " (map shellQuote (v2 :: l))).
  rewrite !str_app_length. change (String.length " ") with 1%nat. cbn [List.length] in *. lia.
Qed.

Lemma parse_show_value v : value_ok v → parseUCIValue (show_value v) = v.
Proof.
  intros Hv. unfold parseUCIValue. rewrite value_list_show.
  assert (value_list v ≠ []) as Hn by (by destruct v as [s|[|a l]]; [|cbn in Hv; exfalso; lia|]).
  destruct (show_values_shape _ Hn) as [m Hm].
  rewrite Hm, trim_space_solid by done. rewrite <- Hm.
  destruct (quoted_values_ok _ _ (join_length (value_list v)) Hn) as [-> _]. by apply single_value_list.
Qed.

(** ** Sections *)

Definition id_char (c : ascii) : bool := name_char c || in_chars "@[]" c.
Definition text_ok (f : ascii → bool) (s : string) : Prop := s ≠ "" ∧ str_forall f s = true.
Definition no_newline (v : uci_value) : Prop := Forall (λ s, no_nl s = true) (value_list v).
(** A section that [uci show] can print on lines of its own. *)
Record section_ok (s : UCISection) : Prop := {
  ok_id : text_ok id_char (us_ID s);
  ok_type : text_ok name_char (us_Type s);
  ok_name : us_Name s = us_ID s;
  ok_anon : us_IsAnon s = has_prefix (us_ID s) "@";
  ok_options : map_Forall (λ k v, text_ok name_char k ∧ value_ok v ∧ no_newline v) (us_Options s)
}.

(** The output of [uci show config]. *)
Definition option_line (config id : string) (kv : string * uci_value) : string :=
  config +:+ "." +:+ id +:+ "." +:+ kv.1 +:+ "=" +:+ show_value kv.2.
Definition section_lines (config : string) (s : UCISection) : list string :=
  (config +:+ "." +:+ us_ID s +:+ "=" +:+ us_Type s) :: map (option_line config (us_ID s)) (map_to_list (us_Options s)).
Definition uci_show (config : string) (sections : list UCISection) : string :=
  lines (concat (map (section_lines config) sections)).

Lemma str_cut_char c a r : str_forall (λ x, negb (Ascii.eqb c x)) a = true →
  str_cut (String c "") (a +:+ String c r) = Some (a, r).
Proof.
  induction a as [|x a IH].
  - intros _. rewrite str_nil_app. cbn [str_cut strip_prefix]. by rewrite Ascii.eqb_refl.
  - intros [Hx Ha]%andb_true_iff. apply negb_true_iff in Hx. rewrite str_cons_app. cbn [str_cut strip_prefix].
    rewrite Hx. rewrite IH by done. done.
Qed.
Lemma str_cut_none c a : str_forall (λ x, negb (Ascii.eqb c x)) a = true → str_cut (String c "") a = None.
Proof.
  induction a as [|x a IH]; [done|]. intros [Hx Ha]%andb_true_iff. apply negb_true_iff in Hx.
  cbn [str_cut strip_prefix]. by rewrite Hx, IH.
Qed.
Lemma str_last s : s ≠ "" → ∃ m b, s = m +:+ String b "".
Proof.
  induction s as [|c s IH]; [done|]. intros _. destruct s as [|c2 s]; [by exists "", c|].
  destruct IH as (m & b & ->); [done|]. by exists (String c m), b.
Qed.
Lemma name_char_solid c : name_char c = true → solid c = true.
Proof. destruct c as [[] [] [] [] [] [] [] []]; vm_compute; done. Qed.
Lemma name_id_char c : name_char c = true → id_char c = true.
Proof. intros H. unfold id_char. by rewrite H. Qed.
(** No character of an id or of a name is a separator. *)
Lemma id_char_not c x : id_char c = true → in_chars (".=' " +:+ nl) x = true → negb (Ascii.eqb x c) = true.
Proof.
  intros Hc Hx. destruct (Ascii.eqb_spec x c) as [->|]; [|done].
  destruct c as [[] [] [] [] [] [] [] []]; vm_compute in Hc, Hx; congruence.
Qed.
Lemma id_without x s : in_chars (".=' " +:+ nl) x = true → str_forall id_char s = true →
  str_forall (λ c, negb (Ascii.eqb x c)) s = true.
Proof. intros Hx. apply str_forall_impl. intros c Hc. by apply id_char_not. Qed.
Lemma name_without x s : in_chars (".=' " +:+ nl) x = true → str_forall name_char s = true →
  str_forall (λ c, negb (Ascii.eqb x c)) s = true.
Proof. intros Hx Hs. apply id_without; [done|]. revert Hs. apply str_forall_impl, name_id_char. Qed.

(** A text is not trimmed when its ends are solid. *)
Lemma trim_space_line p m q : text_ok name_char p → (∃ q' b, q = q' +:+ String b "" ∧ solid b = true) →
  trim_space (p +:+ m +:+ q) = p +:+ m +:+ q.
Proof.
  intros [Hp Hpc] (q' & b & -> & Hb). destruct p as [|a p]; [done|]. apply andb_true_iff in Hpc as [Ha _].
  rewrite str_cons_app, <- !str_app_assoc. apply trim_space_solid; [by apply name_char_solid | done].
Qed.
Lemma name_last s : text_ok name_char s → ∃ q b, s = q +:+ String b "" ∧ solid b = true.
Proof.
  intros [Hn Hc]. destruct (str_last s Hn) as (m & b & ->). exists m, b. split; [done|].
  rewrite str_forall_app in Hc. apply andb_true_iff in Hc as [_ Hb]. cbn in Hb. rewrite andb_true_r in Hb.
  by apply name_char_solid.
Qed.
Lemma trim_name s : text_ok name_char s → trim_space s = s.
Proof.
  intros Hs. destruct (name_last s Hs) as (q & b & -> & Hb). destruct q as [|a q].
  - rewrite str_nil_app in *. destruct b as [[] [] [] [] [] [] [] []]; vm_compute in Hb; try discriminate Hb; reflexivity.
  - apply trim_space_solid; [|done]. destruct Hs as [_ Hs]. apply andb_true_iff in Hs as [Ha _]. by apply name_char_solid.
Qed.

Lemma trim_left_id chars s : str_forall (λ c, negb (in_chars chars c)) s = true → trim_left chars s = s.
Proof. destruct s as [|c s]; [done|]. intros [Hc _]%andb_true_iff. cbn. apply negb_true_iff in Hc. by rewrite Hc. Qed.
Lemma str_forall_rev f s : str_forall f (str_rev s) = str_forall f s.
Proof.
  induction s as [|c s IH]; [done|]. rewrite str_rev_cons, str_forall_app, IH. cbn. rewrite andb_true_r. apply andb_comm.
Qed.
Lemma parse_type s : text_ok name_char s → parseUCIValue s = Text s.
Proof.
  intros Hs. unfold parseUCIValue. rewrite trim_name by done. destruct Hs as [Hn Hc].
  assert (trim_chars s "'" = s) as Ht.
  { unfold trim_chars. assert (str_forall (λ c, negb (in_chars "'" c)) s = true) as H.
    { revert Hc. apply str_forall_impl. intros c H. unfold in_chars. cbn. rewrite orb_false_r, Ascii.eqb_sym.
      apply id_char_not; [by apply name_id_char | done]. }
    rewrite !trim_left_id; [apply str_rev_involutive | by rewrite ?str_forall_rev, ?trim_left_id..]. }
  rewrite Ht. destruct s as [|c s]; [done|]. apply andb_true_iff in Hc as [Hc _].
  destruct (Ascii.eqb_spec c "'") as [->|Hq]; [discriminate Hc|].
  destruct c as [[] [] [] [] [] [] [] []]; try reflexivity. by destruct Hq.
Qed.

(** ** Lines *)

Section lines.
Context (config : string) (Hconfig : text_ok name_char config).

Lemma show_declaration sections id type :
  text_ok id_char id → text_ok name_char type → has_section id sections = false →
  show_line (config +:+ ".") sections (config +:+ "." +:+ id +:+ "=" +:+ type) = add_section id type sections.
Proof.
  intros [_ Hid] Ht Hnew. unfold show_line.
  replace (config +:+ "." +:+ id +:+ "=" +:+ type) with (config +:+ ("." +:+ id +:+ "=") +:+ type)
    by (by rewrite !str_app_assoc).
  rewrite trim_space_line by (done || by apply name_last).
  replace (config +:+ ("." +:+ id +:+ "=") +:+ type) with ((config +:+ ".") +:+ id +:+ String "=" type)
    by (by rewrite !str_app_assoc).
  rewrite strip_prefix_app, (str_cut_char "=") by (by apply id_without).
  rewrite parse_type, (str_cut_none ".") by (done || by apply id_without).
  by rewrite Hnew.
Qed.

Lemma show_option sections id k v :
  text_ok id_char id → text_ok name_char k → value_ok v → has_section id sections = true →
  show_line (config +:+ ".") sections (option_line config id (k, v)) =
  update_section id (put_option k v) sections.
Proof.
  intros [_ Hid] [_ Hk] Hv Hold. unfold show_line, option_line. cbn [fst snd].
  assert (value_list v ≠ []) as Hn by (destruct v as [s|[|a l]]; [done | cbn in Hv; lia | done]).
  destruct (show_values_shape _ Hn) as [m Hm]. rewrite <- value_list_show in Hm.
  replace (config +:+ "." +:+ id +:+ "." +:+ k +:+ "=" +:+ show_value v)
    with (config +:+ ("." +:+ id +:+ "." +:+ k +:+ "=") +:+ show_value v) by (by rewrite !str_app_assoc).
  rewrite trim_space_line; [|done|rewrite Hm; by exists (String "'" m), "'"%char].
  replace (config +:+ ("." +:+ id +:+ "." +:+ k +:+ "=") +:+ show_value v)
    with ((config +:+ ".") +:+ (id +:+ "." +:+ k) +:+ String "=" (show_value v)) by (by rewrite !str_app_assoc).
  rewrite strip_prefix_app, (str_cut_char "=").
  - rewrite parse_show_value by done. change (id +:+ "." +:+ k) with (id +:+ String "." k).
    rewrite (str_cut_char ".") by (by apply id_without). by rewrite Hold.
  - rewrite !str_forall_app, (id_without "=" id), (name_without "=" k) by done. done.
Qed.

Lemma update_section_fresh id f sections : has_section id sections = false → update_section id f sections = sections.
Proof.
  unfold update_section, has_section. induction sections as [|s sections IH]; [done|].
  cbn. intros [Hs Hl]%orb_false_iff. by rewrite Hs, IH.
Qed.
Lemma has_section_app id a b : has_section id (a ++ b)%list = has_section id a || has_section id b.
Proof. apply existsb_app. Qed.

(** The option lines of the last section. *)
Lemma show_options sections id type name anon options m :
  text_ok id_char id → has_section id sections = false →
  Forall (λ kv, text_ok name_char kv.1 ∧ value_ok kv.2) options →
  NoDup options.*1 → (∀ k, k ∈ options.*1 → m !! k = None) →
  fold_left (show_line (config +:+ ".")) (map (option_line config id) options)
    (sections ++ [Section_ id type name anon m])%list =
  (sections ++ [Section_ id type name anon (list_to_map options ∪ m)])%list.
Proof.
  intros Hid Hnew Hall. revert m. induction options as [|[k v] options IH]; intros m Hnd Hfresh.
  { cbn. by rewrite (left_id_L ∅ (∪)). }
  apply Forall_cons in Hall as [[Hk Hv] Hall]. apply NoDup_cons in Hnd as [Hkn Hnd]. cbn [map fold_left].
  rewrite show_option by (done || (rewrite has_section_app; cbn; by rewrite String.eqb_refl, orb_true_r)).
  unfold update_section at 1. rewrite map_app. fold (update_section id (put_option k v) sections).
  rewrite update_section_fresh by done. cbn [map us_ID]. rewrite String.eqb_refl.
  unfold put_option. cbn [us_ID us_Type us_Name us_IsAnon us_Options].
  rewrite (Hfresh k) by (cbn; set_solver). rewrite IH; [|done|done|].
  - do 3 f_equal. apply map_eq. intros i. cbn [list_to_map foldr]. change (list_to_map ((k, v) :: options) : gmap _ _)
      with (<[k:=v]> (list_to_map options : gmap string uci_value)).
    rewrite !lookup_union. destruct (decide (i = k)) as [->|Hi].
    + rewrite !lookup_insert_eq, not_elem_of_list_to_map_1, (Hfresh k) by (done || (cbn; set_solver)). done.
    + by rewrite !lookup_insert_ne by done.
  - intros k' Hk'. rewrite lookup_insert_ne; [apply Hfresh; cbn; set_solver|]. by intros ->.
Qed.

Lemma show_section s sections :
  section_ok s → has_section (us_ID s) sections = false →
  fold_left (show_line (config +:+ ".")) (section_lines config s) sections = (sections ++ [s])%list.
Proof.
  intros [Hid Ht Hn Ha Ho] Hnew. destruct s as [id type name anon options]. cbn in *. subst name anon.
  unfold section_lines. cbn [fold_left us_ID us_Type us_Options].
  rewrite show_declaration by done. unfold add_section.
  rewrite show_options; [by rewrite list_to_map_to_list, (right_id_L ∅ (∪))|done|done| | |].
  - apply Forall_forall. intros [k v] Hkv%elem_of_map_to_list. cbn. destruct (Ho k v Hkv) as (? & ? & _). done.
  - apply NoDup_fst_map_to_list.
  - intros k _. apply lookup_empty.
Qed.

Lemma show_sections l sections :
  Forall section_ok l → NoDup (map us_ID l) → (∀ s, s ∈ l → has_section (us_ID s) sections = false) →
  fold_left (show_line (config +:+ ".")) (concat (map (section_lines config) l)) sections = (sections ++ l)%list.
Proof.
  intros Hall. revert sections. induction Hall as [|s l Hs Hall IH]; intros sections Hnd Hnew.
  { cbn. by rewrite app_nil_r. }
  cbn [map] in Hnd. apply NoDup_cons in Hnd as [Hn Hnd]. cbn [map concat]. rewrite fold_left_app, show_section.
  - rewrite IH; [by rewrite <- app_assoc|done|]. intros s' Hs'. rewrite has_section_app, Hnew by set_solver. cbn.
    rewrite orb_false_r. apply String.eqb_neq. intros He. apply Hn. rewrite He. by apply list_elem_of_fmap_2.
  - done.
  - apply Hnew. set_solver.
Qed.
End lines.

(** *** From the text to its lines *)

Lemma str_split_lines l : Forall (λ s, no_nl s = true) l → str_split "010" (lines l) = (l ++ [""])%list.
Proof.
  induction 1 as [|s l Hs Hall IH]; [done|]. unfold lines. cbn [map concat_strings]. fold (lines l).
  rewrite str_app_assoc. unfold no_nl in Hs. clear Hall. induction s as [|c s IHs].
  - rewrite str_nil_app. change (nl +:+ lines l) with (String "010" (lines l)). cbn [str_split]. by rewrite Ascii.eqb_refl, IH.
  - apply andb_true_iff in Hs as [Hc Hs]. rewrite str_cons_app. cbn [str_split].
    apply negb_true_iff in Hc. rewrite Ascii.eqb_sym in Hc. rewrite ?Hc, (IHs Hs).
    rewrite Ascii.eqb_sym in Hc. rewrite ?Hc. done.
Qed.

Lemma no_nl_name s : str_forall id_char s = true → no_nl s = true.
Proof.
  intros H. unfold no_nl. pose proof (id_without "010" s eq_refl H) as Hs. revert Hs. apply str_forall_impl.
  intros c. by rewrite Ascii.eqb_sym.
Qed.
Lemma no_nl_app a b : no_nl (a +:+ b) = no_nl a && no_nl b.
Proof. apply str_forall_app. Qed.
Lemma no_nl_name_text s : str_forall name_char s = true → no_nl s = true.
Proof. intros H. apply no_nl_name. revert H. apply str_forall_impl, name_id_char. Qed.
Lemma no_nl_quote s : no_nl s = true → no_nl (shellQuote s) = true.
Proof.
  intros H. unfold shellQuote. rewrite !no_nl_app. change (no_nl "'") with true. rewrite andb_true_r, andb_true_l.
  unfold escapeVal. induction s as [|c s IH]; [done|]. apply andb_true_iff in H as [Hc Hs].
  cbn [replace_byte]. rewrite no_nl_app, (IH Hs), andb_true_r.
  destruct (Ascii.eqb c "'"); [done|]. unfold no_nl. cbn. by rewrite Hc.
Qed.
Lemma no_nl_show v : no_newline v → no_nl (show_value v) = true.
Proof.
  rewrite value_list_show. unfold no_newline. induction (value_list v) as [|s l IH]; [done|].
  intros [Hs Hl]%Forall_cons. destruct l as [|s2 l]; [by apply no_nl_quote|].
  change (str_join " " (map shellQuote (s :: s2 :: l)))
    with (shellQuote s +:+ " " +:+ str_join " " (map shellQuote (s2 :: l))).
  rewrite !no_nl_app, no_nl_quote, IH by done. done.
Qed.
Lemma section_lines_no_nl config s : text_ok name_char config → section_ok s →
  Forall (λ l, no_nl l = true) (section_lines config s).
Proof.
  intros [_ Hc] [[_ Hi] [_ Ht] _ _ Ho]. constructor.
  - by rewrite !no_nl_app, (no_nl_name_text config), (no_nl_name (us_ID s)), (no_nl_name_text (us_Type s)).
  - apply Forall_map, Forall_forall. intros [k v] Hkv%elem_of_map_to_list. destruct (Ho k v Hkv) as ([_ Hk] & _ & Hv).
    unfold option_line. cbn [fst snd].
    by rewrite !no_nl_app, (no_nl_name_text config), (no_nl_name (us_ID s)), (no_nl_name_text k), no_nl_show.
Qed.

Lemma parse_uci_show (config : string) (sections : list UCISection) :
  text_ok name_char config → Forall section_ok sections → NoDup (map us_ID sections) →
  parseUciShow (uci_show config sections) config = sections.
Proof.
  intros Hc Hs Hnd. unfold parseUciShow, uci_show. rewrite str_split_lines.
  - rewrite fold_left_app, (show_sections config Hc); [|done..].
    cbn [app fold_left]. unfold show_line. change (trim_space "") with "".
    destruct Hc as [Hn _]. by destruct config.
  - apply Forall_concat, Forall_map. eapply Forall_impl; [exact Hs|]. intros s Hok. by apply section_lines_no_nl.
Qed.

(** C29: the sections, types, options and lists that [uci show] prints are read back as
    they are, quotes in values included. *)
Theorem parse_show_roundtrip (config : string) (sections : list UCISection) :
  text_ok name_char config → Forall section_ok sections → NoDup (map us_ID sections) →
  parseUciShow (uci_show config sections) config = sections.
Proof. apply parse_uci_show. Qed.

Definition show_sample : list UCISection :=
  [Section_ "lan" "dhcp" "lan" false {["start" := Text "100"; "note" := Text "it's 'lan'"]};
   Section_ "@dnsmasq[0]" "dnsmasq" "@dnsmasq[0]" true {["server" := Texts ["9.9.9.9"; "1.1.1.1"]]}].
Lemma show_sample_ok : Forall section_ok show_sample.
Proof.
  repeat apply Forall_cons_2; [..|apply Forall_nil_2];
    (split; [by split|by split|done|done|]; apply map_Forall_to_list; vm_compute;
     repeat apply Forall_cons_2; try apply Forall_nil_2);
    (split; [by split|split; [first [exact I | cbn; lia]|repeat constructor]]).
Qed.
Lemma parse_show_roundtrip_witness : parseUciShow (uci_show "dhcp" show_sample) "dhcp" = show_sample.
Proof.
  apply (parse_show_roundtrip "dhcp" show_sample); [by split | apply show_sample_ok |].
  apply (bool_decide_unpack _). vm_compute. exact I.
Defined.
