(* ===== verification/PlanFilter.v ===== *)
(** What the filter of a plan preserves: running the commands it keeps gives the
    state that the whole plan gives, for plans that set options; and where it does
    not, for a list that is deleted and filled again. *)

From S2P Require Import Prelude GoStrings Store Uci UciState UciStateSpec.

(** ** Running commands *)

(** [uci set], [add_list], [del_list] and [delete] of an option of the section the
    reference resolves to; a reference that resolves to none leaves the state. *)
Definition assign (key : string) (v : option uci_value) (s : UCISection) : UCISection :=
  Section_ (us_ID s) (us_Type s) (us_Name s) (us_IsAnon s) (partial_alter (λ _, v) key (us_Options s)).
Definition values_at (key : string) (s : UCISection) : list string :=
  match us_Options s !! key with Some v => value_list v | None => [] end.
Definition new_value (c : UciCommand) (s : UCISection) : option uci_value :=
  if Action c =? "set" then Some (Text (Value c))
  else if Action c =? "add_list" then Some (single (values_at (Opt c) s ++ [Value c]))
  else if Action c =? "del_list" then
    match filter (λ v, v ≠ Value c) (values_at (Opt c) s) with [] => None | l => Some (single l) end
  else None.
Definition run_command (st : list UCISection) (c : UciCommand) : list UCISection :=
  match referenced (Sect c) st with
  | s :: _ => update_section (us_ID s) (assign (Opt c) (new_value c s)) st
  | [] => st
  end.
Definition run_plan (plan : list UciCommand) (st : list UCISection) : list UCISection := fold_left run_command plan st.

(** ** References do not move *)

(** What a reference looks at. *)
Definition shape (s : UCISection) : string * string := (us_ID s, us_Type s).

Lemma type_index_shape id l l' p f : map us_ID l = map us_ID l' → type_index id l p f = type_index id l' p f.
Proof.
  revert l' p f. induction l as [|s l IH]; intros [|s' l'] p f; try done. cbn. intros [= -> Hl]. by apply IH.
Qed.
Lemma filter_shape (type : string) (l l' : list UCISection) : map shape l = map shape l' →
  map us_ID (filter (λ c, us_Type c = type) l) = map us_ID (filter (λ c, us_Type c = type) l').
Proof.
  revert l'. induction l as [|s l IH]; intros [|s' l']; try done. intros Hs. injection Hs as Hid Ht Hl.
  rewrite !filter_cons. rewrite Ht. case_decide; cbn; [rewrite Hid|]; by rewrite (IH l').
Qed.
Lemma matches_shape r s s' l l' : shape s = shape s' → map shape l = map shape l' →
  uciSectionMatchesReference r s l = uciSectionMatchesReference r s' l'.
Proof.
  intros [= Hid Ht] Hl. unfold uciSectionMatchesReference. rewrite Hid, Ht.
  destruct (r =? us_ID s'); [done|]. destruct (anonymous_reference r) as [[type digits]|]; [|done].
  pose proof (filter_shape type l l' Hl) as Hf.
  rewrite (type_index_shape _ _ _ _ _ Hf). apply (f_equal List.length) in Hf. rewrite !length_map in Hf. by rewrite Hf.
Qed.

Lemma update_section_shape id f l : (∀ s, shape (f s) = shape s) → map shape (update_section id f l) = map shape l.
Proof.
  intros Hf. unfold update_section. rewrite map_map. apply map_ext. intros s. destruct (us_ID s =? id); [apply Hf|done].
Qed.
Lemma referenced_update r id f l : (∀ s, shape (f s) = shape s) →
  referenced r (update_section id f l) = update_section id f (referenced r l).
Proof.
  intros Hf. unfold referenced. pose proof (update_section_shape id f l Hf) as Hl.
  set (l2 := update_section id f l) in *.
  assert (∀ k, (∀ s, s ∈ k → True) →
    filter (λ s, uciSectionMatchesReference r s l2 = true) (update_section id f k) =
    update_section id f (filter (λ s, uciSectionMatchesReference r s l = true) k)) as H.
  { intros k _. induction k as [|s k IH]; [done|]. unfold update_section. cbn [map].
    fold (update_section id f k). rewrite !filter_cons.
    assert (uciSectionMatchesReference r (if us_ID s =? id then f s else s) l2 = uciSectionMatchesReference r s l) as Hm.
    { apply matches_shape; [|done]. by destruct (us_ID s =? id). }
    rewrite Hm. case_decide; [|exact IH]. cbn [map]. f_equal. exact IH. }
  by apply H.
Qed.
Lemma assign_shape key v s : shape (assign key v s) = shape s.
Proof. done. Qed.
#[local] Hint Resolve assign_shape : uci.

(** The option a reference and a key mean. *)
Definition option_at (r key : string) (st : list UCISection) : option uci_value :=
  match referenced r st with s :: _ => us_Options s !! key | [] => None end.
(** The section a reference resolves to, when there is exactly one. *)
Definition resolves (r id : string) (st : list UCISection) : Prop := map us_ID (referenced r st) = [id].

Lemma resolves_update r id id' f st : (∀ s, shape (f s) = shape s) → resolves r id st →
  resolves r id (update_section id' f st).
Proof.
  intros Hf Hr. unfold resolves in *. rewrite referenced_update by done. rewrite <- Hr.
  unfold update_section. rewrite map_map. apply map_ext. intros s. destruct (us_ID s =? id'); [|done].
  by injection (Hf s).
Qed.
Lemma resolves_run r id st c : resolves r id st → resolves r id (run_command st c).
Proof.
  intros H. unfold run_command. destruct (referenced (Sect c) st); [done|]. apply resolves_update; [|done]. done.
Qed.

(** A command changes the option it names and no other. *)
Lemma option_at_run r id key st c target :
  resolves r id st → resolves (Sect c) target st →
  option_at r key (run_command st c) =
  (if bool_decide (id = target ∧ key = Opt c)
   then match referenced (Sect c) st with s :: _ => new_value c s | [] => None end
   else option_at r key st).
Proof.
  unfold resolves, option_at, run_command. intros Hr Hc.
  destruct (referenced (Sect c) st) as [|s [|s2 l]] eqn:Es; [done| |done]. injection Hc as Hc.
  rewrite referenced_update by done.
  destruct (referenced r st) as [|s' [|s2 l]] eqn:Es'; [done| |done]. injection Hr as Hr. cbn [update_section map].
  rewrite Hr, Hc. destruct (String.eqb_spec id target) as [He|He].
  - cbn [us_Options assign]. destruct (decide (key = Opt c)) as [->|Hk].
    + rewrite lookup_partial_alter_eq, bool_decide_eq_true_2 by done. done.
    + rewrite lookup_partial_alter_ne by done. rewrite bool_decide_eq_false_2 by tauto. done.
  - rewrite bool_decide_eq_false_2 by tauto. done.
Qed.

(** ** Plans that set options *)

(** Every command sets its own option of the one section it means. *)
Definition sets (st : list UCISection) (c : UciCommand) (t : string * string) : Prop :=
  Action c = "set" ∧ Opt c ≠ "" ∧ Config c ≠ "wireless" ∧ resolves (Sect c) t.1 st ∧ Opt c = t.2.
Definition set_plan (st : list UCISection) (plan : list UciCommand) (targets : list (string * string)) : Prop :=
  Forall2 (sets st) plan targets ∧ NoDup targets.
(** A state that [parseUciShow] reads: the ids are unique, and a list has two values. *)
Definition normal (st : list UCISection) : Prop :=
  NoDup (map us_ID st) ∧ Forall (λ s, map_Forall (λ _ v, value_ok v) (us_Options s)) st.

Lemma referenced_elem r st s : s ∈ referenced r st → s ∈ st.
Proof. unfold referenced. rewrite list_elem_of_filter. tauto. Qed.
Lemma map_id_inj (st : list UCISection) s s' :
  NoDup (map us_ID st) → s ∈ st → s' ∈ st → us_ID s = us_ID s' → s = s'.
Proof.
  induction st as [|x st IH]; [by intros _ ?%elem_of_nil|]. cbn. intros [Hx Hnd]%NoDup_cons Hs Hs' He.
  apply elem_of_cons in Hs as [->|Hs]; apply elem_of_cons in Hs' as [->|Hs']; [done| | |by apply IH].
  - exfalso. apply Hx. rewrite He. by apply list_elem_of_fmap_2.
  - exfalso. apply Hx. rewrite <- He. by apply list_elem_of_fmap_2.
Qed.
Lemma run_noop st c id : NoDup (map us_ID st) → resolves (Sect c) id st →
  (∀ s, s ∈ referenced (Sect c) st → us_Options s !! Opt c = new_value c s) → run_command st c = st.
Proof.
  unfold resolves, run_command. intros Hnd Hr Hv.
  destruct (referenced (Sect c) st) as [|s0 [|s2 l]] eqn:Es; [done| |done]. specialize (Hv s0 ltac:(set_solver)).
  assert (s0 ∈ st) as Hin by (apply (referenced_elem (Sect c)); rewrite Es; set_solver).
  unfold update_section. rewrite <- (map_id st) at 2. apply map_ext_in. intros s Hs%list_elem_of_In.
  destruct (String.eqb_spec (us_ID s) (us_ID s0)) as [He|]; [|done].
  assert (s = s0) as -> by (by eapply map_id_inj).
  unfold assign. rewrite <- Hv, partial_alter_self. by destruct s0.
Qed.

Lemma matched_set st c id : Action c = "set" → resolves (Sect c) id st → normal st →
  uciCommandMatchesObserved c st = true ↔ option_at (Sect c) (Opt c) st = Some (Text (Value c)).
Proof.
  intros Ha Hr [_ Hn]. unfold uciCommandMatchesObserved, option_at, resolves in *. rewrite Ha. cbn [String.eqb].
  change ("set" =? "ensure_host") with false. change ("set" =? "delete") with false. cbv iota.
  destruct (referenced (Sect c) st) as [|s [|s2 l]] eqn:Es; [done| |done]. cbn [existsb]. rewrite orb_false_r.
  destruct (us_Options s !! Opt c) as [v|] eqn:Ev; [|done].
  assert (value_ok v) as Hv.
  { assert (s ∈ st) as Hin by (apply (referenced_elem (Sect c)); rewrite Es; set_solver).
    rewrite Forall_forall in Hn. exact (Hn s Hin _ _ Ev). }
  unfold uciCommandValueMatches, uciOptionContains. change ("set" =? "add_list") with false.
  change ("set" =? "del_list") with false. cbv iota. destruct v as [x|l]; cbn.
  - rewrite orb_false_r. split; [by intros ->%String.eqb_eq | intros [= ->]; apply String.eqb_refl].
  - cbn in Hv. split; [|done]. intros [H _]%andb_true_iff. apply Nat.eqb_eq in H. lia.
Qed.

Lemma dropped_set st c id later : Action c = "set" → Opt c ≠ "" → Config c ≠ "wireless" → resolves (Sect c) id st →
  normal st → already_observed c later st = true ↔ option_at (Sect c) (Opt c) st = Some (Text (Value c)).
Proof.
  intros Ha Ho Hc Hr Hn. rewrite <- (matched_set st c id) by done.
  unfold already_observed, uciCommandMatchesObservedInPlan, isDefaultDifference. rewrite Ha.
  change ("set" =? "delete") with false. cbv iota.
  rewrite (proj2 (String.eqb_neq _ _) Ho), (proj2 (String.eqb_neq _ _) Hc). cbn. by rewrite orb_false_r.
Qed.

Lemma run_keeps st plan targets cur r id key : Forall2 (sets st) plan targets →
  (∀ c t, sets st c t → resolves (Sect c) t.1 cur) → resolves r id cur → (id, key) ∉ targets →
  option_at r key (run_plan plan cur) = option_at r key cur.
Proof.
  intros Hall. revert cur. induction Hall as [|c t plan targets Hc Hall IH]; intros cur Hcur Hr Hnot; [done|].
  cbn [run_plan fold_left]. fold (run_plan plan (run_command cur c)).
  rewrite IH; [| |by apply resolves_run|set_solver].
  - rewrite (option_at_run _ id _ _ _ t.1) by (done || by apply Hcur).
    rewrite bool_decide_eq_false_2; [done|]. destruct Hc as (_ & _ & _ & _ & ->).
    intros [-> ->]. apply Hnot. destruct t. set_solver.
  - intros c' t' H'. by apply resolves_run, Hcur.
Qed.

Lemma Forall2_partner {A B} (P : A → B → Prop) l k x : Forall2 P l k → x ∈ l → ∃ y, y ∈ k ∧ P x y.
Proof.
  induction 1 as [|a b l k Hab Hall IH]; [by intros ?%elem_of_nil|]. intros [->|Hx]%elem_of_cons; [exists b; set_solver|].
  destruct (IH Hx) as (y & Hy & HP). exists y. set_solver.
Qed.

(** Running the rest of a plan, from a state that still agrees with the observed one
    on the options the rest sets. *)
Lemma filter_run st plan targets cur : normal st → NoDup (map us_ID cur) →
  Forall2 (sets st) plan targets → NoDup targets →
  (∀ c t, c ∈ plan → sets st c t → resolves (Sect c) t.1 cur ∧ option_at (Sect c) (Opt c) cur = option_at (Sect c) (Opt c) st) →
  run_plan (filterUCICommandsByObservedState plan st) cur = run_plan plan cur.
Proof.
  intros Hn Hids Hall. revert cur Hids. induction Hall as [|c t plan targets Hc Hall IH]; intros cur Hids Hnd Hag; [done|].
  apply NoDup_cons in Hnd as [Ht Hnd]. pose proof Hc as (Ha & Ho & Hw & Hr & Hk).
  destruct (Hag c t ltac:(set_solver) Hc) as [Hrc Hoc].
  assert (run_plan (filterUCICommandsByObservedState plan st) (run_command cur c) = run_plan plan (run_command cur c)) as Hnext.
  { apply IH; [| done |].
    - unfold run_command. destruct (referenced (Sect c) cur); [done|].
      replace (map us_ID (update_section _ _ cur)) with (map us_ID cur); [done|].
      pose proof (update_section_shape (us_ID u) (assign (Opt c) (new_value c u)) cur (λ s, eq_refl)) as Hs.
      apply (f_equal (map fst)) in Hs. rewrite !map_map in Hs. symmetry. exact Hs.
    - intros c' t' Hin Hs'. destruct (Hag c' t' ltac:(set_solver) Hs') as [Hr' Ho'].
      split; [by apply resolves_run|]. rewrite (option_at_run _ t'.1 _ _ _ t.1) by done.
      destruct Hs' as (_ & _ & _ & Hr2 & Hk'). rewrite bool_decide_eq_false_2; [done|]. rewrite Hk, Hk'. intros [He1 He2].
      apply Ht. destruct (Forall2_partner _ _ _ c' Hall Hin) as (t2 & Hin2 & _ & _ & _ & Hr3 & Hk2).
      replace t with t2; [done|]. unfold resolves in Hr2, Hr3. rewrite Hr2 in Hr3. injection Hr3 as Hr3.
      destruct t as [t1 tk], t2 as [t21 t2k], t' as [t'1 t'k]. cbn in *. congruence. }
  cbn [filterUCICommandsByObservedState run_plan fold_left]. fold (run_plan plan (run_command cur c)).
  destruct (already_observed c plan st) eqn:Ed; [|exact Hnext].
  apply (dropped_set st c t.1 plan) in Ed; [|done..]. rewrite <- Hnext.
  rewrite (run_noop cur c t.1); [done..|]. intros s Hs. rewrite <- Hoc in Ed. unfold option_at in Ed.
  unfold resolves in Hrc. destruct (referenced (Sect c) cur) as [|s0 [|? ?]]; [done| |done].
  apply list_elem_of_singleton in Hs as ->. rewrite Ed. unfold new_value. by rewrite Ha.
Qed.

Lemma resolves_plan r id plan st : resolves r id st → resolves r id (run_plan plan st).
Proof. revert st. induction plan as [|c plan IH]; intros st H; [done|]. cbn. by apply IH, resolves_run. Qed.

(** After the plan, every command's option has the value it sets. *)
Lemma run_sets st plan targets cur : Forall2 (sets st) plan targets → NoDup targets →
  (∀ c t, sets st c t → resolves (Sect c) t.1 cur) →
  ∀ c, c ∈ plan → option_at (Sect c) (Opt c) (run_plan plan cur) = Some (Text (Value c)).
Proof.
  intros Hall. revert cur. induction Hall as [|c t plan targets Hc Hall IH]; intros cur Hnd Hcur c'; [by intros ?%elem_of_nil|].
  apply NoDup_cons in Hnd as [Ht Hnd]. cbn [run_plan fold_left]. fold (run_plan plan (run_command cur c)).
  intros [->|Hin]%elem_of_cons; [|apply IH; [done| |done]; intros; by apply resolves_run, Hcur].
  pose proof Hc as (Ha & _ & _ & _ & Hk).
  rewrite (run_keeps st plan targets _ _ t.1); [|done|intros; by apply resolves_run, Hcur|by apply resolves_run, Hcur|
    by rewrite Hk; destruct t].
  rewrite (option_at_run _ t.1 _ _ _ t.1) by (by apply Hcur). rewrite bool_decide_eq_true_2 by done.
  pose proof (Hcur c t Hc) as Hr. unfold resolves in Hr. destruct (referenced (Sect c) cur) as [|s l]; [done|].
  unfold new_value. by rewrite Ha.
Qed.

(** A set command is dropped when its option has its value. *)
Lemma set_observed st c id later : Action c = "set" → Opt c ≠ "" → resolves (Sect c) id st →
  option_at (Sect c) (Opt c) st = Some (Text (Value c)) → already_observed c later st = true.
Proof.
  intros Ha Ho Hr Hv. unfold already_observed, uciCommandMatchesObservedInPlan, uciCommandMatchesObserved. rewrite Ha.
  change ("set" =? "delete") with false. change ("set" =? "ensure_host") with false. cbv iota.
  rewrite (proj2 (String.eqb_neq _ _) Ho). unfold option_at in Hv.
  destruct (referenced (Sect c) st) as [|s l]; [done|]. cbn [existsb]. rewrite Hv. cbn.
  by rewrite String.eqb_refl.
Qed.
Lemma filter_nothing plan st : (∀ c later, c ∈ plan → already_observed c later st = true) →
  filterUCICommandsByObservedState plan st = [].
Proof.
  induction plan as [|c plan IH]; [done|]. intros H. cbn. rewrite H by set_solver. apply IH. intros. apply H. set_solver.
Qed.

(** In the state that a plan leads to, the filter keeps nothing of it. *)
Lemma set_plan_settles plan targets st : set_plan st plan targets →
  filterUCICommandsByObservedState plan (run_plan plan st) = [].
Proof.
  intros [Hall Hnd].
  pose proof (run_sets st plan targets st Hall Hnd (λ c t H, proj1 (proj2 (proj2 (proj2 H))))) as Hset.
  apply filter_nothing. intros c later Hc. destruct (Forall2_partner _ _ _ c Hall Hc) as (t & _ & Ha & Ho & Hw & Hr & _).
  apply (set_observed _ c t.1); [done..|by apply resolves_plan|]. by apply Hset.
Qed.


Definition access_point_plan : list UciCommand :=
  [Cmd "set" "system" "@system[0]" "hostname" "ap-1"; Cmd "set" "system" "@system[0]" "timezone" "UTC"].
Definition access_point_state : list UCISection :=
  [Section_ "@system[0]" "system" "@system[0]" true {["hostname" := Text "OpenWrt"; "timezone" := Text "UTC"]};
   Section_ "ntp" "timeserver" "ntp" false {["server" := Texts ["0.pool"; "1.pool"]]}].

(** ** Printable states *)

(** A state that [uci show] prints: its sections, their ids once each. *)
Definition printable (st : list UCISection) : Prop := Forall section_ok st ∧ NoDup (map us_ID st).
Definition plain_set (c : UciCommand) : Prop :=
  Action c = "set" ∧ text_ok name_char (Opt c) ∧ no_nl (Value c) = true.

Lemma printable_normal st : printable st → normal st.
Proof.
  intros [Hok Hnd]. split; [done|]. eapply Forall_impl; [exact Hok|]. intros s [_ _ _ _ Ho] k v Hv.
  by destruct (Ho k v Hv) as (_ & ? & _).
Qed.
Lemma update_ids id f st : (∀ s, shape (f s) = shape s) → map us_ID (update_section id f st) = map us_ID st.
Proof.
  intros Hf. pose proof (update_section_shape id f st Hf) as H. apply (f_equal (map fst)) in H. by rewrite !map_map in H.
Qed.
Lemma run_command_printable st c : printable st → plain_set c → printable (run_command st c).
Proof.
  intros [Hok Hnd] (Ha & Ho & Hv). unfold run_command. destruct (referenced (Sect c) st) as [|s0 l]; [done|].
  split; [|by rewrite update_ids].
  unfold update_section. apply Forall_map. eapply Forall_impl; [exact Hok|]. intros s Hs. cbn.
  destruct (us_ID s =? us_ID s0); [|done]. destruct Hs as [Hi Ht Hn Han Hopt]. split; [done..|]. cbn [assign us_Options].
  unfold new_value. rewrite Ha. intros k v Hk. destruct (decide (k = Opt c)) as [->|Hne].
  - rewrite lookup_partial_alter_eq in Hk. injection Hk as <-. split; [done|]. split; [done|]. by apply Forall_singleton.
  - rewrite lookup_partial_alter_ne in Hk by done. by apply Hopt.
Qed.
Lemma run_plan_printable plan st : printable st → Forall plain_set plan → printable (run_plan plan st).
Proof.
  intros H Hall. revert st H. induction Hall as [|c plan Hc Hall IH]; intros st H; [done|]. cbn.
  by apply IH, run_command_printable.
Qed.

(** ** Lists *)

(** How the renderer replaces the name servers of a gateway. *)
Definition server_plan (a b : string) : list UciCommand :=
  [Cmd "delete" "dhcp" "@dnsmasq[0]" "server" ""; Cmd "add_list" "dhcp" "@dnsmasq[0]" "server" a;
   Cmd "add_list" "dhcp" "@dnsmasq[0]" "server" b].
Abbreviation servers := (option_at "@dnsmasq[0]" "server").

(** What the filter and the commands see of the servers, in a state with one dnsmasq
    section. *)
Section servers.
Context (st : list UCISection) (id : string) (Hr : resolves "@dnsmasq[0]" id st).

Lemma servers_run c : Sect c = "@dnsmasq[0]" → Opt c = "server" →
  servers (run_command st c) =
  (if Action c =? "set" then Some (Text (Value c))
   else if Action c =? "add_list" then Some (single (match servers st with Some v => value_list v | None => [] end ++ [Value c]))
   else if Action c =? "del_list" then
     match filter (λ v, v ≠ Value c) (match servers st with Some v => value_list v | None => [] end) with
     | [] => None | l => Some (single l) end
   else None).
Proof.
  intros Hs Ho. rewrite (option_at_run _ id _ _ _ id); [|done|by rewrite Hs]. rewrite bool_decide_eq_true_2 by done.
  rewrite Hs. unfold option_at, resolves in *. destruct (referenced "@dnsmasq[0]" st) as [|s l]; [done|].
  unfold new_value, values_at. by rewrite Ho.
Qed.
Lemma servers_seen c v : Action c = "add_list" → Sect c = "@dnsmasq[0]" → Opt c = "server" → servers st = Some v →
  ∀ later, already_observed c later st = bool_decide (Value c ∈ value_list v).
Proof.
  intros Ha Hs Ho Hv later. unfold already_observed, uciCommandMatchesObservedInPlan, uciCommandMatchesObserved, isDefaultDifference.
  rewrite Ha, Hs, Ho. change ("add_list" =? "delete") with false. change ("add_list" =? "ensure_host") with false.
  change ("server" =? "") with false. change ("server" =? "disabled") with false. cbv iota.
  unfold option_at, resolves in *. destruct (referenced "@dnsmasq[0]" st) as [|s [|? ?]]; [done| |done].
  cbn [existsb negb]. rewrite Hv, andb_false_r, andb_false_l, !orb_false_r, andb_true_l.
  unfold uciCommandValueMatches, uciOptionContains. change ("add_list" =? "add_list") with true. cbv iota.
  clear. induction (value_list v) as [|x l IH]; [done|]. cbn. rewrite IH. destruct (String.eqb_spec x (Value c)) as [->|Hx].
  - symmetry. apply bool_decide_eq_true_2. set_solver.
  - apply bool_decide_ext. rewrite elem_of_cons. naive_solver.
Qed.
Lemma server_plan_delete a b v : servers st = Some v →
  already_observed (Cmd "delete" "dhcp" "@dnsmasq[0]" "server" "") (tail (server_plan a b)) st =
  bool_decide (value_list v = [a; b]).
Proof.
  intros Hv. unfold already_observed, uciCommandMatchesObservedInPlan. cbn [Action Opt Sect Config].
  change ("server" =? "") with false. change (if "delete" =? "delete" then ?x else ?y) with x.
  change (plannedListAfterDelete _ (tail (server_plan a b))) with (Some [a; b]).
  unfold observedUCIOption. unfold option_at in Hv. destruct (referenced "@dnsmasq[0]" st) as [|s l]; [done|]. rewrite Hv.
  unfold isDefaultDifference. cbn. by rewrite orb_false_r.
Qed.
End servers.

Lemma server_plan_filter st id a b v : resolves "@dnsmasq[0]" id st → servers st = Some v → value_list v ≠ [a; b] →
  filterUCICommandsByObservedState (server_plan a b) st =
  Cmd "delete" "dhcp" "@dnsmasq[0]" "server" "" ::
    map (λ x, Cmd "add_list" "dhcp" "@dnsmasq[0]" "server" x) (filter (λ x, x ∉ value_list v) [a; b]).
Proof.
  intros Hr Hv Hne. unfold server_plan. cbn [filterUCICommandsByObservedState].
  pose proof (server_plan_delete st a b v Hv) as Hd. cbn [tail server_plan] in Hd. rewrite Hd, bool_decide_eq_false_2 by done.
  rewrite !(servers_seen st id Hr _ v) by done. cbn [Value]. f_equal. rewrite !filter_cons.
  destruct (decide (a ∈ value_list v)), (decide (b ∈ value_list v));
    repeat first [rewrite bool_decide_eq_true_2 by done | rewrite bool_decide_eq_false_2 by done
                 |rewrite decide_True by done | rewrite decide_False by tauto]; done.
Qed.
(** Deleting the list, then adding to it. *)
Lemma servers_delete st id : resolves "@dnsmasq[0]" id st →
  servers (run_command st (Cmd "delete" "dhcp" "@dnsmasq[0]" "server" "")) = None.
Proof. intros Hr. by rewrite (servers_run st id Hr). Qed.
Lemma servers_refill st id l : resolves "@dnsmasq[0]" id st → l ≠ [] →
  servers (run_plan (Cmd "delete" "dhcp" "@dnsmasq[0]" "server" "" ::
    map (λ x, Cmd "add_list" "dhcp" "@dnsmasq[0]" "server" x) l) st) = Some (single l).
Proof.
  intros Hr Hn. cbn [run_plan fold_left]. pose proof (servers_delete st id Hr) as Hd.
  pose proof (resolves_run _ _ _ (Cmd "delete" "dhcp" "@dnsmasq[0]" "server" "") Hr) as Hr'.
  set (st' := run_command st _) in *. clearbody st'. clear Hr.
  assert (∀ l pre cur, resolves "@dnsmasq[0]" id cur → pre ≠ [] → servers cur = Some (single pre) →
    servers (fold_left run_command (map (λ x, Cmd "add_list" "dhcp" "@dnsmasq[0]" "server" x) l) cur) =
      Some (single (pre ++ l))) as H.
  { clear. induction l as [|x l IH]; intros pre cur Hr Hp Hs; [by rewrite app_nil_r|]. cbn [map fold_left].
    rewrite (IH (pre ++ [x])%list); [by rewrite <- app_assoc | by apply resolves_run | by destruct pre |].
    rewrite (servers_run cur id Hr) by done. rewrite Hs.
    assert (value_list (single pre) = pre) as -> by (by destruct pre as [|y [|z pre]]). done. }
  destruct l as [|x l]; [done|]. cbn [map fold_left]. apply (H l [x]); [by apply resolves_run|done|].
  rewrite (servers_run st' id Hr') by done. by rewrite Hd.
Qed.

(** C31: the filter drops the addition of a list entry that the device already has,
    but keeps the deletion of the list before it: replacing one of two name servers
    leaves the device with the new one only, the next preview with the old one
    only, and so on, while the whole plan would set both. *)
Theorem server_update_flips (st : list UCISection) (id a b : string) (v : uci_value) :
  let sync st := run_plan (filterUCICommandsByObservedState (server_plan a b) st) st in
  resolves "@dnsmasq[0]" id st → servers st = Some v → a ∈ value_list v → b ∉ value_list v →
  servers (run_plan (server_plan a b) st) = Some (Texts [a; b]) ∧
  servers (sync st) = Some (Text b) ∧ servers (sync (sync st)) = Some (Text a).
Proof.
  intros sync Hr Hv Ha Hb. assert (a ≠ b) as Hab by (by intros ->).
  assert (resolves "@dnsmasq[0]" id (sync st)) as Hr1 by (by apply resolves_plan).
  split; [exact (servers_refill st id [a; b] Hr ltac:(done))|].
  assert (servers (sync st) = Some (Text b)) as H1.
  { unfold sync. rewrite (server_plan_filter st id a b v) by (done || (intros He; rewrite He in Hb; set_solver)).
    rewrite filter_cons_False, filter_cons_True by tauto. rewrite filter_nil. by apply (servers_refill st id [b]). }
  split; [exact H1|]. unfold sync at 1. rewrite (server_plan_filter _ id a b (Text b) Hr1 H1) by (cbn; congruence).
  rewrite filter_cons_True, filter_cons_False by (cbn; set_solver). rewrite filter_nil.
  by apply (servers_refill (sync st) id [a]).
Qed.

Definition gateway_state : list UCISection :=
  [Section_ "@dnsmasq[0]" "dnsmasq" "@dnsmasq[0]" true {["server" := Texts ["9.9.9.9"; "1.1.1.1"]]}].
Lemma server_update_flips_witness :
  servers (run_plan (filterUCICommandsByObservedState (server_plan "9.9.9.9" "8.8.8.8") gateway_state) gateway_state) =
    Some (Text "8.8.8.8").
Proof.
  apply (server_update_flips gateway_state "@dnsmasq[0]" "9.9.9.9" "8.8.8.8" (Texts ["9.9.9.9"; "1.1.1.1"]));
    [vm_compute; reflexivity | vm_compute; reflexivity | cbn; set_solver |].
  apply (bool_decide_unpack _). vm_compute. exact I.
Defined.
