(* ===== verification/RolloutPlan.v ===== *)
(** The pure part of [internal/api/handlers/site_orchestrator.go]: the rollout draft
    and its hash, the choice and the order of the devices, the guarded scripts, the
    change sets a draft stands for, and the results that are reported. *)

From S2P Require Import Prelude GoStrings Sha256 Json Uci UciShell DeviceOperation Store DeviceOperations ChangeSets Rollouts.

(** ** Data *)

(** [services.RenderResult] (the address is not used here) and
    [services.DeviceRoleInfo] (id and role). *)
Record RenderResult := Rendered {
  rr_DeviceID : string;
  rr_Hostname : string;
  rr_Role : string;
  rr_Commands : list UciCommand
}.

(** [rolloutDraftDevice] and [rolloutDraft]; [None] is a nil slice or map. *)
Record rolloutDraftDevice := DraftDevice {
  dd_DeviceID : string;
  dd_Hostname : string;
  dd_Role : string;
  dd_Commands : option (list UciCommand);
  dd_PreviewCommands : gslice;
  dd_Scripts : option (gmap string string);
  dd_ObservedState : option (gmap string string)
}.
Record rolloutDraft := Draft {
  dr_SiteID : string;
  dr_TargetDeviceID : string;
  dr_Namespace : string;
  dr_HealthChecks : gslice;
  dr_Devices : option (list rolloutDraftDevice)
}.

(** [fleetSyncResult] *)
Record fleetSyncResult := SyncResult {
  fr_DeviceID : string;
  fr_Hostname : string;
  fr_Role : string;
  fr_Status : string;
  fr_ChangeSetState : string;
  fr_Output : string;
  fr_Error : string;
  fr_CmdCount : Z;
  fr_ChangeSetID : string;
  fr_PlanHash : string;
  fr_DeviceGeneration : Z
}.

(** ** JSON *)

(** A map is encoded with its keys sorted. *)
Definition map_json (m : option (gmap string string)) : json :=
  match m with
  | None => JNull
  | Some m => JObj (map (λ kv, (kv.1, JStr kv.2)) (stable_sort (λ a b, str_less a.1 b.1) (map_to_list m)))
  end.
Definition commands_json (c : option (list UciCommand)) : json :=
  match c with None => JNull | Some l => JArr (map command_json l) end.
Definition draft_device_json (d : rolloutDraftDevice) : json :=
  JObj [("device_id", JStr (dd_DeviceID d)); ("hostname", JStr (dd_Hostname d)); ("role", JStr (dd_Role d));
        ("commands", commands_json (dd_Commands d)); ("preview_commands", slice_json (dd_PreviewCommands d));
        ("scripts", map_json (dd_Scripts d)); ("observed_state", map_json (dd_ObservedState d))].
Definition omit_text (key value : string) : list (string * json) :=
  if value =? "" then [] else [(key, JStr value)].
Definition draft_json (d : rolloutDraft) : json :=
  JObj ([("site_id", JStr (dr_SiteID d))] ++ omit_text "target_device_id" (dr_TargetDeviceID d) ++
    omit_text "namespace" (dr_Namespace d) ++
    [("health_checks", slice_json (dr_HealthChecks d));
     ("devices", match dr_Devices d with None => JNull | Some l => JArr (map draft_device_json l) end)])%list.

Fixpoint dec_map_entries (l : list (string * json)) (old : gmap string string) : option (gmap string string) :=
  match l with
  | [] => Some old
  | (key, j) :: l => v ← dec_string j ""; dec_map_entries l (<[key := v]> old)
  end.
Definition dec_map : decoder (option (gmap string string)) := λ j old,
  match j with
  | JNull => Some None
  | JObj l => Some <$> dec_map_entries l (default ∅ old)
  | _ => None
  end.
Definition zero_draft_device : rolloutDraftDevice := DraftDevice "" "" "" None None None None.
Definition draft_device_fields : list (string * decoder rolloutDraftDevice) := [
  ("device_id", λ j '(DraftDevice id host role cmds prev scr obs),
     v ← dec_string j id; Some (DraftDevice v host role cmds prev scr obs));
  ("hostname", λ j '(DraftDevice id host role cmds prev scr obs),
     v ← dec_string j host; Some (DraftDevice id v role cmds prev scr obs));
  ("role", λ j '(DraftDevice id host role cmds prev scr obs),
     v ← dec_string j role; Some (DraftDevice id host v cmds prev scr obs));
  ("commands", λ j '(DraftDevice id host role cmds prev scr obs),
     v ← dec_slice dec_command zero_command j cmds; Some (DraftDevice id host role v prev scr obs));
  ("preview_commands", λ j '(DraftDevice id host role cmds prev scr obs),
     v ← dec_slice dec_string "" j prev; Some (DraftDevice id host role cmds v scr obs));
  ("scripts", λ j '(DraftDevice id host role cmds prev scr obs),
     v ← dec_map j scr; Some (DraftDevice id host role cmds prev v obs));
  ("observed_state", λ j '(DraftDevice id host role cmds prev scr obs),
     v ← dec_map j obs; Some (DraftDevice id host role cmds prev scr v))
].
Definition dec_draft_device : decoder rolloutDraftDevice := dec_struct draft_device_fields.
Definition zero_draft : rolloutDraft := Draft "" "" "" None None.
Definition draft_fields : list (string * decoder rolloutDraft) := [
  ("site_id", λ j '(Draft site target ns hc ds), v ← dec_string j site; Some (Draft v target ns hc ds));
  ("target_device_id", λ j '(Draft site target ns hc ds), v ← dec_string j target; Some (Draft site v ns hc ds));
  ("namespace", λ j '(Draft site target ns hc ds), v ← dec_string j ns; Some (Draft site target v hc ds));
  ("health_checks", λ j '(Draft site target ns hc ds),
     v ← dec_slice dec_string "" j hc; Some (Draft site target ns v ds));
  ("devices", λ j '(Draft site target ns hc ds),
     v ← dec_slice dec_draft_device zero_draft_device j ds; Some (Draft site target ns hc v))
].
Definition dec_draft : decoder rolloutDraft := dec_struct draft_fields.

(** A [int] or [int64] field. *)
Definition dec_int64 : decoder Z := λ j old,
  match j with
  | JNull => Some old
  | _ => v ← dec_int64_ptr j None; v
  end.
Definition sync_result_json (r : fleetSyncResult) : json :=
  JObj ([("device_id", JStr (fr_DeviceID r)); ("hostname", JStr (fr_Hostname r)); ("role", JStr (fr_Role r));
         ("status", JStr (fr_Status r))] ++ omit_text "change_set_state" (fr_ChangeSetState r) ++
        [("output", JStr (fr_Output r))] ++ omit_text "error" (fr_Error r) ++
        [("cmd_count", JInt (fr_CmdCount r))] ++ omit_text "change_set_id" (fr_ChangeSetID r) ++
        omit_text "plan_hash" (fr_PlanHash r) ++ omit_zero "device_generation" (fr_DeviceGeneration r))%list.
Definition zero_sync_result : fleetSyncResult := SyncResult "" "" "" "" "" "" "" 0 "" "" 0.
Definition dec_sync_result : decoder fleetSyncResult := dec_struct [
  ("device_id", λ j '(SyncResult id host role st css out err n cs hash g),
     v ← dec_string j id; Some (SyncResult v host role st css out err n cs hash g));
  ("hostname", λ j '(SyncResult id host role st css out err n cs hash g),
     v ← dec_string j host; Some (SyncResult id v role st css out err n cs hash g));
  ("role", λ j '(SyncResult id host role st css out err n cs hash g),
     v ← dec_string j role; Some (SyncResult id host v st css out err n cs hash g));
  ("status", λ j '(SyncResult id host role st css out err n cs hash g),
     v ← dec_string j st; Some (SyncResult id host role v css out err n cs hash g));
  ("change_set_state", λ j '(SyncResult id host role st css out err n cs hash g),
     v ← dec_string j css; Some (SyncResult id host role st v out err n cs hash g));
  ("output", λ j '(SyncResult id host role st css out err n cs hash g),
     v ← dec_string j out; Some (SyncResult id host role st css v err n cs hash g));
  ("error", λ j '(SyncResult id host role st css out err n cs hash g),
     v ← dec_string j err; Some (SyncResult id host role st css out v n cs hash g));
  ("cmd_count", λ j '(SyncResult id host role st css out err n cs hash g),
     v ← dec_int64 j n; Some (SyncResult id host role st css out err v cs hash g));
  ("change_set_id", λ j '(SyncResult id host role st css out err n cs hash g),
     v ← dec_string j cs; Some (SyncResult id host role st css out err n v hash g));
  ("plan_hash", λ j '(SyncResult id host role st css out err n cs hash g),
     v ← dec_string j hash; Some (SyncResult id host role st css out err n cs v g));
  ("device_generation", λ j '(SyncResult id host role st css out err n cs hash g),
     v ← dec_int64 j g; Some (SyncResult id host role st css out err n cs hash v))
].

(** ** Small helpers *)

Definition maxRolloutDiagnosticBytes : nat := 4096.
(** [boundedRolloutDiagnostic] *)
Definition boundedRolloutDiagnostic (value : string) : string :=
  if (String.length value <=? maxRolloutDiagnosticBytes)%nat then value
  else String.substring 0 maxRolloutDiagnosticBytes value +:+ nl +:+ "[diagnostic output truncated]".
(** [rolloutResultSuccess] *)
Definition rolloutResultSuccess (status : string) : bool := (status =? "SUCCESS") || (status =? "SKIPPED").
(** [stripFleetSyncOutput] *)
Definition stripFleetSyncOutput (results : list fleetSyncResult) : list fleetSyncResult :=
  map (λ r, SyncResult (fr_DeviceID r) (fr_Hostname r) (fr_Role r) (fr_Status r) (fr_ChangeSetState r)
              (boundedRolloutDiagnostic (fr_Output r)) (fr_Error r) (fr_CmdCount r) (fr_ChangeSetID r)
              (fr_PlanHash r) (fr_DeviceGeneration r)) results.
(** [observedStateHash] *)
Definition observedStateHash (raw : string) : string := sha256_hex raw.

(** [groupCommandsByConfig] and [sortedConfigNames]: the buckets keep the order of
    the commands. *)
Definition commands_of (config : string) (commands : list UciCommand) : list UciCommand :=
  filter (λ c, Config c = config) commands.
Definition groupCommandsByConfig (commands : list UciCommand) : gmap string (list UciCommand) :=
  list_to_map (map (λ config, (config, commands_of config commands)) (dedup_first (map Config commands))).
Definition sortedConfigNames {A} (groups : gmap string A) : list string :=
  stable_sort str_less (map fst (map_to_list groups)).

(** [rejectUnsafeNetworkMutations] *)
Definition rejectUnsafeNetworkMutations (results : list RenderResult) : res unit :=
  fail_if (existsb (λ r, existsb (λ c, Config c =? "network") (rr_Commands r)) results)
          (ErrText "network mutation is blocked until a transport-safe executor is available").

(** ** Phases *)

Definition fleetSyncMaxConcurrency : nat := 4.
Definition fleetSyncSequential : bool := true.
(** The loop of [fleetRolloutPhases] from [start] on. *)
Fixpoint fleet_batches (fuel start deviceCount : nat) : list (list nat) :=
  match fuel with
  | O => []
  | S fuel =>
      if (start <? deviceCount)%nat then
        seq start (Nat.min (start + fleetSyncMaxConcurrency) deviceCount - start)
        :: fleet_batches fuel (start + fleetSyncMaxConcurrency) deviceCount
      else []
  end.
(** [fleetRolloutPhases]: a canary, then batches; every turn of the loop advances,
    so [deviceCount] turns are enough. *)
Definition fleetRolloutPhases (deviceCount : nat) : list (list nat) :=
  match deviceCount with
  | O => []
  | _ => [0] :: fleet_batches deviceCount 1 deviceCount
  end.
(** [orderedFleetRolloutPhases] *)
Definition orderedFleetRolloutPhases (deviceCount : nat) : list (list nat) := map (λ i, [i]) (seq 0 deviceCount).
(** [sequentialFleetRolloutPhases] *)
Definition zero_rendered : RenderResult := Rendered "" "" "" [].
Definition rendered_less (a b : RenderResult) : bool :=
  let ga := rr_Role a =? "Gateway" in
  let gb := rr_Role b =? "Gateway" in
  if Bool.eqb ga gb then str_less (rr_DeviceID a) (rr_DeviceID b) else negb ga.
Definition index_less (results : list RenderResult) (i j : nat) : bool :=
  rendered_less (nth i results zero_rendered) (nth j results zero_rendered).
Definition sequentialFleetRolloutPhases (results : list RenderResult) : list (list nat) :=
  map (λ i, [i]) (stable_sort (index_less results) (seq 0 (List.length results))).

(** ** Building a draft *)

(** [selectRolloutDevices], on devices with the given ids. *)
Definition selectRolloutDevices {A} (device_id : A → string) (devs : list A) (targetID : string) : res (list A) :=
  if targetID =? "" then Ok devs
  else match List.find (λ d, device_id d =? targetID) devs with
       | Some dev => Ok [dev]
       | None => Err (ErrText "target device not found in site")
       end.
(** [rolloutHealthTargets]; the configured text may be absent. *)
Definition rolloutHealthTargets (healthChecks : option raw_message) : res (list string) :=
  match (match healthChecks with None => Some None | Some raw => unmarshal (dec_slice dec_string "") None raw end) with
  | None => Err (ErrText "invalid health_checks configuration")
  | Some targets =>
      let! validated := ValidateHealthTargets (elems targets) in
      Ok (match validated with [] => ["1.1.1.1"] | l => l end)
  end.

(** [requestedChangeSetNamespaces] *)
Fixpoint requested_namespaces (names : list string) : res (gset string) :=
  match names with
  | [] => Ok ∅
  | name :: names =>
      let name := trim_space name in
      let! _ := fail_if ((name =? "") || negb (bool_decide (name ∈ deviceChangeSetConfigs)))
                        (ErrText "namespace is not supported by the safe changeset slice") in
      let! rest := requested_namespaces names in Ok ({[name]} ∪ rest)
  end.
Definition requestedChangeSetNamespaces (raw : string) : res (gset string) := requested_namespaces (str_split "," raw).

(** [filterRolloutResultsByNamespace] and [dropEmptyRolloutResults] *)
Definition filterRolloutResultsByNamespace (results : list RenderResult) (namespace : string) : res (list RenderResult) :=
  if namespace =? "" then Ok results
  else let! namespaces := requestedChangeSetNamespaces namespace in
       Ok (map (λ r, Rendered (rr_DeviceID r) (rr_Hostname r) (rr_Role r)
                       (filter (λ c, Config c ∈ namespaces) (rr_Commands r))) results).
Definition dropEmptyRolloutResults (results : list RenderResult) (observedState : gmap string (gmap string string))
    : list RenderResult * gmap string (gmap string string) :=
  let kept := filter (λ r, rr_Commands r ≠ []) results in
  (kept, filter (λ kv, kv.1 ∈ map rr_DeviceID kept) observedState).

(** [%q] of a text of printable ASCII characters (a state hash is hexadecimal). *)
Fixpoint quote_escape (s : string) : string :=
  match s with
  | EmptyString => ""
  | String c s => (if in_chars (dq +:+ "\") c then String "\" (String c "") else String c "") +:+ quote_escape s
  end.
Definition go_quote (s : string) : string := dq +:+ quote_escape s +:+ dq.

(** [buildGuardedRolloutScript] *)
Definition rollout_guard (config expectedStateHash : string) : string := lines [
  "observed_rollout_hash=$(uci show " +:+ config +:+ " 2>&1 | sha256sum | awk '{print $1}')";
  "if [ " +:+ dq +:+ "$observed_rollout_hash" +:+ dq +:+ " != " +:+ go_quote expectedStateHash +:+ " ]; then";
  "  printf 'SITE_ORCHESTRATOR: rollout draft stale for config " +:+ config +:+ "\n' >&2";
  "  exit 75";
  "fi";
  ""
].
Definition mutation_marker : string := "# Phase 2: Apply UCI mutations" +:+ nl.
Definition buildGuardedRolloutScript (config : string) (commands : list UciCommand) (healthChecks : list string)
    (expectedStateHash : string) : res string :=
  let script := BuildSafeBatchScript config commands healthChecks in
  let! _ := fail_if (script =? "") (ErrText "invalid rollout commands") in
  let! _ := fail_if (expectedStateHash =? "") (ErrText "missing observed state") in
  match str_cut mutation_marker script with
  | None => Err (ErrText "invalid rollout script")
  | Some (before, after) => Ok (before +:+ rollout_guard config expectedStateHash +:+ mutation_marker +:+ after)
  end.

(** The scripts of one device, namespace by namespace. *)
Fixpoint device_scripts (names : list string) (groups : gmap string (list UciCommand)) (healthChecks : list string)
    (state : gmap string string) : res (gmap string string) :=
  match names with
  | [] => Ok ∅
  | config :: names =>
      let! script := buildGuardedRolloutScript config (default [] (groups !! config)) healthChecks
                       (default "" (state !! config)) in
      let! rest := device_scripts names groups healthChecks state in Ok (<[config := script]> rest)
  end.
Definition draft_device (healthChecks : list string) (observedState : gmap string (gmap string string))
    (result : RenderResult) : res rolloutDraftDevice :=
  let state := default ∅ (observedState !! rr_DeviceID result) in
  let! _ := fail_if (negb (bool_decide (rr_Commands result = [])) && bool_decide (state = ∅))
                    (ErrText "missing observed state for device") in
  let groups := groupCommandsByConfig (rr_Commands result) in
  let! scripts := device_scripts (sortedConfigNames groups) groups healthChecks state in
  Ok (DraftDevice (rr_DeviceID result) (rr_Hostname result) (rr_Role result) (Some (rr_Commands result))
        (Some (PreviewCommands (rr_Commands result))) (Some scripts) (Some state)).
Fixpoint draft_devices (healthChecks : list string) (observedState : gmap string (gmap string string))
    (results : list RenderResult) : res (list rolloutDraftDevice) :=
  match results with
  | [] => Ok []
  | result :: results =>
      let! device := draft_device healthChecks observedState result in
      let! devices := draft_devices healthChecks observedState results in Ok (device :: devices)
  end.
(** [buildRolloutDraft] *)
Definition phase_results (results : list RenderResult) : list RenderResult :=
  map (λ i, nth i results zero_rendered) (concat (sequentialFleetRolloutPhases results)).
Definition buildRolloutDraft (siteID targetDeviceID : string) (healthChecks : list string) (results : list RenderResult)
    (observedState : gmap string (gmap string string)) : res rolloutDraft :=
  let! devices := draft_devices healthChecks observedState (phase_results results) in
  Ok (Draft siteID targetDeviceID "" (Some healthChecks) (Some devices)).

(** ** Reading a draft back *)

(** [rolloutPlanHash] *)
Definition rolloutPlanHash (draft : rolloutDraft) : string := sha256_hex (json_text true (draft_json draft)).
(** [decodeRolloutDraft] *)
Definition decodeRolloutDraft (record : RolloutDraftRecord) : res rolloutDraft :=
  match unmarshal dec_draft zero_draft (Some (rd_Plan record)) with
  | None => Err (ErrText "invalid rollout draft")
  | Some draft =>
      let! _ := fail_if (negb (dr_SiteID draft =? rd_SiteID record) || negb (rolloutPlanHash draft =? rd_PlanHash record))
                        (ErrText "rollout draft identity does not match its stored plan") in
      if dr_Namespace draft =? "" then Ok draft
      else match requestedChangeSetNamespaces (dr_Namespace draft) with
           | Ok _ => Ok draft
           | Err _ => Err (ErrText "rollout draft namespace is unsupported")
           end
  end.
Definition draft_device_list (draft : rolloutDraft) : list rolloutDraftDevice := default [] (dr_Devices draft).
Definition device_commands (device : rolloutDraftDevice) : list UciCommand := default [] (dd_Commands device).
(** [rolloutResultsFromDraft] *)
Definition rolloutResultsFromDraft (draft : rolloutDraft) : list RenderResult :=
  map (λ d, Rendered (dd_DeviceID d) (dd_Hostname d) (dd_Role d) (device_commands d)) (draft_device_list draft).

(** ** Change sets *)

(** The operations of [buildDeviceChangeSet], namespace by namespace. *)
Definition observed_hash (device : rolloutDraftDevice) (namespace : string) : string :=
  default "" (default ∅ (dd_ObservedState device) !! namespace).
Fixpoint change_operations (namespaces : list string) (device : rolloutDraftDevice) : res (list DeviceChangeOperation) :=
  match namespaces with
  | [] => Ok []
  | namespace :: namespaces =>
      match commands_of namespace (device_commands device) with
      | [] => change_operations namespaces device
      | commands =>
          let! _ := fail_if (observed_hash device namespace =? "") (ErrText "missing observed state for device") in
          let! rest := change_operations namespaces device in
          Ok (ChangeOperation "" namespace commands (observed_hash device namespace) :: rest)
      end
  end.
(** [buildDeviceChangeSet] *)
Definition buildDeviceChangeSet (rolloutID : string) (draft : rolloutDraft) (device : rolloutDraftDevice) : res DeviceChangeSet :=
  let! namespaces := requestedChangeSetNamespaces (dr_Namespace draft) in
  let! _ := fail_if (bool_decide (device_commands device = []) || bool_decide (namespaces = ∅))
                    (ErrText "device has no typed commands") in
  let! _ := fail_if (negb (forallb (λ c, bool_decide (Config c ∈ namespaces)) (device_commands device)))
                    (ErrText "namespace is not selected for the safe changeset") in
  let! operations := change_operations deviceChangeSetConfigs device in
  match NewDeviceChangeSetForRolloutOperations rolloutID (dd_DeviceID device) operations (dr_HealthChecks draft)
          ConfirmationLocalAuto with
  | Ok changeSet => Ok changeSet
  | Err e => Err (ErrWrap e "could not build device changeset")
  end.
(** [buildSingleDeviceChangeSet] *)
Definition buildSingleDeviceChangeSet (rolloutID : string) (draft : rolloutDraft) : res DeviceChangeSet :=
  match draft_device_list draft with
  | [device] => buildDeviceChangeSet rolloutID draft device
  | _ => Err (ErrText "a changeset slice requires exactly one target device")
  end.
(** [changeSetCommandCount] *)
Definition changeSetCommandCount (changeSet : DeviceChangeSet) : Z :=
  Z.of_nat (foldr Nat.add 0 (map (λ o, List.length (o_Commands o)) (cs_Operations changeSet))).
(** [buildFleetDeviceChangeSets] *)
Fixpoint fleet_change_sets (rolloutID : string) (draft : rolloutDraft) (seen : gset string)
    (devices : list rolloutDraftDevice) : res (list DeviceChangeSet) :=
  match devices with
  | [] => Ok []
  | device :: devices =>
      let key := to_lower (dd_DeviceID device) in
      let! _ := fail_if (bool_decide (key ∈ seen)) (ErrText "duplicate target device") in
      let! changeSet := buildDeviceChangeSet rolloutID draft device in
      let! rest := fleet_change_sets rolloutID draft ({[key]} ∪ seen) devices in Ok (changeSet :: rest)
  end.
Definition buildFleetDeviceChangeSets (rolloutID : string) (draft : rolloutDraft) : res (list DeviceChangeSet) :=
  let! _ := fail_if (bool_decide (draft_device_list draft = [])) (ErrText "a changeset rollout requires at least one target device") in
  fleet_change_sets rolloutID draft ∅ (draft_device_list draft).

(** [existingChangeSetResult] and [queuedChangeSetResult] *)
Definition result_matches (changeSet : DeviceChangeSet) (requiredStatus : string) (result : fleetSyncResult) : bool :=
  equal_fold (fr_DeviceID result) (cs_DeviceID changeSet) && (fr_ChangeSetID result =? cs_ChangeSetID changeSet) &&
  (fr_PlanHash result =? cs_PlanHash changeSet) &&
  ((0 <? fr_DeviceGeneration result)%Z || ((requiredStatus =? "QUEUED") && equal_fold (fr_Status result) "WAITING")) &&
  negb ((requiredStatus =? "QUEUED") && negb (equal_fold (fr_Status result) "QUEUED") &&
        negb (equal_fold (fr_Status result) "WAITING")) &&
  negb ((requiredStatus =? "TERMINAL") && equal_fold (fr_Status result) "QUEUED").
Definition existingChangeSetResult (record : RolloutDraftRecord) (changeSet : DeviceChangeSet) (requiredStatus : string)
    : option fleetSyncResult :=
  match dec_slice dec_sync_result zero_sync_result (rd_Results record) None with
  | None => None
  | Some results => List.find (result_matches changeSet requiredStatus) (default [] results)
  end.
Definition queuedChangeSetResult (record : RolloutDraftRecord) (changeSet : DeviceChangeSet) : option fleetSyncResult :=
  existingChangeSetResult record changeSet "QUEUED".

(** The result of a change set that is queued, or waits for its phase. *)
Definition queued_result (device : rolloutDraftDevice) (changeSet : DeviceChangeSet) (queued : bool) : fleetSyncResult :=
  SyncResult (cs_DeviceID changeSet) (dd_Hostname device) (dd_Role device) (if queued then "QUEUED" else "WAITING") ""
    (if queued then "device agent will apply and report the durable changeset result"
     else "waiting for the previous rollout phase to complete")
    "" (changeSetCommandCount changeSet) (cs_ChangeSetID changeSet) (cs_PlanHash changeSet) 0.
