(* ===== verification/Renderer.v ===== *)
(** [internal/services/orchestrator_engine.go]: the template of a site and the
    commands it renders for each device by its role.  [SiteConfig] has every field
    but the row's own id; the addresses of devices are only passed on, and left
    out. *)

From S2P Require Import Prelude GoStrings Json Uci DeviceOperation Store Rollouts RolloutPlan.

(** ** Data *)

(** A [json.RawMessage] field; [None] when it is empty. *)
Definition raw_field : Type := option raw_message.
(** [SiteConfig] *)
Record SiteConfig := Site {
  SiteID : string;
  EnableGlobalSSID : bool;
  GlobalSSID : string;
  GlobalWPAKey : string;
  GlobalEncryption : string;
  LanIPAddr : string;
  LanNetmask : string;
  DHCPStart : Z;
  DHCPLimit : Z;
  DHCPLeasetime : string;
  DNSPrimary : string;
  DNSSecondary : string;
  Timezone : string;
  HostnamePrefix : string;
  SQMCakeEnabled : bool;
  SQMSection : string;
  SQMInterface : string;
  SqmDownload : Z;
  SqmUpload : Z;
  DPIEnabled : bool;
  SecureTunnelEnabled : bool;
  TailscaleEnabled : bool;
  TailscaleAuthKey : string;
  FirewallSynFlood : bool;
  FirewallDropInvalid : bool;
  DropbearPort : Z;
  DropbearPasswordAuth : bool;
  DHCPReservations : raw_field;
  PortForwardingRules : raw_field;
  ThreatShieldEnabled : bool;
  GuestPortalEnabled : bool;
  AllowPublicSurveys : bool;
  WANInterfaces : raw_field;
  BenchmarkBaseline : raw_field;
  TopologyMetadata : raw_field;
  HealthChecks : raw_field
}.
(** [DeviceRoleInfo]; of the capabilities, [LogicalNetworks]. *)
Record DeviceRoleInfo := RoleInfo {
  di_DeviceID : string;
  di_Hostname : string;
  di_Role : string;
  di_LogicalNetworks : gmap string string
}.
(** [StaticLease], [PortForwardRule] and [WANInterface] *)
Record StaticLease := Lease_ { sl_Name : string; sl_MAC : string; sl_IP : string }.
Record PortForwardRule := Forward {
  pf_Name : string; pf_Proto : string; pf_SrcPort : Z; pf_DestIP : string; pf_DestPort : Z; pf_Enabled : bool
}.
Record WANInterface := Wan { wi_Name : string; wi_IfaceName : string; wi_TrackIP : string; wi_Tier : Z; wi_Weight : Z }.

Definition dec_bool : decoder bool := λ j old,
  match j with JNull => Some old | JBool b => Some b | _ => None end.
Definition zero_lease : StaticLease := Lease_ "" "" "".
Definition dec_lease : decoder StaticLease := dec_struct [
  ("name", λ j l, v ← dec_string j (sl_Name l); Some (Lease_ v (sl_MAC l) (sl_IP l)));
  ("mac", λ j l, v ← dec_string j (sl_MAC l); Some (Lease_ (sl_Name l) v (sl_IP l)));
  ("ip", λ j l, v ← dec_string j (sl_IP l); Some (Lease_ (sl_Name l) (sl_MAC l) v))
].
Definition zero_forward : PortForwardRule := Forward "" "" 0 "" 0 false.
Definition dec_forward : decoder PortForwardRule := dec_struct [
  ("name", λ j '(Forward n p s d t e), v ← dec_string j n; Some (Forward v p s d t e));
  ("proto", λ j '(Forward n p s d t e), v ← dec_string j p; Some (Forward n v s d t e));
  ("src_port", λ j '(Forward n p s d t e), v ← dec_int64 j s; Some (Forward n p v d t e));
  ("dest_ip", λ j '(Forward n p s d t e), v ← dec_string j d; Some (Forward n p s v t e));
  ("dest_port", λ j '(Forward n p s d t e), v ← dec_int64 j t; Some (Forward n p s d v e));
  ("enabled", λ j '(Forward n p s d t e), v ← dec_bool j e; Some (Forward n p s d t v))
].
Definition zero_wan : WANInterface := Wan "" "" "" 0 0.
Definition dec_wan : decoder WANInterface := dec_struct [
  ("name", λ j '(Wan n i t r w), v ← dec_string j n; Some (Wan v i t r w));
  ("iface_name", λ j '(Wan n i t r w), v ← dec_string j i; Some (Wan n v t r w));
  ("track_ip", λ j '(Wan n i t r w), v ← dec_string j t; Some (Wan n i v r w));
  ("tier", λ j '(Wan n i t r w), v ← dec_int64 j r; Some (Wan n i t v w));
  ("weight", λ j '(Wan n i t r w), v ← dec_int64 j w; Some (Wan n i t r v))
].
(** An array field; nothing when it is empty or does not decode. *)
Definition dec_array {A} (d : decoder A) (zero : A) (raw : raw_field) : list A :=
  match raw with
  | None => []
  | Some raw => match unmarshal (dec_slice d zero) None raw with Some (Some l) => l | _ => [] end
  end.

(** ** Validation *)

(** [sqmSectionPattern] and [sqmInterfacePattern] *)
Definition sqm_section_ok (s : string) : bool := nonempty s && str_forall (λ c, is_alnum c || in_chars "_" c) s.
Definition sqm_interface_ok (s : string) : bool := nonempty s && str_forall (λ c, is_alnum c || in_chars "_.-" c) s.
(** [ValidateSQM] *)
Definition ValidateSQM (sc : SiteConfig) : res unit :=
  if negb (SQMCakeEnabled sc) then Ok tt
  else
    let! _ := fail_if (negb (sqm_section_ok (SQMSection sc)) || negb (sqm_interface_ok (SQMInterface sc)))
                (ErrText "SQM requires an explicit named queue section and network interface") in
    fail_if ((SqmDownload sc <=? 0)%Z || (SqmUpload sc <=? 0)%Z)
      (ErrText "SQM download and upload rates must be positive Kbps").

(** ** Rendering *)

(** [logicalNetworkSection] *)
Definition logicalNetworkSection (networks : gmap string string) (name : string) : string :=
  let section := default "" (networks !! name) in if section =? "" then name else section.
Definition flag (b : bool) : string := if b then "1" else "0".

(** [renderMwan3Commands] *)
Definition wan_weight (w : WANInterface) : Z := if (wi_Weight w <=? 0)%Z then 1 else wi_Weight w.
Definition wan_tier (w : WANInterface) : Z := if (wi_Tier w <=? 0)%Z then 1 else wi_Tier w.
Definition wan_member (w : WANInterface) : string :=
  wi_IfaceName w +:+ "_m" +:+ dec (wan_tier w) +:+ "_" +:+ dec (wan_weight w).
Definition wan_commands (w : WANInterface) : list UciCommand :=
  let iface := wi_IfaceName w in
  if iface =? "" then []
  else [
    Cmd "set" "network" iface "proto" "dhcp";
    Cmd "set" "network" iface "ifname" iface;
    Cmd "set" "mwan3" iface "" "interface";
    Cmd "set" "mwan3" iface "enabled" "1";
    Cmd "set" "mwan3" iface "count" "1";
    Cmd "set" "mwan3" iface "timeout" "2";
    Cmd "set" "mwan3" iface "interval" "5";
    Cmd "set" "mwan3" iface "reliability" "1";
    Cmd "add_list" "mwan3" iface "track_ip" (if wi_TrackIP w =? "" then "8.8.8.8" else wi_TrackIP w);
    Cmd "set" "mwan3" (wan_member w) "" "member";
    Cmd "set" "mwan3" (wan_member w) "interface" iface;
    Cmd "set" "mwan3" (wan_member w) "metric" (dec (wan_tier w));
    Cmd "set" "mwan3" (wan_member w) "weight" (dec (wan_weight w))
  ].
Definition renderMwan3Commands (wans : list WANInterface) : list UciCommand :=
  ([Cmd "set" "mwan3" "globals" "mmx_mask" "0x3F00"] ++ concat (map wan_commands wans) ++
  [Cmd "set" "mwan3" "failover" "" "policy"] ++
  map (λ w, Cmd "add_list" "mwan3" "failover" "use_member" (wan_member w))
    (filter (λ w, wi_IfaceName w ≠ "") wans) ++
  [Cmd "set" "mwan3" "default_rule" "" "rule"; Cmd "set" "mwan3" "default_rule" "proto" "all";
   Cmd "set" "mwan3" "default_rule" "sticky" "0"; Cmd "set" "mwan3" "default_rule" "use_policy" "failover"])%list.

Definition forward_commands (pf : PortForwardRule) : list UciCommand := [
  Cmd "add" "firewall" "redirect" "" "";
  Cmd "set" "firewall" "@redirect[-1]" "name" (pf_Name pf);
  Cmd "set" "firewall" "@redirect[-1]" "target" "DNAT";
  Cmd "set" "firewall" "@redirect[-1]" "src" "wan";
  Cmd "set" "firewall" "@redirect[-1]" "src_dport" (dec (pf_SrcPort pf));
  Cmd "set" "firewall" "@redirect[-1]" "proto" (pf_Proto pf);
  Cmd "set" "firewall" "@redirect[-1]" "dest_ip" (pf_DestIP pf);
  Cmd "set" "firewall" "@redirect[-1]" "dest_port" (dec (pf_DestPort pf));
  Cmd "set" "firewall" "@redirect[-1]" "dest" "lan"
].
Definition sqm_commands (cfg : SiteConfig) : list UciCommand :=
  if SQMCakeEnabled cfg then [
    Cmd "set" "firewall" "@defaults[0]" "flow_offloading_hw" "0";
    Cmd "set" "sqm" (SQMSection cfg) "enabled" "1";
    Cmd "set" "sqm" (SQMSection cfg) "interface" (SQMInterface cfg);
    Cmd "set" "sqm" (SQMSection cfg) "download" (dec (SqmDownload cfg));
    Cmd "set" "sqm" (SQMSection cfg) "upload" (dec (SqmUpload cfg));
    Cmd "set" "sqm" (SQMSection cfg) "qdisc" "cake";
    Cmd "set" "sqm" (SQMSection cfg) "script" "piece_of_cake.qos";
    Cmd "set" "sqm" (SQMSection cfg) "linklayer" "none"
  ] else [].
Definition portal_commands (cfg : SiteConfig) : list UciCommand :=
  if GuestPortalEnabled cfg then [
    Cmd "set" "opennds" "@opennds[0]" "enabled" "1";
    Cmd "set" "opennds" "@opennds[0]" "gatewayinterface" "br-lan";
    Cmd "set" "opennds" "@opennds[0]" "fasport" "3000";
    Cmd "set" "opennds" "@opennds[0]" "faspath" "/portal/auth"
  ] else [].

(** What only a gateway gets.  The WAN interfaces count from two on; a text that
    decodes to two is longer than the two bytes of an empty array. *)
Definition gateway_commands (cfg : SiteConfig) (networks : gmap string string) : list UciCommand :=
  let lan := logicalNetworkSection networks "lan" in
  ([Cmd "set" "network" lan "ipaddr" (LanIPAddr cfg);
   Cmd "set" "network" lan "netmask" (LanNetmask cfg);
   Cmd "set" "dhcp" lan "start" (dec (DHCPStart cfg));
   Cmd "set" "dhcp" lan "limit" (dec (DHCPLimit cfg));
   Cmd "set" "dhcp" lan "leasetime" (DHCPLeasetime cfg);
   Cmd "delete" "dhcp" "@dnsmasq[0]" "server" "";
   Cmd "add_list" "dhcp" "@dnsmasq[0]" "server" (DNSPrimary cfg);
   Cmd "add_list" "dhcp" "@dnsmasq[0]" "server" (DNSSecondary cfg);
   Cmd "set" "firewall" "@defaults[0]" "syn_flood" (flag (FirewallSynFlood cfg));
   Cmd "set" "firewall" "@defaults[0]" "drop_invalid" (flag (FirewallDropInvalid cfg))] ++
  (if DPIEnabled cfg then [] else [Cmd "delete" "firewall" "@defaults[0]" "dpi_enabled" ""]) ++
  map (λ l, Cmd "ensure_host" "dhcp" (sl_Name l) (sl_MAC l) (sl_IP l)) (dec_array dec_lease zero_lease (DHCPReservations cfg)) ++
  concat (map forward_commands (dec_array dec_forward zero_forward (PortForwardingRules cfg))) ++
  sqm_commands cfg ++ portal_commands cfg ++
  (let wans := dec_array dec_wan zero_wan (WANInterfaces cfg) in
   if (2 <=? List.length wans)%nat then renderMwan3Commands wans else []))%list.

Definition render_role (dev : DeviceRoleInfo) : string := if di_Role dev =? "" then "AP" else di_Role dev.
Definition render_hostname (cfg : SiteConfig) (i : nat) (dev : DeviceRoleInfo) : string :=
  if negb (di_Hostname dev =? "") && negb (di_Hostname dev =? "UNKNOWN") then di_Hostname dev
  else HostnamePrefix cfg +:+ "-" +:+ render_role dev +:+ "-" +:+ dec (Z.of_nat i + 1).
Definition render_device (cfg : SiteConfig) (i : nat) (dev : DeviceRoleInfo) : RenderResult :=
  Rendered (di_DeviceID dev) (render_hostname cfg i dev) (render_role dev) (
    [Cmd "set" "system" "@system[0]" "hostname" (render_hostname cfg i dev);
     Cmd "set" "system" "@system[0]" "timezone" (Timezone cfg)] ++
    (if render_role dev =? "Gateway" then gateway_commands cfg (di_LogicalNetworks dev) else []) ++
    [Cmd "set" "dropbear" "@dropbear[0]" "Port" (dec (DropbearPort cfg));
     Cmd "set" "dropbear" "@dropbear[0]" "PasswordAuth" (if DropbearPasswordAuth cfg then "on" else "off")])%list.
(** [RenderSiteConfig] *)
Definition RenderSiteConfig (cfg : SiteConfig) (devices : list DeviceRoleInfo) : list RenderResult :=
  imap (render_device cfg) devices.
