(* ===== verification/RendererSpec.v ===== *)
(** What the renderer promises: which commands it renders for which role, and which
    of them the command translator accepts. *)

From S2P Require Import Prelude GoStrings Json Uci UciShell DeviceOperation Store Rollouts RolloutPlan Renderer.

(** ** Names *)

Lemma name_append a b : validUCIName a = true → str_forall name_char b = true → validUCIName (a +:+ b) = true.
Proof.
  unfold validUCIName. intros [Ha Hn]%andb_true_iff Hb. rewrite str_forall_app, Hn, Hb, andb_true_r.
  by destruct a.
Qed.
Lemma digit_char_name c : is_digit c = true → name_char c = true.
Proof. intros H. unfold name_char, is_alnum. by rewrite H, orb_true_r. Qed.
Lemma digits_go x s : str_forall is_digit s = true → str_forall is_digit (pretty_N_go x s) = true.
Proof.
  revert s. induction (N.lt_wf_0 x) as [x _ IH]. intros s Hs. destruct (decide (x = 0)%N) as [->|Hx]; [by rewrite pretty_N_go_0|].
  rewrite pretty_N_go_step by lia. apply IH; [apply N.div_lt; lia|].
  cbn [str_forall]. rewrite Hs, andb_true_r. unfold pretty_N_char.
  pose proof (N.mod_lt x 10 ltac:(lia)) as Hm. generalize dependent (x `mod` 10)%N. intros m Hm.
  assert (m ∈ [0; 1; 2; 3; 4; 5; 6; 7; 8; 9]%N) as Hin by (rewrite !elem_of_cons; lia).
  repeat (apply elem_of_cons in Hin as [->|Hin]; [reflexivity|]). by apply elem_of_nil in Hin.
Qed.
Lemma dec_name z : str_forall name_char (dec z) = true.
Proof.
  assert (∀ p, str_forall name_char (pretty (Npos p)) = true) as Hp.
  { intros p. apply (str_forall_impl is_digit); [apply digit_char_name|]. unfold pretty, pretty_N. case_decide; [done|].
    by apply digits_go. }
  destruct z as [|p|p]; [done|apply Hp|]. unfold dec, pretty. cbn. unfold pretty, pretty_positive. cbn. apply Hp.
Qed.

(** ** Commands the translator accepts *)

Definition applied (c : UciCommand) : Prop := translateCommand c ≠ "".
Lemma text_app_nonempty c a b : String c a +:+ b ≠ "".
Proof. done. Qed.

(** [set] and [add_list] of valid names, [delete] of an option. *)
Lemma set_applied config section option value :
  validUCIName config = true → validUCISection section = true → (option = "" ∨ validUCIName option = true) →
  applied (Cmd "set" config section option value).
Proof.
  intros Hc Hs Ho. unfold applied. change (SetOption config section option value ≠ ""). unfold SetOption.
  rewrite Hc, Hs. destruct Ho as [->|Ho]; [done|]. rewrite Ho, andb_false_r. cbn [negb orb]. by destruct (option =? "").
Qed.
Lemma add_list_applied config section option value :
  validUCIName config = true → validUCISection section = true → validUCIName option = true →
  applied (Cmd "add_list" config section option value).
Proof.
  intros Hc Hs Ho. unfold applied. change (AddList config section option value ≠ ""). unfold AddList. by rewrite Hc, Hs, Ho.
Qed.
Lemma delete_applied config section option value :
  validUCIName config = true → validUCISection section = true → validUCIName option = true →
  applied (Cmd "delete" config section option value).
Proof.
  intros Hc Hs Ho. unfold applied.
  assert (nonempty option = true) as Hn by (by unfold validUCIName in Ho; apply andb_true_iff in Ho as [? _]).
  change ((if nonempty option then DeleteOption config section option else Delete config section) ≠ "").
  rewrite Hn. unfold DeleteOption. by rewrite Hc, Hs, Ho.
Qed.
Ltac name_ok :=
  match goal with
  | H : ?P |- ?P => exact H
  | |- _ ∨ _ => first [left; reflexivity | right; vm_compute; reflexivity]
  | |- _ => vm_compute; reflexivity
  end.
Ltac applied :=
  match goal with
  | |- applied (Cmd "set" _ _ _ _) => apply set_applied
  | |- applied (Cmd "add_list" _ _ _ _) => apply add_list_applied
  | |- applied (Cmd "delete" _ _ _ _) => apply delete_applied
  end; name_ok.

Lemma name_section s : validUCIName s = true → validUCISection s = true.
Proof. intros H. destruct s as [|c s]; [done|]. unfold validUCISection. by destruct c as [[] [] [] [] [] [] [] []]. Qed.
Lemma sqm_section_name s : sqm_section_ok s = true → validUCIName s = true.
Proof.
  unfold sqm_section_ok, validUCIName. intros [Hn Hs]%andb_true_iff. rewrite Hn. revert Hs. apply str_forall_impl.
  intros c [Hc|Hc]%orb_true_iff; unfold name_char; [by rewrite Hc|]. apply orb_true_iff. right.
  unfold in_chars in *. cbn in *. rewrite orb_false_r in Hc. by rewrite Hc.
Qed.
Lemma member_name w : validUCIName (wi_IfaceName w) = true → validUCIName (wan_member w) = true.
Proof.
  intros H. unfold wan_member. apply name_append; [done|]. by rewrite !str_forall_app, !dec_name.
Qed.

(** ** The commands of a device *)

(** The names that come from the template and from the device. *)
Abbreviation wans cfg := (dec_array dec_wan zero_wan (WANInterfaces cfg)).
Definition wan_name_ok (w : WANInterface) : Prop := wi_IfaceName w = "" ∨ validUCIName (wi_IfaceName w) = true.
Definition names_ok (cfg : SiteConfig) (dev : DeviceRoleInfo) : Prop :=
  validUCISection (logicalNetworkSection (di_LogicalNetworks dev) "lan") = true ∧ Forall wan_name_ok (wans cfg).
(** The command that opens a port forwarding rule. *)
Definition redirect_add : UciCommand := Cmd "add" "firewall" "redirect" "" "".
(** A command is applied, or opens a rule, or is a lease. *)
Definition checked (c : UciCommand) : Prop :=
  applied c ∧ Action c ≠ "ensure_host" ∧ c ≠ redirect_add ∨ c = redirect_add ∨ Action c = "ensure_host".

Lemma checked_applied c : Action c ∈ ["set"; "add_list"; "delete"] → applied c → checked c.
Proof.
  intros Ha Hc. left. split; [done|]. rewrite !elem_of_cons, elem_of_nil in Ha.
  split; [intros He; rewrite He in Ha; naive_solver|]. intros ->. cbn in Ha. naive_solver.
Qed.
Lemma checked_concat {A} (f : A → list UciCommand) l :
  Forall (λ a, Forall checked (f a)) l → Forall checked (concat (map f l)).
Proof. induction 1; [constructor|]. cbn. by apply Forall_app. Qed.
(** A list of rendered commands, one by one. *)
Ltac commands :=
  repeat apply Forall_cons_2; try apply Forall_nil_2;
  try (apply checked_applied; [cbn [Action]; rewrite !elem_of_cons; tauto | applied]).

Lemma wan_commands_checked w : wan_name_ok w → Forall checked (wan_commands w).
Proof.
  unfold wan_commands. destruct (String.eqb_spec (wi_IfaceName w) "") as [|Hw]; [constructor|]. intros [|Hn]; [done|].
  pose proof (name_section _ Hn) as Hs. pose proof (name_section _ (member_name w Hn)) as Hm. commands.
Qed.
Lemma mwan3_checked cfg : Forall wan_name_ok (wans cfg) → Forall checked (renderMwan3Commands (wans cfg)).
Proof.
  intros Hw. unfold renderMwan3Commands. repeat apply Forall_app_2.
  - commands.
  - apply checked_concat. eapply Forall_impl; [exact Hw|]. apply wan_commands_checked.
  - commands.
  - apply Forall_map, Forall_forall. intros w _. commands.
  - commands.
Qed.
Lemma forward_checked pf : Forall checked (forward_commands pf).
Proof. apply Forall_cons_2; [by right; left|]. commands. Qed.
Lemma sqm_checked cfg : ValidateSQM cfg = Ok tt → Forall checked (sqm_commands cfg).
Proof.
  unfold ValidateSQM, sqm_commands. destruct (SQMCakeEnabled cfg); [|constructor]. cbn [negb].
  destruct (sqm_section_ok (SQMSection cfg)) eqn:Hs; [|done]. intros _.
  pose proof (name_section _ (sqm_section_name _ Hs)). commands.
Qed.
Lemma portal_checked cfg : Forall checked (portal_commands cfg).
Proof. unfold portal_commands. destruct (GuestPortalEnabled cfg); commands. Qed.
Lemma gateway_checked cfg dev : ValidateSQM cfg = Ok tt → names_ok cfg dev →
  Forall checked (gateway_commands cfg (di_LogicalNetworks dev)).
Proof.
  intros Hq [Hl Hw]. unfold gateway_commands. repeat apply Forall_app_2.
  - commands.
  - destruct (DPIEnabled cfg); commands.
  - apply Forall_map, Forall_forall. intros l _. by right; right.
  - apply checked_concat, Forall_forall. intros pf _. apply forward_checked.
  - by apply sqm_checked.
  - apply portal_checked.
  - destruct (2 <=? _)%nat; [by apply mwan3_checked|constructor].
Qed.

(** Of the commands that are rendered for a device whose names the validators
    accept, the translator refuses exactly the command that opens a port
    forwarding rule, whose type is in the wrong field, and leases that do not
    validate: nothing else in a template can make a rollout unbuildable, in
    particular no queue section or interface that passes [ValidateSQM]. *)
Theorem refused_commands (cfg : SiteConfig) (i : nat) (dev : DeviceRoleInfo) (c : UciCommand) :
  ValidateSQM cfg = Ok tt → names_ok cfg dev → c ∈ rr_Commands (render_device cfg i dev) →
  translateCommand c = "" ↔ c = redirect_add ∨ Action c = "ensure_host" ∧ ensureDHCPHost c = "".
Proof.
  intros Hq Hn Hc.
  assert (Forall checked (rr_Commands (render_device cfg i dev))) as Hall.
  { cbn [rr_Commands render_device]. repeat apply Forall_app_2.
    - commands.
    - destruct (_ =? "Gateway"); [by apply gateway_checked|constructor].
    - commands. }
  rewrite Forall_forall in Hall. destruct (Hall c Hc) as [(Ha & He & Hr)|[->|He]].
  - split; [done|]. naive_solver.
  - split; [by left|]. intros _. reflexivity.
  - assert (translateCommand c = ensureDHCPHost c) as -> by (unfold translateCommand; by rewrite He). split; [by right|].
    intros [->|[_ ?]]; [done|assumption].
Qed.
Definition sample_site : SiteConfig := {|
  SiteID := ""; EnableGlobalSSID := false; GlobalSSID := ""; GlobalWPAKey := ""; GlobalEncryption := "psk2";
  SecureTunnelEnabled := true; TailscaleEnabled := false; TailscaleAuthKey := ""; ThreatShieldEnabled := false;
  AllowPublicSurveys := false; BenchmarkBaseline := None; TopologyMetadata := None;
  LanIPAddr := "192.168.1.1"; LanNetmask := "255.255.255.0"; DHCPStart := 100; DHCPLimit := 150; DHCPLeasetime := "12h";
  DNSPrimary := "9.9.9.9"; DNSSecondary := "1.1.1.1"; Timezone := "UTC"; HostnamePrefix := "nerve";
  SQMCakeEnabled := true; SQMSection := "wan"; SQMInterface := "eth0.2"; SqmDownload := 90000; SqmUpload := 20000;
  DPIEnabled := false; FirewallSynFlood := true; FirewallDropInvalid := true; DropbearPort := 22;
  DropbearPasswordAuth := false; DHCPReservations := None;
  PortForwardingRules := Some (Some (JArr [JObj [("name", JStr "ssh"); ("src_port", JInt 2222); ("dest_port", JInt 22)]]));
  GuestPortalEnabled := false;
  WANInterfaces := Some (Some (JArr [JObj [("iface_name", JStr "wan")]; JObj [("iface_name", JStr "wwan"); ("tier", JInt 2)]]));
  HealthChecks := None |}.
Definition sample_gateway : DeviceRoleInfo := RoleInfo "gw-1" "UNKNOWN" "Gateway" ∅.
Lemma refused_commands_witness :
  redirect_add ∈ rr_Commands (render_device sample_site 0 sample_gateway) ∧ translateCommand redirect_add = "".
Proof.
  assert (redirect_add ∈ rr_Commands (render_device sample_site 0 sample_gateway)) as H.
  { apply (bool_decide_unpack _). vm_compute. exact I. }
  split; [exact H|]. apply (refused_commands sample_site 0 sample_gateway redirect_add); [vm_compute; reflexivity| |exact H|by left].
  split; [vm_compute; reflexivity|]. repeat apply Forall_cons_2; try apply Forall_nil_2; by right.
Defined.

(** ** Roles *)

(** The namespaces a device's commands are for. *)
Definition gateway_namespace (cfg : SiteConfig) (n : string) : Prop :=
  n ∈ ["network"; "dhcp"; "firewall"] ∨ n = "sqm" ∧ SQMCakeEnabled cfg = true ∨
  n = "opennds" ∧ GuestPortalEnabled cfg = true ∨ n = "mwan3" ∧ (2 ≤ List.length (wans cfg))%nat.
Definition namespaces_of (l : list UciCommand) : list string := map Config l.

Lemma namespaces_app a b n : n ∈ namespaces_of (a ++ b)%list ↔ n ∈ namespaces_of a ∨ n ∈ namespaces_of b.
Proof. unfold namespaces_of. by rewrite map_app, elem_of_app. Qed.
Lemma namespaces_within (l : list UciCommand) (allowed : list string) :
  Forall (λ c, Config c ∈ allowed) l → ∀ n, n ∈ namespaces_of l → n ∈ allowed.
Proof. intros H n (c & -> & Hc)%list_elem_of_fmap. rewrite Forall_forall in H. by apply H. Qed.
Lemma Forall_concat_map {A B} (P : B → Prop) (f : A → list B) l : (∀ a, Forall P (f a)) → Forall P (concat (map f l)).
Proof. intros H. induction l as [|a l IH]; [constructor|]. cbn. apply Forall_app_2; [apply H|apply IH]. Qed.
Ltac within := repeat apply Forall_cons_2; try apply Forall_nil_2; cbn; rewrite ?elem_of_cons; tauto.

Lemma wan_namespaces cfg n : n ∈ namespaces_of (renderMwan3Commands (wans cfg)) → n ∈ ["network"; "mwan3"].
Proof.
  apply namespaces_within. unfold renderMwan3Commands. repeat apply Forall_app_2; [within| |within| |within].
  - apply Forall_concat_map. intros w. unfold wan_commands. destruct (_ =? ""); [constructor|within].
  - apply Forall_map, Forall_forall. intros w _. cbn. rewrite !elem_of_cons. tauto.
Qed.
Lemma gateway_namespaces cfg networks n : n ∈ namespaces_of (gateway_commands cfg networks) ↔ gateway_namespace cfg n.
Proof.
  unfold gateway_commands, gateway_namespace. rewrite !namespaces_app.
  assert (n ∈ namespaces_of (if DPIEnabled cfg then [] else [Cmd "delete" "firewall" "@defaults[0]" "dpi_enabled" ""]) →
    n ∈ ["network"; "dhcp"; "firewall"]) as Hd.
  { apply namespaces_within. destruct (DPIEnabled cfg); within. }
  assert (n ∈ namespaces_of (map (λ l, Cmd "ensure_host" "dhcp" (sl_Name l) (sl_MAC l) (sl_IP l))
    (dec_array dec_lease zero_lease (DHCPReservations cfg))) → n ∈ ["network"; "dhcp"; "firewall"]) as Hl.
  { apply namespaces_within, Forall_map, Forall_forall. intros l _. within. }
  assert (n ∈ namespaces_of (concat (map forward_commands (dec_array dec_forward zero_forward (PortForwardingRules cfg)))) →
    n ∈ ["network"; "dhcp"; "firewall"]) as Hf.
  { apply namespaces_within, Forall_concat_map. intros pf. within. }
  assert (n ∈ namespaces_of (sqm_commands cfg) ↔ SQMCakeEnabled cfg = true ∧ n ∈ ["firewall"; "sqm"]) as ->.
  { unfold sqm_commands. destruct (SQMCakeEnabled cfg); cbn; rewrite ?elem_of_cons, ?elem_of_nil; naive_solver. }
  assert (n ∈ namespaces_of (portal_commands cfg) ↔ n = "opennds" ∧ GuestPortalEnabled cfg = true) as ->.
  { unfold portal_commands. destruct (GuestPortalEnabled cfg); cbn; rewrite ?elem_of_cons, ?elem_of_nil; naive_solver. }
  assert (n ∈ namespaces_of (if (2 <=? List.length (wans cfg))%nat then renderMwan3Commands (wans cfg) else []) ↔
    (2 ≤ List.length (wans cfg))%nat ∧ n ∈ namespaces_of (renderMwan3Commands (wans cfg))) as ->.
  { destruct (Nat.leb_spec 2 (List.length (wans cfg))); [tauto|]. cbn. rewrite elem_of_nil. split; [done|lia]. }
  assert ("mwan3" ∈ namespaces_of (renderMwan3Commands (wans cfg))) as Hm.
  { unfold renderMwan3Commands. rewrite namespaces_app. left. by left. }
  pose proof (wan_namespaces cfg n) as Hw. cbn [namespaces_of map Config] in *. rewrite !elem_of_cons, elem_of_nil in *.
  destruct (SQMCakeEnabled cfg), (GuestPortalEnabled cfg); intuition congruence.
Qed.

(** The namespaces of one device. *)
Lemma render_device_namespaces cfg i dev n :
  n ∈ namespaces_of (rr_Commands (render_device cfg i dev)) ↔
  n ∈ ["system"; "dropbear"] ∨ render_role dev = "Gateway" ∧ gateway_namespace cfg n.
Proof.
  cbn [rr_Commands render_device]. rewrite !namespaces_app.
  assert (n ∈ namespaces_of (if render_role dev =? "Gateway" then gateway_commands cfg (di_LogicalNetworks dev) else []) ↔
    render_role dev = "Gateway" ∧ gateway_namespace cfg n) as ->.
  { destruct (String.eqb_spec (render_role dev) "Gateway"); [rewrite gateway_namespaces; tauto|].
    cbn. rewrite elem_of_nil. tauto. }
  cbn [namespaces_of map Config]. rewrite !elem_of_cons, elem_of_nil. naive_solver.
Qed.

(** A template is rendered for the devices in their order, one result each; the
    namespaces a device's commands touch are exactly [system] and [dropbear], and
    for a gateway the network, DHCP and firewall, and those of the features that
    are enabled: shaping, guest portal, failover between two or more uplinks.  No
    role gets wireless commands. *)
Theorem render_scope (cfg : SiteConfig) (devices : list DeviceRoleInfo) :
  map rr_DeviceID (RenderSiteConfig cfg devices) = map di_DeviceID devices ∧
  ∀ result n, result ∈ RenderSiteConfig cfg devices →
    n ∈ namespaces_of (rr_Commands result) ↔
    n ∈ ["system"; "dropbear"] ∨ rr_Role result = "Gateway" ∧ gateway_namespace cfg n.
Proof.
  unfold RenderSiteConfig. split.
  { change (fmap rr_DeviceID (imap (render_device cfg) devices) = fmap di_DeviceID devices). rewrite fmap_imap. apply imap_const. }
  intros result n (i & dev & -> & _)%elem_of_lookup_imap_1. apply render_device_namespaces.
Qed.
Lemma render_scope_witness :
  let ap := RoleInfo "ap-1" "hall" "" ∅ in
  RenderSiteConfig sample_site [ap; sample_gateway] = [render_device sample_site 0 ap; render_device sample_site 1 sample_gateway] ∧
  "dhcp" ∉ namespaces_of (rr_Commands (render_device sample_site 0 ap)) ∧
  "mwan3" ∈ namespaces_of (rr_Commands (render_device sample_site 1 sample_gateway)).
Proof.
  intros ap. split; [reflexivity|].
  destruct (render_scope sample_site [ap; sample_gateway]) as [_ H]. split.
  - rewrite (H (render_device sample_site 0 ap) "dhcp") by (by left). rewrite !elem_of_cons, elem_of_nil.
    intros [[?|[?|?]]|[? _]]; discriminate || contradiction.
  - apply (H (render_device sample_site 1 sample_gateway) "mwan3"); [by right; left|]. right. split; [reflexivity|].
    right; right; right. split; [reflexivity|]. vm_compute. lia.
Defined.
