(* ===== verification/Orchestrator.v ===== *)
(** The effectful part of [internal/api/handlers/site_orchestrator.go]: the handler
    that applies a rollout draft ([SyncFleetHandler]), either by queueing change
    sets for the devices' agents or by running the draft's scripts over SSH, and
    the statements it uses.

    What the handler sees outside the database is an environment: a state with a
    clock, SSH sessions and backups, which the interface [Environment] describes.
    The texts of errors are those of the model ([error_text]), shorter than the
    formatted Go texts; the audit entries that embed one are, too. *)

From S2P Require Import Prelude GoStrings Json Uci DeviceOperation Store DeviceOperations ChangeSets Rollouts RolloutPlan.

Definition errRolloutDraftStale : gerror := ErrSentinel "rollout draft observed state is stale".
Definition errRolloutDraftTransport : gerror := ErrSentinel "rollout draft observed state could not be checked".
Definition errRolloutDeviceConflict : gerror := ErrSentinel "rollout device state is no longer current".
Definition errRolloutClaimLost : gerror := ErrSentinel "rollout claim is no longer current".

Fixpoint error_text (e : gerror) : string :=
  match e with
  | ErrSentinel text | ErrText text => text
  | ErrWrap inner text => text +:+ ": " +:+ error_text inner
  | ErrDriver => "driver error"
  end.

(** ** Statements of the handler *)

(** [assertRolloutClaim] *)
Definition assertRolloutClaim (rolloutID claimToken : string) : M unit :=
  let* status := query (λ t,
    let! id := uuid_param rolloutID in
    Ok (r ← rollout_runs t !! id; if bool_decide (r_claim_token r = Some claimToken) then Some (r_status r) else None)) in
  match status with
  | None => mfail errRolloutClaimLost
  | Some status => lift (fail_if (negb (status =? "RUNNING")) errRolloutClaimLost)
  end.

(** A device that a rollout may take: nothing queued, not in a rollout, no recovery
    asked for. *)
Definition free_device (d : device_row) : bool :=
  bool_decide (d_pending_operation d = None) && bool_decide (d_pending_change_set d = None) &&
  negb (coalesce (d_rollout_status d) "" =? "RUNNING") &&
  negb (coalesce (col_text "state" (d_last_operation d)) "" =? "RECOVERY_REQUIRED") &&
  negb (coalesce (col_text "state" (d_last_change_set d)) "" =? "RECOVERY_REQUIRED").
(** [UPDATE devices SET last_rollout_status ... WHERE site_id AND id AND p]. *)
Definition update_device_status (now : Z) (siteID deviceID status : string) (p : device_row → bool) : M nat :=
  statement (λ t,
    let! site := uuid_param siteID in
    match devices t !! deviceID with
    | Some d =>
        if bool_decide (d_site_id d = Some site) && p d
        then Ok (1%nat, set_devices <[deviceID := set_rollout_status status now d]> t)
        else Ok (0%nat, t)
    | None => Ok (0%nat, t)
    end).

Definition device_conflict : gerror :=
  ErrWrap errRolloutDeviceConflict "device changed role, is already in a rollout, or has a pending operation".
Fixpoint mark_devices (now : Z) (siteID : string) (devices : list rolloutDraftDevice) : M unit :=
  match devices with
  | [] => mret tt
  | device :: devices =>
      let* affected := update_device_status now siteID (dd_DeviceID device) "RUNNING"
        (λ d, free_device d && (coalesce (d_device_role d) "AP" =? dd_Role device)) in
      let* _ := one_row device_conflict affected in
      mark_devices now siteID devices
  end.
(** [markRolloutDevicesRunning]; without devices in the draft, every free device of
    the site is taken. *)
Definition markRolloutDevicesRunning (now : Z) (siteID rolloutID claimToken : string) (devices : list rolloutDraftDevice)
    : M unit :=
  transaction (
    let* _ := assertRolloutClaim rolloutID claimToken in
    match devices with
    | [] => statement (λ t,
        let! site := uuid_param siteID in
        Ok (tt, set_devices (update_where (λ d, bool_decide (d_site_id d = Some site) && free_device d)
                               (set_rollout_status "RUNNING" now)) t))
    | _ => mark_devices now siteID devices
    end).

Definition persisted_status (status : string) : string :=
  if rolloutResultSuccess status then "SUCCESS"
  else if status =? "ABORTED" then "ABORTED"
  else if status =? "STALE" then "STALE"
  else "FAILED".
Fixpoint persist_devices (now : Z) (siteID : string) (results : list fleetSyncResult) : M unit :=
  match results with
  | [] => mret tt
  | result :: results =>
      let* affected := update_device_status now siteID (fr_DeviceID result) (persisted_status (fr_Status result))
        (λ d, bool_decide (d_rollout_status d = Some "RUNNING")) in
      let* _ := one_row (ErrText "device rollout status is no longer current") affected in
      persist_devices now siteID results
  end.
(** [UPDATE rollout_runs SET status, results, claim_token = NULL WHERE id AND status
    = 'RUNNING' AND claim_token]. *)
Definition close_rollout (now : Z) (rolloutID claimToken status : string) (results : list fleetSyncResult) : M nat :=
  statement (λ t,
    let! encoded := jsonb_param (json_coerce (JArr (map sync_result_json (stripFleetSyncOutput results)))) in
    let! id := uuid_param rolloutID in
    match rollout_runs t !! id with
    | Some r =>
        if held_by claimToken r then Ok (1%nat, set_rollouts <[id := set_results status None encoded now r]> t)
        else Ok (0%nat, t)
    | None => Ok (0%nat, t)
    end).
(** [persistRolloutResults] *)
Definition persistRolloutResults (now : Z) (siteID rolloutID claimToken status : string) (results : list fleetSyncResult)
    : M unit :=
  transaction (
    let* _ := assertRolloutClaim rolloutID claimToken in
    let* _ := persist_devices now siteID results in
    let* affected := close_rollout now rolloutID claimToken status results in
    one_row errRolloutClaimLost affected).
(** [markRolloutPersistenceFailure] *)
Definition persistence_failure (cause : gerror) : fleetSyncResult :=
  SyncResult "" "" "" "FAILED" "" "" (boundedRolloutDiagnostic ("rollout result persistence failed: " +:+ error_text cause))
    0 "" "" 0.
Definition markRolloutPersistenceFailure (now : Z) (siteID rolloutID claimToken : string) (results : list fleetSyncResult)
    (cause : gerror) : M unit :=
  transaction (
    let* _ := statement (λ t,
      let! site := uuid_param siteID in Ok (tt, set_devices (fail_running_devices now site) t)) in
    let* affected := close_rollout now rolloutID claimToken "FAILED" (results ++ [persistence_failure cause]) in
    one_row errRolloutClaimLost affected).

(** [verifyRolloutDraftTargets] *)
Definition target_row (siteID deviceID : string) : M (option (string * option json * option json)) :=
  query (λ t,
    let! site := uuid_param siteID in
    Ok (d ← devices t !! deviceID;
        if bool_decide (d_site_id d = Some site) &&
           negb (coalesce (col_text "state" (d_last_operation d)) "" =? "RECOVERY_REQUIRED") &&
           negb (coalesce (col_text "state" (d_last_change_set d)) "" =? "RECOVERY_REQUIRED")
        then Some (coalesce (d_device_role d) "AP", d_pending_operation d, d_pending_change_set d) else None)).
Fixpoint verify_targets (siteID : string) (devices : list rolloutDraftDevice) : M unit :=
  match devices with
  | [] => mret tt
  | device :: devices =>
      mtry (target_row siteID (dd_DeviceID device)) (λ r,
        match r with
        | Err _ => mfail (ErrWrap errRolloutDraftTransport "could not validate device")
        | Ok None => mfail (ErrWrap errRolloutDraftStale "device role changed or is no longer in site")
        | Ok (Some (role, pendingOperation, pendingChangeSet)) =>
            let* _ := lift (fail_if (negb (role =? dd_Role device)) (ErrWrap errRolloutDraftStale "device role changed")) in
            let* _ := lift (fail_if (bool_decide (is_Some (not_null pendingOperation)))
                                    (ErrWrap errRolloutDraftStale "device has a pending typed operation")) in
            let* _ := lift (fail_if (bool_decide (is_Some (not_null pendingChangeSet)))
                                    (ErrWrap errRolloutDraftStale "device has a pending changeset")) in
            verify_targets siteID devices
        end)
  end.
Definition verifyRolloutDraftTargets (schema siteID : string) (draft : rolloutDraft) : M unit :=
  match SafeSchemaIdent schema with
  | Err _ => mfail (ErrWrap errRolloutDraftTransport "invalid tenant schema")
  | Ok _ => verify_targets siteID (draft_device_list draft)
  end.

(** ** The environment *)

(** The error of an SSH session: an exit status, or anything else. *)
Inductive ssh_error :=
  | ExitStatus (status : Z) (text : string)
  | SessionError (text : string).
Definition ssh_error_text (e : ssh_error) : string :=
  match e with ExitStatus _ text | SessionError text => text end.

(** [run_command] and [run_script] are an SSH session with a device of the site
    ([runSSHCommandForSite], [runSSHScriptForSite]), [create_backup] is
    [services.CreateBackupForSite], [uuid_parse] is [uuid.Parse] followed by
    [String], and [clock] the database's time, which does not go back. *)
Class Environment (E : Type) := {
  clock : E → Z;
  run_command : string → string → E → (string * option ssh_error) * E;
  run_script : string → string → E → (string * option ssh_error) * E;
  create_backup : string → E → option string * E;
  uuid_parse : string → option string;
  command_time : ∀ device command e, (clock e ≤ clock (run_command device command e).2)%Z;
  script_time : ∀ device script e, (clock e ≤ clock (run_script device script e).2)%Z;
  backup_time : ∀ device e, (clock e ≤ clock (create_backup device e).2)%Z
}.

(** ** Responses *)

Inductive reply :=
  | ReplyError (text : string)
  | ReplyQueued (rolloutID : string) (generation : Z) (deviceID changeSetID planHash : string) (deviceGeneration : Z)
  | ReplyFleetQueued (status rolloutID : string) (generation : Z) (targets : list string) (changesets : list fleetSyncResult)
  | ReplyFinished (error : option string) (status rolloutID : string) (generation : Z) (target : string)
      (successes failures : nat) (results : list fleetSyncResult).
Record response := Http { code : Z; body : reply }.
Definition http_error (code : Z) (text : string) : response := Http code (ReplyError text).

Section handler.
Context {E : Type} {environment : Environment E}.

(** A handler acts on the environment and the database; [db] runs a database
    operation at the present time. *)
Definition H (A : Type) := E * world → A * (E * world).
Definition hret {A} (a : A) : H A := λ s, (a, s).
Definition hbind {A B} (m : H A) (k : A → H B) : H B := λ s, let '(a, s) := m s in k a s.
Definition db {A} (m : Z → M A) : H (res A) := λ '(e, w), let '(r, w) := m (clock e) w in (r, (e, w)).
Definition env {A} (f : E → A * E) : H A := λ '(e, w), let '(a, e) := f e in (a, (e, w)).
Local Notation "'let@' x ':=' m 'in' k" := (hbind m (fun x => k))
  (at level 10, x name, m at level 100, k at level 200).

(** The request: the path, the query, the body (which may be absent or malformed),
    the user, the address and the tenant schema of the session. *)
Record request := Request {
  q_siteID : string;
  q_rollout_id : string;
  q_body : option raw_message;
  q_username : string;
  q_remote : string;
  q_tenant : string
}.
Context (r : request).
(** The claim token and the uuids that the database generates. *)
Context (token : string).

Notation siteID := (q_siteID r).

(** [getTenantSchema] *)
Definition getTenantSchema : res string :=
  SafeSchemaIdent (if q_tenant r =? "" then "public" else q_tenant r).
(** [validateRolloutID] and [requestedRolloutID] *)
Definition validateRolloutID (rolloutID : string) : res string :=
  match uuid_parse rolloutID with Some id => Ok id | None => Err (ErrText "invalid rollout_id") end.
Definition requestedRolloutID : res string :=
  let id := trim_space (q_rollout_id r) in
  if negb (id =? "") then validateRolloutID id
  else match q_body r with
       | None => Err (ErrText "rollout_id is required")
       | Some raw =>
           match unmarshal (dec_struct [("rollout_id", dec_string)]) "" raw with
           | None => Err (ErrText "invalid rollout request")
           | Some id =>
               let id := trim_space id in
               if id =? "" then Err (ErrText "rollout_id is required") else validateRolloutID id
           end
       end.

(** [auditRolloutEvent] *)
Definition auditRolloutEvent (action payload : string) : H (res unit) :=
  db (λ _, InsertAuditLogContext (q_username r) action "SITE" siteID payload (q_remote r)).
Definition audit_or (action payload : string) (answer : response) : H response :=
  let@ audited := auditRolloutEvent action payload in
  hret (match audited with
        | Ok _ => answer
        | Err _ => http_error 503 "could not record rollout audit event"
        end).

(** [rejectUnexecutableRolloutDraft] and the response that follows it. *)
Definition rejectUnexecutableRolloutDraft (schema rolloutID : string) (reason : gerror) : H unit :=
  let@ _ := db (λ now, RejectRolloutDraft now schema siteID rolloutID (error_text reason)) in
  let@ _ := auditRolloutEvent "SITE_ORCHESTRATOR_ROLLOUT_REJECTED"
              ("Rejected rollout " +:+ rolloutID +:+ ": " +:+ error_text reason) in
  hret tt.
Definition reject_with (schema rolloutID : string) (reason : gerror) (answer : response) : H response :=
  let@ _ := rejectUnexecutableRolloutDraft schema rolloutID reason in hret answer.
Definition conflict (e : gerror) : response := http_error 409 (error_text e).

(** [handleRolloutDraftValidationFailure] *)
Definition handleRolloutDraftValidationFailure (schema rolloutID claimToken : string) (e : gerror) : H response :=
  if errors_is e errRolloutDraftTransport then
    let@ _ := db (λ now, ReleaseRolloutDraft now schema siteID rolloutID claimToken) in
    audit_or "SITE_ORCHESTRATOR_ROLLOUT_RETRYABLE_FAILURE"
      ("Rollout " +:+ rolloutID +:+ " could not validate observed state: " +:+ error_text e)
      (http_error 502 (error_text e))
  else
    let@ _ := db (λ now, MarkRolloutDraftStale now schema siteID rolloutID claimToken) in
    audit_or "SITE_ORCHESTRATOR_ROLLOUT_STALE" ("Rollout " +:+ rolloutID +:+ " rejected: " +:+ error_text e) (conflict e).

(** *** Change sets *)

(** The canary phase of the draft's devices. *)
Definition first_phase (draft : rolloutDraft) : list nat := hd [] (sequentialFleetRolloutPhases (rolloutResultsFromDraft draft)).
Definition fleet_results (draft : rolloutDraft) (changeSets : list DeviceChangeSet) : list fleetSyncResult :=
  imap (λ i p, queued_result p.1 p.2 (bool_decide (i ∈ first_phase draft))) (zip (draft_device_list draft) changeSets).
Definition fleet_items (draft : rolloutDraft) (changeSets : list DeviceChangeSet) : list DeviceChangeSetQueueItem :=
  concat (imap (λ i p, if bool_decide (i ∈ first_phase draft)
                       then [QueueItem (dd_Role p.1) (Some (change_set_json p.2))] else [])
               (zip (draft_device_list draft) changeSets)).
Definition with_generation (generations : gmap string Z) (result : fleetSyncResult) : fleetSyncResult :=
  SyncResult (fr_DeviceID result) (fr_Hostname result) (fr_Role result) (fr_Status result) (fr_ChangeSetState result)
    (fr_Output result) (fr_Error result) (fr_CmdCount result) (fr_ChangeSetID result) (fr_PlanHash result)
    (default 0%Z (generations !! fr_DeviceID result)).
Definition results_document (results : list fleetSyncResult) : json := json_coerce (JArr (map sync_result_json results)).

Fixpoint existing_results (record : RolloutDraftRecord) (required : string) (changeSets : list DeviceChangeSet)
    : res (list fleetSyncResult) :=
  match changeSets with
  | [] => Ok []
  | changeSet :: changeSets =>
      match existingChangeSetResult record changeSet required with
      | None => Err (ErrText "rollout is already queued with a different changeset for device")
      | Some result => let! rest := existing_results record required changeSets in Ok (result :: rest)
      end
  end.
Definition fleet_reply (record : RolloutDraftRecord) (changeSets : list DeviceChangeSet) (rolloutID : string)
    (results : list fleetSyncResult) : reply :=
  ReplyFleetQueued (to_lower (if rd_Status record =? "DRAFT" then "QUEUED" else rd_Status record)) rolloutID
    (rd_Generation record) (map cs_DeviceID changeSets) results.
(** [queueFleetDeviceChangeSets] *)
Definition queueFleetDeviceChangeSets (schema rolloutID : string) (record : RolloutDraftRecord) (draft : rolloutDraft)
    : H (res reply) :=
  match buildFleetDeviceChangeSets rolloutID draft with
  | Err e => hret (Err e)
  | Ok changeSets =>
      if text_in (rd_Status record) ["QUEUED"; "completed"; "failed"] then
        hret (let! results := existing_results record (if rd_Status record =? "QUEUED" then "" else "TERMINAL") changeSets in
              Ok (fleet_reply record changeSets rolloutID results))
      else
        let queued := fleet_results draft changeSets in
        let@ generations := db (λ now, ClaimAndQueueDeviceChangeSets now token schema siteID rolloutID
          (fleet_items draft changeSets) (Some (results_document queued)) (q_username r) (q_remote r)) in
        hret (let! generations := generations in
              Ok (fleet_reply record changeSets rolloutID (map (with_generation generations) queued)))
  end.

Definition queued_reply (rolloutID : string) (record : RolloutDraftRecord) (changeSet : DeviceChangeSet)
    (deviceGeneration : Z) : response :=
  Http 202 (ReplyQueued rolloutID (rd_Generation record) (cs_DeviceID changeSet) (cs_ChangeSetID changeSet)
              (cs_PlanHash changeSet) deviceGeneration).

(** The part of [SyncFleetHandler] for one device with a namespace. *)
Definition sync_single (schema rolloutID : string) (record : RolloutDraftRecord) (draft : rolloutDraft)
    (device : rolloutDraftDevice) : H response :=
  match buildSingleDeviceChangeSet rolloutID draft with
  | Err e => reject_with schema rolloutID e (conflict e)
  | Ok changeSet =>
      if rd_Status record =? "QUEUED" then
        hret (match queuedChangeSetResult record changeSet with
              | Some result => queued_reply rolloutID record changeSet (fr_DeviceGeneration result)
              | None => http_error 409 "rollout is already queued with a different changeset"
              end)
      else
        let@ queued := db (λ now, ClaimAndQueueDeviceChangeSet now token schema siteID rolloutID (dd_Role device)
          (Some (change_set_json changeSet)) (Some (results_document [queued_result device changeSet true]))
          (q_username r) (q_remote r)) in
        match queued with
        | Ok generation => hret (queued_reply rolloutID record changeSet generation)
        | Err e =>
            if errors_is e ErrDeviceChangeSetCapability then
              reject_with schema rolloutID e (http_error 409 "target device does not support DeviceChangeSet delivery")
            else if errors_is e ErrRolloutDraftNotAvailable then
              let@ retry := db (λ _, GetRolloutDraft schema siteID rolloutID) in
              hret (match retry with
                    | Ok retry =>
                        if rd_Status retry =? "QUEUED" then
                          match queuedChangeSetResult retry changeSet with
                          | Some result => queued_reply rolloutID retry changeSet (fr_DeviceGeneration result)
                          | None => http_error 409 "rollout draft is no longer available"
                          end
                        else http_error 409 "rollout draft is no longer available"
                    | Err _ => http_error 409 "rollout draft is no longer available"
                    end)
            else hret (http_error 409 "could not queue changeset")
        end
  end.
Definition sync_fleet_change_sets (schema rolloutID : string) (record : RolloutDraftRecord) (draft : rolloutDraft)
    : H response :=
  let@ queued := queueFleetDeviceChangeSets schema rolloutID record draft in
  match queued with
  | Ok reply => hret (Http 202 reply)
  | Err e =>
      if errors_is e ErrDeviceChangeSetCapability then
        reject_with schema rolloutID e (http_error 409 "one or more target devices do not support DeviceChangeSet delivery")
      else hret (conflict e)
  end.

(** *** Scripts over SSH *)

(** [verifyRolloutDraftObservedState] *)
Fixpoint verify_configs (deviceID : string) (state : gmap string string) (configs : list string) : H (res unit) :=
  match configs with
  | [] => hret (Ok tt)
  | config :: configs =>
      let expected := default "" (state !! config) in
      if expected =? "" then hret (Err (ErrWrap errRolloutDraftStale "no observed hash"))
      else
        let@ observed := env (run_command deviceID ("uci show " +:+ config +:+ " 2>&1")) in
        match observed with
        | (_, Some e) => hret (Err (ErrWrap errRolloutDraftTransport (ssh_error_text e)))
        | (output, None) =>
            if observedStateHash output =? expected then verify_configs deviceID state configs
            else hret (Err (ErrWrap errRolloutDraftStale "device config"))
        end
  end.
Fixpoint verify_devices (devices : list rolloutDraftDevice) : H (res unit) :=
  match devices with
  | [] => hret (Ok tt)
  | device :: devices =>
      let state := default ∅ (dd_ObservedState device) in
      let@ verified := verify_configs (dd_DeviceID device) state (sortedConfigNames state) in
      match verified with
      | Ok _ => verify_devices devices
      | Err e => hret (Err e)
      end
  end.
Definition verifyRolloutDraftObservedState (draft : rolloutDraft) : H (res unit) := verify_devices (draft_device_list draft).

(** The backups of the devices that have commands; the first failure stops. *)
Fixpoint backup_devices (results : list RenderResult) : H (option string) :=
  match results with
  | [] => hret None
  | result :: results =>
      if bool_decide (rr_Commands result = []) then backup_devices results
      else
        let@ failed := env (create_backup (rr_DeviceID result)) in
        match failed with
        | Some e => hret (Some e)
        | None => backup_devices results
        end
  end.

(** One device of [executeBatch]: its scripts in the order of their names, until
    one fails. *)
Definition set_result (rr : RenderResult) (status output error : string) : fleetSyncResult :=
  SyncResult (rr_DeviceID rr) (rr_Hostname rr) (rr_Role rr) status "" output error
    (Z.of_nat (List.length (rr_Commands rr))) "" "" 0.
Fixpoint run_scripts (rr : RenderResult) (scripts : gmap string string) (names : list string) (allOutput : string)
    : H fleetSyncResult :=
  match names with
  | [] => hret (set_result rr "SUCCESS" (boundedRolloutDiagnostic allOutput) "")
  | cfg :: names =>
      let script := default "" (scripts !! cfg) in
      if script =? "" then
        hret (set_result rr "FAILED" (boundedRolloutDiagnostic allOutput)
                (boundedRolloutDiagnostic ("missing immutable rollout script for config " +:+ cfg)))
      else
        let@ ran := env (run_script (rr_DeviceID rr) script) in
        let '(out, failed) := ran in
        let allOutput := allOutput +:+ out +:+ nl in
        match failed with
        | Some e =>
            let status := match e with ExitStatus 75 _ => "STALE" | _ => "FAILED" end in
            hret (set_result rr status (boundedRolloutDiagnostic allOutput)
                    (boundedRolloutDiagnostic ("config namespace " +:+ cfg +:+ ": " +:+ ssh_error_text e +:+ nl +:+ out)))
        | None => run_scripts rr scripts names allOutput
        end
  end.
Definition execute_device (draft : rolloutDraft) (rr : RenderResult) (idx : nat) : H fleetSyncResult :=
  if bool_decide (rr_Commands rr = []) then hret (set_result rr "SKIPPED" "No commands to execute" "")
  else
    let scripts := match nth_error (draft_device_list draft) idx with Some d => default ∅ (dd_Scripts d) | None => ∅ end in
    run_scripts rr scripts (sortedConfigNames (groupCommandsByConfig (rr_Commands rr))) "".

(** [executeBatch]: the devices of one phase, each writing its own result.  The
    workers of a phase run at once; the phases in use have one device each. *)
Fixpoint executeBatch (draft : rolloutDraft) (results : list RenderResult) (indices : list nat)
    (syncResults : list fleetSyncResult) : H (list fleetSyncResult) :=
  match indices with
  | [] => hret syncResults
  | idx :: indices =>
      let@ sr := execute_device draft (nth idx results zero_rendered) idx in
      executeBatch draft results indices (<[idx := sr]> syncResults)
  end.

Definition status_at (syncResults : list fleetSyncResult) (phase : list nat) : string :=
  fr_Status (nth (hd 0 phase) syncResults zero_sync_result).
Definition abort_result (error : string) (rr : RenderResult) : fleetSyncResult := set_result rr "ABORTED" "" error.
Definition abort_all (results : list RenderResult) (error : string) (indices : list nat)
    (syncResults : list fleetSyncResult) : list fleetSyncResult :=
  fold_left (λ acc idx, <[idx := abort_result error (nth idx results zero_rendered)]> acc) indices syncResults.
Definition abort_unstarted (results : list RenderResult) (error : string) (indices : list nat)
    (syncResults : list fleetSyncResult) : list fleetSyncResult :=
  fold_left (λ acc idx,
    if fr_Status (nth idx acc zero_sync_result) =? ""
    then <[idx := abort_result error (nth idx results zero_rendered)]> acc else acc) indices syncResults.
Definition stop_status (failed_status other : string) : string := if failed_status =? "STALE" then "STALE" else other.

(** The phases after the canary. *)
Fixpoint run_phases (draft : rolloutDraft) (results : list RenderResult) (later : list nat) (phases : list (list nat))
    (syncResults : list fleetSyncResult) : H (string * list fleetSyncResult) :=
  match phases with
  | [] => hret ("completed", syncResults)
  | phase :: phases =>
      let@ syncResults := executeBatch draft results phase syncResults in
      let status := status_at syncResults phase in
      if rolloutResultSuccess status then run_phases draft results later phases syncResults
      else hret (stop_status status "aborted",
                 abort_unstarted results "previous device failed; rollout not started" later syncResults)
  end.
Definition rollout_phases (count : nat) : list (list nat) :=
  if fleetSyncSequential then orderedFleetRolloutPhases count else fleetRolloutPhases count.
Definition execute_rollout (draft : rolloutDraft) (results : list RenderResult) : H (string * list fleetSyncResult) :=
  let phases := rollout_phases (List.length results) in
  let canary := hd [] phases in
  let@ syncResults := executeBatch draft results canary (replicate (List.length results) zero_sync_result) in
  let status := status_at syncResults canary in
  if rolloutResultSuccess status then run_phases draft results (concat (tl phases)) (tl phases) syncResults
  else hret (stop_status status "canary_failed",
             abort_all results "canary failed; rollout not started" (concat (tl phases)) syncResults).

(** What follows the execution: persist, audit, answer. *)
Definition finished (rolloutID : string) (record : RolloutDraftRecord) (draft : rolloutDraft) (status : string)
    (syncResults : list fleetSyncResult) (error : option string) : reply :=
  let ok := List.length (filter (λ sr, rolloutResultSuccess (fr_Status sr) = true) syncResults) in
  ReplyFinished error status rolloutID (rd_Generation record) (dr_TargetDeviceID draft) ok
    (List.length syncResults - ok) syncResults.
Definition finish_rollout (rolloutID : string) (record : RolloutDraftRecord) (draft : rolloutDraft) (status : string)
    (syncResults : list fleetSyncResult) : H response :=
  let answer := finished rolloutID record draft status syncResults in
  let successes := List.length (filter (λ sr, rolloutResultSuccess (fr_Status sr) = true) syncResults) in
  let@ persisted := db (λ now, persistRolloutResults now siteID rolloutID (rd_ClaimToken record) status syncResults) in
  match persisted with
  | Err cause =>
      let@ _ := db (λ now, markRolloutPersistenceFailure now siteID rolloutID (rd_ClaimToken record) syncResults cause) in
      hret (http_error 500 "could not persist rollout results")
  | Ok _ =>
      let@ audited := auditRolloutEvent "SITE_ORCHESTRATOR_FLEET_SYNC"
        ("Fleet sync: " +:+ dec (Z.of_nat successes) +:+ " success, " +:+
         dec (Z.of_nat (List.length syncResults - successes)) +:+ " failed, rollout: " +:+ rolloutID) in
      hret (match audited with
            | Err _ => Http 500 (answer (Some "rollout completed but audit persistence failed"))
            | Ok _ => if status =? "STALE" then Http 409 (answer (Some "rollout draft became stale during execution"))
                      else Http 200 (answer None)
            end)
  end.
(** From the marked devices on. *)
Definition mark_and_execute (schema rolloutID : string) (record : RolloutDraftRecord) (draft : rolloutDraft)
    (results : list RenderResult) : H response :=
  let@ marked := db (λ now, markRolloutDevicesRunning now siteID rolloutID (rd_ClaimToken record) (draft_device_list draft)) in
  match marked with
  | Ok _ =>
      let@ executed := execute_rollout draft results in
      finish_rollout rolloutID record draft executed.1 executed.2
  | Err e =>
      if errors_is e errRolloutDeviceConflict || errors_is e errRolloutClaimLost then
        let@ _ := db (λ now, MarkRolloutDraftStale now schema siteID rolloutID (rd_ClaimToken record)) in
        audit_or "SITE_ORCHESTRATOR_ROLLOUT_STALE"
          ("Rollout " +:+ rolloutID +:+ " rejected because a target device changed state")
          (http_error 409 "a target device changed state; rollout draft is stale")
      else
        let@ _ := db (λ now, ReleaseRolloutDraft now schema siteID rolloutID (rd_ClaimToken record)) in
        audit_or "SITE_ORCHESTRATOR_ROLLOUT_DEVICE_STATE_FAILED"
          ("Rollout " +:+ rolloutID +:+ " could not mark target devices: " +:+ error_text e)
          (http_error 500 "could not mark target devices for rollout")
  end.
(** The claimed draft: check, back up, check again. *)
Definition run_claimed (schema rolloutID : string) (record : RolloutDraftRecord) (draft : rolloutDraft)
    (results : list RenderResult) : H response :=
  let@ verified := verifyRolloutDraftObservedState draft in
  match verified with
  | Err e => handleRolloutDraftValidationFailure schema rolloutID (rd_ClaimToken record) e
  | Ok _ =>
      let@ backup := backup_devices results in
      match backup with
      | Some e =>
          let@ _ := db (λ now, ReleaseRolloutDraft now schema siteID rolloutID (rd_ClaimToken record)) in
          audit_or "SITE_ORCHESTRATOR_ROLLOUT_BACKUP_FAILED" ("Rollout " +:+ rolloutID +:+ " backup failed: " +:+ e)
            (http_error 503 "pre-change backup failed; rollout was not applied")
      | None =>
          let@ verified := verifyRolloutDraftObservedState draft in
          match verified with
          | Err e => handleRolloutDraftValidationFailure schema rolloutID (rd_ClaimToken record) e
          | Ok _ => mark_and_execute schema rolloutID record draft results
          end
      end
  end.
Definition sync_scripts (schema rolloutID : string) (draft : rolloutDraft) (results : list RenderResult) : H response :=
  let@ targets := db (λ _, verifyRolloutDraftTargets schema siteID draft) in
  match targets with
  | Err e => handleRolloutDraftValidationFailure schema rolloutID "" e
  | Ok _ =>
      let@ claimed := db (λ now, ClaimRolloutDraft now token schema siteID rolloutID) in
      match claimed with
      | Err e =>
          hret (if errors_is e ErrRolloutDraftNotAvailable then http_error 409 "rollout draft is no longer available"
                else http_error 500 "could not claim rollout draft")
      | Ok record =>
          let@ audited := auditRolloutEvent "SITE_ORCHESTRATOR_ROLLOUT_START"
            ("Claimed rollout draft " +:+ rolloutID +:+ " rollout sequence " +:+ dec (rd_Generation record) +:+
             " plan_hash " +:+ rd_PlanHash record) in
          match audited with
          | Err _ =>
              let@ _ := db (λ now, ReleaseRolloutDraft now schema siteID rolloutID (rd_ClaimToken record)) in
              hret (http_error 503 "could not record rollout audit event; rollout was not applied")
          | Ok _ => run_claimed schema rolloutID record draft results
          end
      end
  end.

(** [SyncFleetHandler], from the loaded record on. *)
Definition sync_draft (schema rolloutID : string) (record : RolloutDraftRecord) : H response :=
  match decodeRolloutDraft record with
  | Err e => reject_with schema rolloutID e (conflict e)
  | Ok draft =>
      let results := rolloutResultsFromDraft draft in
      match results with
      | [] => let reason := ErrText "rollout draft contains no devices" in reject_with schema rolloutID reason (conflict reason)
      | _ =>
          match rejectUnsafeNetworkMutations results with
          | Err e => reject_with schema rolloutID e (conflict e)
          | Ok _ =>
              if dr_Namespace draft =? "" then sync_scripts schema rolloutID draft results
              else match draft_device_list draft with
                   | [device] => sync_single schema rolloutID record draft device
                   | _ => sync_fleet_change_sets schema rolloutID record draft
                   end
          end
      end
  end.
Definition SyncFleetHandler : H response :=
  match requestedRolloutID with
  | Err e => hret (http_error 400 (error_text e))
  | Ok rolloutID =>
      match getTenantSchema with
      | Err _ => hret (http_error 500 "invalid tenant context")
      | Ok schema =>
          let@ loaded := db (λ _, GetRolloutDraft schema siteID rolloutID) in
          match loaded with
          | Err e =>
              hret (if errors_is e ErrRolloutDraftNotFound then http_error 404 "rollout draft was not found"
                    else http_error 500 "could not load rollout draft")
          | Ok record => sync_draft schema rolloutID record
          end
      end
  end.
End handler.
