(* ===== verification/Preview.v ===== *)
(** The previews of [internal/api/handlers/site_orchestrator.go]: the handler that
    renders a site's template for its devices, compares it with what the devices
    report, and stores the result as a rollout draft; and the previews that a
    stored draft shows. *)

From S2P Require Import Prelude GoStrings Json Uci DeviceOperation Store DeviceOperations ChangeSets Rollouts UciState RolloutPlan Renderer Orchestrator.

(** ** Previews of a draft *)

(** [rolloutDevicePreview]; its [Count] is the number of its commands. *)
Record rolloutDevicePreview := DevicePreview {
  dp_DeviceID : string;
  dp_Hostname : string;
  dp_Role : string;
  dp_Commands : list string;
  dp_Scripts : gmap string string;
  dp_ObservedState : gmap string string
}.
Definition dp_Count (p : rolloutDevicePreview) : nat := List.length (dp_Commands p).

(** [copyStringMap]: a nil map is copied to an empty one. *)
Definition copyStringMap (values : option (gmap string string)) : gmap string string := default ∅ values.
(** [rolloutDevicePreviews] *)
Definition rolloutDevicePreviews (draft : rolloutDraft) : list rolloutDevicePreview :=
  map (λ device,
    DevicePreview (dd_DeviceID device) (dd_Hostname device) (dd_Role device)
      (match dd_PreviewCommands device with Some lines => lines | None => PreviewCommands (device_commands device) end)
      (copyStringMap (dd_Scripts device)) (copyStringMap (dd_ObservedState device))) (draft_device_list draft).
(** [rolloutDevicePreviewsFromRecord], on the site, hash and plan of a record. *)
Definition rolloutDevicePreviewsFromRecord (siteID planHash : string) (plan : json) : list rolloutDevicePreview :=
  match decodeRolloutDraft (DraftRecord "" siteID 0 "" "" planHash "" JNull plan JNull) with
  | Err _ => []
  | Ok draft => rolloutDevicePreviews draft
  end.

(** ** The handler *)

Inductive preview_answer :=
  | PreviewError (status : Z) (text : string)
  | Previewed (siteID target namespace rolloutID : string) (generation : Z) (planHash : string) (health_checks : list string)
      (devices : list rolloutDevicePreview).

Section preview.
Context {E : Type} {environment : Environment E}.
Local Notation "'let@' x ':=' m 'in' k" := (hbind m (fun x => k))
  (at level 10, x name, m at level 100, k at level 200).

(** The sections a device reports for the namespaces, in order: the namespace's
    commands that are not satisfied yet, and the hash of the report. *)
Fixpoint preflight_configs (deviceID : string) (groups : gmap string (list UciCommand)) (configs : list string)
    : H (E := E) (res (list UciCommand * gmap string string)) :=
  match configs with
  | [] => hret (Ok ([], ∅))
  | config :: configs =>
      let@ observed := env (run_command deviceID ("uci show " +:+ config +:+ " 2>&1")) in
      match observed with
      | (_, Some e) => hret (Err (ErrText ("preflight failed: " +:+ ssh_error_text e)))
      | (output, None) =>
          let kept := filterUCICommandsByObservedState (default [] (groups !! config)) (parseUciShow output config) in
          let@ rest := preflight_configs deviceID groups configs in
          hret (let! rest := rest in Ok ((kept ++ rest.1)%list, <[config := observedStateHash output]> rest.2))
      end
  end.
Fixpoint preflight_results (results : list RenderResult) (observedState : gmap string (gmap string string))
    : H (E := E) (res (list RenderResult * gmap string (gmap string string))) :=
  match results with
  | [] => hret (Ok ([], observedState))
  | result :: results =>
      let groups := groupCommandsByConfig (rr_Commands result) in
      let@ checked := preflight_configs (rr_DeviceID result) groups (sortedConfigNames groups) in
      match checked with
      | Err e => hret (Err e)
      | Ok (commands, deviceState) =>
          let@ rest := preflight_results results (<[rr_DeviceID result := deviceState]> observedState) in
          hret (let! rest := rest in
                Ok (Rendered (rr_DeviceID result) (rr_Hostname result) (rr_Role result) commands :: rest.1, rest.2))
      end
  end.
(** [preflightRenderedResultsWithState] *)
Definition preflightRenderedResultsWithState (results : list RenderResult)
    : H (E := E) (res (list RenderResult * gmap string (gmap string string))) := preflight_results results ∅.

(** The request, the namespace and the target device of its query, and the uuid
    that the database generates. *)
Context (r : request) (namespace_query target : string) (new_id : string).
(** What [GetSiteConfig] and [GetSiteDevicesWithRoles] read. *)
Context (configured : res SiteConfig) (site_devices : res (list DeviceRoleInfo)).

Definition draft_with_namespace (namespace : string) (d : rolloutDraft) : rolloutDraft :=
  Draft (dr_SiteID d) (dr_TargetDeviceID d) namespace (dr_HealthChecks d) (dr_Devices d).
(** From the filtered results to the draft. *)
Definition planned_draft (namespace : string) (healthChecks : list string)
    (preflight : list RenderResult * gmap string (gmap string string)) : sum preview_answer rolloutDraft :=
  let '(results, observedState) :=
    if negb (namespace =? "") then dropEmptyRolloutResults preflight.1 preflight.2 else preflight in
  if negb (namespace =? "") && bool_decide (results = [])
  then inl (PreviewError 409 "the selected device has no changes to queue")
  else match rejectUnsafeNetworkMutations results with
       | Err e => inl (PreviewError 409 (error_text e))
       | Ok _ =>
           match buildRolloutDraft (q_siteID r) target healthChecks results observedState with
           | Err e => inl (PreviewError 502 (error_text e))
           | Ok draft => inr (draft_with_namespace namespace draft)
           end
       end.
(** From the draft to the answer. *)
Definition persist_draft (schema namespace : string) (draft : rolloutDraft) : H (E := E) preview_answer :=
  let plan := json_coerce (draft_json draft) in
  let targets := json_coerce (JArr (map (λ d, JStr (dd_DeviceID d)) (draft_device_list draft))) in
  let@ created := db (λ now, CreateRolloutDraft now new_id schema (q_siteID r) (q_username r) (rolloutPlanHash draft)
                               (Some targets) (Some plan)) in
  match created with
  | Err _ => hret (PreviewError 500 "could not create rollout draft")
  | Ok record =>
      let@ audited := auditRolloutEvent r "SITE_ORCHESTRATOR_ROLLOUT_DRAFT"
        ("Created rollout draft " +:+ rd_ID record +:+ " rollout sequence " +:+ dec (rd_Generation record) +:+
         " plan_hash " +:+ rd_PlanHash record) in
      hret (match audited with
            | Err _ => PreviewError 503 "could not record rollout audit event"
            | Ok _ => Previewed (q_siteID r) target namespace (rd_ID record) (rd_Generation record) (rd_PlanHash record)
                        (elems (dr_HealthChecks draft)) (rolloutDevicePreviews draft)
            end)
  end.
(** What the handler renders, before it asks the devices. *)
Definition rendered_plan : sum preview_answer (string * string * list string * list RenderResult) :=
  let namespace := trim_space namespace_query in
  match (if namespace =? "" then Ok ∅ else requestedChangeSetNamespaces namespace) with
  | Err e => inl (PreviewError 400 (error_text e))
  | Ok _ =>
      match configured with
      | Err _ => inl (PreviewError 400 "no site config found — save a template first")
      | Ok sc =>
          match ValidateSQM sc, site_devices with
          | Err e, _ => inl (PreviewError 409 (error_text e))
          | Ok _, Err e => inl (PreviewError 500 (error_text e))
          | Ok _, Ok devs =>
              match selectRolloutDevices di_DeviceID devs target with
              | Err _ => inl (PreviewError 400 "target device not found in site")
              | Ok [] => inl (PreviewError 400 "no devices found for this site")
              | Ok devs =>
                  match rolloutHealthTargets (HealthChecks sc) with
                  | Err _ => inl (PreviewError 400 "invalid health check target")
                  | Ok healthChecks =>
                      match getTenantSchema r with
                      | Err _ => inl (PreviewError 500 "invalid tenant context")
                      | Ok schema =>
                          match filterRolloutResultsByNamespace (RenderSiteConfig sc devs) namespace with
                          | Err e => inl (PreviewError 400 (error_text e))
                          | Ok results => inr (schema, namespace, healthChecks, results)
                          end
                      end
                  end
              end
          end
      end
  end.
(** [PreviewSyncHandler] *)
Definition PreviewSyncHandler : H (E := E) preview_answer :=
  match rendered_plan with
  | inl answer => hret answer
  | inr (schema, namespace, healthChecks, results) =>
      let@ preflight := preflightRenderedResultsWithState results in
      match preflight with
      | Err e => hret (PreviewError 502 (error_text e))
      | Ok preflight =>
          match planned_draft namespace healthChecks preflight with
          | inl answer => hret answer
          | inr draft => persist_draft schema namespace draft
          end
      end
  end.
End preview.
