(* ===== verification/SiteConfigs.v ===== *)
(** The template of a site as the API keeps it: [GetSiteConfig] and
    [UpsertSiteConfig] of [internal/services/orchestrator_engine.go],
    [internal/services/wlan_policy.go], and the handlers of
    [internal/api/handlers/site_orchestrator.go] that read and save it.

    The [site_configs] table is a map from the site's uuid to its row; the network
    policies of [wlans] are only read. *)

From S2P Require Import Prelude GoStrings Json Store Rollouts RolloutPlan Renderer Orchestrator.

(** ** Rows *)

(** A row of [site_configs]: the template, with its documents as stored. *)
Abbreviation site_table := (gmap string SiteConfig).
(** A row of [wlans]. *)
Record wlan_row := Wlan { wl_site : string; wl_ssid : string; wl_security : string; wl_password : option string; wl_enabled : bool }.

(** A [VARCHAR(n)], an [INTEGER] and a [JSONB] parameter. *)
Definition text_column (n : nat) (s : string) : bool := no_nul s && (char_length s <=? n)%nat.
Definition int_column (z : Z) : bool := ((-2147483648 <=? z) && (z <=? 2147483647))%Z.
Definition document_column (raw : raw_field) : res raw_field :=
  match raw with
  | None => Ok None
  | Some None => Err ErrDriver
  | Some (Some j) => let! v := jsonb_param j in Ok (Some (Some v))
  end.
Definition row_fits (sc : SiteConfig) : bool :=
  text_column 255 (GlobalSSID sc) && text_column 255 (GlobalWPAKey sc) && text_column 50 (GlobalEncryption sc) &&
  text_column 50 (LanIPAddr sc) && text_column 50 (LanNetmask sc) && text_column 20 (DHCPLeasetime sc) &&
  text_column 50 (DNSPrimary sc) && text_column 50 (DNSSecondary sc) && text_column 100 (Timezone sc) &&
  text_column 100 (HostnamePrefix sc) && text_column 64 (SQMSection sc) && text_column 64 (SQMInterface sc) &&
  text_column 255 (TailscaleAuthKey sc) && int_column (DHCPStart sc) && int_column (DHCPLimit sc) &&
  int_column (SqmDownload sc) && int_column (SqmUpload sc) && int_column (DropbearPort sc).

(** ** [GetSiteConfig] and [UpsertSiteConfig] *)

(** The row of a site; the reservations and the rules must not be NULL to be scanned. *)
Definition GetSiteConfig (fault : bool) (table : site_table) (siteID : string) : res SiteConfig :=
  let! _ := fail_if fault ErrDriver in
  let! site := uuid_param siteID in
  match table !! site with
  | None => Err (ErrText "sql: no rows in result set")
  | Some sc =>
      let! _ := fail_if (bool_decide (DHCPReservations sc = None) || bool_decide (PortForwardingRules sc = None))
                  (ErrText "unsupported Scan") in
      Ok sc
  end.

Definition default_document (raw : raw_field) (empty : json) : raw_field :=
  match raw with None => Some (Some empty) | _ => raw end.
(** [UpsertSiteConfig]; [sites] are the sites that exist. *)
Definition with_documents (site : string) (dhcp forwards wans baseline topology health : raw_field) (sc : SiteConfig)
    : SiteConfig := {|
  SiteID := site; EnableGlobalSSID := EnableGlobalSSID sc; GlobalSSID := GlobalSSID sc; GlobalWPAKey := GlobalWPAKey sc;
  GlobalEncryption := GlobalEncryption sc; LanIPAddr := LanIPAddr sc; LanNetmask := LanNetmask sc;
  DHCPStart := DHCPStart sc; DHCPLimit := DHCPLimit sc; DHCPLeasetime := DHCPLeasetime sc; DNSPrimary := DNSPrimary sc;
  DNSSecondary := DNSSecondary sc; Timezone := Timezone sc; HostnamePrefix := HostnamePrefix sc;
  SQMCakeEnabled := SQMCakeEnabled sc; SQMSection := SQMSection sc; SQMInterface := SQMInterface sc;
  SqmDownload := SqmDownload sc; SqmUpload := SqmUpload sc; DPIEnabled := DPIEnabled sc;
  SecureTunnelEnabled := SecureTunnelEnabled sc; TailscaleEnabled := TailscaleEnabled sc;
  TailscaleAuthKey := TailscaleAuthKey sc; FirewallSynFlood := FirewallSynFlood sc;
  FirewallDropInvalid := FirewallDropInvalid sc; DropbearPort := DropbearPort sc;
  DropbearPasswordAuth := DropbearPasswordAuth sc; DHCPReservations := dhcp; PortForwardingRules := forwards;
  ThreatShieldEnabled := ThreatShieldEnabled sc; GuestPortalEnabled := GuestPortalEnabled sc;
  AllowPublicSurveys := AllowPublicSurveys sc; WANInterfaces := wans; BenchmarkBaseline := baseline;
  TopologyMetadata := topology; HealthChecks := health |}.
Definition UpsertSiteConfig (fault : bool) (sites : gset string) (table : site_table) (sc : SiteConfig) : res site_table :=
  let! _ := ValidateSQM sc in
  let! _ := fail_if fault ErrDriver in
  let! site := uuid_param (SiteID sc) in
  let! dhcp := document_column (DHCPReservations sc) in
  let! forwards := document_column (PortForwardingRules sc) in
  let! wans := document_column (default_document (WANInterfaces sc) (JArr [])) in
  let! baseline := document_column (default_document (BenchmarkBaseline sc) (JObj [])) in
  let! topology := document_column (default_document (TopologyMetadata sc) (JObj [])) in
  let! health := document_column (default_document (HealthChecks sc) (JArr [])) in
  let! _ := fail_if (negb (row_fits sc) || negb (bool_decide (site ∈ sites))) ErrDriver in
  Ok (<[site := with_documents site dhcp forwards wans baseline topology health sc]> table).

(** ** [wlan_policy.go] *)

Record WLANPolicyResolution := Resolution { wr_Security : string; wr_Password : string; wr_Conflicts : list string }.
(** [WLANAppliesToDevice] *)
Definition WLANAppliesToDevice (globalEnabled : bool) (targetMode : string) (assigned : bool) : bool :=
  if equal_fold (trim_space targetMode) "custom" then assigned else globalEnabled.
(** [ResolveCanonicalWLAN] *)
Definition ResolveCanonicalWLAN (siteSSID siteSecurity sitePassword wlanSSID wlanSecurity wlanPassword : string)
    : WLANPolicyResolution :=
  Resolution wlanSecurity wlanPassword
    (if (siteSSID =? "") || negb (siteSSID =? wlanSSID) then []
     else ((if negb (siteSecurity =? "") && negb (siteSecurity =? wlanSecurity) then ["global_encryption"] else []) ++
           (if negb (sitePassword =? "") && negb (sitePassword =? wlanPassword) then ["global_wpa_key"] else []))%list).
(** [siteWLANPolicyConflicts] *)
Definition siteWLANPolicyConflicts (fault : bool) (wlans : list wlan_row) (siteID siteSSID siteEncryption sitePassword : string)
    : res (list string) :=
  let! _ := fail_if fault ErrDriver in
  let! site := uuid_param siteID in
  let rows := filter (λ w, (wl_site w =? site) && (wl_ssid w =? siteSSID) && wl_enabled w = true) wlans in
  Ok (dedup_first (concat (map (λ w,
    wr_Conflicts (ResolveCanonicalWLAN siteSSID siteEncryption sitePassword siteSSID (wl_security w) (coalesce (wl_password w) "")))
    rows))).

(** ** The handlers *)

(** The [dto] of [PutSiteConfigHandler]: the fields by their JSON names, a field that
    is absent here holding its zero value. *)
Record config_dto := Dto {
  dto_texts : gmap string string;
  dto_flags : gmap string bool;
  dto_numbers : gmap string Z;
  dto_documents : gmap string json
}.
Definition zero_dto : config_dto := Dto ∅ ∅ ∅ ∅.
Definition dto_text (d : config_dto) (name : string) : string := default "" (dto_texts d !! name).
Definition dto_flag (d : config_dto) (name : string) : bool := default false (dto_flags d !! name).
Definition dto_number (d : config_dto) (name : string) : Z := default 0%Z (dto_numbers d !! name).
Definition dto_document (d : config_dto) (name : string) : raw_field := Some <$> dto_documents d !! name.

Definition text_fields : list string :=
  ["global_ssid"; "global_wpa_key"; "global_encryption"; "lan_ipaddr"; "lan_netmask"; "dhcp_leasetime"; "dns_primary";
   "dns_secondary"; "timezone"; "hostname_prefix"; "sqm_section"; "sqm_interface"; "tailscale_auth_key"].
Definition flag_fields : list string :=
  ["enable_global_ssid"; "firewall_syn_flood"; "firewall_drop_invalid"; "dropbear_password_auth"; "threat_shield_enabled";
   "sqm_cake_enabled"; "dpi_enabled"; "secure_tunnel_enabled"; "tailscale_enabled"; "allow_public_surveys"].
Definition number_fields : list string := ["dhcp_start"; "dhcp_limit"; "dropbear_port"; "sqm_download"; "sqm_upload"].
(** [json.RawMessage] fields keep the value as it is, null included. *)
Definition document_fields : list string :=
  ["dhcp_reservations"; "port_forwarding_rules"; "benchmark_baseline"; "topology_metadata"; "health_checks"].
Definition dto_fields : list (string * decoder config_dto) :=
  (map (λ n, (n, λ j d, v ← dec_string j (dto_text d n);
                  Some (Dto (<[n := v]> (dto_texts d)) (dto_flags d) (dto_numbers d) (dto_documents d)))) text_fields ++
   map (λ n, (n, λ j d, v ← dec_bool j (dto_flag d n);
                  Some (Dto (dto_texts d) (<[n := v]> (dto_flags d)) (dto_numbers d) (dto_documents d)))) flag_fields ++
   map (λ n, (n, λ j d, v ← dec_int64 j (dto_number d n);
                  Some (Dto (dto_texts d) (dto_flags d) (<[n := v]> (dto_numbers d)) (dto_documents d)))) number_fields ++
   map (λ n, (n, λ j d, Some (Dto (dto_texts d) (dto_flags d) (dto_numbers d) (<[n := j]> (dto_documents d)))))
     document_fields)%list.
Definition dec_dto : decoder config_dto := dec_struct dto_fields.

(** [null] and a missing document become an empty array. *)
Definition array_document (raw : raw_field) : raw_field :=
  match raw with None | Some (Some JNull) => Some (Some (JArr [])) | _ => raw end.
(** The [SiteConfig] that the handler builds. *)
Definition config_of_dto (siteID : string) (d : config_dto) : SiteConfig := {|
  SiteID := siteID;
  EnableGlobalSSID := dto_flag d "enable_global_ssid";
  GlobalSSID := dto_text d "global_ssid";
  GlobalWPAKey := dto_text d "global_wpa_key";
  GlobalEncryption := dto_text d "global_encryption";
  LanIPAddr := dto_text d "lan_ipaddr";
  LanNetmask := dto_text d "lan_netmask";
  DHCPStart := dto_number d "dhcp_start";
  DHCPLimit := dto_number d "dhcp_limit";
  DHCPLeasetime := dto_text d "dhcp_leasetime";
  DNSPrimary := dto_text d "dns_primary";
  DNSSecondary := dto_text d "dns_secondary";
  Timezone := dto_text d "timezone";
  HostnamePrefix := dto_text d "hostname_prefix";
  SQMCakeEnabled := dto_flag d "sqm_cake_enabled";
  SQMSection := dto_text d "sqm_section";
  SQMInterface := dto_text d "sqm_interface";
  SqmDownload := dto_number d "sqm_download";
  SqmUpload := dto_number d "sqm_upload";
  DPIEnabled := dto_flag d "dpi_enabled";
  SecureTunnelEnabled := dto_flag d "secure_tunnel_enabled";
  TailscaleEnabled := dto_flag d "tailscale_enabled";
  TailscaleAuthKey := dto_text d "tailscale_auth_key";
  FirewallSynFlood := dto_flag d "firewall_syn_flood";
  FirewallDropInvalid := dto_flag d "firewall_drop_invalid";
  DropbearPort := dto_number d "dropbear_port";
  DropbearPasswordAuth := dto_flag d "dropbear_password_auth";
  DHCPReservations := array_document (dto_document d "dhcp_reservations");
  PortForwardingRules := array_document (dto_document d "port_forwarding_rules");
  ThreatShieldEnabled := dto_flag d "threat_shield_enabled";
  GuestPortalEnabled := false;
  AllowPublicSurveys := dto_flag d "allow_public_surveys";
  WANInterfaces := None;
  BenchmarkBaseline := dto_document d "benchmark_baseline";
  TopologyMetadata := dto_document d "topology_metadata";
  HealthChecks := dto_document d "health_checks"
|}.

Inductive config_answer :=
  | ConfigError (status : Z) (text : string)
  | ConfigConflict (conflicts : list string)
  | ConfigSaved.

(** [PutSiteConfigHandler]; the two flags say whether the driver fails its queries. *)
Definition PutSiteConfigHandler (policy_fault save_fault : bool) (tenant siteID : string) (body : raw_message)
    (sites : gset string) (wlans : list wlan_row) (table : site_table) : config_answer * site_table :=
  match unmarshal dec_dto zero_dto body with
  | None => (ConfigError 400 "invalid JSON", table)
  | Some d =>
      let sc := config_of_dto siteID d in
      let checked :=
        if EnableGlobalSSID sc && negb (GlobalSSID sc =? "") then
          match SafeSchemaIdent (if tenant =? "" then "public" else tenant) with
          | Err _ => Some (ConfigError 500 "invalid tenant context")
          | Ok _ =>
              match siteWLANPolicyConflicts policy_fault wlans siteID (GlobalSSID sc) (GlobalEncryption sc) (GlobalWPAKey sc) with
              | Err _ => Some (ConfigError 500 "could not validate canonical WLAN policy")
              | Ok [] => None
              | Ok conflicts => Some (ConfigConflict conflicts)
              end
          end
        else None in
      match checked with
      | Some answer => (answer, table)
      | None =>
          match ValidateSQM sc with
          | Err e => (ConfigError 400 (error_text e), table)
          | Ok _ =>
              match UpsertSiteConfig save_fault sites table sc with
              | Err e => (ConfigError 500 (error_text e), table)
              | Ok table => (ConfigSaved, table)
              end
          end
      end
  end.

(** The defaults that [GetSiteConfigHandler] answers when it has no template. *)
Definition default_config (siteID : string) : SiteConfig := {|
  SiteID := siteID; EnableGlobalSSID := false; GlobalSSID := ""; GlobalWPAKey := ""; GlobalEncryption := "psk2";
  LanIPAddr := "192.168.1.1"; LanNetmask := "255.255.255.0"; DHCPStart := 100; DHCPLimit := 150; DHCPLeasetime := "12h";
  DNSPrimary := "9.9.9.9"; DNSSecondary := "1.1.1.1"; Timezone := "UTC"; HostnamePrefix := "nerve";
  SQMCakeEnabled := false; SQMSection := ""; SQMInterface := ""; SqmDownload := 0; SqmUpload := 0; DPIEnabled := false;
  SecureTunnelEnabled := true; TailscaleEnabled := false; TailscaleAuthKey := ""; FirewallSynFlood := true;
  FirewallDropInvalid := true; DropbearPort := 22; DropbearPasswordAuth := true; DHCPReservations := None;
  PortForwardingRules := None; ThreatShieldEnabled := false; GuestPortalEnabled := false; AllowPublicSurveys := false;
  WANInterfaces := None; BenchmarkBaseline := None; TopologyMetadata := None; HealthChecks := None |}.
(** [GetSiteConfigHandler] *)
Definition GetSiteConfigHandler (fault : bool) (table : site_table) (siteID : string) : SiteConfig :=
  match GetSiteConfig fault table siteID with Ok sc => sc | Err _ => default_config siteID end.

(** ** Roles *)

Definition ErrDeviceRoleUpdateConflict : gerror := ErrSentinel "device role cannot change during a rollout".
Definition set_role (role : string) (d : device_row) : device_row :=
  Device (d_site_id d) (Some role) (d_capabilities d) (d_desired d) (d_observed d) (d_last_successful d)
    (d_pending_operation d) (d_last_operation d) (d_pending_change_set d) (d_last_change_set d) (d_rollout_status d)
    (d_rollout_at d) (d_health_check_at d) (d_updated_at d).
(** [UpdateDeviceRoleForTenant] *)
Definition UpdateDeviceRoleForTenant (schema deviceID role : string) : M unit :=
  let* _ := lift (SafeSchemaIdent schema) in
  let* affected := statement (λ t,
    let! role := varchar 50 role in
    match devices t !! deviceID with
    | Some d =>
        if negb (coalesce (d_rollout_status d) "" =? "RUNNING")
        then Ok (1%nat, set_devices <[deviceID := set_role role d]> t)
        else Ok (0%nat, t)
    | None => Ok (0%nat, t)
    end) in
  one_row ErrDeviceRoleUpdateConflict affected.

Inductive role_answer :=
  | RoleError (status : Z) (text : string)
  | RoleSaved (role : string).
Definition valid_roles : list string := ["Gateway"; "AP"; "IoT_Node"].
(** [PutDeviceRoleHandler]; an audit entry that cannot be written is ignored. *)
Definition PutDeviceRoleHandler (username remote tenant deviceID : string) (body : raw_message) (w : world)
    : role_answer * world :=
  match unmarshal (dec_struct [("role", dec_string)]) "" body with
  | None => (RoleError 400 "invalid JSON", w)
  | Some role =>
      if negb (text_in role valid_roles) then (RoleError 400 "invalid role, must be Gateway, AP, or IoT_Node", w)
      else match SafeSchemaIdent (if tenant =? "" then "public" else tenant) with
           | Err _ => (RoleError 500 "invalid tenant context", w)
           | Ok schema =>
               match UpdateDeviceRoleForTenant schema deviceID role w with
               | (Err e, w) =>
                   (if errors_is e ErrDeviceRoleUpdateConflict
                    then RoleError 409 "device role cannot change while a rollout is running"
                    else RoleError 500 (error_text e), w)
               | (Ok _, w) =>
                   (RoleSaved role, (InsertAuditLogContext username "SITE_ORCHESTRATOR_ROLE_CHANGE" "DEVICE" deviceID
                                       ("Role changed to: " +:+ role) remote w).2)
               end
           end
  end.
