(* ===== verification/Tickets.v ===== *)
(** [internal/authtickets/authtickets.go]: the short-lived tickets a console
    exchanges for a WebSocket, in the memory of the process.

    A call holds the store's lock for all it does; times are nanoseconds and an
    argument of each call, which reads the clock once here. *)

From S2P Require Import Prelude GoStrings Store DeviceOperation.

Definition DefaultTicketTTL : Z := 30000000000.

Definition ErrTicketNotFound : gerror := ErrSentinel "auth ticket: not found or already consumed".
Definition ErrTicketExpired : gerror := ErrSentinel "auth ticket: expired".
Definition ErrTicketReused : gerror := ErrSentinel "auth ticket: already used".
Definition ErrTicketScope : gerror := ErrSentinel "auth ticket: wrong device".

(** [Ticket] *)
Record Ticket := MkTicket {
  t_Username : string;
  t_Role : string;
  t_DeviceID : string;
  t_TenantSchema : string;
  t_IssuedAt : Z;
  t_ExpiresAt : Z;
  t_Consumed : bool;
  t_ConsumedAt : option Z
}.
(** [Store] *)
Record Store := MkStore { tickets : gmap string Ticket; ttl : Z }.

(** [LoadStore] *)
Definition LoadStore (ttl : Z) : Store := MkStore ∅ (if (ttl =? 0)%Z then DefaultTicketTTL else ttl).
(** [newTicketID]: sixteen random bytes. *)
Definition newTicketID (rand : entropy) : res string :=
  match rand with None => Err ErrDriver | Some bytes => Ok (hex_encode (take 16 bytes)) end.

Definition expired (now : Z) (t : Ticket) : bool := (t_ExpiresAt t <? now)%Z.
(** [gcLocked] *)
Definition gcLocked (now : Z) (s : Store) : Store :=
  MkStore (filter (λ kv, expired now kv.2 = false) (tickets s)) (ttl s).
(** [Issue]; a nil store is [None]. *)
Definition Issue (now : Z) (rand : entropy) (username role deviceID tenantSchema : string) (s : option Store)
    : res (string * Ticket) * option Store :=
  match s with
  | None => (Err (ErrText "auth ticket store not initialised"), None)
  | Some s =>
      match newTicketID rand with
      | Err e => (Err e, Some s)
      | Ok id =>
          let t := MkTicket username role deviceID tenantSchema now (now + ttl s) false None in
          (Ok (id, t), Some (gcLocked now (MkStore (<[id := t]> (tickets s)) (ttl s))))
      end
  end.
(** [Validate] *)
Definition live (now : Z) (id : string) (s : Store) : res Ticket :=
  match tickets s !! id with
  | None => Err ErrTicketNotFound
  | Some t =>
      let! _ := fail_if (t_Consumed t) ErrTicketReused in
      let! _ := fail_if (expired now t) ErrTicketExpired in
      Ok t
  end.
Definition Validate (now : Z) (id : string) (s : option Store) : res Ticket :=
  match s with
  | None => Err (ErrText "auth ticket store not initialised")
  | Some s => live now id s
  end.
(** [consume], [Consume] and [ConsumeForDevice] *)
Definition used (now : Z) (t : Ticket) : Ticket :=
  MkTicket (t_Username t) (t_Role t) (t_DeviceID t) (t_TenantSchema t) (t_IssuedAt t) (t_ExpiresAt t) true (Some now).
Definition consume (now : Z) (id deviceID : string) (enforceDevice : bool) (s : option Store) : res Ticket * option Store :=
  match s with
  | None => (Err (ErrText "auth ticket store not initialised"), None)
  | Some s =>
      match live now id s with
      | Err e => (Err e, Some s)
      | Ok t =>
          if enforceDevice && ((t_DeviceID t =? "") || (t_TenantSchema t =? "") || negb (t_DeviceID t =? deviceID))
          then (Err ErrTicketScope, Some s)
          else (Ok (used now t), Some (MkStore (<[id := used now t]> (tickets s)) (ttl s)))
      end
  end.
Definition Consume (now : Z) (id : string) : option Store → res Ticket * option Store := consume now id "" false.
Definition ConsumeForDevice (now : Z) (id deviceID : string) : option Store → res Ticket * option Store :=
  consume now id deviceID true.

(** ** Histories of a store *)

(** What can happen to a store: the calls above and the ticks of [StartGC]. *)
Inductive ticket_call :=
  | CallIssue (rand : entropy) (username role deviceID tenantSchema : string)
  | CallValidate (id : string)
  | CallConsume (id : string)
  | CallConsumeForDevice (id deviceID : string)
  | CallGC.
Inductive ticket_outcome :=
  | Issued (id : string) (t : Ticket)
  | Redeemed (id : string) (device : option string) (t : Ticket)
  | Refused (e : gerror)
  | Nothing.
Definition redeem_outcome (id : string) (device : option string) (r : res Ticket) : ticket_outcome :=
  match r with Ok t => Redeemed id device t | Err e => Refused e end.
Definition perform (now : Z) (c : ticket_call) (s : option Store) : ticket_outcome * option Store :=
  match c with
  | CallIssue rand username role deviceID tenantSchema =>
      let '(r, s) := Issue now rand username role deviceID tenantSchema s in
      (match r with Ok (id, t) => Issued id t | Err e => Refused e end, s)
  | CallValidate id => (match Validate now id s with Ok _ => Nothing | Err e => Refused e end, s)
  | CallConsume id => let '(r, s) := Consume now id s in (redeem_outcome id None r, s)
  | CallConsumeForDevice id deviceID =>
      let '(r, s) := ConsumeForDevice now id deviceID s in (redeem_outcome id (Some deviceID) r, s)
  | CallGC => (Nothing, gcLocked now <$> s)
  end.
Fixpoint perform_all (calls : list (Z * ticket_call)) (s : option Store) : list (Z * ticket_outcome) * option Store :=
  match calls with
  | [] => ([], s)
  | (now, c) :: calls =>
      let '(o, s) := perform now c s in
      let '(os, s) := perform_all calls s in ((now, o) :: os, s)
  end.
