(* ===== verification/Access.v ===== *)
(** Who may act on which tenant: [internal/api/middleware/auth.go],
    [internal/api/handlers/auth.go] and [ws_ticket.go], and the tenants of
    [internal/services/tenant_manager.go].

    The tables of the landlord are [landlord]; whether the driver fails a query is
    an argument of the call.  Signing and parsing tokens and comparing password
    hashes are the libraries of [Tokens]. *)

From S2P Require Import Prelude GoStrings Json Store DeviceOperation Rollouts Tickets.

(** ** Tables and libraries *)

Record tenant_row := TenantRow { tr_name : string; tr_alias : string; tr_active : bool; tr_created : Z }.
Record user_row := UserRow { u_hash : string; u_role : option string; u_tenant : option string }.
Record landlord := Landlord { tenants : gmap string tenant_row; users : gmap string user_row }.

(** [jwt.MapClaims] *)
Abbreviation claims := (gmap string json).
Inductive signing_method := HMAC | OtherMethod.
(** [golang-jwt] and [bcrypt]: a signed token is parsed to its claims, by a key
    function that gives the same secret, until it expires. *)
Class Tokens := {
  jwt_sign : string → claims → option string;
  jwt_parse : Z → (signing_method → option string) → string → option claims;
  bcrypt_matches : string → string → bool;
  sign_nonempty : ∀ secret (c : claims), jwt_sign secret c ≠ Some "";
  sign_parse : ∀ secret (c : claims) token expiry now keyfunc,
    jwt_sign secret c = Some token → c !! "exp" = Some (JInt expiry) → keyfunc HMAC = Some secret →
    jwt_parse now keyfunc token = if (now <? expiry)%Z then Some c else None
}.
(** The key function of the code. *)
Definition hmac_only (secret : string) (m : signing_method) : option string :=
  match m with HMAC => Some secret | OtherMethod => None end.
(** [claims[key].(string)] with a discarded [ok]. *)
Definition claim_text (key : string) (c : claims) : string := match c !! key with Some (JStr s) => s | _ => "" end.

(** ** Tenants *)

(** [RegisterTenant], up to the schema that the migrations create; the uuid and the
    time are the database's. *)
Definition normalize_alias (schemaAlias : string) : string :=
  replace_byte "-" "_" (replace_byte " " "_" (to_lower (trim_space schemaAlias))).
Definition alias_char (c : ascii) : bool := is_lower c || is_digit c || in_chars "_" c.
Definition valid_alias (alias : string) : bool :=
  match alias with
  | String c r => is_lower c && str_forall alias_char r && (1 <=? String.length r)%nat && (String.length r <=? 54)%nat
  | EmptyString => false
  end.
(** The statements that the driver fails. *)
Record register_faults := RegisterFaults { g_check : bool; g_insert : bool; g_migrate : bool; g_delete : bool }.
Definition RegisterTenant (f : register_faults) (now : Z) (new_id name schemaAlias : string) (l : landlord)
    : res string * landlord :=
  let alias := normalize_alias schemaAlias in
  if negb (valid_alias alias) then (Err (ErrText "invalid schema alias"), l)
  else if g_check f then (Err (ErrWrap ErrDriver "failed to check tenant uniqueness"), l)
  else if bool_decide (map_Exists (λ _ t, tr_alias t = alias) (tenants l))
       then (Err (ErrText "tenant with alias already exists"), l)
  else if g_insert f || negb (is_ok (varchar 255 (trim_space name))) || bool_decide (is_Some (tenants l !! new_id))
       then (Err (ErrWrap ErrDriver "failed to insert tenant"), l)
  else
    let inserted := Landlord (<[new_id := TenantRow (trim_space name) alias true now]> (tenants l)) (users l) in
    if g_migrate f then (Err (ErrText "failed to provision tenant schema"), if g_delete f then inserted else l)
    else (Ok new_id, inserted).
(** [ToggleTenant] *)
Definition ToggleTenant (fault : bool) (tenantID : string) (active : bool) (l : landlord) : res unit * landlord :=
  if fault then (Err (ErrWrap ErrDriver "failed to toggle tenant"), l)
  else match uuid_in tenantID with
       | None => (Err (ErrWrap ErrDriver "failed to toggle tenant"), l)
       | Some id =>
           match tenants l !! id with
           | None => (Err (ErrText "tenant not found"), l)
           | Some t =>
               (Ok tt, Landlord (<[id := TenantRow (tr_name t) (tr_alias t) active (tr_created t)]> (tenants l)) (users l))
           end
       end.

(** The aliases of the active tenants, the oldest first. *)
Definition active_tenants (l : landlord) : list tenant_row :=
  stable_sort (λ a b, (tr_created a <? tr_created b)%Z) (filter (λ t, tr_active t = true) (map snd (map_to_list (tenants l)))).
Definition active_alias (l : landlord) (alias : string) : bool :=
  existsb (λ t, tr_alias t =? alias) (active_tenants l).

(** ** Requests *)

(** What the middleware reads of a request; [http_device] is the device of the path. *)
Record http_request := HttpRequest {
  h_authorization : string;
  h_upgrade : string;
  h_tenant : string;
  h_ticket : string;
  h_token : string;
  h_path : string;
  h_device : string
}.
(** The process: its secret, whether tokens are read from queries, and the clocks
    (seconds for tokens, nanoseconds for tickets). *)
Record process := Process { p_secret : string; p_query_tokens : bool; p_seconds : Z; p_nanos : Z }.
(** The queries that the driver fails. *)
Record query_faults := QueryFaults { f_default : bool; f_begin : bool; f_lookup : bool; f_path : bool }.
Definition no_faults : query_faults := QueryFaults false false false false.

(** A request is answered, or its handler runs with the claims and the schema; none
    is the public schema. *)
Inductive auth_result :=
  | Denied (status : Z) (text : string)
  | Passed (c : claims) (schema : option string).

(** [tenantHeaderAllowed] *)
Definition tenantHeaderAllowed (c : claims) : bool := equal_fold (claim_text "role" c) "SUPERADMIN".
Definition bearer (authorization : string) : option string := strip_prefix "Bearer " authorization.

Section access.
Context `{Tokens}.

(** The claims of the request, and for a ticket the alias of its tenant. *)
Definition authenticate (p : process) (r : http_request) (store : option Store)
    : (auth_result + claims * option string) * option Store :=
  let ticketID := trim_space (h_ticket r) in
  let isSSHWebSocket := equal_fold (h_upgrade r) "websocket" && has_suffix (h_path r) "/ssh" in
  if negb (ticketID =? "") || isSSHWebSocket then
    if negb isSSHWebSocket || (ticketID =? "") then (inl (Denied 401 "UNAUTHORIZED: WebSocket ticket required"), store)
    else match store with
         | None => (inl (Denied 503 "WebSocket ticket store not initialised"), store)
         | Some _ =>
             match ConsumeForDevice (p_nanos p) ticketID (h_device r) store with
             | (Err e, store) =>
                 (inl (Denied (if errors_is e ErrTicketScope then 403 else 401)
                         "UNAUTHORIZED: invalid or expired WebSocket ticket"), store)
             | (Ok t, store) =>
                 (inr ({["sub" := JStr (t_Username t); "role" := JStr (t_Role t); "schema_alias" := JStr (t_TenantSchema t)]},
                       Some (t_TenantSchema t)), store)
             end
         end
  else
    let tokenStr := match bearer (h_authorization r) with
                    | Some token => token
                    | None => if p_query_tokens p then h_token r else ""
                    end in
    if tokenStr =? "" then (inl (Denied 401 "UNAUTHORIZED: missing bearer token"), store)
    else match jwt_parse (p_seconds p) (hmac_only (p_secret p)) tokenStr with
         | None => (inl (Denied 401 "UNAUTHORIZED: invalid token"), store)
         | Some c => (inr (c, None), store)
         end.

(** The alias of the tenant that the request is for. *)
Definition requested_tenant (f : query_faults) (l : landlord) (r : http_request) (c : claims) (ticket : option string)
    : auth_result + string :=
  let header := trim_space (h_tenant r) in
  let chosen :=
    match ticket with
    | Some alias =>
        if negb (header =? "") &&
           negb (match SafeTenantSchema header with Ok candidate => equal_fold candidate ("tenant_" +:+ alias) | Err _ => false end)
        then inl (Denied 403 "FORBIDDEN: ticket tenant mismatch") else inr alias
    | None =>
        if negb (header =? "") && negb (tenantHeaderAllowed c) && negb (equal_fold header (claim_text "schema_alias" c))
        then inl (Denied 403 "FORBIDDEN: tenant assumption requires SUPERADMIN") else inr header
    end in
  match chosen with
  | inl denied => inl denied
  | inr tenant =>
      let tenant := if tenant =? "" then trim_space (claim_text "schema_alias" c) else tenant in
      inr (if negb (tenant =? "") then tenant
           else if f_default f then "" else match active_tenants l with t :: _ => tr_alias t | [] => "" end)
  end.
(** The checks and the transaction of the request. *)
Definition open_tenant (f : query_faults) (l : landlord) (c : claims) (tenant : string) : auth_result :=
  match (if tenant =? "" then Ok "" else SafeTenantSchema tenant) with
  | Err _ => Denied 400 "invalid tenant schema"
  | Ok fullSchema =>
      if f_begin f then Denied 500 ""
      else if negb (tenant =? "") then
        if f_lookup f then Denied 500 ""
        else if negb (active_alias l tenant) then Denied 403 "FORBIDDEN: inactive or unknown tenant"
        else if f_path f then Denied 500 "" else Passed c (Some fullSchema)
      else if f_path f then Denied 500 "" else Passed c None
  end.
(** [WithAuth], up to the handler it wraps. *)
Definition WithAuth (p : process) (f : query_faults) (l : landlord) (r : http_request) (store : option Store)
    : auth_result * option Store :=
  match authenticate p r store with
  | (inl denied, store) => (denied, store)
  | (inr (c, ticket), store) =>
      (match requested_tenant f l r c ticket with
       | inl denied => denied
       | inr tenant => open_tenant f l c tenant
       end, store)
  end.
(** [RequireAdmin] and [RequireSuperAdmin], inside [WithAuth]. *)
Definition require_role (roles : list string) (result : auth_result) : auth_result :=
  match result with
  | Denied _ _ => result
  | Passed c _ =>
      match c !! "role" with
      | Some (JStr role) => if text_in (to_upper role) roles then result else Denied 403 "ACCESS_DENIED"
      | _ => Denied 403 "ACCESS_DENIED"
      end
  end.
Definition RequireAdmin : auth_result → auth_result := require_role ["ADMIN"; "SUPERADMIN"].
Definition RequireSuperAdmin : auth_result → auth_result := require_role ["SUPERADMIN"].

(** ** Logging in *)

Inductive login_result :=
  | LoginError (status : Z) (text : string)
  | LoggedIn (token username role schemaAlias : string).
(** The claims that a user gets; the alias is that of the user's tenant while it is
    active and can be read. *)
Definition login_alias (f_tenant : bool) (l : landlord) (u : user_row) : string :=
  match u_tenant u with
  | Some id =>
      if f_tenant then ""
      else match tenants l !! id with Some t => if tr_active t then tr_alias t else "" | None => "" end
  | None => ""
  end.
Definition login_claims (now : Z) (username role : string) (tenantID : option string) (alias : string) : claims :=
  let c : claims := {["sub" := JStr username; "role" := JStr role; "exp" := JInt (now + 86400); "iat" := JInt now]} in
  if alias =? "" then c
  else <["tenant_id" := JStr (default "" tenantID)]> (<["schema_alias" := JStr alias]> c).
Record login_request := LoginRequest { lq_username : string; lq_password : string }.
Definition dec_login : decoder login_request := dec_struct [
  ("username", λ j q, v ← dec_string j (lq_username q); Some (LoginRequest v (lq_password q)));
  ("password", λ j q, v ← dec_string j (lq_password q); Some (LoginRequest (lq_username q) v))
].
(** [LoginHandler]; [f_user] is an error of the first query, true when it is its
    deadline. *)
Definition LoginHandler (p : process) (f_user : option bool) (f_tenant : bool) (l : landlord) (method : string)
    (body : raw_message) : login_result :=
  if negb (method =? "POST") then LoginError 405 "method not allowed"
  else match unmarshal dec_login (LoginRequest "" "") body with
       | None => LoginError 400 "invalid json"
       | Some q =>
           match f_user, users l !! lq_username q with
           | Some true, _ => LoginError 503 "DATABASE_UNAVAILABLE"
           | Some false, _ | None, None => LoginError 401 "ACCESS_DENIED"
           | None, Some u =>
               match u_role u with
               | None => LoginError 401 "ACCESS_DENIED"
               | Some role =>
                   if negb (bcrypt_matches (u_hash u) (lq_password q)) then LoginError 401 "ACCESS_DENIED"
                   else
                     let alias := login_alias f_tenant l u in
                     match jwt_sign (p_secret p) (login_claims (p_seconds p) (lq_username q) role (u_tenant u) alias) with
                     | None => LoginError 500 "token generation failed"
                     | Some token => LoggedIn token (lq_username q) role alias
                     end
               end
           end
       end.

(** ** Tickets *)

Inductive ticket_result :=
  | TicketError (status : Z) (text : string)
  | TicketIssued (ticket : string) (expires_in : Z).
(** [IssueWSTicketHandler], for a request that the middleware passed with [schema];
    the devices of that tenant are [devices]. *)
Definition IssueWSTicketHandler (p : process) (rand : entropy) (f_devices : bool) (devices : gset string)
    (authorization : string) (schema : option string) (body : raw_message) (store : option Store)
    : ticket_result * option Store :=
  match bearer authorization with
  | None => (TicketError 401 "missing bearer token", store)
  | Some tok =>
      match jwt_parse (p_seconds p) (hmac_only (p_secret p)) tok with
      | None => (TicketError 401 "invalid token", store)
      | Some c =>
          let username := if claim_text "sub" c =? "" then "system" else claim_text "sub" c in
          match unmarshal (dec_struct [("device_id", dec_string)]) "" body with
          | None => (TicketError 400 "invalid request body", store)
          | Some raw =>
              let deviceID := trim_space raw in
              if deviceID =? "" then (TicketError 400 "device_id is required", store)
              else match SafeSchemaIdent (default "public" schema) with
                   | Err _ => (TicketError 403 "tenant context required", store)
                   | Ok schema =>
                       if schema =? "public" then (TicketError 403 "tenant context required", store)
                       else if f_devices then (TicketError 500 "failed to resolve device", store)
                       else if negb (bool_decide (deviceID ∈ devices)) then (TicketError 404 "device not found", store)
                       else match store with
                            | None => (TicketError 503 "ws ticket store not initialised", store)
                            | Some _ =>
                                match Issue (p_nanos p) rand username (claim_text "role" c) deviceID
                                        (trim_prefix schema "tenant_") store with
                                | (Err _, store) => (TicketError 500 "failed to issue ticket", store)
                                | (Ok (id, t), store) =>
                                    (TicketIssued id (Z.quot (t_ExpiresAt t - p_nanos p) 1000000000), store)
                                end
                            end
                   end
          end
      end
  end.
End access.
