(* ===== verification/Enrollment.v ===== *)
(** How a device joins a site: [internal/database/enrollment.go] and
    [internal/api/handlers/enrollment.go].

    The tables of a tenant schema that enrollment and the credentials of devices use
    are [schema_tables]: the tables of [Store], with the columns of the sites and the
    devices that only this part reads, and the nonces.  Times are microseconds; a
    call reads the clock of the controller and of the database once.  Whether the
    driver fails a statement is an argument, by the statement's number. *)

From S2P Require Import Prelude GoStrings Sha256 Json Store DeviceOperation Rollouts Access.

(** ** Tables *)

Record site_auth := SiteAuth {
  sa_api_key : option string;
  sa_auto_adopt : option bool;
  sa_token_hash : option string;
  sa_token_expires : option Z
}.
Record device_auth := DeviceAuth {
  da_token : option string;
  da_status : option string;
  da_last_ip : option string;
  da_last_seen : option Z
}.
Record nonce_row := NonceRow { nr_device : string; nr_expires : Z }.
(** [nonces] by site and hash. A device without an entry in [device_auths] has only
    NULLs there. *)
Record schema_tables := Tables {
  base : tenant;
  site_auths : gmap string site_auth;
  device_auths : gmap string device_auth;
  nonces : gmap (string * string) nonce_row
}.
(** The schemas of the database. *)
Abbreviation schemas := (gmap string schema_tables).
Definition no_auth : device_auth := DeviceAuth None None None None.
Definition auth_of (t : schema_tables) (id : string) : device_auth := default no_auth (device_auths t !! id).
Definition set_sites (f : gmap string site_auth → gmap string site_auth) (t : schema_tables) : schema_tables :=
  Tables (base t) (f (site_auths t)) (device_auths t) (nonces t).

Definition ErrEnrollmentTokenNotFound : gerror := ErrSentinel "device enrollment token not found".
Definition ErrEnrollmentSiteNotFound : gerror := ErrSentinel "enrollment site not found".
Definition ErrEnrollmentDisabled : gerror := ErrSentinel "device enrollment is disabled".
Definition ErrEnrollmentNonceConflict : gerror := ErrSentinel "enrollment nonce belongs to another device".
Definition ErrDeviceAlreadyEnrolled : gerror := ErrSentinel "device is already enrolled".

(** [DeviceEnrollmentTokenTTL] *)
Definition hours (n : Z) : Z := n * 3600000000.
Definition DeviceEnrollmentTokenTTL : Z := hours 24.
(** [HashDeviceEnrollmentToken], [hashEnrollmentNonce] and [randomEnrollmentToken] *)
Definition HashDeviceEnrollmentToken (token : string) : string := sha256_hex token.
Definition hashEnrollmentNonce (nonce : string) : string := sha256_hex nonce.
Definition randomEnrollmentToken (rand : entropy) : res string :=
  match rand with Some bytes => Ok (hex_encode (take 32 bytes)) | None => Err ErrDriver end.

(** ** The token of a site *)

Definition expired_token (now : Z) (s : site_auth) : bool :=
  negb (match sa_token_expires s with Some e => now <? e | None => false end)%Z.
Definition with_token (hash : option string) (expires : option Z) (s : site_auth) : site_auth :=
  SiteAuth (sa_api_key s) (sa_auto_adopt s) hash expires.
(** [IssueDeviceEnrollmentToken], in the transaction of the request. *)
Definition IssueDeviceEnrollmentToken (f : nat → bool) (now : Z) (rand : entropy) (schema siteID : string) (ttl : Z)
    (t : schema_tables) : res (string * Z * schema_tables) :=
  let! _ := SafeSchemaIdent schema in
  let! _ := fail_if (trim_space siteID =? "") ErrEnrollmentSiteNotFound in
  let! _ := fail_if (ttl <=? 0)%Z (ErrText "enrollment token TTL must be positive") in
  let! _ := fail_if (f 0%nat) ErrDriver in
  let! site := uuid_param siteID in
  match site_auths t !! site with
  | None => Err ErrEnrollmentSiteNotFound
  | Some s =>
      let! token := randomEnrollmentToken rand in
      let! _ := fail_if (f 1%nat) ErrDriver in
      Ok (token, (now + ttl)%Z,
          set_sites <[site := with_token (Some (HashDeviceEnrollmentToken token)) (Some (now + ttl)%Z) s]> t)
  end.
(** [RevokeDeviceEnrollmentToken] *)
Definition RevokeDeviceEnrollmentToken (f : nat → bool) (schema siteID : string) (t : schema_tables) : res schema_tables :=
  let! _ := SafeSchemaIdent schema in
  let! _ := fail_if (f 0%nat) ErrDriver in
  let! site := uuid_param siteID in
  match site_auths t !! site with
  | None => Err ErrEnrollmentSiteNotFound
  | Some s => Ok (set_sites <[site := with_token None None s]> t)
  end.

(** The sites that a token opens, in the order of the database. *)
Definition opens (now : Z) (hash : string) (s : site_auth) : bool :=
  bool_decide (sa_token_hash s = Some hash) && negb (expired_token now s) && default false (sa_auto_adopt s).
Definition open_sites (now : Z) (hash : string) (t : schema_tables) : list string :=
  map fst (filter (λ kv, opens now hash kv.2 = true) (map_to_list (site_auths t))).
(** [ResolveDeviceEnrollmentToken]; the aliases are those of the active tenants, in
    the order of the database, and [f] says which schema's query fails. *)
Fixpoint resolve_enrollment (f : string → bool) (now : Z) (hash : string) (aliases : list string) (db : schemas)
    (found : option (string * string)) : res (string * string) :=
  match aliases with
  | [] => match found with Some match_ => Ok match_ | None => Err ErrEnrollmentTokenNotFound end
  | alias :: aliases =>
      match SafeTenantSchema alias with
      | Err _ => resolve_enrollment f now hash aliases db found
      | Ok schema =>
          match (if f schema then None else db !! schema) with
          | None => Err ErrDriver
          | Some t =>
              match open_sites now hash t, found with
              | [], _ => resolve_enrollment f now hash aliases db found
              | site :: _, None => resolve_enrollment f now hash aliases db (Some (schema, site))
              | _ :: _, Some _ => Err (ErrText "device enrollment token is ambiguous")
              end
          end
      end
  end.
Definition active_aliases (l : landlord) : list string :=
  map tr_alias (filter (λ t, tr_active t = true) (map snd (map_to_list (tenants l)))).
Definition ResolveDeviceEnrollmentToken (f_list : bool) (f : string → bool) (now : Z) (token : string) (l : landlord)
    (db : schemas) : res (string * string) :=
  let! _ := fail_if (trim_space token =? "") ErrEnrollmentTokenNotFound in
  let! _ := fail_if f_list ErrDriver in
  resolve_enrollment f now (HashDeviceEnrollmentToken token) (active_aliases l) db None.

(** ** Enrolling *)

(** [DeviceEnrollmentResult] *)
Record enrollment := Enrollment { e_DeviceID : string; e_SiteID : string; e_Token : string; e_Created : bool }.

(** A new row of [devices] and an updated one. *)
Definition inserted_device (now : Z) (site : string) (capabilities : json) : device_row :=
  Device (Some site) (Some "AP") (Some capabilities) 0 0 0 None None None None None None None (Some now).
Definition adopt_device (now : Z) (site : string) (capabilities : json) (d : device_row) : device_row :=
  Device (Some site) (d_device_role d) (Some capabilities) (d_desired d) (d_observed d) (d_last_successful d)
    (d_pending_operation d) (d_last_operation d) (d_pending_change_set d) (d_last_change_set d) (d_rollout_status d)
    (d_rollout_at d) (d_health_check_at d) (Some now).
Definition token_taken (token deviceID : string) (t : schema_tables) : bool :=
  bool_decide (map_Exists (λ id a, id ≠ deviceID ∧ da_token a = Some token) (device_auths t)).
Definition put_device (now : Z) (deviceID site token : string) (capabilities : json) (t : schema_tables) : res schema_tables :=
  let! _ := varchar 50 deviceID in
  let! capabilities := jsonb_param capabilities in
  let! _ := fail_if (token_taken token deviceID t) ErrDriver in
  let a := auth_of t deviceID in
  let '(row, seen) := match devices (base t) !! deviceID with
                      | Some d => (adopt_device now site capabilities d, da_last_seen a)
                      | None => (inserted_device now site capabilities, Some now)
                      end in
  Ok (Tables (set_devices <[deviceID := row]> (base t)) (site_auths t)
        (<[deviceID := DeviceAuth (Some token) (Some "Adopted") (da_last_ip a) seen]> (device_auths t)) (nonces t)).
Definition put_nonce (now : Z) (site hash deviceID : string) (t : schema_tables) : res schema_tables :=
  let! _ := fail_if (bool_decide (is_Some (nonces t !! (site, hash)))) ErrDriver in
  Ok (Tables (base t) (site_auths t) (device_auths t) (<[(site, hash) := NonceRow deviceID (now + hours 24)]> (nonces t))).

(** The device that holds a nonce. *)
Definition nonce_holder (now : Z) (site hash : string) (t : schema_tables) : option string :=
  n ← nonces t !! (site, hash); if (now <? nr_expires n)%Z then Some (nr_device n) else None.
(** The body of the transaction of [EnrollDevice]; its result carries the tables to
    commit. *)
Definition enroll_tx (f : nat → bool) (now : Z) (rand : entropy) (siteID tokenHash deviceID nonce : string)
    (capabilities : json) (t : schema_tables) : res (enrollment * schema_tables) :=
  let! _ := fail_if (f 1%nat) ErrDriver in
  let! site := uuid_param siteID in
  match site_auths t !! site with
  | None => Err ErrEnrollmentTokenNotFound
  | Some s =>
      let! _ := fail_if (negb (default false (sa_auto_adopt s))) ErrEnrollmentDisabled in
      let! _ := fail_if (expired_token now s || negb (bool_decide (sa_token_hash s = Some tokenHash)))
                  ErrEnrollmentTokenNotFound in
      let nonceHash := hashEnrollmentNonce nonce in
      let! _ := fail_if (f 2%nat) ErrDriver in
      match nonce_holder now site nonceHash t with
      | Some holder =>
          let! _ := fail_if (negb (holder =? deviceID)) ErrEnrollmentNonceConflict in
          let! _ := fail_if (f 3%nat) ErrDriver in
          match devices (base t) !! deviceID with
          | None => Err (ErrSentinel "sql: no rows in result set")
          | Some d =>
              match da_token (auth_of t deviceID) with
              | Some token =>
                  let! _ := fail_if (negb (bool_decide (d_site_id d = Some siteID)) || (token =? ""))
                              (ErrText "enrollment record is incomplete") in
                  Ok (Enrollment deviceID siteID token false, t)
              | None => Err (ErrText "enrollment record is incomplete")
              end
          end
      | None =>
          let! _ := fail_if (f 3%nat) ErrDriver in
          let! _ := fail_if (match devices (base t) !! deviceID with Some d => nonempty (coalesce (d_site_id d) "") | None => false end)
                      ErrDeviceAlreadyEnrolled in
          let! token := randomEnrollmentToken rand in
          let! _ := fail_if (f 4%nat) ErrDriver in
          let! t := put_device now deviceID site token capabilities t in
          let! _ := fail_if (f 5%nat) ErrDriver in
          let! t := put_nonce now site nonceHash deviceID t in
          Ok (Enrollment deviceID siteID token true, t)
      end
  end.
(** [EnrollDevice]: an error, that of the commit included, leaves the tables alone. *)
Definition EnrollDevice (f : nat → bool) (now : Z) (rand : entropy) (schema siteID tokenHash deviceID nonce : string)
    (capabilities : json) (db : schemas) : res enrollment * schemas :=
  let result :=
    let! schema := SafeSchemaIdent schema in
    let! _ := fail_if ((siteID =? "") || (tokenHash =? "") || (deviceID =? "") || (nonce =? ""))
                (ErrText "enrollment identity is incomplete") in
    let! _ := fail_if (f 0%nat) ErrDriver in
    match db !! schema with
    | None => Err ErrDriver
    | Some t =>
        let! '(e, t) := enroll_tx f now rand siteID tokenHash deviceID nonce capabilities t in
        let! _ := fail_if (f 6%nat) ErrDriver in
        Ok (e, <[schema := t]> db)
    end in
  match result with
  | Ok (e, db) => (Ok e, db)
  | Err e => (Err e, db)
  end.

(** ** Handlers *)

(** [enrollmentDeviceIDPattern] and [enrollmentNoncePattern] *)
Definition device_id_start (c : ascii) : bool := is_upper c || is_digit c.
Definition enrollment_id_char (c : ascii) : bool := device_id_start c || in_chars ":._-" c.
Definition enrollment_device_id (s : string) : bool :=
  match s with
  | String c r => device_id_start c && str_forall enrollment_id_char r && (String.length r <=? 49)%nat
  | EmptyString => false
  end.
Definition nonce_char (c : ascii) : bool := is_alnum c || in_chars "_-" c.
Definition enrollment_nonce (s : string) : bool :=
  str_forall nonce_char s && (16 <=? String.length s)%nat && (String.length s <=? 128)%nat.
(** [normalizeEnrollmentDeviceID] *)
Definition normalizeEnrollmentDeviceID (raw : string) : res string :=
  let deviceID := to_upper (trim_space raw) in
  if enrollment_device_id deviceID then Ok deviceID else Err (ErrText "invalid device_id").

(** A request body: whether it is longer than [maxDeviceEnrollmentBody], its first
    value, and whether more follows. *)
Record enrollment_body := EnrollmentBody { eb_long : bool; eb_value : raw_message; eb_trailing : bool }.
(** [deviceEnrollmentRequest]; [None] stands for absent capabilities. *)
Record deviceEnrollmentRequest := EnrollmentRequest { eq_DeviceID : string; eq_Nonce : string; eq_Capabilities : option json }.
Definition dec_enrollment : decoder deviceEnrollmentRequest := dec_struct [
  ("device_id", λ j q, v ← dec_string j (eq_DeviceID q); Some (EnrollmentRequest v (eq_Nonce q) (eq_Capabilities q)));
  ("nonce", λ j q, v ← dec_string j (eq_Nonce q); Some (EnrollmentRequest (eq_DeviceID q) v (eq_Capabilities q)));
  ("capabilities", λ j q, Some (EnrollmentRequest (eq_DeviceID q) (eq_Nonce q) (Some j)))
].
(** [DisallowUnknownFields] *)
Definition known_fields (names : list string) (j : json) : bool :=
  match j with JObj l => forallb (λ kv, existsb (equal_fold kv.1) names) l | _ => true end.
(** [parseDeviceEnrollmentRequest] *)
Definition parseDeviceEnrollmentRequest (body : enrollment_body) : res (string * string * json) :=
  let! _ := fail_if (eb_long body) (ErrText "enrollment request too large") in
  let strict := j ← eb_value body; if known_fields ["device_id"; "nonce"; "capabilities"] j then Some j else None in
  match unmarshal dec_enrollment (EnrollmentRequest "" "" None) strict with
  | None => Err (ErrText "invalid enrollment json")
  | Some q =>
      let! _ := fail_if (eb_trailing body) (ErrText "enrollment request has trailing data") in
      let! deviceID := normalizeEnrollmentDeviceID (eq_DeviceID q) in
      let nonce := trim_space (eq_Nonce q) in
      let! _ := fail_if (negb (enrollment_nonce nonce)) (ErrText "invalid enrollment nonce") in
      match default (JObj []) (eq_Capabilities q) with
      | JObj l => Ok (deviceID, nonce, JObj l)
      | _ => Err (ErrText "capabilities must be an object")
      end
  end.

Inductive enrollment_response :=
  | EnrollmentError (status : Z) (message : string)
  | EnrollmentOK (status : Z) (e : enrollment)
  | TokenIssued (token : string) (expires : Z)
  | TokenRevoked.
(** The driver's faults of one request. *)
Record enrollment_faults := EnrollmentFaults { ef_tenants : bool; ef_schema : string → bool; ef_enroll : nat → bool }.
Definition error_text (e : gerror) : string := match e with ErrText t | ErrSentinel t => t | _ => "" end.
(** [DeviceEnrollmentHandler] *)
Definition enrollment_error (e : gerror) : enrollment_response :=
  if errors_is e ErrEnrollmentTokenNotFound then EnrollmentError 403 "invalid or expired site enrollment token"
  else if errors_is e ErrEnrollmentDisabled then EnrollmentError 403 "device enrollment is disabled for this site"
  else if errors_is e ErrEnrollmentNonceConflict then EnrollmentError 409 "enrollment nonce was already used"
  else if errors_is e ErrDeviceAlreadyEnrolled then EnrollmentError 409 "device is already enrolled"
  else if errors_is e ErrEnrollmentSiteNotFound then EnrollmentError 404 "enrollment site not found"
  else EnrollmentError 500 "device enrollment failed".
Definition DeviceEnrollmentHandler (f : enrollment_faults) (now : Z) (rand : entropy) (l : landlord) (method header : string)
    (body : enrollment_body) (db : schemas) : enrollment_response * schemas :=
  if negb (method =? "POST") then (EnrollmentError 405 "method not allowed", db)
  else
    let enrollmentToken := trim_space header in
    if enrollmentToken =? "" then (EnrollmentError 401 "missing site enrollment token", db)
    else if (256 <? String.length enrollmentToken)%nat then (EnrollmentError 401 "invalid site enrollment token", db)
    else match parseDeviceEnrollmentRequest body with
         | Err e => (EnrollmentError 400 (error_text e), db)
         | Ok (deviceID, nonce, capabilities) =>
             match ResolveDeviceEnrollmentToken (ef_tenants f) (ef_schema f) now enrollmentToken l db with
             | Err e =>
                 (if errors_is e ErrEnrollmentTokenNotFound then EnrollmentError 403 "invalid or expired site enrollment token"
                  else EnrollmentError 503 "enrollment service unavailable", db)
             | Ok (schema, siteID) =>
                 match EnrollDevice (ef_enroll f) now rand schema siteID (HashDeviceEnrollmentToken enrollmentToken) deviceID nonce
                         capabilities db with
                 | (Err e, db) => (enrollment_error e, db)
                 | (Ok e, db) => (EnrollmentOK (if e_Created e then 201 else 200) e, db)
                 end
             end
         end.
(** [IssueDeviceEnrollmentTokenHandler] and [RevokeDeviceEnrollmentTokenHandler], for a
    request that the middleware passed with [schema]. *)
Definition site_request (schema : option string) (site_path failed : string) (db : schemas)
    (k : string → string → schema_tables → enrollment_response * schemas) : enrollment_response * schemas :=
  match SafeSchemaIdent (default "public" schema) with
  | Err _ => (EnrollmentError 500 "invalid tenant context", db)
  | Ok schema =>
      let siteID := trim_space site_path in
      if siteID =? "" then (EnrollmentError 400 "site_id is required", db)
      else match db !! schema with
           | None => (EnrollmentError 500 failed, db)
           | Some t => k schema siteID t
           end
  end.
Definition IssueDeviceEnrollmentTokenHandler (f : nat → bool) (now : Z) (rand : entropy) (schema : option string)
    (site_path : string) (db : schemas) : enrollment_response * schemas :=
  site_request schema site_path "could not issue enrollment token" db (λ schema siteID t,
    match IssueDeviceEnrollmentToken f now rand schema siteID DeviceEnrollmentTokenTTL t with
    | Err e =>
        (if errors_is e ErrEnrollmentSiteNotFound then EnrollmentError 404 "site not found"
         else EnrollmentError 500 "could not issue enrollment token", db)
    | Ok (token, expires, t) => (TokenIssued token expires, <[schema := t]> db)
    end).
Definition RevokeDeviceEnrollmentTokenHandler (f : nat → bool) (schema : option string) (site_path : string) (db : schemas)
    : enrollment_response * schemas :=
  site_request schema site_path "could not revoke enrollment token" db (λ schema siteID t,
    match RevokeDeviceEnrollmentToken f schema siteID t with
    | Err e =>
        (if errors_is e ErrEnrollmentSiteNotFound then EnrollmentError 404 "site not found"
         else EnrollmentError 500 "could not revoke enrollment token", db)
    | Ok t => (TokenRevoked, <[schema := t]> db)
    end).
