(* ===== verification/Provision.v ===== *)
(** What a device is served: [internal/api/handlers/provision.go], the credentials and
    the adoption of [internal/api/handlers/telemetry.go], and the lookups of tenants
    by credential of [internal/database/postgres.go].

    The requests of devices do not pass the middleware, so every statement is its own
    transaction.  [legacy] is [allowLegacyProvision], the environment's
    ALLOW_LEGACY_PROVISION; the driver's faults are arguments, by statement. *)

From S2P Require Import Prelude GoStrings Sha256 Json Store DeviceOperation DeviceOperationFacts DeviceOperations ChangeSets Rollouts RolloutPlan Renderer Orchestrator SiteConfigs Access Enrollment.

(** ** The tenant of a credential *)

(** The query for the tenants, and the query of a schema. *)
Record lookup_faults := LookupFaults { lf_list : bool; lf_schema : string → bool }.
Definition no_lookup_faults : lookup_faults := LookupFaults false (λ _, false).
(** A schema the loop goes on with; the others are skipped. *)
Definition readable (f : lookup_faults) (alias : string) (db : schemas) : option (string * schema_tables) :=
  match SafeTenantSchema alias with
  | Err _ => None
  | Ok schema => if lf_schema f schema then None else t ← db !! schema; Some (schema, t)
  end.
Definition key_known (key : string) (t : schema_tables) : bool :=
  bool_decide (map_Exists (λ _ s, sa_api_key s = Some key) (site_auths t)).
(** A device of the table has the token. *)
Definition has_token (token : string) (t : schema_tables) (id : string) : bool :=
  bool_decide (is_Some (devices (base t) !! id)) && bool_decide (da_token (auth_of t id) = Some token).
Definition token_known (token : string) (t : schema_tables) : bool :=
  bool_decide (map_Exists (λ id _, has_token token t id = true) (devices (base t))).
(** [GetTenantSchemaForSiteKey] *)
Fixpoint first_with_key (f : lookup_faults) (key : string) (aliases : list string) (db : schemas) : res string :=
  match aliases with
  | [] => Err (ErrText "site key not found in any tenant schema")
  | alias :: aliases =>
      match readable f alias db with
      | Some (schema, t) => if key_known key t then Ok schema else first_with_key f key aliases db
      | None => first_with_key f key aliases db
      end
  end.
Definition GetTenantSchemaForSiteKey (f : lookup_faults) (key : string) (l : landlord) (db : schemas) : res string :=
  let! _ := fail_if (trim_space key =? "") (ErrText "empty site key") in
  let! _ := fail_if (lf_list f) ErrDriver in
  first_with_key f key (active_aliases l) db.
(** [GetTenantSchemaForDeviceToken] *)
Fixpoint only_with_token (f : lookup_faults) (token : string) (aliases : list string) (db : schemas) (match_ : string) : res string :=
  match aliases with
  | [] => if match_ =? "" then Err (ErrText "device token not found") else Ok match_
  | alias :: aliases =>
      match readable f alias db with
      | Some (schema, t) =>
          if token_known token t then
            if negb (match_ =? "") then Err (ErrText "device token is ambiguous") else only_with_token f token aliases db schema
          else only_with_token f token aliases db match_
      | None => only_with_token f token aliases db match_
      end
  end.
Definition GetTenantSchemaForDeviceToken (f : lookup_faults) (token : string) (l : landlord) (db : schemas) : res string :=
  let! _ := fail_if (trim_space token =? "") (ErrText "empty device token") in
  let! _ := fail_if (lf_list f) ErrDriver in
  only_with_token f token (active_aliases l) db "".
(** [resolveDeviceTenant]: the schema and the token that the request is held to. *)
Definition resolveDeviceTenant (ft fk : lookup_faults) (legacy : bool) (providedToken providedKey : string) (l : landlord)
    (db : schemas) : res (string * string) :=
  let by_key := let! schema := GetTenantSchemaForSiteKey fk providedKey l db in Ok (schema, "") in
  if providedToken =? "" then by_key
  else match GetTenantSchemaForDeviceToken ft providedToken l db with
       | Ok schema => Ok (schema, providedToken)
       | Err e => if negb legacy || (providedKey =? "") then Err e else by_key
       end.

(** ** The device of a request *)

(** The first row, in the order of the database, that satisfies [p]. *)
Definition find_device (p : string → device_row → device_auth → bool) (t : schema_tables) : option string :=
  head (map fst (filter (λ kv, p kv.1 kv.2 (auth_of t kv.1) = true) (map_to_list (devices (base t))))).
(** [resolveDeviceIdentity], [resolveDeviceIdentityByToken], [resolveDeviceIdentityByIP] *)
Definition resolveDeviceIdentity (requestedID : string) : schema_tables → option string :=
  find_device (λ id _ _, to_lower id =? to_lower requestedID).
Definition resolveDeviceIdentityByToken (token : string) : schema_tables → option string :=
  find_device (λ _ _ a, bool_decide (da_token a = Some token)).
Definition seen_later (a b : device_auth) : bool :=
  match da_last_seen a, da_last_seen b with
  | Some x, Some y => (y <? x)%Z
  | Some _, None => true
  | None, _ => false
  end.
Definition resolveDeviceIdentityByIP (remoteIP : string) (t : schema_tables) : option string :=
  head (stable_sort (λ a b, seen_later (auth_of t a) (auth_of t b))
    (map fst (filter (λ kv, bool_decide (is_Some (d_site_id kv.2)) && bool_decide (da_last_ip (auth_of t kv.1) = Some remoteIP) = true)
       (map_to_list (devices (base t)))))).

Definition stored_token (t : schema_tables) (id : string) : string := coalesce (da_token (auth_of t id)) "".
(** The key of the site of a device; none without a site. *)
Definition site_key (t : schema_tables) (d : device_row) : option string :=
  site ← d_site_id d; s ← site_auths t !! site; sa_api_key s.
Definition set_auth (id : string) (a : device_auth) (t : schema_tables) : schema_tables :=
  Tables (base t) (site_auths t) (<[id := a]> (device_auths t)) (nonces t).
(** [ensureDeviceToken] for a device without a token: 24 random bytes. *)
Definition ensureDeviceToken (fault : bool) (rand : entropy) (deviceID : string) (t : schema_tables) : res (string * schema_tables) :=
  let token := stored_token t deviceID in
  if negb (token =? "") then Ok (token, t)
  else match rand with
       | None => Err ErrDriver
       | Some bytes =>
           let token := hex_encode (take 24 bytes) in
           let! _ := fail_if (fault || token_taken token deviceID t) ErrDriver in
           let a := auth_of t deviceID in
           Ok (token, set_auth deviceID (DeviceAuth (Some token) (da_status a) (da_last_ip a) (da_last_seen a)) t)
       end.

(** ** Pending work *)

Definition dec_list {A} (elem : decoder A) (zero : A) : decoder (list A) := λ j old,
  default [] <$> dec_slice elem zero j (Some old).
Definition dec_operation_plan : decoder DeviceOperationPlan := dec_struct [
  ("operation_id", λ j '(Plan id hash g c cmds hc auto), v ← dec_string j id; Some (Plan v hash g c cmds hc auto));
  ("plan_hash", λ j '(Plan id hash g c cmds hc auto), v ← dec_string j hash; Some (Plan id v g c cmds hc auto));
  ("generation", λ j '(Plan id hash g c cmds hc auto), v ← dec_int64 j g; Some (Plan id hash v c cmds hc auto));
  ("config", λ j '(Plan id hash g c cmds hc auto), v ← dec_string j c; Some (Plan id hash g v cmds hc auto));
  ("commands", λ j '(Plan id hash g c cmds hc auto), v ← dec_list dec_command zero_command j cmds; Some (Plan id hash g c v hc auto));
  ("health_checks", λ j '(Plan id hash g c cmds hc auto), v ← dec_slice dec_string "" j hc; Some (Plan id hash g c cmds v auto));
  ("auto_confirm", λ j '(Plan id hash g c cmds hc auto), v ← dec_bool j auto; Some (Plan id hash g c cmds hc v))
].
Definition zero_change_operation : DeviceChangeOperation := ChangeOperation "" "" [] "".
Definition dec_change_operation : decoder DeviceChangeOperation := dec_struct [
  ("operation_id", λ j '(ChangeOperation id c cmds h), v ← dec_string j id; Some (ChangeOperation v c cmds h));
  ("config", λ j '(ChangeOperation id c cmds h), v ← dec_string j c; Some (ChangeOperation id v cmds h));
  ("commands", λ j '(ChangeOperation id c cmds h), v ← dec_list dec_command zero_command j cmds; Some (ChangeOperation id c v h));
  ("observed_state_hash", λ j '(ChangeOperation id c cmds h), v ← dec_string j h; Some (ChangeOperation id c cmds v))
].
Definition dec_change_set : decoder DeviceChangeSet := dec_struct [
  ("change_set_id", λ j '(ChangeSet id dev hash g ops hc pol), v ← dec_string j id; Some (ChangeSet v dev hash g ops hc pol));
  ("device_id", λ j '(ChangeSet id dev hash g ops hc pol), v ← dec_string j dev; Some (ChangeSet id v hash g ops hc pol));
  ("plan_hash", λ j '(ChangeSet id dev hash g ops hc pol), v ← dec_string j hash; Some (ChangeSet id dev v g ops hc pol));
  ("generation", λ j '(ChangeSet id dev hash g ops hc pol), v ← dec_int64 j g; Some (ChangeSet id dev hash v ops hc pol));
  ("operations", λ j '(ChangeSet id dev hash g ops hc pol),
     v ← dec_list dec_change_operation zero_change_operation j ops; Some (ChangeSet id dev hash g v hc pol));
  ("health_checks", λ j '(ChangeSet id dev hash g ops hc pol), v ← dec_slice dec_string "" j hc; Some (ChangeSet id dev hash g ops v pol));
  ("confirmation_policy", λ j '(ChangeSet id dev hash g ops hc pol), v ← dec_string j pol; Some (ChangeSet id dev hash g ops hc v))
].
(** [decodePendingDeviceOperation], [decodePendingDeviceChangeSet],
    [validatePendingDeviceChangeSetForDevice] *)
Definition decodePendingDeviceOperation (raw : json) : res DeviceOperationPlan :=
  match dec_operation_plan raw (Plan "" "" 0 "" [] None false) with
  | None => Err (ErrText "invalid pending operation")
  | Some plan =>
      match ValidateDeviceOperationPlan plan with
      | Ok _ => Ok plan
      | Err e => Err (ErrWrap e "invalid pending operation")
      end
  end.
Definition decodePendingDeviceChangeSet (raw : json) : res DeviceChangeSet :=
  match dec_change_set raw zero_change_set with
  | None => Err (ErrText "invalid pending changeset")
  | Some changeSet =>
      match ValidateDeviceChangeSet changeSet with
      | Ok _ => Ok changeSet
      | Err e => Err (ErrWrap e "invalid pending changeset")
      end
  end.
Definition validatePendingDeviceChangeSetForDevice (changeSet : DeviceChangeSet) (deviceID : string) : res unit :=
  let! _ := fail_if (negb (equal_fold (cs_DeviceID changeSet) deviceID)) (ErrText "pending changeset targets a different device") in
  fail_if (cs_Generation changeSet <=? 0)%Z (ErrText "pending changeset has no reserved generation").

(** ** Wireless networks *)

(** A row of [wlans] as the query of the handler gives it, and whether it is assigned
    to the device. *)
Record provision_wlan := ProvisionWlan {
  pw_ssid : string;
  pw_security : string;
  pw_password : string;
  pw_band : string;
  pw_roaming : bool;
  pw_k : bool;
  pw_v : bool;
  pw_w : string;
  pw_auth_server : string;
  pw_auth_secret : string;
  pw_dynamic_vlan : string;
  pw_target_mode : string;
  pw_assigned : bool
}.
(** The wireless settings of the site; the defaults when they cannot be read. *)
Record site_wireless := SiteWireless { sw_enabled : bool; sw_ssid : string; sw_key : string; sw_encryption : string }.
Definition default_wireless : site_wireless := SiteWireless true "" "" "".
Definition member_if (b : bool) (key value : string) : list (string * json) := if b then [(key, JStr value)] else [].
Definition provision_wlan_json (security password : string) (w : provision_wlan) : json := JObj (
  [("ssid", JStr (pw_ssid w)); ("security", JStr security); ("band", JStr (pw_band w))] ++
  member_if (nonempty password) "key" password ++ member_if (pw_roaming w) "ieee80211r" "1" ++
  member_if (pw_k w) "ieee80211k" "1" ++ member_if (pw_v w) "ieee80211v" "1" ++
  member_if (negb (pw_w w =? "0") && nonempty (pw_w w)) "ieee80211w" (pw_w w) ++
  member_if (nonempty (pw_auth_server w)) "auth_server" (pw_auth_server w) ++
  member_if (nonempty (pw_auth_secret w)) "auth_secret" (pw_auth_secret w) ++
  member_if (negb (pw_dynamic_vlan w =? "0") && nonempty (pw_dynamic_vlan w)) "dynamic_vlan" (pw_dynamic_vlan w))%list.
(** The networks of the device and the conflicts with the settings of the site. *)
Fixpoint provision_wlans (site : site_wireless) (rows : list provision_wlan) : list json * list string :=
  match rows with
  | [] => ([], [])
  | w :: rows =>
      let '(wlans, conflicts) := provision_wlans site rows in
      if negb (WLANAppliesToDevice (sw_enabled site) (pw_target_mode w) (pw_assigned w)) then (wlans, conflicts)
      else
        let resolution := ResolveCanonicalWLAN (sw_ssid site) (sw_encryption site) (sw_key site) (pw_ssid w) (pw_security w) (pw_password w) in
        (provision_wlan_json (wr_Security resolution) (wr_Password resolution) w :: wlans,
         match wr_Conflicts resolution with
         | [] => conflicts
         | l => (pw_ssid w +:+ ": " +:+ str_join "," l) :: conflicts
         end)
  end.

(** ** [GetDeviceConfigHandler] *)

Record device_request := DeviceRequest { dr_device : string; dr_key : string; dr_token : string; dr_ip : string }.
(** The parts of the answer that this file models. *)
Record device_config := DeviceConfig {
  dc_device : string;
  dc_token : string;
  dc_root_token : option string;
  dc_operation : option DeviceOperationPlan;
  dc_change_set : option DeviceChangeSet;
  dc_wlans : list json;
  dc_conflicts : list string
}.
Inductive config_response :=
  | ConfigError (status : Z) (text : string)
  | ConfigWait
  | ConfigApply (schema : string) (c : device_config).
(** The tables that only this handler reads: the wireless settings of a site and the
    enabled networks of a site for a device. *)
Record wireless_tables := WirelessTables {
  wt_site : string → option site_wireless;
  wt_wlans : string → string → list provision_wlan
}.

(** The pending work of a device, read and checked; an error is the message of a 503. *)
Definition pending_work (f : nat → bool) (schema deviceID : string) (t : tenant)
    : string + option DeviceOperationPlan * option DeviceChangeSet :=
  match (GetPendingDeviceOperation schema deviceID (World t [f 5%nat])).1 with
  | Err _ => inl "could not read pending device operation"
  | Ok raw =>
      match (match raw with Some raw => let! p := decodePendingDeviceOperation raw in Ok (Some p) | None => Ok None end) with
      | Err _ => inl "pending device operation is invalid"
      | Ok operation =>
          match (GetPendingDeviceChangeSet schema deviceID (World t [f 6%nat])).1 with
          | Err _ => inl "could not read pending device changeset"
          | Ok None => inr (operation, None)
          | Ok (Some raw) =>
              match decodePendingDeviceChangeSet raw with
              | Err _ => inl "pending device changeset is invalid"
              | Ok changeSet =>
                  if negb (is_ok (validatePendingDeviceChangeSetForDevice changeSet deviceID))
                  then inl "pending device changeset identity is invalid"
                  else match operation with
                       | Some _ => inl "conflicting pending device work"
                       | None => inr (operation, Some changeSet)
                       end
              end
          end
      end
  end.
(** The device that the request is about, as the lookups by name, by token and by
    address give it; [None] is a driver error. *)
Definition config_device (f : nat → bool) (legacy : bool) (deviceID token ip : string) (t : schema_tables) : option (option string) :=
  let lookup k found := if f k then None else Some found in
  id ← lookup 0%nat (resolveDeviceIdentity deviceID t);
  id ← match id with
       | None => if negb (token =? "") then lookup 1%nat (resolveDeviceIdentityByToken token t) else Some None
       | _ => Some id
       end;
  match id with
  | None => if (token =? "") && legacy then lookup 2%nat (resolveDeviceIdentityByIP ip t) else Some None
  | _ => Some id
  end.
Definition serve_config (f : nat → bool) (legacy : bool) (wt : wireless_tables) (schema deviceID token key storedToken : string)
    (t : schema_tables) : config_response :=
  if f 4%nat then ConfigError 500 "database error"
  else match devices (base t) !! deviceID with
       | None => ConfigError 404 "device not found"
       | Some d =>
           let siteKey := coalesce (site_key t d) "" in
           if (token =? "") && nonempty siteKey && nonempty key && negb (key =? siteKey)
           then ConfigError 403 "Forbidden: invalid site key"
           else match pending_work f schema deviceID (base t) with
                | inl text => ConfigError 503 text
                | inr (operation, changeSet) =>
                    match d_site_id d with
                    | None => ConfigWait
                    | Some site =>
                        if f 8%nat then ConfigError 500 "database error"
                        else
                          let wireless := if f 7%nat then default_wireless else default default_wireless (wt_site wt site) in
                          let '(wlans, conflicts) := provision_wlans wireless (wt_wlans wt site deviceID) in
                          ConfigApply schema (DeviceConfig deviceID storedToken (if legacy then Some storedToken else None)
                            operation changeSet wlans conflicts)
                    end
                end
       end.
Definition GetDeviceConfigHandler (ft fk : lookup_faults) (f : nat → bool) (legacy : bool) (rand : entropy) (l : landlord)
    (wt : wireless_tables) (r : device_request) (db : schemas) : config_response * schemas :=
  match normalizeEnrollmentDeviceID (dr_device r) with
  | Err _ => (ConfigError 400 "device_id is required", db)
  | Ok deviceID =>
      if (dr_key r =? "") && (dr_token r =? "") then (ConfigError 403 "Forbidden: missing device credentials", db)
      else if (dr_token r =? "") && negb legacy then (ConfigError 401 "X-Device-Token header is required", db)
      else match resolveDeviceTenant ft fk legacy (dr_token r) (dr_key r) l db with
           | Err _ => (ConfigError 403 "Forbidden: invalid device credentials", db)
           | Ok (schema, token) =>
               match (s ← match SafeSchemaIdent schema with Ok s => Some s | Err _ => None end; t ← db !! s; Some t) with
               | None => (ConfigError 403 "Forbidden: invalid site key", db)
               | Some t =>
                   match config_device f legacy deviceID token (dr_ip r) t with
                   | None => (ConfigError 500 "database error", db)
                   | Some None =>
                       if token =? "" then (ConfigError 404 "device not found", db)
                       else (ConfigError 401 "invalid device token", db)
                   | Some (Some id) =>
                       let storedToken := stored_token t id in
                       if negb (token =? "") then
                         if (storedToken =? "") || negb (storedToken =? token) then (ConfigError 401 "invalid device token", db)
                         else (serve_config f legacy wt schema id token (dr_key r) storedToken t, db)
                       else match ensureDeviceToken (f 3%nat) rand id t with
                            | Err _ => (ConfigError 500 "could not initialize device token", db)
                            | Ok (storedToken, t) =>
                                (serve_config f legacy wt schema id token (dr_key r) storedToken t, <[schema := t]> db)
                            end
                   end
               end
           end
  end.

(** ** Telemetry *)

(** [validateDeviceTelemetryToken] and [validateDeviceTelemetryTokenForMode] *)
Definition validateDeviceTelemetryToken (storedToken providedToken : string) : res unit :=
  if storedToken =? "" then
    if providedToken =? "" then Ok tt else Err (ErrText "device token is not initialized")
  else fail_if ((providedToken =? "") || negb (providedToken =? storedToken)) (ErrText "invalid device token").
Definition validateDeviceTelemetryTokenForMode (storedToken providedToken : string) (legacy : bool) : res unit :=
  if nonempty storedToken && (providedToken =? "") && legacy then Ok tt
  else validateDeviceTelemetryToken storedToken providedToken.

(** A status that a background task records. *)
Inductive status_report :=
  | OperationStatus (status : json)
  | ChangeSetStatus (status : json).
Inductive telemetry_response :=
  | TelemetryError (status : Z) (text : string)
  | TelemetryAccepted (schema device : string) (reports : list status_report).

(** Members of a decoded object: the last one of a key. *)
Definition body_member (key : string) (body : list (string * json)) : option json := assoc key (rev body).
Definition body_text (key : string) (body : list (string * json)) : string :=
  match body_member key body with Some (JStr s) => s | _ => "" end.
Definition body_object (key : string) (body : list (string * json)) : option (list (string * json)) :=
  match body_member key body with Some (JObj l) => Some l | _ => None end.
(** What [json.Marshal] gives for a decoded value: keys once and sorted. *)
Fixpoint insert_key (kv : string * json) (l : list (string * json)) : list (string * json) :=
  match l with
  | [] => [kv]
  | kv1 :: l' => if kv.1 =? kv1.1 then kv :: l' else if str_less kv.1 kv1.1 then kv :: l else kv1 :: insert_key kv l'
  end.
Fixpoint remarshal (j : json) : json :=
  match j with
  | JArr l => JArr (map remarshal l)
  | JObj l => JObj (fold_left (λ acc kv, insert_key (kv.1, remarshal kv.2) acc) l [])
  | _ => j
  end.
Definition status_reports (body : list (string * json)) : list status_report :=
  (match body_object "transaction" body with
   | Some l =>
       if nonempty (body_text "change_set_id" l) then [ChangeSetStatus (remarshal (JObj l))]
       else if nonempty (body_text "id" l) && nonempty (body_text "state" l) then [OperationStatus (remarshal (JObj l))] else []
   | None => []
   end ++
   match body_object "change_set_transaction" body with
   | Some l => if nonempty (body_text "change_set_id" l) then [ChangeSetStatus (remarshal (JObj l))] else []
   | None => []
   end)%list.

(** The device of the report: by name, then by token, then, for an old agent, by
    address; [inr None] is an unknown one. *)
Definition telemetry_device (f : nat → bool) (legacy : bool) (deviceID authToken ip : string) (t : schema_tables)
    : (Z * string) + string :=
  let refused := inl (403%Z, "Forbidden: unknown device") in
  let failed := inl (500%Z, "Internal server error") in
  if f 0%nat then failed
  else match resolveDeviceIdentity deviceID t with
       | Some id => inr id
       | None =>
           if negb (authToken =? "") then
             if f 1%nat then failed
             else match resolveDeviceIdentityByToken authToken t with Some id => inr id | None => refused end
           else if negb legacy then refused
           else if f 2%nat then refused
           else match resolveDeviceIdentityByIP ip t with
                | None => refused
                | Some id => if f 3%nat then failed else match resolveDeviceIdentity id t with Some id => inr id | None => failed end
                end
       end.
(** Whether the credentials are those of the device. *)
Definition telemetry_credentials (legacy : bool) (authToken key storedToken : string) (site : option string) (siteKey : option string)
    : option string :=
  match site with
  | Some _ =>
      if coalesce siteKey "" =? "" then Some "Forbidden: device site is not configured"
      else if (authToken =? "") && nonempty key && negb (key =? coalesce siteKey "") then Some "Forbidden: invalid site key"
      else if (storedToken =? "") && (nonempty authToken || (negb legacy && (key =? "")))
           then Some "Forbidden: device token is not initialized"
      else if nonempty storedToken && negb (is_ok (validateDeviceTelemetryTokenForMode storedToken authToken legacy))
           then Some "Forbidden: invalid device token"
      else None
  | None =>
      if nonempty storedToken then
        if is_ok (validateDeviceTelemetryTokenForMode storedToken authToken legacy) then None
        else Some "Forbidden: invalid device token"
      else if nonempty authToken then Some "Forbidden: invalid device token" else None
  end.
(** The adoption of a device without a site by the key of one that adopts. *)
Definition adopt_row (site : string) (d : device_row) : device_row :=
  Device (Some site) (d_device_role d) (d_capabilities d) (d_desired d) (d_observed d) (d_last_successful d)
    (d_pending_operation d) (d_last_operation d) (d_pending_change_set d) (d_last_change_set d) (d_rollout_status d)
    (d_rollout_at d) (d_health_check_at d) (d_updated_at d).
Definition site_of_key (key : string) (t : schema_tables) : option (string * site_auth) :=
  head (filter (λ kv, bool_decide (sa_api_key kv.2 = Some key) = true) (map_to_list (site_auths t))).
Definition zero_touch (f : nat → bool) (key deviceID : string) (t : schema_tables) : schema_tables :=
  match (if f 4%nat then None else site_of_key key t), devices (base t) !! deviceID with
  | Some (site, s), Some d =>
      if default false (sa_auto_adopt s) && bool_decide (d_site_id d = None) && negb (f 5%nat) then
        let a := auth_of t deviceID in
        Tables (set_devices <[deviceID := adopt_row site d]> (base t)) (site_auths t)
          (<[deviceID := DeviceAuth (da_token a) (Some "Adopted") (da_last_ip a) (da_last_seen a)]> (device_auths t)) (nonces t)
      else t
  | _, _ => t
  end.
(** [TelemetryHandler], up to the statuses it has recorded. *)
Definition TelemetryHandler (ft fk : lookup_faults) (f : nat → bool) (legacy : bool) (l : landlord) (key token ip : string)
    (body : raw_message) (db : schemas) : telemetry_response * schemas :=
  match body with
  | Some (JObj members) =>
      let deviceID := body_text "device_id" members in
      if deviceID =? "" then (TelemetryError 400 "Bad request: missing device_id", db)
      else match normalizeEnrollmentDeviceID deviceID with
      | Err _ => (TelemetryError 400 "Bad request: invalid device_id", db)
      | Ok deviceID =>
          if (key =? "") && (token =? "") then (TelemetryError 403 "Forbidden: missing device credentials", db)
          else if (token =? "") && negb legacy then (TelemetryError 403 "Forbidden: X-Device-Token header is required", db)
          else match resolveDeviceTenant ft fk legacy token key l db with
          | Err _ => (TelemetryError 403 "Forbidden: invalid device credentials", db)
          | Ok (schema, authToken) =>
              match db !! schema with
              | None => (TelemetryError 500 "Internal server error", db)
              | Some t =>
                  match telemetry_device f legacy deviceID authToken ip t with
                  | inl (status, text) => (TelemetryError status text, db)
                  | inr id =>
                      match devices (base t) !! id with
                      | None => (TelemetryError 500 "Internal server error", db)
                      | Some d =>
                          let storedToken := stored_token t id in
                          match telemetry_credentials legacy authToken key storedToken (d_site_id d) (site_key t d) with
                          | Some text => (TelemetryError 403 text, db)
                          | None =>
                              let adopts := bool_decide (d_site_id d = None) && (storedToken =? "") && nonempty key in
                              let db := if adopts then <[schema := zero_touch f key id t]> db else db in
                              match body_member "capabilities" members with
                              | None | Some (JObj _) => (TelemetryAccepted schema id (status_reports members), db)
                              | Some _ => (TelemetryError 400 "Bad request: capabilities must be an object", db)
                              end
                          end
                      end
                  end
              end
          end
      end
  | Some JNull => (TelemetryError 400 "Bad request: missing device_id", db)
  | _ => (TelemetryError 400 "Bad request: invalid json", db)
  end.
