(* ===== verification/Vpn.v ===== *)
(** The addresses of the tunnel: [AssignInternalIP] of [internal/services/vpn.go], alone
    and next to other calls.

    The table is the [wg_ip] column of the devices.  A call is three statements of the
    database, its two reads and its write, and the write commits; the transaction
    around the second read and the write runs at the default isolation, where a read
    sees what is committed when it starts and takes no lock. *)

From S2P Require Import Prelude GoStrings Store.

Abbreviation address_table := (gmap string (option string)).

(** [fmt.Sprintf("10.8.0.%d", i)], for [i] from 2 to 253. *)
Definition vpn_ip (i : Z) : string := "10.8.0." +:+ dec i.
Definition vpn_pool : list string := map vpn_ip (seqZ 2 252).
(** The addresses that [LIKE '10.8.0.%'] selects. *)
Definition used_ips (t : address_table) : gset string :=
  list_to_set (filter (λ ip, has_prefix ip "10.8.0." = true) (omap id (map snd (map_to_list t)))).
Definition newIP (t : address_table) : option string := List.find (λ ip, negb (bool_decide (ip ∈ used_ips t))) vpn_pool.
Definition own_ip (device : string) (t : address_table) : option string :=
  match t !! device with Some (Some ip) => if ip =? "" then None else Some ip | _ => None end.
(** [UPDATE ... WHERE id]: a missing row is no error. *)
Definition set_ip (device ip : string) (t : address_table) : address_table := alter (λ _, Some ip) device t.
Definition no_ips : gerror := ErrText "no available IPs in 10.8.0.x subnet".

(** [AssignInternalIP]; the faults are of the query, the begin, the list, the update and
    the commit. *)
Definition AssignInternalIP (f : nat → bool) (device : string) (t : address_table) : res string * address_table :=
  if f 0%nat then (Err ErrDriver, t)
  else match own_ip device t with
       | Some ip => (Ok ip, t)
       | None =>
           if f 1%nat || f 2%nat then (Err ErrDriver, t)
           else match newIP t with
                | None => (Err no_ips, t)
                | Some ip => if f 3%nat || f 4%nat then (Err ErrDriver, t) else (Ok ip, set_ip device ip t)
                end
       end.

(** ** Calls next to each other *)

(** Where a call is: before its reads, between them, with the address it chose, and
    returned. *)
Inductive vpn_phase := Asking | Listing | Choosing (ip : string) | Returned (r : res string).
Record vpn_call := VpnCall { vc_device : string; vc_phase : vpn_phase }.
(** One statement of one call. *)
Inductive call_step : vpn_call → address_table → vpn_call → address_table → Prop :=
  | AskStep device t :
      call_step (VpnCall device Asking) t
        (VpnCall device (match own_ip device t with Some ip => Returned (Ok ip) | None => Listing end)) t
  | ListStep device t :
      call_step (VpnCall device Listing) t
        (VpnCall device (match newIP t with Some ip => Choosing ip | None => Returned (Err no_ips) end)) t
  | WriteStep device ip t :
      call_step (VpnCall device (Choosing ip)) t (VpnCall device (Returned (Ok ip))) (set_ip device ip t)
  | FailStep device phase t :
      (∀ r, phase ≠ Returned r) →
      call_step (VpnCall device phase) t (VpnCall device (Returned (Err ErrDriver))) t.
(** Any of the calls makes its next step. *)
Inductive vpn_step : list vpn_call * address_table → list vpn_call * address_table → Prop :=
  | VpnStep calls1 c calls2 t c' t' :
      call_step c t c' t' → vpn_step ((calls1 ++ c :: calls2)%list, t) ((calls1 ++ c' :: calls2)%list, t').

(** ** One call at a time *)

Lemma vpn_pool_elem ip : ip ∈ vpn_pool ↔ ∃ i, (2 <= i < 254)%Z ∧ ip = vpn_ip i.
Proof.
  unfold vpn_pool. rewrite list_elem_of_In, in_map_iff. setoid_rewrite <- list_elem_of_In. setoid_rewrite elem_of_seqZ. split.
  - intros (i & <- & ?). exists i. split; [lia|done].
  - intros (i & ? & ->). exists i. split; [done|lia].
Qed.
Lemma vpn_pool_prefix ip : ip ∈ vpn_pool → has_prefix ip "10.8.0." = true.
Proof. intros (i & _ & ->)%vpn_pool_elem. unfold has_prefix, vpn_ip. by rewrite strip_prefix_app. Qed.
Lemma used_ips_elem t ip : ip ∈ used_ips t ↔ has_prefix ip "10.8.0." = true ∧ ∃ device, t !! device = Some (Some ip).
Proof.
  unfold used_ips. rewrite elem_of_list_to_set, list_elem_of_filter, list_elem_of_omap. split.
  - intros [Hp (o & Hin & Ho)]. split; [done|]. cbn in Ho. subst o. apply list_elem_of_In, in_map_iff in Hin as ([device o] & He & Hin).
    cbn in He. subst o. exists device. apply list_elem_of_In in Hin. by apply elem_of_map_to_list in Hin.
  - intros [Hp [device Hd]]. split; [done|]. exists (Some ip). split; [|done]. apply list_elem_of_In, in_map_iff.
    exists (device, Some ip). split; [done|]. apply list_elem_of_In. by apply elem_of_map_to_list.
Qed.
Lemma newIP_Some t ip : newIP t = Some ip → ip ∈ vpn_pool ∧ ip ∉ used_ips t ∧ ∀ device, t !! device ≠ Some (Some ip).
Proof.
  unfold newIP. intros [Hin Hu]%List.find_some. apply list_elem_of_In in Hin. apply negb_true_iff, bool_decide_eq_false in Hu.
  split; [done|]. split; [done|]. intros device Hd. apply Hu, used_ips_elem. split; [by apply vpn_pool_prefix|by exists device].
Qed.
Lemma newIP_None t : newIP t = None → ∀ ip, ip ∈ vpn_pool → ∃ device, t !! device = Some (Some ip).
Proof.
  unfold newIP. intros Hf ip Hin. apply list_elem_of_In in Hin. pose proof (List.find_none _ _ Hf ip Hin) as Hu.
  apply negb_false_iff, bool_decide_eq_true in Hu. by apply used_ips_elem in Hu as [_ ?].
Qed.

(** Every address of the tunnel belongs to one device. *)
Definition distinct_ips (t : address_table) : Prop :=
  ∀ d1 d2 ip, ip ∈ vpn_pool → t !! d1 = Some (Some ip) → t !! d2 = Some (Some ip) → d1 = d2.
Lemma set_ip_distinct device ip t : distinct_ips t → (∀ d, t !! d ≠ Some (Some ip)) → distinct_ips (set_ip device ip t).
Proof.
  intros Ht Hip d1 d2 ip' Hin H1 H2. unfold set_ip in *.
  apply lookup_alter_Some in H1 as [(<- & o1 & Ho1 & E1)|[N1 H1]], H2 as [(<- & o2 & Ho2 & E2)|[N2 H2]]; [done| | |by eapply Ht].
  - injection E1 as ->. by apply Hip in H2.
  - injection E2 as ->. by apply Hip in H1.
Qed.

(** The steps of a call on its own. *)
Lemma call_alone device t : ∃ c' t', rtc vpn_step ([VpnCall device Asking], t) ([c'], t') ∧
  c' = VpnCall device (Returned (AssignInternalIP (λ _, false) device t).1) ∧ t' = (AssignInternalIP (λ _, false) device t).2.
Proof.
  assert (∀ c t c' t', call_step c t c' t' → vpn_step ([c], t) ([c'], t')) as Hone by (intros; by apply (VpnStep [] _ [])).
  unfold AssignInternalIP. destruct (own_ip device t) as [ip|] eqn:Ho.
  - eexists _, _. split; [|done]. apply rtc_once, Hone. pose proof (AskStep device t) as H. by rewrite Ho in H.
  - assert (vpn_step ([VpnCall device Asking], t) ([VpnCall device Listing], t)) as H1.
    { apply Hone. pose proof (AskStep device t) as H. by rewrite Ho in H. }
    destruct (newIP t) as [ip|] eqn:Hn.
    + eexists _, _. split; [|done]. eapply rtc_l; [exact H1|]. apply rtc_l with ([VpnCall device (Choosing ip)], t).
      * apply Hone. pose proof (ListStep device t) as H. by rewrite Hn in H.
      * apply rtc_once, Hone, WriteStep.
    + eexists _, _. split; [|done]. eapply rtc_l; [exact H1|]. apply rtc_once, Hone. pose proof (ListStep device t) as H. by rewrite Hn in H.
Qed.

(** C22: one call at a time, tunnel addresses are unique: a call gives a device the address
    it has, or one of 10.8.0.2 to 10.8.0.253 that no device has, which it then
    keeps; it gives up only when they are all taken; no other device's address
    changes, and addresses that were distinct stay so. The call is what its
    statements do when no other call comes between. *)
Theorem addresses_unique (f : nat → bool) (device : string) (t t' : address_table) (r : res string) :
  distinct_ips t → AssignInternalIP f device t = (r, t') →
  distinct_ips t' ∧ (∀ other, other ≠ device → t' !! other = t !! other) ∧
  match r with
  | Ok ip => (own_ip device t = Some ip ∧ t' = t) ∨
      (own_ip device t = None ∧ ip ∈ vpn_pool ∧ (∀ other, t !! other ≠ Some (Some ip)) ∧
       (is_Some (t !! device) → AssignInternalIP (λ _, false) device t' = (Ok ip, t')))
  | Err e => t' = t ∧ (e = ErrDriver ∨ ∀ ip, ip ∈ vpn_pool → ∃ other, t !! other = Some (Some ip))
  end ∧
  ∃ c t1, rtc vpn_step ([VpnCall device Asking], t) ([c], t1) ∧
    c = VpnCall device (Returned (AssignInternalIP (λ _, false) device t).1) ∧ t1 = (AssignInternalIP (λ _, false) device t).2.
Proof.
  intros Hd H. cut (distinct_ips t' ∧ (∀ other, other ≠ device → t' !! other = t !! other) ∧
    match r with
    | Ok ip => (own_ip device t = Some ip ∧ t' = t) ∨
        (own_ip device t = None ∧ ip ∈ vpn_pool ∧ (∀ other, t !! other ≠ Some (Some ip)) ∧
         (is_Some (t !! device) → AssignInternalIP (λ _, false) device t' = (Ok ip, t')))
    | Err e => t' = t ∧ (e = ErrDriver ∨ ∀ ip, ip ∈ vpn_pool → ∃ other, t !! other = Some (Some ip))
    end).
  { intros (? & ? & ?). do 3 (split; [done|]). apply call_alone. }
  unfold AssignInternalIP in H. destruct (f 0%nat); [injection H as <- <-; auto|].
  destruct (own_ip device t) as [ip|] eqn:Ho; [injection H as <- <-; auto|]. destruct (f 1%nat || f 2%nat); [injection H as <- <-; auto|].
  destruct (newIP t) as [ip|] eqn:Hn.
  - destruct (f 3%nat || f 4%nat); [injection H as <- <-; auto|]. injection H as <- <-.
    destruct (newIP_Some t ip Hn) as (Hin & _ & Hfree). split; [by apply set_ip_distinct|].
    split; [intros; by apply lookup_alter_ne|]. right. do 3 (split; [done|]). intros [o Hl].
    assert (own_ip device (set_ip device ip t) = Some ip) as Hown.
    { unfold own_ip, set_ip. rewrite lookup_alter_eq, Hl. cbn. by apply vpn_pool_elem in Hin as (i & _ & ->). }
    unfold AssignInternalIP. by rewrite Hown.
  - injection H as <- <-. split; [done|]. split; [done|]. split; [done|]. right. by apply newIP_None.
Qed.

(** C23: two calls at a time, they are not: for any two devices without an address, while
    any address is free, two calls whose reads both come before the first write both
    succeed and leave the two devices with the same address. *)
Theorem addresses_race (d1 d2 ip : string) (t : address_table) (o1 o2 : option string) :
  d1 ≠ d2 → t !! d1 = Some o1 → t !! d2 = Some o2 → own_ip d1 t = None → own_ip d2 t = None → newIP t = Some ip →
  ∃ t', rtc vpn_step ([VpnCall d1 Asking; VpnCall d2 Asking], t) ([VpnCall d1 (Returned (Ok ip)); VpnCall d2 (Returned (Ok ip))], t') ∧
    t' !! d1 = Some (Some ip) ∧ t' !! d2 = Some (Some ip).
Proof.
  intros Hne H1 H2 Ho1 Ho2 Hn.
  assert (∀ c t1 c' c2 t2, call_step c t1 c' t2 → vpn_step ([c; c2], t1) ([c'; c2], t2)) as Hl by (intros; by apply (VpnStep [] _ [_])).
  assert (∀ c t1 c' c2 t2, call_step c t1 c' t2 → vpn_step ([c2; c], t1) ([c2; c'], t2)) as Hr by (intros; by apply (VpnStep [_] _ [])).
  pose proof (AskStep d1 t) as A1. pose proof (AskStep d2 t) as A2. pose proof (ListStep d1 t) as L1. pose proof (ListStep d2 t) as L2.
  rewrite Ho1 in A1. rewrite Ho2 in A2. rewrite Hn in L1, L2. eexists. split.
  - eapply rtc_l; [apply Hl, A1|]. eapply rtc_l; [apply Hr, A2|]. eapply rtc_l; [apply Hl, L1|]. eapply rtc_l; [apply Hr, L2|].
    eapply rtc_l; [apply Hl, WriteStep|]. apply rtc_once, Hr, WriteStep.
  - unfold set_ip. split.
    + rewrite lookup_alter_ne by done. by rewrite lookup_alter_eq, H1.
    + rewrite lookup_alter_eq, lookup_alter_ne by done. by rewrite H2.
Qed.

(** ** Every run ends *)

Definition phase_steps (phase : vpn_phase) : nat :=
  match phase with Asking => 3 | Listing => 2 | Choosing _ => 1 | Returned _ => 0 end.
Definition steps_left (calls : list vpn_call) : nat := list_sum (map (λ c, phase_steps (vc_phase c)) calls).
Definition returned (c : vpn_call) : Prop := ∃ r, vc_phase c = Returned r.

Lemma call_step_less c t c' t' : call_step c t c' t' →
  (phase_steps (vc_phase c') < phase_steps (vc_phase c))%nat ∧ vc_device c' = vc_device c.
Proof.
  intros [device t1|device t1|device ip t1|device phase t1 Hp]; cbn [vc_phase vc_device]; (split; [|done]).
  - destruct (own_ip device t1); cbn; lia.
  - destruct (newIP t1); cbn; lia.
  - cbn. lia.
  - destruct phase; cbn; try lia. by destruct (Hp r).
Qed.
Lemma vpn_step_less calls t calls' t' : vpn_step (calls, t) (calls', t') →
  (steps_left calls' < steps_left calls)%nat ∧ map vc_device calls' = map vc_device calls.
Proof.
  intros H. inversion H as [calls1 c calls2 t1 c' t1' Hs]; subst. apply call_step_less in Hs as [Hs Hd].
  unfold steps_left. rewrite !map_app, !list_sum_app. cbn [map]. rewrite Hd. split; [|done]. cbn [list_sum foldr]. lia.
Qed.
Lemma call_progress c t : returned c ∨ ∃ c' t', call_step c t c' t'.
Proof.
  destruct c as [device [| |ip|r]]; [right; eexists _, _; apply AskStep|right; eexists _, _; apply ListStep|
    right; eexists _, _; apply WriteStep|left; by exists r].
Qed.
Lemma calls_progress calls t : Forall returned calls ∨ ∃ s, vpn_step (calls, t) s.
Proof.
  induction calls as [|c calls IH]; [left; constructor|]. destruct (call_progress c t) as [Hr|(c' & t' & Hs)].
  - destruct IH as [Hall|[s Hs]]; [left; by constructor|right]. inversion Hs as [calls1 c1 calls2 t1 c1' t1' Hc]; subst.
    eexists. by apply (VpnStep (c :: calls1) c1 calls2 t c1' t1').
  - right. eexists. by apply (VpnStep [] c calls t c' t').
Qed.


Definition two_gateways : address_table := {["gw-1" := None; "gw-2" := None]}.
Lemma addresses_unique_witness :
  ∃ t', AssignInternalIP (λ _, false) "gw-1" two_gateways = (Ok "10.8.0.2", t') ∧ distinct_ips t'.
Proof.
  eexists. split; [vm_compute; reflexivity|].
  refine (proj1 (addresses_unique (λ _, false) "gw-1" two_gateways _ (Ok "10.8.0.2") _ _)); [|vm_compute; reflexivity].
  unfold distinct_ips, two_gateways. intros d1 d2 ip _ [[_ H]|[_ [_ H]%lookup_singleton_Some]]%lookup_insert_Some; discriminate H.
Defined.
Lemma addresses_race_witness : ∃ t', t' !! "gw-1" = Some (Some "10.8.0.2") ∧ t' !! "gw-2" = Some (Some "10.8.0.2") ∧
  rtc vpn_step ([VpnCall "gw-1" Asking; VpnCall "gw-2" Asking], two_gateways)
    ([VpnCall "gw-1" (Returned (Ok "10.8.0.2")); VpnCall "gw-2" (Returned (Ok "10.8.0.2"))], t').
Proof.
  destruct (addresses_race "gw-1" "gw-2" "10.8.0.2" two_gateways None None) as (t' & H & H1 & H2);
    [discriminate|reflexivity|reflexivity|reflexivity|reflexivity|vm_compute; reflexivity|].
  exists t'. split; [exact H1|]. split; [exact H2|exact H].
Defined.
