(* ===== verification/Worker.v ===== *)
(** [internal/rolloutworker/worker.go]: the controller-side reconciliation of a
    durable rollout.  One worker claims a queued rollout under a lease and, round
    by round, advances the cursor, queues the next device's change set and renews
    the lease, until the rollout is over or the lease is lost. *)

From S2P Require Import Prelude GoStrings Json Uci DeviceOperation Store DeviceOperations ChangeSets Rollouts.

(** ** Data *)

Definition maxDiagnostic : nat := 4096.
(** [boundedDiagnostic] *)
Definition boundedDiagnostic (value : string) : string :=
  if (String.length value <=? maxDiagnostic)%nat then value
  else String.substring 0 maxDiagnostic value +:+ " [diagnostic output truncated]".

(** [rolloutPlan] and [rolloutDevice]; the observed state is a map. *)
Record rolloutDevice := WorkerDevice {
  wd_DeviceID : string;
  wd_Hostname : string;
  wd_Role : string;
  wd_Commands : option (list UciCommand);
  wd_ObservedState : gmap string string
}.
Record rolloutPlan := WorkerPlan {
  wp_HealthChecks : gslice;
  wp_Namespace : string;
  wp_Devices : option (list rolloutDevice)
}.

(** A [map[string]string] field: members are added to the map it holds. *)
Fixpoint dec_map_members (l : list (string * json)) (old : gmap string string) : option (gmap string string) :=
  match l with
  | [] => Some old
  | (key, j) :: l => v ← dec_string j ""; dec_map_members l (<[key := v]> old)
  end.
Definition dec_string_map : decoder (gmap string string) := λ j old,
  match j with
  | JNull => Some ∅
  | JObj l => dec_map_members l old
  | _ => None
  end.
Definition zero_device : rolloutDevice := WorkerDevice "" "" "" None ∅.
Definition dec_device : decoder rolloutDevice := dec_struct [
  ("device_id", λ j '(WorkerDevice id host role cmds obs), v ← dec_string j id; Some (WorkerDevice v host role cmds obs));
  ("hostname", λ j '(WorkerDevice id host role cmds obs), v ← dec_string j host; Some (WorkerDevice id v role cmds obs));
  ("role", λ j '(WorkerDevice id host role cmds obs), v ← dec_string j role; Some (WorkerDevice id host v cmds obs));
  ("commands", λ j '(WorkerDevice id host role cmds obs),
     v ← dec_slice dec_command zero_command j cmds; Some (WorkerDevice id host role v obs));
  ("observed_state", λ j '(WorkerDevice id host role cmds obs),
     v ← dec_string_map j obs; Some (WorkerDevice id host role cmds v))
].
Definition dec_plan : decoder rolloutPlan := dec_struct [
  ("health_checks", λ j '(WorkerPlan hc ns ds), v ← dec_slice dec_string "" j hc; Some (WorkerPlan v ns ds));
  ("namespace", λ j '(WorkerPlan hc ns ds), v ← dec_string j ns; Some (WorkerPlan hc v ds));
  ("devices", λ j '(WorkerPlan hc ns ds), v ← dec_slice dec_device zero_device j ds; Some (WorkerPlan hc ns v))
].

(** ** Order *)

(** Devices that are not gateways first, then by device id. *)
Definition is_gateway (role : string) : bool := equal_fold role "Gateway".
Definition device_less (a b : rolloutDevice) : bool :=
  if Bool.eqb (is_gateway (wd_Role a)) (is_gateway (wd_Role b)) then str_less (wd_DeviceID a) (wd_DeviceID b)
  else negb (is_gateway (wd_Role a)).
Definition worker_order (devices : list rolloutDevice) : list rolloutDevice := stable_sort device_less devices.

(** [canAdvancePhase] *)
Definition canAdvancePhase (lease : RolloutLease) (progress : RolloutProgress) : bool :=
  (0 <? l_Cursor lease)%Z && (pg_FailureCount progress =? 0)%Z.

(** ** The next change set *)

(** The namespaces the plan names, among the supported ones. *)
Definition plan_namespaces (plan : rolloutPlan) : list string :=
  filter (λ n, n ∈ deviceChangeSetConfigs) (map trim_space (str_split "," (wp_Namespace plan))).
Definition commands_in (namespace : string) (commands : list UciCommand) : list UciCommand :=
  filter (λ c, Config c = namespace) commands.
(** The operations in the fixed order of the namespaces; [None] when a command
    is outside the plan's namespaces or a namespace has no observed state. *)
Fixpoint next_operations (namespaces : list string) (device : rolloutDevice) : option (list DeviceChangeOperation) :=
  match namespaces with
  | [] => Some []
  | namespace :: namespaces =>
      match commands_in namespace (default [] (wd_Commands device)) with
      | [] => next_operations namespaces device
      | commands =>
          match wd_ObservedState device !! namespace with
          | Some observed =>
              if observed =? "" then None
              else cons (ChangeOperation "" namespace commands observed) <$> next_operations namespaces device
          | None => None
          end
      end
  end.
Definition device_operations (plan : rolloutPlan) (device : rolloutDevice) : option (list DeviceChangeOperation) :=
  if forallb (λ c, bool_decide (Config c ∈ plan_namespaces plan)) (default [] (wd_Commands device))
  then next_operations deviceChangeSetConfigs device else None.

(** [value == "text"] on an interface value. *)
Definition is_text (text : string) (j : option json) : bool :=
  match j with Some (JStr s) => s =? text | _ => false end.
(** A result of the device that is no longer waiting stops the round. *)
Definition already_queued (deviceID : string) (results : list (option go_map)) : bool :=
  existsb (λ r, is_text deviceID (map_get "device_id" r) && negb (is_text "WAITING" (map_get "status" r))) results.
Definition mark_queued (deviceID : string) (generation : Z) (r : option go_map) : option go_map :=
  if is_text deviceID (map_get "device_id" r) then
    (λ m, map_insert ("device_generation", JInt generation)
            (map_insert ("output", JStr "device agent will apply and report the durable changeset result")
               (map_insert ("status", JStr "QUEUED") m))) <$> r
  else r.

(** The part of [queueNextPhase] from the change set on. *)
Definition queue_device (now : Z) (schema : string) (lease : RolloutLease) (plan : rolloutPlan)
    (device : rolloutDevice) (operations : list DeviceChangeOperation) (results : list (option go_map)) : M unit :=
  let* changeSet := lift (NewDeviceChangeSetForRolloutOperations (l_RolloutID lease) (wd_DeviceID device) operations
                            (wp_HealthChecks plan) ConfirmationLocalAuto) in
  let* generation := QueueDeviceChangeSetForRollout now schema (l_SiteID lease) (wd_Role device) (wd_DeviceID device)
                       (Some (change_set_json changeSet)) (l_RolloutID lease) in
  UpdateRolloutWorkerResults now schema lease
    (maps_json (map (mark_queued (wd_DeviceID device) generation) results)).

(** [queueNextPhase] *)
Definition queueNextPhase (now : Z) (schema : string) (lease : RolloutLease) (progress : RolloutProgress) : M unit :=
  match dec_plan (pg_Plan progress) (WorkerPlan None "" None), dec_maps (Some (pg_Results progress)) with
  | Some plan, Some results =>
      match worker_order (default [] (wp_Devices plan)) !! Z.to_nat (l_Cursor lease) with
      | None => mret tt
      | Some device =>
          if already_queued (wd_DeviceID device) results then mret tt
          else match device_operations plan device with
               | None => mret tt
               | Some operations => queue_device now schema lease plan device operations results
               end
      end
  | _, _ => mfail (ErrText "json")
  end.

(** ** The rounds *)

Inductive round_end := Continue (lease : RolloutLease) | Stop.

Definition with_cursor (lease : RolloutLease) (cursor : Z) : RolloutLease :=
  Lease (l_RolloutID lease) (l_SiteID lease) (l_Token lease) cursor.
Definition rollout_over (progress : RolloutProgress) : bool :=
  negb (pg_Status progress =? "RUNNING") ||
  ((0 <? pg_ResultCount progress)%Z && (pg_TerminalCount progress =? pg_ResultCount progress)%Z).

(** The cursor update of a round: the lease to go on with. *)
Definition advance_cursor (now : Z) (schema : string) (lease : RolloutLease) (progress : RolloutProgress)
    : M RolloutLease :=
  if (l_Cursor lease <? pg_TerminalCount progress)%Z then
    let* _ := UpdateRolloutWorkerCursor now schema lease (pg_TerminalCount progress) in
    mret (with_cursor lease (pg_TerminalCount progress))
  else mret lease.
(** One round of [reconcileLease] up to the wait; an error ends the loop. *)
Definition reconcile_round (now : Z) (schema : string) (lease : RolloutLease) : M round_end :=
  let* progress := GetRolloutProgress schema (l_RolloutID lease) (l_SiteID lease) in
  let* lease := advance_cursor now schema lease progress in
  let* _ := if canAdvancePhase lease progress then queueNextPhase now schema lease progress else mret tt in
  mret (if rollout_over progress then Stop else Continue lease).

(** [reconcileLease]: a round at the first time of each pair, the renewal at the
    second, until the context is done (no more pairs), the rollout is over or an
    operation fails. *)
Fixpoint reconcileLease (ticks : list (Z * Z)) (schema : string) (lease : RolloutLease) (leaseDuration : Z) : M unit :=
  match ticks with
  | [] => mret tt
  | (now, later) :: ticks =>
      mtry (reconcile_round now schema lease) (λ r,
        match r with
        | Ok (Continue lease) =>
            mtry (RenewRolloutLease later schema lease leaseDuration) (λ r,
              match r with
              | Ok _ => reconcileLease ticks schema lease leaseDuration
              | Err _ => mret tt
              end)
        | _ => mret tt
        end)
  end.
(** One tenant's turn of [reconcile]: claim, audit (its failure is only
    logged), then work on the lease. *)
Definition reconcile_tenant (now : Z) (token schema : string) (leaseDuration : Z) (ticks : list (Z * Z)) : M unit :=
  mtry (ClaimQueuedRollout now token schema leaseDuration) (λ r,
    match r with
    | Err _ => mret tt
    | Ok lease =>
        mtry (InsertAuditLogContext "rollout-worker" "ROLLOUT_WORKER_CLAIM" "ROLLOUT" (l_RolloutID lease)
                "claimed durable rollout for reconciliation" "")
             (λ _, reconcileLease ticks schema lease leaseDuration)
    end).
