(* ===== verification/QueueFacts.v ===== *)
(** What the operations on a device's queue do to the tables: each either leaves
    them alone or changes one device in a known way. *)

From S2P Require Import Prelude GoStrings Json DeviceOperation Store DeviceOperations ChangeSets.

(** ** One device changes *)

(** The device [id] goes from [d] to [d'], nothing else changes. *)
Definition device_change (id : string) (d d' : device_row) (t t' : tenant) : Prop :=
  devices t !! id = Some d ∧ t' = set_devices <[id := d']> t.

(** The generation a queued unit gets. *)
Definition queued_generation (requested desired : Z) : Z := if (0 <? requested)%Z then desired else (desired + 1)%Z.
Definition queued_document (requested desired : Z) (doc : json) : json :=
  if (0 <? requested)%Z then doc else jsonb_set "generation" (JInt (desired + 1)%Z) doc.

Lemma next_generation_ok g g' : next_generation g = Ok g' → g' = (g + 1)%Z ∧ (g < int64_max)%Z.
Proof. unfold next_generation. destruct (g <? int64_max)%Z eqn:E; [|done]. bools. by intros [= <-]. Qed.

Lemma queue_operation_set_ok now plan g d d' :
  queue_operation_set now plan g d = Ok d' →
  d' = Device (d_site_id d) (d_device_role d) (d_capabilities d) (queued_generation g (d_desired d)) (d_observed d)
         (d_last_successful d) (Some (queued_document g (d_desired d) plan)) None (d_pending_change_set d)
         (d_last_change_set d) (Some "QUEUED") (Some now) (d_health_check_at d) (Some now) ∧
  ((0 <? g)%Z = false → (d_desired d < int64_max)%Z).
Proof.
  unfold queue_operation_set, queued_generation, queued_document. destruct (0 <? g)%Z eqn:E.
  - cbn. by intros [= <-].
  - destruct (next_generation (d_desired d)) as [g'|] eqn:En; [|done]. cbn. intros [= <-].
    apply next_generation_ok in En as [-> Hlt]. done.
Qed.

Lemma queue_change_set_set_ok now doc g d d' :
  queue_change_set_set now doc g d = Ok d' →
  d' = Device (d_site_id d) (d_device_role d) (d_capabilities d) (queued_generation g (d_desired d)) (d_observed d)
         (d_last_successful d) (d_pending_operation d) (d_last_operation d)
         (Some (queued_document g (d_desired d) doc)) (d_last_change_set d) (Some "QUEUED") (Some now)
         (d_health_check_at d) (Some now) ∧
  ((0 <? g)%Z = false → (d_desired d < int64_max)%Z).
Proof.
  unfold queue_change_set_set, queued_generation, queued_document. destruct (0 <? g)%Z eqn:E.
  - cbn. by intros [= <-].
  - destruct (next_generation (d_desired d)) as [g'|] eqn:En; [|done]. cbn. intros [= <-].
    apply next_generation_ok in En as [-> Hlt]. done.
Qed.

(** The conditions under which an operation or a change set is queued. *)
Record queued_operation (now : Z) (id : string) (plan : raw_message) (doc : json) (i : deviceOperationIdentity)
    (t : tenant) (d d' : device_row) : Prop := {
  qo_parsed : parseOperationIdentity plan false = Ok i;
  qo_doc : jsonb_in (default JNull plan) = Some doc;
  qo_where : holds (queue_operation_where now doc (oi_ID i) (oi_Generation i) t d) = true;
  qo_set : queue_operation_set now doc (oi_Generation i) d = Ok d'
}.
Record queued_change_set (now : Z) (owner : option rollout_owner) (id : string) (raw : raw_message) (doc : json)
    (i : deviceChangeSetIdentity) (t : tenant) (d d' : device_row) : Prop := {
  qc_parsed : parseDeviceChangeSet raw false = Ok i;
  qc_doc : jsonb_in (default JNull raw) = Some doc;
  qc_device : equal_fold (ci_DeviceID i) id = true;
  qc_where : holds (queue_change_set_where now owner (ci_ID i) (ci_Generation i) t d) = true;
  qc_set : queue_change_set_set now doc (ci_Generation i) d = Ok d'
}.

(** [jsonb_param] in terms of [jsonb_in]. *)
Lemma jsonb_param_ok j v : jsonb_param j = Ok v → jsonb_in j = Some v.
Proof. unfold jsonb_param. destruct (jsonb_in j); [by intros [= <-] | done]. Qed.

Lemma queue_operation_update_inv now deviceID plan id g w r w' :
  queue_operation_update now deviceID plan id g w = (r, w') →
  (tn w' = tn w ∧ ∀ g', r = Ok (Some g') → False) ∨
  (∃ doc d d', jsonb_in plan = Some doc ∧ holds (queue_operation_where now doc id g (tn w) d) = true ∧
     queue_operation_set now doc g d = Ok d' ∧ r = Ok (Some (d_desired d')) ∧
     device_change deviceID d d' (tn w) (tn w')).
Proof.
  intros H. apply statement_inv in H as [(a & t & -> & Hf & Ht)|(e & -> & ->)]; [|by left].
  destruct (jsonb_param plan) as [doc|] eqn:Ed; [|done]. cbn [res_bind] in Hf. apply jsonb_param_ok in Ed.
  destruct (devices (tn w) !! deviceID) as [d|] eqn:El.
  2:{ injection Hf as <- <-. left. split; [done|]. by intros g' [=]. }
  destruct (holds _) eqn:Ew.
  2:{ injection Hf as <- <-. left. split; [done|]. by intros g' [=]. }
  destruct (queue_operation_set now doc g d) as [d'|] eqn:Es; [|done]. cbn in Hf. injection Hf as <- <-.
  right. exists doc, d, d'. done.
Qed.

(** [QueueDeviceOperation] leaves the tables alone or queues the operation on the
    device and returns the generation it reserved. *)
Lemma QueueDeviceOperation_inv now schema deviceID plan w r w' :
  QueueDeviceOperation now schema deviceID plan w = (r, w') →
  tn w' = tn w ∨
  ∃ doc i d d', queued_operation now deviceID plan doc i (tn w) d d' ∧
    device_change deviceID d d' (tn w) (tn w') ∧ r = Ok (d_desired d').
Proof.
  unfold QueueDeviceOperation. intros H.
  m_bind H as s w1 Hs; [by left|]. m_bind H as i w2 Hp; [by left|].
  m_bind H as q w3 Hu; apply queue_operation_update_inv in Hu as [[He Hn]|(doc & d & d' & ? & ? & ? & Hr & Hd)];
    [by left | discriminate | | injection Hr as ->; m_end H; right; by exists doc, i, d, d'].
  destruct q as [g'|]; [by destruct (Hn g')|]. left.
  m_bind H as l w4 Hl; apply query_inv in Hl as [Hq _]; [congruence|].
  destruct l as [[[? ?] ?]|]; m_end H; congruence.
Qed.

Lemma queue_change_set_update_inv now owner deviceID raw id g w r w' :
  queue_change_set_update now owner deviceID raw id g w = (r, w') →
  (tn w' = tn w ∧ ∀ g', r = Ok (Some g') → False) ∨
  (∃ doc d d', jsonb_in raw = Some doc ∧ holds (queue_change_set_where now owner id g (tn w) d) = true ∧
     queue_change_set_set now doc g d = Ok d' ∧ r = Ok (Some (d_desired d')) ∧
     device_change deviceID d d' (tn w) (tn w')).
Proof.
  intros H. apply statement_inv in H as [(a & t & -> & Hf & Ht)|(e & -> & ->)]; [|by left].
  destruct (jsonb_param raw) as [doc|] eqn:Ed; [|done]. cbn [res_bind] in Hf. apply jsonb_param_ok in Ed.
  destruct (devices (tn w) !! deviceID) as [d|] eqn:El.
  2:{ injection Hf as <- <-. left. split; [done|]. by intros g' [=]. }
  destruct (holds _) eqn:Ew.
  2:{ injection Hf as <- <-. left. split; [done|]. by intros g' [=]. }
  destruct (queue_change_set_set now doc g d) as [d'|] eqn:Es; [|done]. cbn in Hf. injection Hf as <- <-.
  right. by exists doc, d, d'.
Qed.

(** [queueDeviceChangeSet] leaves the tables alone or queues the change set. *)
Lemma queueDeviceChangeSet_inv now schema owner deviceID raw w r w' :
  queueDeviceChangeSet now schema owner deviceID raw w = (r, w') →
  tn w' = tn w ∨
  ∃ doc i d d', queued_change_set now owner deviceID raw doc i (tn w) d d' ∧
    device_change deviceID d d' (tn w) (tn w') ∧ r = Ok (d_desired d').
Proof.
  unfold queueDeviceChangeSet. intros H.
  m_bind H as s w1 Hs; [by left|]. m_bind H as i w2 Hp; [by left|]. m_bind H as u w3 Hd; [by left|].
  unfold fail_if in Hd. destruct (equal_fold (ci_DeviceID i) deviceID) eqn:Ee; [|done].
  m_bind H as q w4 Hu; apply queue_change_set_update_inv in Hu as [[He Hn]|(doc & d & d' & ? & ? & ? & Hr & Hc)];
    [by left | discriminate | | injection Hr as ->; m_end H; right; by exists doc, i, d, d'].
  destruct q as [g'|]; [by destruct (Hn g')|]. left.
  m_bind H as l w5 Hl; apply query_inv in Hl as [Hq _]; [congruence|].
  destruct l as [[? ?]|]; m_end H; congruence.
Qed.

(** ** Statuses *)

(** A recorded status of an operation: how it was parsed, and what the statement
    was given. *)
Record recorded_operation (status : raw_message) (a : status_args) (t : tenant) (d : device_row) : Prop := {
  ro_parsed : parseOperationIdentity status true = Ok (OperationIdentity (s_id a) (s_plan_hash a) (s_generation a));
  ro_doc : jsonb_in (default JNull status) = Some (s_status a);
  ro_state : unmarshal dec_state "" status = Some (s_state a);
  ro_valid : s_state a ∈ operation_states;
  ro_terminal : s_terminal a = (s_state a =? "COMMITTED") || (s_state a =? "RESTORED");
  ro_text : s_generation_text a = generation_text (s_generation a);
  ro_where : holds (operation_pending_match a d) || holds (operation_last_match a d) = true
}.

Lemma text_in_elem x l : text_in x l = true ↔ x ∈ l.
Proof.
  unfold text_in. rewrite existsb_exists. setoid_rewrite String.eqb_eq. setoid_rewrite <- list_elem_of_In.
  naive_solver.
Qed.

Lemma RecordDeviceOperationStatus_inv now schema deviceID status w r w' :
  RecordDeviceOperationStatus now schema deviceID status w = (r, w') →
  (tn w' = tn w ∧ ∃ e, r = Err e) ∨
  (∃ a d, r = Ok tt ∧ recorded_operation status a (tn w) d ∧
     device_change deviceID d (record_operation_set now a d) (tn w) (tn w')).
Proof.
  unfold RecordDeviceOperationStatus. intros H. m_bind H as s w1 Hs; [left; eauto|].
  destruct (parseOperationIdentity status true) as [i|] eqn:Ei; [|m_end H; left; eauto].
  destruct (unmarshal dec_state "" status) as [state|] eqn:Est; [|m_end H; left; eauto].
  m_bind H as u w2 Hv; [left; eauto|].
  unfold fail_if in Hv. destruct (validDeviceOperationState state) eqn:Ev; [|done]. clear Hv u.
  m_bind H as n w3 Hu.
  { apply statement_inv in Hu as [(? & ? & ? & _)|(? & _ & ->)]; [done | left; eauto]. }
  apply statement_inv in Hu as [(? & t & Hn & Hf & Ht)|(? & ? & _)]; [|done].
  injection Hn as <-. destruct (jsonb_param _) as [doc|] eqn:Ed; [|done]. cbn [res_bind] in Hf.
  apply jsonb_param_ok in Ed.
  destruct (devices (tn w) !! deviceID) as [d|] eqn:El.
  2:{ injection Hf as <- <-. m_end H. left. split; [done|]. eauto. }
  destruct (holds _) eqn:Ew.
  2:{ injection Hf as <- <-. m_end H. left. split; [done|]. eauto. }
  injection Hf as <- <-. m_end H. right. rewrite holds_or in Ew.
  eexists _, d. split; [done|]. split; [|split; [exact El | exact Ht]].
  split; try done; [by destruct i | by apply text_in_elem].
Qed.

(** A recorded status of a change set. *)
Record recorded_change_set (deviceID : string) (status : raw_message) (a : status_args) (d : device_row) : Prop := {
  rc_parsed : ∃ dev hasgen, parseDeviceChangeSet status true =
    Ok (ChangeSetIdentity (s_id a) dev (s_plan_hash a) (s_generation a) hasgen) ∧ equal_fold dev deviceID = true;
  rc_doc : jsonb_in (default JNull status) = Some (s_status a);
  rc_envelope : ∃ e, unmarshal dec_envelope zero_envelope status = Some e ∧ e_State e = s_state a;
  rc_terminal : s_terminal a = terminal_state (s_state a);
  rc_text : s_generation_text a = dec (s_generation a);
  rc_where : holds (change_set_pending_match a deviceID d) || holds (change_set_last_match a deviceID d) = true
}.

(** The tables after the rollout statement. *)
Definition rollout_results_change (now : Z) (a : status_args) (deviceID rolloutStatus resultStatus failure : string)
    (t t' : tenant) : Prop :=
  update_rollouts (rollout_results_where deviceID (s_id a) (devices t !! deviceID ≫= d_site_id))
    (rollout_results_set now a deviceID rolloutStatus resultStatus failure) t = Ok t'.

Definition set_status_doc (a : status_args) (j : json) : status_args :=
  StatusArgs j (s_terminal a) (s_id a) (s_state a) (s_plan_hash a) (s_generation_text a) (s_generation a).

Lemma RecordDeviceChangeSetStatus_inv now schema deviceID status w r w' :
  RecordDeviceChangeSetStatus now schema deviceID status w = (r, w') →
  (tn w' = tn w ∧ ∃ e, r = Err e) ∨
  (∃ a d t1, recorded_change_set deviceID status a d ∧
     device_change deviceID d (record_change_set_set now a deviceID d) (tn w) t1 ∧
     (tn w' = t1 ∧ (s_terminal a = true → ∃ e, r = Err e) ∨
      ∃ rolloutStatus resultStatus failure, s_terminal a = true ∧ r = Ok tt ∧
        rolloutStatus = (if s_state a =? "COMMITTED" then "completed" else "failed") ∧
        resultStatus = (if s_state a =? "COMMITTED" then "SUCCESS" else "FAILED") ∧
        rollout_results_change now (set_status_doc a JNull) deviceID rolloutStatus resultStatus failure t1 (tn w'))).
Proof.
  unfold RecordDeviceChangeSetStatus. intros H. m_bind H as s w1 Hs; [left; eauto|].
  destruct (parseDeviceChangeSet status true) as [i|] eqn:Ei; [|m_end H; left; eauto].
  destruct (unmarshal dec_envelope zero_envelope status) as [e|] eqn:Ee; [|m_end H; left; eauto].
  m_bind H as u w2 Hv; [left; eauto|].
  unfold fail_if in Hv. destruct (equal_fold (ci_DeviceID i) deviceID) eqn:Ev; [|done]. clear Hv u.
  m_bind H as n w3 Hu.
  { apply statement_inv in Hu as [(? & ? & ? & _)|(? & _ & ->)]; [done | left; eauto]. }
  apply statement_inv in Hu as [(? & t & Hn & Hf & Ht)|(? & ? & _)]; [|done].
  injection Hn as <-. destruct (jsonb_param _) as [doc|] eqn:Ed; [|done]. cbn [res_bind] in Hf.
  apply jsonb_param_ok in Ed.
  destruct (devices (tn w) !! deviceID) as [d|] eqn:El.
  2:{ injection Hf as <- <-. m_bind H as u w4 Hu. left. eauto. }
  destruct (holds _) eqn:Ew.
  2:{ injection Hf as <- <-. m_bind H as u w4 Hu. left. eauto. }
  injection Hf as <- <-. m_bind H as u w4 Hu. clear Hu u. rewrite holds_or in Ew.
  right. eexists (StatusArgs doc (terminal_state (e_State e)) (ci_ID i) (e_State e) (ci_PlanHash i)
    (dec (ci_Generation i)) (ci_Generation i)), d, (tn w3).
  split.
  { split; [exists (ci_DeviceID i), (ci_HasGen i); split; [by destruct i | done] | done | by exists e | done..]. }
  split; [by split|]. destruct (terminal_state (e_State e)) eqn:Et; cbn [s_terminal].
  2:{ m_end H. left. done. }
  apply statement_inv in H as [(? & t & -> & Hf & Ht')|(e' & -> & ->)]; [right | left; split; eauto].
  destruct (fail_if (negb (no_nul (e_Failure e))) ErrDriver); [|done]. cbn [res_bind] in Hf.
  destruct (update_rollouts _ _ _) as [t'|] eqn:Er; [|done]. cbn in Hf. injection Hf as <- <-.
  do 3 eexists. split; [done|]. split; [done|]. do 2 (split; [reflexivity|]).
  unfold rollout_results_change. rewrite Ht'. exact Er.
Qed.
