(* ===== verification/Protocol.v ===== *)
(** The protocol the database operations implement, as a transition system: each
    operation on a device or a rollout is one or more of the effects below, and
    every run of the modelled code is a sequence of them ([Refinement]).  The
    invariants of the tables are proved on the effects. *)

From stdpp Require Import relations.
From S2P Require Import Prelude GoStrings Json DeviceOperation Store DeviceOperations ChangeSets Rollouts QueueFacts.

(** ** Effects *)

(** The states a rollout can still leave. *)
Definition open_states : list string := ["DRAFT"; "RUNNING"; "QUEUED"].

(** One rollout changes by itself. *)
Inductive row_step (now : Z) (r : rollout_row) : rollout_row → Prop :=
  | row_queued token results :
      held_by token r = true → row_step now r (set_results "QUEUED" None results now r)
  | row_rejected results :
      is_draft r = true → row_step now r (set_results "REJECTED" (r_claim_token r) results now r)
  | row_released token :
      held_by token r = true → row_step now r (set_status "DRAFT" None now r)
  | row_stale token :
      is_draft r || held_by token r = true → row_step now r (set_status "STALE" None now r)
  | row_finished token status results :
      held_by token r = true → status ∉ open_states → row_step now r (set_results status None results now r)
  | row_worker token until cursor results :
      fenced now token r = true → (r_worker_cursor r ≤ cursor)%Z →
      until = r_worker_lease_until r ∨ (∃ duration, until = Some (now + duration)%Z) →
      row_step now r (set_worker (r_worker_token r) until cursor results now r).

Definition stale_drafts (now : Z) (site : string) (sequence : Z) : gmap string rollout_row → gmap string rollout_row :=
  update_where (λ r, of_site site r && (r_status r =? "DRAFT") && (r_generation r <? sequence)%Z)
    (set_status "STALE" None now).
Definition new_draft (now : Z) (site : string) (sequence : Z) (hash requested : string) (targets plan : json) : rollout_row :=
  Rollout site sequence "DRAFT" None None None 0 hash requested targets plan (JArr []) now.
Definition new_device (site : option string) (now : Z) : device_row :=
  Device site (Some "AP") None 0 0 0 None None None None None None None (Some now).

(** The effects of a system in which every plan, change set and status that is
    written satisfies [accepts]. *)
Section protocol.
Context (accepts : json → Prop).

Inductive effect (now : Z) (t : tenant) : tenant → Prop :=
  | e_register id site :
      devices t !! id = None → effect now t (set_devices <[id := new_device site now]> t)
  | e_queue_operation id plan doc i d d' :
      accepts (default JNull plan) →
      queued_operation now id plan doc i t d d' → devices t !! id = Some d →
      effect now t (set_devices <[id := d']> t)
  | e_queue_change_set owner id raw doc i d d' :
      accepts (default JNull raw) →
      queued_change_set now owner id raw doc i t d d' → devices t !! id = Some d →
      effect now t (set_devices <[id := d']> t)
  | e_operation_status id status a d :
      accepts (default JNull status) →
      recorded_operation status a t d → devices t !! id = Some d →
      effect now t (set_devices <[id := record_operation_set now a d]> t)
  | e_change_set_status id status a d :
      accepts (default JNull status) →
      recorded_change_set id status a d → devices t !! id = Some d →
      effect now t (set_devices <[id := record_change_set_set now a id d]> t)
  | e_rollout_results a id rolloutStatus resultStatus failure t' :
      rolloutStatus ∈ ["completed"; "failed"] →
      rollout_results_change now a id rolloutStatus resultStatus failure t t' → effect now t t'
  | e_draft id site sequence hash requested targets plan :
      rollout_runs t !! id = None → sequence = (max_generation (site_rows site t) + 1)%Z →
      effect now t (set_rollouts (λ m, <[id := new_draft now site sequence hash requested targets plan]>
                                        (stale_drafts now site sequence m)) t)
  | e_stale_drafts site sequence :
      effect now t (set_rollouts (stale_drafts now site sequence) t)
  | e_claim id site r token :
      rollout_runs t !! id = Some r → claim_candidate now site (site_rows site t) r = true →
      effect now t (set_rollouts <[id := set_status "RUNNING" (Some token) now r]>
        (set_devices (expire_devices now site (site_rows site t))
          (set_rollouts (fmap (expire_row now site (site_rows site t))) t)))
  | e_row id r r' :
      rollout_runs t !! id = Some r → row_step now r r' → effect now t (set_rollouts <[id := r']> t)
  | e_device_statuses m :
      (∀ id, m !! id = devices t !! id ∨
             ∃ d status, devices t !! id = Some d ∧ m !! id = Some (set_rollout_status status now d)) →
      effect now t (set_devices (λ _, m) t)
  | e_lease id r token duration :
      rollout_runs t !! id = Some r → claimable now t r = true → (0 < duration)%Z →
      effect now t (set_rollouts
        <[id := set_worker (Some token) (Some (now + duration)%Z) (r_worker_cursor r) (r_results r) now r]> t)
  | e_audit a : effect now t (add_audit a t).

(** A sequence of effects at one time. *)
Definition run (now : Z) : tenant → tenant → Prop := rtc (effect now).

(** A state is a time and the tables; time passes and does not go back. *)
Definition tick (s s' : Z * tenant) : Prop := (s.1 ≤ s'.1)%Z ∧ (s'.2 = s.2 ∨ effect s'.1 s.2 s'.2).
Definition reachable : Z * tenant → Z * tenant → Prop := rtc tick.

Lemma run_reachable now now' t t' : (now ≤ now')%Z → run now' t t' → reachable (now, t) (now', t').
Proof.
  intros Hle H. apply (rtc_l _ _ (now', t)); [split; [exact Hle | by left]|].
  induction H as [t|t t1 t' H1 H2 IH]; [apply rtc_refl|].
  eapply rtc_l; [|exact IH]. split; [done | by right].
Qed.

(** Rule induction: what every effect preserves holds in every reachable state. *)
Lemma reachable_invariant (I : Z → tenant → Prop) :
  (∀ now now' t, (now ≤ now')%Z → I now t → I now' t) →
  (∀ now t t', I now t → effect now t t' → I now t') →
  ∀ s s', reachable s s' → I s.1 s.2 → I s'.1 s'.2.
Proof.
  intros Hlater Heff s s' H. induction H as [s|s s1 s' [Hle [He|H1]] H2 IH]; [done|..]; intros Hi; apply IH.
  - rewrite He. by eapply Hlater.
  - eapply Heff; [|exact H1]. by eapply Hlater.
Qed.

(** ** The change of one device *)

(** What an effect does to a device that exists before it. *)
Lemma fail_running_lookup now site m id d :
  m !! id = Some d →
  fail_running_devices now site m !! id = Some d ∨ fail_running_devices now site m !! id = Some (fail_device now d).
Proof.
  intros H. unfold fail_running_devices, update_where. rewrite lookup_fmap, H. cbn.
  destruct (_ && _); [by right | by left].
Qed.

Lemma update_rows_keys {A} (p : A → bool) (f : A → res A) l l' :
  update_rows p f l = Ok l' → map fst l' = map fst l.
Proof.
  revert l'. induction l as [|[k a] l IH]; intros l'; cbn [update_rows].
  - by intros [= <-].
  - destruct (if p a then f a else Ok a) as [a'|]; [|done]. cbn [res_bind].
    destruct (update_rows p f l) as [l1|]; [|done]. cbn. intros [= <-]. cbn. by rewrite (IH _ eq_refl).
Qed.
Lemma update_rows_lookup {A} (p : A → bool) (f : A → res A) l l' k a' :
  update_rows p f l = Ok l' → (k, a') ∈ l' → ∃ a, (k, a) ∈ l ∧ (if p a then f a else Ok a) = Ok a'.
Proof.
  revert l'. induction l as [|[k1 a1] l IH]; intros l'; cbn [update_rows].
  - intros [= <-]. by intros ?%elem_of_nil.
  - destruct (if p a1 then f a1 else Ok a1) as [a2|] eqn:E; [|done]. cbn [res_bind].
    destruct (update_rows p f l) as [l1|]; [|done]. cbn. intros [= <-] [[= -> ->]|Hin]%elem_of_cons.
    + exists a1. split; [left | done].
    + destruct (IH _ eq_refl Hin) as (a & ? & ?). exists a. split; [by right | done].
Qed.

(** The rows of the rollouts after the results statement. *)
Lemma update_rollouts_lookup p f t t' :
  update_rollouts p f t = Ok t' →
  devices t' = devices t ∧
  ∀ id, match rollout_runs t' !! id with
        | Some r' => ∃ r, rollout_runs t !! id = Some r ∧ (if p r then f r else Ok r) = Ok r'
        | None => rollout_runs t !! id = None
        end.
Proof.
  unfold update_rollouts. destruct (update_rows p f _) as [rows|] eqn:E; [|done]. cbn. intros [= <-].
  split; [done|]. intros id. cbn.
  assert (NoDup (map fst rows)) as Hnd by (rewrite (update_rows_keys _ _ _ _ E); apply NoDup_fst_map_to_list).
  destruct (list_to_map rows !! id) as [r'|] eqn:El.
  - apply elem_of_list_to_map in El; [|done]. destruct (update_rows_lookup _ _ _ _ _ _ E El) as (r & Hin & Hr).
    exists r. split; [by apply elem_of_map_to_list | done].
  - apply not_elem_of_list_to_map in El. destruct (rollout_runs t !! id) as [r|] eqn:Er; [|done].
    exfalso. apply El. change (id ∈ map fst rows). rewrite (update_rows_keys _ _ _ _ E).
    change (id ∈ (map_to_list (rollout_runs t)).*1). apply list_elem_of_fmap. exists (id, r).
    split; [done | by apply elem_of_map_to_list].
Qed.

(** *** The fence between the two queues, and the generations *)

(** A device never has an operation and a change set pending at once. *)
Definition device_fenced (d : device_row) : Prop :=
  d_pending_operation d = None ∨ d_pending_change_set d = None.

Lemma queue_operation_idle now doc id g t d :
  holds (queue_operation_where now doc id g t d) = true →
  d_pending_operation d = None ∧ d_pending_change_set d = None ∧ (d_desired d = g ∨ g = 0%Z).
Proof.
  unfold queue_operation_where. rewrite !holds_and, !holds_or, !holds_and. intros H.
  repeat match goal with H : _ && _ = true |- _ => apply andb_true_iff in H as [? ?] end.
  destruct (d_pending_operation d); [done|]. destruct (d_pending_change_set d); [done|].
  split; [done|]. split; [done|]. rewrite !holds_fact in *.
  destruct (d_desired d =? g)%Z eqn:E1; [bools; by left|].
  destruct (g =? 0)%Z eqn:E2; [bools; by right|].
  rewrite !andb_false_r in H0. cbn in H0. done.
Qed.
Lemma queue_change_set_idle now owner id g t d :
  holds (queue_change_set_where now owner id g t d) = true →
  d_pending_operation d = None ∧ d_pending_change_set d = None ∧ (g = 0%Z ∨ d_desired d = g) ∧
  change_set_capability d = true.
Proof.
  unfold queue_change_set_where. rewrite !holds_and. intros H.
  repeat match goal with H : _ && _ = true |- _ => apply andb_true_iff in H as [? ?] end.
  destruct (d_pending_operation d); [done|]. destruct (d_pending_change_set d); [done|].
  rewrite !holds_fact in *. rewrite orb_true_iff in *. rewrite !Z.eqb_eq in *. done.
Qed.

(** What happens to one device in one effect. *)
Inductive device_step (now : Z) (id : string) (t : tenant) (d : device_row) : device_row → Prop :=
  | ds_same : device_step now id t d d
  | ds_status status : device_step now id t d (set_rollout_status status now d)
  | ds_operation plan doc i d' :
      accepts (default JNull plan) → queued_operation now id plan doc i t d d' → device_step now id t d d'
  | ds_change_set owner raw doc i d' :
      accepts (default JNull raw) → queued_change_set now owner id raw doc i t d d' → device_step now id t d d'
  | ds_operation_status status a :
      accepts (default JNull status) →
      recorded_operation status a t d → device_step now id t d (record_operation_set now a d)
  | ds_change_set_status status a :
      accepts (default JNull status) →
      recorded_change_set id status a d → device_step now id t d (record_change_set_set now a id d).

Lemma fail_running_step now site t id d :
  devices t !! id = Some d →
  ∃ d', fail_running_devices now site (devices t) !! id = Some d' ∧ device_step now id t d d'.
Proof.
  intros Hd. destruct (fail_running_lookup now site _ _ _ Hd) as [->| ->]; eexists; (split; [done | constructor]).
Qed.

Lemma effect_device now t t' id d :
  effect now t t' → devices t !! id = Some d →
  ∃ d', devices t' !! id = Some d' ∧ device_step now id t d d'.
Proof.
  intros He Hd.
  assert (∀ id2 d2 d2' m, devices t !! id2 = Some d2 → device_step now id2 t d2 d2' → m = devices t →
    ∃ d', <[id2 := d2']> m !! id = Some d' ∧ device_step now id t d d') as Hone.
  { intros id2 d2 d2' m H2 Hs ->. destruct (decide (id2 = id)) as [->|].
    - rewrite lookup_insert_eq. eexists. split; [done|]. congruence.
    - rewrite lookup_insert_ne by done. eexists. split; [done | constructor]. }
  assert (∃ d', devices t !! id = Some d' ∧ device_step now id t d d') as Hsame
    by (eexists; split; [done | constructor]).
  destruct He; cbn [devices set_devices set_rollouts add_audit]; try exact Hsame.
  - destruct (decide (id0 = id)) as [->|]; [congruence|]. by rewrite lookup_insert_ne.
  - eapply Hone; [done| |done]. by econstructor.
  - eapply Hone; [done| |done]. by econstructor.
  - eapply Hone; [done| |done]. by econstructor.
  - eapply Hone; [done| |done]. by econstructor.
  - match goal with H : rollout_results_change _ _ _ _ _ _ _ _ |- _ => apply update_rollouts_lookup in H as [-> _] end.
    exact Hsame.
  - unfold expire_devices. destruct (existsb _ _); [by apply fail_running_step | exact Hsame].
  - destruct (H id) as [-> | (d0 & status & Hd0 & ->)]; [exact Hsame|]. eexists. split; [done|].
    assert (d0 = d) as -> by congruence. constructor.
Qed.

Lemma device_step_fenced now id t d d' : device_step now id t d d' → device_fenced d → device_fenced d'.
Proof.
  unfold device_fenced. intros Hs Hf. destruct Hs as [|st|plan doc i d' _ [_ _ Hw Hset]|owner raw doc i d' _ [_ _ _ Hw Hset]|status a _ _|status a _ _].
  - done.
  - done.
  - apply queue_operation_idle in Hw as (? & ? & _). apply queue_operation_set_ok in Hset as [-> _]. by right.
  - apply queue_change_set_idle in Hw as (? & ? & _). apply queue_change_set_set_ok in Hset as [-> _]. by left.
  - cbn. destruct Hf as [->|]; [left | by right]. by destruct (_ && _).
  - cbn. destruct Hf as [| ->]; [by left | right]. by destruct (_ && _).
Qed.

(** Generations never go back, and the desired one stays a [BIGINT]. *)
Definition generations_grow (d d' : device_row) : Prop :=
  (d_desired d ≤ d_desired d' ≤ Z.max (d_desired d) int64_max)%Z ∧ (d_observed d ≤ d_observed d')%Z ∧
  (d_last_successful d ≤ d_last_successful d')%Z.

Lemma queued_generation_range g d :
  (d = g ∨ g = 0)%Z → ((0 <? g)%Z = false → (d < int64_max)%Z) →
  (d ≤ queued_generation g d ≤ Z.max d int64_max)%Z.
Proof.
  unfold queued_generation. intros Hg Hlt. destruct (0 <? g)%Z eqn:E; [lia|]. specialize (Hlt eq_refl). lia.
Qed.

Lemma device_step_generations now id t d d' : device_step now id t d d' → generations_grow d d'.
Proof.
  unfold generations_grow.
  intros Hs. destruct Hs as [|st|plan doc i d' _ [_ _ Hw Hset]|owner raw doc i d' _ [_ _ _ Hw Hset]|status a _ _|status a _ _].
  - lia.
  - cbn. lia.
  - apply queue_operation_idle in Hw as (_ & _ & Hg). apply queue_operation_set_ok in Hset as [-> Hlt].
    cbn. pose proof (queued_generation_range _ _ Hg Hlt). lia.
  - apply queue_change_set_idle in Hw as (_ & _ & Hg & _). apply queue_change_set_set_ok in Hset as [-> Hlt].
    cbn. pose proof (queued_generation_range (ci_Generation i) (d_desired d) ltac:(tauto) Hlt). lia.
  - cbn. destruct (_ && _); lia.
  - cbn. destruct (_ && _); lia.
Qed.

(** *** Invariants of the devices *)

Definition devices_fenced (t : tenant) : Prop := ∀ id d, devices t !! id = Some d → device_fenced d.

Lemma effect_devices_from now t t' id d' :
  effect now t t' → devices t' !! id = Some d' →
  (∃ d, devices t !! id = Some d) ∨ ∃ site, d' = new_device site now.
Proof.
  intros He Hd'.
  assert (∀ (m : gmap string device_row) id2 d2 d3, m = devices t → devices t !! id2 = Some d2 →
     <[id2 := d3]> m !! id = Some d' → ∃ d, devices t !! id = Some d) as Hone.
  { intros m id2 d2 d3 -> H2. destruct (decide (id2 = id)) as [->|]; [by eexists|].
    rewrite lookup_insert_ne by done. by eexists. }
  assert (∀ (m : gmap string device_row) p f, m = devices t →
     update_where p f m !! id = Some d' → ∃ d, devices t !! id = Some d) as Hmap.
  { intros m p f ->. unfold update_where. rewrite lookup_fmap. destruct (devices t !! id); [by eexists | done]. }
  destruct He; cbn [devices set_devices set_rollouts add_audit] in Hd'; try (left; by eexists); try (left; by eapply Hone; eauto).
  - destruct (decide (id0 = id)) as [->|].
    + rewrite lookup_insert_eq in Hd'. injection Hd' as <-. right. by eexists.
    + rewrite lookup_insert_ne in Hd' by done. left. by eexists.
  - left. match goal with H : rollout_results_change _ _ _ _ _ _ _ _ |- _ => apply update_rollouts_lookup in H as [Heq _] end.
    rewrite Heq in Hd'. by eexists.
  - left. unfold expire_devices in Hd'. destruct (existsb _ _); [by eapply Hmap | by eexists].
  - left. destruct (H id) as [<- | (d0 & status & Hd0 & _)]; by eexists.
Qed.

Lemma effect_fenced now t t' : devices_fenced t → effect now t t' → devices_fenced t'.
Proof.
  intros Hf He id d' Hd'. destruct (effect_devices_from _ _ _ _ _ He Hd') as [[d Hd]|[site ->]]; [|by left].
  destruct (effect_device _ _ _ _ _ He Hd) as (d2 & Hd2 & Hs).
  assert (d2 = d') as <- by congruence. eapply device_step_fenced; [exact Hs | by eapply Hf].
Qed.

(** *** The observed generation *)

(** A stored document names a generation only up to [bound]. *)
Definition doc_bounded (bound : Z) (j : option json) : Prop :=
  ∀ g, col_text "generation" j = Some (dec g) → (g ≤ bound)%Z.

(** The bookkeeping of a device: the observed and the last successful generation
    never pass the desired one, and no stored document names a later one. *)
Record device_bounded (d : device_row) : Prop := {
  db_desired : (0 ≤ d_desired d)%Z;
  db_observed : (d_observed d ≤ d_desired d)%Z;
  db_successful : (d_last_successful d ≤ d_desired d)%Z;
  db_pending_operation : doc_bounded (d_desired d) (d_pending_operation d);
  db_last_operation : doc_bounded (d_desired d) (d_last_operation d);
  db_pending_change_set : doc_bounded (d_desired d) (d_pending_change_set d);
  db_last_change_set : doc_bounded (d_desired d) (d_last_change_set d)
}.
End protocol.
