(* ===== verification/Generations.v ===== *)
(** Bounds on the generations of a device, for a system in which the documents
    that are written name no key twice (without regard to case): what the Go code
    decodes and what [jsonb] stores then agree. *)

From S2P Require Import Prelude GoStrings Json DeviceOperation Store DeviceOperations ChangeSets Rollouts QueueFacts Protocol.

(** ** Agreement on one document *)

Lemma jsonb_in_ok j v : jsonb_in j = Some v → v = jsonb_of j.
Proof. unfold jsonb_in. destruct (jsonb_accepts j); [by intros [= <-] | done]. Qed.

Lemma operation_generation raw st i doc g :
  parseOperationIdentity raw st = Ok i → jsonb_in (default JNull raw) = Some doc →
  distinct_keys (default JNull raw) → col_text "generation" (Some doc) = Some (dec g) → oi_Generation i = g.
Proof.
  intros Hp Hdoc%jsonb_in_ok Hdist Ht. subst doc. unfold parseOperationIdentity in Hp.
  destruct (unmarshal _ _ raw) as [e|] eqn:Eu; [|done].
  destruct raw as [j|]; [|done]. cbn [default from_option id] in *.
  assert (oe_generation e = Some g) as He.
  { eapply (int_field_agree operation_envelope_fields oe_generation "generation"); [reflexivity| | |exact Hdist|exact Eu|done|exact Ht].
    - intros j' a a' Hj. cbn in Hj. destruct (dec_int64_ptr j' (oe_generation a)); [|done]. by injection Hj as <-.
    - intros n d' j' a a' Hin Hne Hj.
      repeat (apply elem_of_cons in Hin as [[= -> ->]|Hin];
        [first [by destruct (Hne eq_refl) | destruct (dec_string j' _); [by injection Hj as <- | done]]|]).
      by apply elem_of_nil in Hin. }
  rewrite He in Hp. unfold fail_if in Hp.
  repeat match type of Hp with context [if ?b then Err _ else Ok tt] => destruct b; cbn [res_bind] in Hp; [discriminate Hp|] end.
  by injection Hp as <-.
Qed.

Lemma change_set_generation raw st i doc g :
  parseDeviceChangeSet raw st = Ok i → jsonb_in (default JNull raw) = Some doc →
  distinct_keys (default JNull raw) → col_text "generation" (Some doc) = Some (dec g) → ci_Generation i = g.
Proof.
  intros Hp Hdoc%jsonb_in_ok Hdist Ht. subst doc. unfold parseDeviceChangeSet in Hp.
  destruct (unmarshal _ _ raw) as [e|] eqn:Eu; [|done].
  destruct raw as [j|]; [|done]. cbn [default from_option id] in *.
  assert (e_Generation e = Some g) as He.
  { eapply (int_field_agree envelope_fields e_Generation "generation"); [reflexivity| | |exact Hdist|exact Eu|done|exact Ht].
    - intros j' [] a' Hj. cbn in Hj. cbn. destruct (dec_int64_ptr j' _); [|done]. by injection Hj as <-.
    - intros n d' j' [] a' Hin Hne Hj. cbn.
      repeat (apply elem_of_cons in Hin as [[= -> ->]|Hin];
        [first [by destruct (Hne eq_refl)
               | match type of Hj with context [?x ≫= _] => destruct x; [by injection Hj as <- | done] end]|]).
      by apply elem_of_nil in Hin. }
  destruct (fail_if _ _) as [[]|]; [|done]. cbn [res_bind] in Hp.
  destruct (fail_if _ _) as [[]|]; [|done]. cbn [res_bind] in Hp.
  assert (i = envelope_identity e) as ->.
  { destruct st.
    - unfold parse_status in Hp. rewrite He in Hp. destruct (fail_if _ _) as [[]|]; [|done]. by injection Hp as <-.
    - unfold parse_change_set in Hp. do 6 (destruct (fail_if _ _) as [[]|]; [|done]; cbn [res_bind] in Hp).
      by injection Hp as <-. }
  unfold envelope_identity. by rewrite He.
Qed.

(** ** Digits *)

Lemma pretty_go_nonempty x s : s ≠ "" → pretty_N_go x s ≠ "".
Proof.
  revert s. induction (N.lt_wf_0 x) as [x _ IH]; intros s Hs.
  destruct (decide (x = 0)%N) as [->|Hx]; [by rewrite pretty_N_go_0|].
  rewrite pretty_N_go_step by lia. apply IH; [|done]. apply N.div_lt; lia.
Qed.
Lemma dec_nonempty z : dec z ≠ "".
Proof.
  unfold dec, pretty. destruct z as [|p|p]; cbn; try done.
  unfold pretty, pretty_positive, pretty, pretty_N. case_decide; [done|].
  rewrite pretty_N_go_step by lia. by apply pretty_go_nonempty.
Qed.

(** ** A matching status names the stored generation *)

Lemma holds_generation a j :
  (0 < s_generation a)%Z → s_generation_text a = generation_text (s_generation a) →
  holds (tri_or (fact (s_generation_text a =? ""))
                (text_eq (col_text "generation" j) (Some (s_generation_text a)))) = true →
  col_text "generation" j = Some (dec (s_generation a)).
Proof.
  intros Hg -> H. unfold generation_text in H. apply Z.ltb_lt in Hg. rewrite Hg in H.
  rewrite holds_or, holds_fact, holds_text_eq in H.
  destruct (String.eqb_spec (dec (s_generation a)) ""); [by destruct (dec_nonempty (s_generation a))|].
  by apply bool_decide_eq_true in H.
Qed.

Lemma identity_generation a key j :
  (0 < s_generation a)%Z → s_generation_text a = generation_text (s_generation a) →
  holds (identity_match a key j) = true → col_text "generation" j = Some (dec (s_generation a)).
Proof.
  intros Hg Ht H. unfold identity_match in H. rewrite !holds_and in H. apply andb_true_iff in H as [_ H].
  by apply holds_generation.
Qed.
Lemma change_set_match_generation a id j :
  s_generation_text a = dec (s_generation a) →
  holds (change_set_match a id j) = true → col_text "generation" j = Some (dec (s_generation a)).
Proof.
  intros Ht H. unfold change_set_match in H. rewrite !holds_and, !holds_text_eq, Ht in H.
  apply andb_true_iff in H as [_ H]. by apply bool_decide_eq_true in H.
Qed.

Lemma doc_bounded_le b b' j : (b ≤ b')%Z → doc_bounded b j → doc_bounded b' j.
Proof. intros Hle Hb g Hg. specialize (Hb g Hg). lia. Qed.
Lemma doc_bounded_none b : doc_bounded b None.
Proof. by intros g Hg. Qed.

Lemma col_text_set j z : (∃ l, j = JObj l) → col_text "generation" (Some (jsonb_set "generation" (JInt z) j)) = Some (dec z).
Proof.
  intros [l ->]. change (jsonb_field_text "generation" (JObj (insert_member ("generation", JInt z) l)) = Some (dec z)).
  unfold jsonb_field_text. change (jsonb_field "generation" (JObj ?m)) with (assoc "generation" m).
  rewrite assoc_insert_eq. change (Some (dec z +:+ "") = Some (dec z)). by rewrite str_app_nil.
Qed.

Lemma queued_document_bounded g desired doc :
  (0 ≤ desired)%Z → (desired = g ∨ g = 0)%Z → (∃ l, doc = JObj l) →
  (∀ z, col_text "generation" (Some doc) = Some (dec z) → g = z) →
  doc_bounded (queued_generation g desired) (Some (queued_document g desired doc)).
Proof.
  unfold queued_generation, queued_document. intros H0 Hg Hobj Hagree z Hz.
  destruct (0 <? g)%Z eqn:E.
  - specialize (Hagree z Hz). bools. lia.
  - rewrite col_text_set in Hz by done. injection Hz as Hz. apply dec_inj in Hz. lia.
Qed.

(** A parsed unit is an object. *)
Lemma operation_object raw st i doc :
  parseOperationIdentity raw st = Ok i → jsonb_in (default JNull raw) = Some doc → ∃ l, doc = JObj l.
Proof.
  intros Hp Hdoc%jsonb_in_ok. subst doc. unfold parseOperationIdentity in Hp.
  destruct raw as [[| | | | |l]|]; try done; [|by eexists]. cbn in Hp. by destruct st.
Qed.
Lemma change_set_object raw st i doc :
  parseDeviceChangeSet raw st = Ok i → jsonb_in (default JNull raw) = Some doc → ∃ l, doc = JObj l.
Proof.
  intros Hp Hdoc%jsonb_in_ok. subst doc. unfold parseDeviceChangeSet in Hp.
  destruct raw as [[| | | | |l]|]; try done. by eexists.
Qed.

Lemma parsed_generation_nonneg raw st i : parseOperationIdentity raw st = Ok i → (0 ≤ oi_Generation i)%Z.
Proof.
  unfold parseOperationIdentity, fail_if. intros Hp. res_inv; bools; cbn; lia.
Qed.

(** ** The invariant *)

Lemma device_step_bounded now id t d d' :
  device_step distinct_keys now id t d d' → device_bounded d → device_bounded d'.
Proof.
  intros Hs [H0 Ho Hl Hpo Hlo Hpc Hlc].
  destruct Hs as [|st|plan doc i d' Hd [Hp Hdoc Hw Hset]|owner raw doc i d' Hd [Hp Hdoc _ Hw Hset]
                 |status a Hd [Hp Hdoc _ _ _ Ht Hw]|status a Hd [(dev & hg & Hp & _) Hdoc _ _ Ht Hw]].
  - done.
  - done.
  - apply queue_operation_idle in Hw as (_ & _ & Hg). apply queue_operation_set_ok in Hset as [-> Hlt].
    pose proof (queued_generation_range (oi_Generation i) (d_desired d) Hg Hlt) as [Hle _].
    split; cbn; try lia; try (eapply doc_bounded_le; eassumption).
    + apply queued_document_bounded; [done..| |].
      * by eapply operation_object.
      * intros z Hz. by eapply operation_generation.
    + apply doc_bounded_none.
  - apply queue_change_set_idle in Hw as (_ & _ & Hg & _). apply queue_change_set_set_ok in Hset as [-> Hlt].
    assert (d_desired d = ci_Generation i ∨ ci_Generation i = 0)%Z as Hg' by tauto.
    pose proof (queued_generation_range (ci_Generation i) (d_desired d) Hg' Hlt) as [Hle _].
    split; cbn; try lia; try (eapply doc_bounded_le; eassumption).
    apply queued_document_bounded; [done..| |].
    + by eapply change_set_object.
    + intros z Hz. by eapply change_set_generation.
  - assert (s_generation a ≤ d_desired d)%Z as Hle.
    { pose proof (parsed_generation_nonneg _ _ _ Hp) as Hnn. cbn in Hnn.
      destruct (decide (s_generation a = 0)%Z) as [->|]; [done|].
      apply orb_true_iff in Hw as [Hw|Hw].
      - apply Hpo. eapply identity_generation; [lia|done|exact Hw].
      - unfold operation_last_match in Hw. rewrite !holds_and in Hw. bools.
        apply Hlo. eapply identity_generation; [lia|done|eassumption]. }
    split; cbn; try (destruct (_ && _); lia); try done.
    + destruct (_ && _); [apply doc_bounded_none | done].
    + intros z Hz. pose proof (operation_generation _ _ _ _ _ Hp Hdoc Hd Hz) as Hz'. cbn in Hz'. lia.
  - assert (s_generation a ≤ d_desired d)%Z as Hle.
    { apply orb_true_iff in Hw as [Hw|Hw].
      - unfold change_set_pending_match in Hw. rewrite !holds_and in Hw. bools.
        apply Hpc. eapply change_set_match_generation; eassumption.
      - unfold change_set_last_match in Hw. rewrite !holds_and in Hw. bools.
        apply Hlc. eapply change_set_match_generation; eassumption. }
    split; cbn; try (destruct (_ && _); lia); try done.
    + destruct (_ && _); [apply doc_bounded_none | done].
    + intros z Hz. pose proof (change_set_generation _ _ _ _ _ Hp Hdoc Hd Hz) as Hz'. cbn in Hz'. lia.
Qed.

Definition devices_bounded (t : tenant) : Prop := ∀ id d, devices t !! id = Some d → device_bounded d.

Lemma new_device_bounded site now : device_bounded (new_device site now).
Proof. split; cbn; try lia; apply doc_bounded_none. Qed.

Lemma effect_bounded now t t' : devices_bounded t → effect distinct_keys now t t' → devices_bounded t'.
Proof.
  intros Hb He id d' Hd'. destruct (effect_devices_from _ _ _ _ _ _ He Hd') as [[d Hd]|[site ->]];
    [|apply new_device_bounded].
  destruct (effect_device _ _ _ _ _ _ He Hd) as (d2 & Hd2 & Hs).
  assert (d2 = d') as <- by congruence. eapply device_step_bounded; [exact Hs | by eapply Hb].
Qed.
