(* ===== verification/RolloutInvariants.v ===== *)
(** Invariants of the rollouts under the effects of [Protocol]: the plan of a
    rollout never changes, a closed rollout stays closed, claims and leases
    exclude each other, and a site has at most one unexpired worker lease. *)

From S2P Require Import Prelude GoStrings Json DeviceOperation Store DeviceOperations ChangeSets Rollouts QueueFacts Protocol.

Section rollouts.
Context (accepts : json → Prop).

(** ** What one effect does to one rollout *)

Inductive row_quiet (now : Z) (t : tenant) (r : rollout_row) : rollout_row → Prop :=
  | rw_same : row_quiet now t r r
  | rw_results status results :
      r_status r = "QUEUED" → status ∈ ["QUEUED"; "completed"; "failed"] →
      row_quiet now t r (set_results status (r_claim_token r) results now r)
  | rw_stale :
      r_status r ∈ ["DRAFT"; "RUNNING"] → row_quiet now t r (set_status "STALE" None now r)
  | rw_claim site token :
      claim_candidate now site (site_rows site t) r = true → row_quiet now t r (set_status "RUNNING" (Some token) now r)
  | rw_step r' : row_step now r r' → row_quiet now t r r'.
(** ... or the worker takes its lease. *)
Inductive row_change (now : Z) (t : tenant) (r : rollout_row) : rollout_row → Prop :=
  | rw_quiet r' : row_quiet now t r r' → row_change now t r r'
  | rw_lease token duration :
      claimable now t r = true → (0 < duration)%Z →
      row_change now t r (set_worker (Some token) (Some (now + duration)%Z) (r_worker_cursor r) (r_results r) now r).

Lemma rollout_next_status_cases id i st l :
  rollout_next_status id i st l = "QUEUED" ∨ rollout_next_status id i st l = "failed" ∨ rollout_next_status id i st l = st.
Proof. unfold rollout_next_status. destruct (existsb _ l); [by left|]. destruct (existsb _ l); auto. Qed.

Lemma results_row_change now a id st rs failure site t r r' :
  st ∈ ["completed"; "failed"] →
  (if rollout_results_where id (s_id a) site r then rollout_results_set now a id st rs failure r else Ok r) = Ok r' →
  row_quiet now t r r'.
Proof.
  intros Hst H. destruct (rollout_results_where id (s_id a) site r) eqn:Ew; [|injection H as <-; constructor].
  unfold rollout_results_set in H. destruct (jsonb_elements (r_results r)) as [l|]; [|done]. cbn in H. injection H as <-.
  unfold rollout_results_where in Ew. bools.
  change (Rollout (r_site_id r) (r_generation r) ?s (r_claim_token r) (r_worker_token r) (r_worker_lease_until r)
    (r_worker_cursor r) (r_plan_hash r) (r_requested_by r) (r_target_device_ids r) (r_plan r) ?j now)
    with (set_results s (r_claim_token r) j now r).
  apply rw_results; [done|].
  destruct (rollout_next_status_cases id (s_id a) st l) as [->|[->| ->]]; set_solver.
Qed.

Lemma stale_drafts_row now site sequence t r :
  row_quiet now t r
    (if of_site site r && (r_status r =? "DRAFT") && (r_generation r <? sequence)%Z then set_status "STALE" None now r else r).
Proof.
  destruct (_ && _) eqn:E; [|constructor]. bools. apply rw_stale. set_solver.
Qed.

Lemma effect_cases now t t' :
  effect accepts now t t' →
  (∃ id r token duration, rollout_runs t !! id = Some r ∧ claimable now t r = true ∧ (0 < duration)%Z ∧
     t' = set_rollouts
       <[id := set_worker (Some token) (Some (now + duration)%Z) (r_worker_cursor r) (r_results r) now r]> t) ∨
  ∀ id r, rollout_runs t !! id = Some r → ∃ r', rollout_runs t' !! id = Some r' ∧ row_quiet now t r r'.
Proof.
  intros He.
  assert (∀ (m : gmap string rollout_row) id2 r2 r2', rollout_runs t !! id2 = Some r2 → row_quiet now t r2 r2' →
    (∀ id r, rollout_runs t !! id = Some r → ∃ r', m !! id = Some r' ∧ row_quiet now t r r') →
    ∀ id r, rollout_runs t !! id = Some r → ∃ r', <[id2 := r2']> m !! id = Some r' ∧ row_quiet now t r r') as Hone.
  { intros m id2 r2 r2' H2 Hs Hm id r Hr. destruct (decide (id2 = id)) as [->|].
    - rewrite lookup_insert_eq. eexists. split; [done|]. congruence.
    - rewrite lookup_insert_ne by done. by apply Hm. }
  assert (∀ id r, rollout_runs t !! id = Some r → ∃ r', rollout_runs t !! id = Some r' ∧ row_quiet now t r r') as Hsame
    by (intros id r Hr; eexists; split; [done | constructor]).
  destruct He; cbn [rollout_runs set_devices set_rollouts add_audit]; try (right; exact Hsame).
  - right. intros id2 r Hr.
    match goal with H : rollout_results_change _ _ _ _ _ _ _ _ |- _ => apply update_rollouts_lookup in H as [_ Hl] end.
    specialize (Hl id2). destruct (rollout_runs t' !! id2) as [r'|]; [|congruence].
    destruct Hl as (r2 & Hr2 & Hset). assert (r2 = r) as -> by congruence.
    exists r'. split; [done|]. by eapply results_row_change.
  - right. intros id2 r Hr. rewrite lookup_insert_ne by congruence. unfold stale_drafts, update_where.
    rewrite lookup_fmap, Hr. eexists. split; [done | apply stale_drafts_row].
  - right. intros id2 r Hr. unfold stale_drafts, update_where. rewrite lookup_fmap, Hr.
    eexists. split; [done | apply stale_drafts_row].
  - right. eapply Hone; [done|by eapply rw_claim|]. intros id2 r2 Hr2. rewrite lookup_fmap, Hr2.
    eexists. split; [done|].
    unfold expire_row. destruct (_ && _) eqn:E; [|constructor]. apply rw_stale.
    apply andb_true_iff in E as [_ E]. unfold is_running, is_draft in E.
    apply orb_true_iff in E as [E|E]; bools; set_solver.
  - right. eapply Hone; [done|by apply rw_step | done].
  - left. by exists id, r, token, duration.
Qed.

Lemma effect_row now t t' id r :
  effect accepts now t t' → rollout_runs t !! id = Some r →
  ∃ r', rollout_runs t' !! id = Some r' ∧ row_change now t r r'.
Proof.
  intros He Hr. destruct (effect_cases _ _ _ He) as [(id2 & r2 & token & dur & H2 & Hc & Hd & ->)|Hq].
  - cbn. destruct (decide (id2 = id)) as [->|].
    + rewrite lookup_insert_eq. eexists. split; [done|]. assert (r2 = r) as -> by congruence. by apply rw_lease.
    + rewrite lookup_insert_ne by done. exists r. split; [done|]. do 2 constructor.
  - destruct (Hq _ _ Hr) as (r' & ? & ?). exists r'. split; [done | by constructor].
Qed.

(** Where the rows after an effect come from. *)
Lemma effect_rows_from now t t' id r' :
  effect accepts now t t' → rollout_runs t' !! id = Some r' →
  (∃ r, rollout_runs t !! id = Some r) ∨
  ∃ site sequence hash requested targets plan, r' = new_draft now site sequence hash requested targets plan.
Proof.
  intros He Hr'.
  assert (∀ (m : gmap string rollout_row) id2 r2 r3, rollout_runs t !! id2 = Some r2 →
     (m !! id = Some r' → ∃ r, rollout_runs t !! id = Some r) →
     <[id2 := r3]> m !! id = Some r' → ∃ r, rollout_runs t !! id = Some r) as Hone.
  { intros m id2 r2 r3 H2 Hm. destruct (decide (id2 = id)) as [->|]; [by eexists|].
    by rewrite lookup_insert_ne. }
  destruct He; cbn [rollout_runs set_devices set_rollouts add_audit] in Hr'; try (left; by eexists);
    try (left; by eapply Hone; eauto).
  - left. match goal with H : rollout_results_change _ _ _ _ _ _ _ _ |- _ => apply update_rollouts_lookup in H as [_ Hl] end.
    specialize (Hl id). rewrite Hr' in Hl. destruct Hl as (r & ? & _). by eexists.
  - destruct (decide (id0 = id)) as [->|].
    + rewrite lookup_insert_eq in Hr'. injection Hr' as <-. right. by do 6 eexists.
    + rewrite lookup_insert_ne in Hr' by done. unfold stale_drafts, update_where in Hr'. rewrite lookup_fmap in Hr'.
      destruct (rollout_runs t !! id); [left; by eexists | done].
  - unfold stale_drafts, update_where in Hr'. rewrite lookup_fmap in Hr'.
    destruct (rollout_runs t !! id); [left; by eexists | done].
  - left. eapply Hone; [done| |exact Hr']. rewrite lookup_fmap. destruct (rollout_runs t !! id); [by eexists | done].
Qed.

(** ** What never changes *)

(** The plan and the identity of a rollout. *)
Definition same_plan (r r' : rollout_row) : Prop :=
  r_site_id r' = r_site_id r ∧ r_generation r' = r_generation r ∧ r_plan_hash r' = r_plan_hash r ∧
  r_plan r' = r_plan r ∧ r_target_device_ids r' = r_target_device_ids r ∧ r_requested_by r' = r_requested_by r ∧
  (r_worker_cursor r ≤ r_worker_cursor r')%Z.

Lemma row_change_plan now t r r' : row_change now t r r' → same_plan r r'.
Proof.
  unfold same_plan. destruct 1 as [r' [| | | |r'' []]|]; cbn; repeat split; try done; try lia.
Qed.

(** The transitions between the states of a rollout. *)
Definition next_states (status : string) : list string :=
  if status =? "DRAFT" then ["RUNNING"; "STALE"; "REJECTED"]
  else if status =? "RUNNING" then ["DRAFT"; "QUEUED"; "STALE"; "RUNNING"]
  else if status =? "QUEUED" then ["RUNNING"; "QUEUED"; "completed"; "failed"]
  else [].
Definition allowed (status status' : string) : Prop :=
  status' ∈ next_states status ∨ (status = "RUNNING" ∧ status' ∉ open_states).

Lemma held_running token r : held_by token r = true → r_status r = "RUNNING" ∧ r_claim_token r = Some token.
Proof. unfold held_by, is_running. intros. by bools. Qed.
Lemma fenced_running now token r :
  fenced now token r = true → r_status r = "RUNNING" ∧ r_worker_token r = Some token ∧ lease_active now r = true.
Proof.
  unfold fenced, lease_active. intros H. bools. unfold is_running in *. rewrite H. split; [by bools|]. done.
Qed.
Lemma claimable_cases now t r :
  claimable now t r = true →
  (r_status r = "QUEUED" ∨ (r_status r = "RUNNING" ∧ r_worker_lease_until r ≠ None)) ∧
  existsb (λ a, lease_active now a) (site_rows (r_site_id r) t) = false.
Proof.
  unfold claimable, lease_expired, is_running. intros H. bools. split; [|done].
  apply orb_true_iff in H as [H|H]; bools; [by left|]. right. split; [done|].
  by destruct (r_worker_lease_until r).
Qed.

Lemma row_change_status now t r r' :
  row_change now t r r' → r' = r ∨ allowed (r_status r) (r_status r').
Proof.
  unfold allowed.
  destruct 1 as [r' [|st res Hq Hst|Hs|site token Hc|r'' Hs]|token dur Hc _]; [by left|right..].
  - left. rewrite Hq. cbn. unfold next_states. cbn. set_solver.
  - left. cbn. unfold next_states. rewrite !elem_of_cons, elem_of_nil in Hs. destruct Hs as [-> |[-> |[]]]; cbn; set_solver.
  - left. cbn. unfold claim_candidate, is_draft in Hc. bools. rewrite H2. unfold next_states. cbn. set_solver.
  - destruct Hs as [token res Hh|res Hd|token Hh|token Hd|token st res Hh Hst|token until cursor res Hf _ _]; cbn.
    + left. apply held_running in Hh as [-> _]. unfold next_states. cbn. set_solver.
    + left. unfold is_draft in Hd. bools. rewrite Hd. unfold next_states. cbn. set_solver.
    + left. apply held_running in Hh as [-> _]. unfold next_states. cbn. set_solver.
    + left. apply orb_true_iff in Hd as [Hd|Hd].
      * unfold is_draft in Hd. bools. rewrite Hd. unfold next_states. cbn. set_solver.
      * apply held_running in Hd as [-> _]. unfold next_states. cbn. set_solver.
    + right. by apply held_running in Hh as [-> _].
    + left. apply fenced_running in Hf as (-> & _). unfold next_states. cbn. set_solver.
  - left. apply claimable_cases in Hc as [[-> |[-> _]] _]; unfold next_states; cbn; set_solver.
Qed.

Lemma closed_row now t r r' : row_change now t r r' → r_status r ∉ open_states → r' = r.
Proof.
  intros Hc Ho. destruct (row_change_status _ _ _ _ Hc) as [|[Ha|[Ha _]]]; [done| |rewrite Ha in Ho; unfold open_states in Ho; set_solver].
  exfalso. apply Ho. unfold open_states, next_states in *.
  destruct (String.eqb_spec (r_status r) "DRAFT") as [->|]; [set_solver|].
  destruct (String.eqb_spec (r_status r) "RUNNING") as [->|]; [set_solver|].
  destruct (String.eqb_spec (r_status r) "QUEUED") as [->|]; [set_solver|]. by apply elem_of_nil in Ha.
Qed.

(** ** Claims and leases *)

(** A claimed rollout (by the orchestrator) carries no worker lease, a draft
    neither, and a queued rollout no claim. *)
Record row_ok (r : rollout_row) : Prop := {
  ok_draft : r_status r = "DRAFT" → r_claim_token r = None ∧ r_worker_lease_until r = None;
  ok_queued : r_status r = "QUEUED" → r_claim_token r = None;
  ok_claim : r_claim_token r ≠ None → r_worker_lease_until r = None
}.

Lemma row_change_ok now t r r' : row_change now t r r' → row_ok r → row_ok r'.
Proof.
  intros Hc [Hd Hq Hk].
  destruct Hc as [r' [|st res Hst Hin|Hs|site token Hcand|r'' Hs]|token dur Hcl _].
  - by split.
  - split; cbn; [|auto|auto]. intros ->. rewrite !elem_of_cons, elem_of_nil in Hin. naive_solver.
  - by split.
  - unfold claim_candidate, is_draft in Hcand. bools. destruct (Hd H2). split; cbn; done.
  - destruct Hs as [token res Hh|res Hdr|token Hh|token Hdr|token st res Hh Hst|token until cursor res Hf _ _].
    + by split.
    + unfold is_draft in Hdr. bools. destruct (Hd Hdr). split; cbn; done.
    + apply held_running in Hh as [_ Ht]. split; cbn; try done. intros _. split; [done|]. apply Hk. by rewrite Ht.
    + by split.
    + unfold open_states in Hst. split; cbn; [intros ->; set_solver|done|done].
    + apply fenced_running in Hf as (Hrun & _ & Hl). unfold lease_active in Hl. bools.
      destruct (r_claim_token r) eqn:Et; [rewrite Hk in H0; done|]. split; cbn; rewrite ?Et; done.
  - apply claimable_cases in Hcl as [[Hst|[Hst Hl]] _].
    + split; cbn; rewrite (Hq Hst); done.
    + destruct (r_claim_token r) eqn:Et; [by destruct Hl, Hk|]. split; cbn; rewrite ?Et; done.
Qed.

(** At most one unexpired lease per site. *)
Definition one_lease (now : Z) (t : tenant) : Prop :=
  ∀ id1 id2 r1 r2, rollout_runs t !! id1 = Some r1 → rollout_runs t !! id2 = Some r2 →
    lease_active now r1 = true → lease_active now r2 = true → r_site_id r1 = r_site_id r2 → id1 = id2.

Definition leases_ok (now : Z) (t : tenant) : Prop :=
  one_lease now t ∧ ∀ id r, rollout_runs t !! id = Some r → row_ok r.

Lemma lease_active_later now now' r : (now ≤ now')%Z → lease_active now' r = true → lease_active now r = true.
Proof.
  unfold lease_active. intros Hle H. bools. rewrite H. cbn. destruct (r_worker_lease_until r); [|done]. bools.
  apply Z.leb_le. lia.
Qed.

Lemma leases_later now now' t : (now ≤ now')%Z → leases_ok now t → leases_ok now' t.
Proof.
  intros Hle [Hone Hrows]. split; [|done]. intros id1 id2 r1 r2 H1 H2 A1 A2 Hs.
  eapply Hone; [exact H1|exact H2|..|exact Hs]; by eapply lease_active_later.
Qed.

(** A quiet change leaves no unexpired lease that was not there before. *)
Lemma row_quiet_active now t r r' :
  row_ok r → row_quiet now t r r' → lease_active now r' = true → lease_active now r = true.
Proof.
  intros Hok Hc. unfold lease_active at 1.
  destruct Hc as [|st res Hst Hin|Hs|site token Hcand|r' Hs]; cbn; intros Ha.
  - done.
  - bools. unfold is_running in H. cbn in H. bools. subst st. rewrite !elem_of_cons, elem_of_nil in Hin. naive_solver.
  - done.
  - unfold claim_candidate, is_draft in Hcand. bools. destruct (ok_draft _ Hok H2) as [_ Hl]. by rewrite Hl in Ha.
  - destruct Hs as [token res Hh|res Hdr|token Hh|token Hdr|token st res Hh Hst|token until cursor res Hf _ _]; cbn in Ha; try done.
    + bools. unfold is_running in H. cbn in H. bools. subst st. unfold open_states in Hst. set_solver.
    + by apply fenced_running in Hf as (_ & _ & ?).
Qed.

Lemma site_rows_active now t id r :
  rollout_runs t !! id = Some r → lease_active now r = true →
  existsb (λ a, lease_active now a) (site_rows (r_site_id r) t) = true.
Proof.
  intros Hr Ha. apply existsb_exists. exists r. split; [|done]. apply list_elem_of_In.
  unfold site_rows. apply list_elem_of_filter. unfold of_site. split; [by rewrite String.eqb_refl|].
  apply list_elem_of_fmap. exists (id, r). split; [done|]. by apply elem_of_map_to_list.
Qed.

Lemma new_draft_ok now site sequence hash requested targets plan :
  row_ok (new_draft now site sequence hash requested targets plan).
Proof. by split. Qed.

Lemma effect_leases now t t' : leases_ok now t → effect accepts now t t' → leases_ok now t'.
Proof.
  intros [Hone Hrows] He.
  assert (∀ id r', rollout_runs t' !! id = Some r' → row_ok r') as Hrows'.
  { intros id r' Hr'. destruct (effect_rows_from _ _ _ _ _ He Hr') as [[r Hr]|(? & ? & ? & ? & ? & ? & ->)];
      [|apply new_draft_ok].
    destruct (effect_row _ _ _ _ _ He Hr) as (r2 & Hr2 & Hc). assert (r2 = r') as <- by congruence.
    eapply row_change_ok; [exact Hc | by eapply Hrows]. }
  split; [|exact Hrows']. intros id1 id2 r1 r2 H1 H2 A1 A2 Hs.
  destruct (effect_cases _ _ _ He) as [(id & r & token & dur & Hr & Hc & _ & ->)|Hq].
  - apply claimable_cases in Hc as [_ Hnone]. cbn in H1, H2.
    assert (∀ id3 r3, rollout_runs t !! id3 = Some r3 → lease_active now r3 = true → r_site_id r3 ≠ r_site_id r) as Hfree.
    { intros id3 r3 H3 A3 Heq. rewrite <- Heq in Hnone. by rewrite (site_rows_active _ _ _ _ H3 A3) in Hnone. }
    apply lookup_insert_Some in H1, H2. destruct H1 as [[<- <-]|[N1 H1]], H2 as [[<- <-]|[N2 H2]]; cbn in Hs.
    + done.
    + by destruct (Hfree _ _ H2 A2 (eq_sym Hs)).
    + by destruct (Hfree _ _ H1 A1 Hs).
    + by eapply Hone.
  - assert (∀ id r', rollout_runs t' !! id = Some r' → lease_active now r' = true →
      ∃ r, rollout_runs t !! id = Some r ∧ lease_active now r = true ∧ r_site_id r = r_site_id r') as Hfrom.
    { intros id r' Hr' Ha.
      destruct (effect_rows_from _ _ _ _ _ He Hr') as [[r Hr]|(? & ? & ? & ? & ? & ? & ->)]; [|done].
      destruct (Hq _ _ Hr) as (r3 & Hr3 & Hc). assert (r3 = r') as -> by congruence.
      exists r. split; [done|]. split; [eapply row_quiet_active; [by eapply Hrows|done..]|].
      by destruct (row_change_plan _ _ _ _ (rw_quiet _ _ _ _ Hc)) as [-> _]. }
    destruct (Hfrom _ _ H1 A1) as (p1 & P1 & B1 & S1). destruct (Hfrom _ _ H2 A2) as (p2 & P2 & B2 & S2).
    eapply Hone; [exact P1|exact P2|done..|congruence].
Qed.
End rollouts.
