(* ===== verification/Refinement.v ===== *)
(** Every run of the modelled database code is a sequence of the effects of
    [Protocol]: the refinement that carries the invariants of the effects to the
    operations, to the worker's loop and to any history of calls. *)

From stdpp Require Import relations.
From S2P Require Import Prelude GoStrings Json Uci DeviceOperation Store DeviceOperations ChangeSets Rollouts Worker.
From S2P Require Import QueueFacts Protocol.

Section refinement.
Context (accepts : json → Prop).
Notation run := (run accepts).

Lemma run_same now t t' : t' = t → run now t t'.
Proof. intros ->. apply rtc_refl. Qed.
Lemma run_once now t t' : effect accepts now t t' → run now t t'.
Proof. apply rtc_once. Qed.
Lemma run_trans now t t1 t2 : run now t t1 → run now t1 t2 → run now t t2.
Proof. intros ? ?. by etrans. Qed.

(** ** The operations on a device's queue *)

Lemma QueueDeviceOperation_run now schema deviceID plan w r w' :
  accepts (default JNull plan) →
  QueueDeviceOperation now schema deviceID plan w = (r, w') → run now (tn w) (tn w').
Proof.
  intros Ha H. apply QueueDeviceOperation_inv in H as [He|(doc & i & d & d' & Hq & [Hd Ht] & _)]; [by apply run_same|].
  apply run_once. rewrite Ht. by eapply e_queue_operation.
Qed.

Lemma queueDeviceChangeSet_run now schema owner deviceID raw w r w' :
  accepts (default JNull raw) →
  queueDeviceChangeSet now schema owner deviceID raw w = (r, w') → run now (tn w) (tn w').
Proof.
  intros Ha H. apply queueDeviceChangeSet_inv in H as [He|(doc & i & d & d' & Hq & [Hd Ht] & _)]; [by apply run_same|].
  apply run_once. rewrite Ht. by eapply e_queue_change_set.
Qed.

Lemma RecordDeviceOperationStatus_run now schema deviceID status w r w' :
  accepts (default JNull status) →
  RecordDeviceOperationStatus now schema deviceID status w = (r, w') → run now (tn w) (tn w').
Proof.
  intros Ha H. apply RecordDeviceOperationStatus_inv in H as [[He _]|(a & d & _ & Hr & [Hd Ht])]; [by apply run_same|].
  apply run_once. rewrite Ht. by eapply e_operation_status.
Qed.

Lemma RecordDeviceChangeSetStatus_run now schema deviceID status w r w' :
  accepts (default JNull status) →
  RecordDeviceChangeSetStatus now schema deviceID status w = (r, w') → run now (tn w) (tn w').
Proof.
  intros Ha H. apply RecordDeviceChangeSetStatus_inv in H as [[He _]|(a & d & t1 & Hr & [Hd ->] & Hend)]; [by apply run_same|].
  eapply run_trans; [apply run_once; by eapply e_change_set_status|].
  destruct Hend as [[-> _]|(st & res & failure & _ & _ & -> & _ & Hc)]; [by apply run_same|].
  apply run_once. eapply e_rollout_results; [|exact Hc]. destruct (_ =? _); set_solver.
Qed.

(** ** Drafts and claims *)

(** [UPDATE rollout_runs ... WHERE id AND site_id AND p]. *)
Lemma update_rollout_inv rolloutID siteID p f w r w' :
  update_rollout rolloutID siteID p f w = (r, w') →
  (tn w' = tn w ∧ r ≠ Ok 1%nat) ∨
  ∃ id row, r = Ok 1%nat ∧ rollout_runs (tn w) !! id = Some row ∧ p row = true ∧
    find_rollout rolloutID siteID (tn w) = Ok (id, Some row) ∧ tn w' = set_rollouts <[id := f row]> (tn w).
Proof.
  intros H. apply statement_inv in H as [(a & t & -> & Hf & Ht)|(e & -> & ->)]; [|by left].
  destruct (find_rollout rolloutID siteID (tn w)) as [[id found]|] eqn:Ef; [|done]. cbn [res_bind] in Hf.
  destruct found as [row|]; [|injection Hf as <- <-; by left].
  destruct (p row) eqn:Ep; [|injection Hf as <- <-; by left]. injection Hf as <- <-.
  right. exists id, row. split; [done|]. split; [|done].
  unfold find_rollout in Ef. destruct (uuid_param rolloutID); [|done]. destruct (uuid_param siteID); [|done].
  cbn in Ef. injection Ef as -> Ef. destruct (rollout_runs (tn w) !! id) as [r|]; [|done]. cbn in Ef.
  by destruct (of_site _ r).
Qed.

Lemma update_rollout_run now rolloutID siteID p f w r w' :
  (∀ row, p row = true → row_step now row (f row)) →
  update_rollout rolloutID siteID p f w = (r, w') → run now (tn w) (tn w').
Proof.
  intros Hp H. apply update_rollout_inv in H as [[He _]|(id & row & _ & Hr & Hrow & _ & ->)]; [by apply run_same|].
  apply run_once. eapply e_row; [done | by apply Hp].
Qed.

Lemma one_row_tn e n w r w' : one_row e n w = (r, w') → w' = w ∧ (r = Ok tt → n = 1%nat).
Proof.
  unfold one_row, lift, fail_if. intros [= <- <-]. split; [done|].
  destruct (Nat.eqb_spec n 1); [done | by cbn].
Qed.

Lemma advisory_lock_inv w r w' : advisory_lock w = (r, w') → tn w' = tn w.
Proof. intros H. by apply query_inv in H as [? _]. Qed.

Lemma InsertAuditLogContext_run now user action kind id payload ip w r w' :
  InsertAuditLogContext user action kind id payload ip w = (r, w') → run now (tn w) (tn w').
Proof.
  intros H. apply statement_inv in H as [(a & t & -> & Hf & Ht)|(e & -> & ->)]; [|apply rtc_refl].
  injection Hf as <- <-. rewrite Ht. apply run_once, e_audit.
Qed.

Lemma CreateRolloutDraft_inv now new_id schema siteID requestedBy planHash targets plan w r w' :
  CreateRolloutDraft now new_id schema siteID requestedBy planHash targets plan w = (r, w') →
  (tn w' = tn w ∧ ∃ e, r = Err e) ∨
  ∃ site hash requested tg pl,
    let sequence := (max_generation (site_rows site (tn w)) + 1)%Z in
    uuid_in siteID = Some site ∧ site ∈ sites (tn w) ∧ rollout_runs (tn w) !! new_id = None ∧
    targets ≫= jsonb_in = Some tg ∧ plan ≫= jsonb_in = Some pl ∧ char64 planHash = Ok hash ∧
    r = Ok (DraftRecord new_id siteID sequence "DRAFT" "" planHash requestedBy (default JNull targets) (default JNull plan) (JArr [])) ∧
    tn w' = set_rollouts (λ m, <[new_id := new_draft now site sequence hash requested tg pl]>
                                  (stale_drafts now site sequence m)) (tn w).
Proof.
  unfold CreateRolloutDraft. intros H. m_bind H as s w1 Hs; [left; eauto|].
  apply transaction_inv in H as [(e & -> & ->)|(rec & w2 & -> & H & ->)]; [left; eauto|]. right.
  m_bind H as u w3 Hl. apply advisory_lock_inv in Hl. cbn [tn] in Hl.
  m_bind H as sequence w4 Hq. apply query_inv in Hq as [Ht Hq]. specialize (Hq _ eq_refl).
  m_bind H as u2 w5 Hst. apply statement_inv in Hst as [(a & t & _ & Hst & Ht5)|(e & [=] & _)].
  m_bind H as id w6 Hi. apply statement_inv in Hi as [(b & t6 & E & Hi & Ht6)|(e & [=] & _)]. injection E as <-.
  m_end H. unfold uuid_param in *. destruct (uuid_in siteID) as [site|]; [|done]. cbn [res_bind] in Hq, Hst, Hi.
  apply next_generation_ok in Hq as [-> _]. injection Hst as _ <-.
  destruct (char64 planHash) as [hash|] eqn:Eh; [|done]. cbn [res_bind] in Hi.
  destruct (varchar 100 requestedBy) as [requested|]; [|done]. cbn [res_bind] in Hi.
  destruct targets as [targets|]; [|done]. destruct (jsonb_param targets) as [tg|] eqn:Etg; [|done]. cbn [res_bind] in Hi.
  destruct plan as [plan|]; [|done]. destruct (jsonb_param plan) as [pl|] eqn:Epl; [|done]. cbn [res_bind] in Hi.
  unfold fail_if in Hi. destruct (_ || _) eqn:Ex in Hi; [done|]. cbn [res_bind] in Hi. injection Hi as <- <-.
  rewrite Ht, Hl in Ht5. rewrite Hl in Ht6, Ex |- *. bools. apply eq_None_not_Some in H1. rewrite Ht5 in H, H1.
  cbn in H, H1. unfold update_where in H1. rewrite lookup_fmap in H1. apply jsonb_param_ok in Etg, Epl.
  exists site, hash, requested, tg, pl. split; [done|]. split; [done|].
  split; [by destruct (rollout_runs (tn w) !! new_id)|]. do 4 (split; [done|]). by rewrite Ht6, Ht5.
Qed.

Lemma CreateRolloutDraft_run now new_id schema siteID requestedBy planHash targets plan w r w' :
  CreateRolloutDraft now new_id schema siteID requestedBy planHash targets plan w = (r, w') → run now (tn w) (tn w').
Proof.
  intros [[-> _]|(site & hash & requested & tg & pl & _ & _ & Hnew & _ & _ & _ & _ & ->)]%CreateRolloutDraft_inv; [apply rtc_refl|].
  apply run_once. by apply e_draft.
Qed.

(** A successful claim is the claim effect. *)
Lemma claimRolloutDraftTx_inv now token siteID rolloutID w rec w' :
  claimRolloutDraftTx now token siteID rolloutID w = (Ok rec, w') →
  ∃ id site r, find_rollout rolloutID siteID (tn w) = Ok (id, Some r) ∧ uuid_in siteID = Some site ∧
    claim_candidate now site (site_rows site (tn w)) r = true ∧ rec = record_of id (set_status "RUNNING" (Some token) now r) ∧
    rollout_runs (tn w) !! id = Some r ∧
    tn w' = set_rollouts <[id := set_status "RUNNING" (Some token) now r]>
      (set_devices (expire_devices now site (site_rows site (tn w)))
        (set_rollouts (fmap (expire_row now site (site_rows site (tn w)))) (tn w))).
Proof.
  unfold claimRolloutDraftTx. intros H. m_bind H as claimed w1 Hc. destruct claimed as [[id r]|]; m_end H.
  apply statement_inv in Hc as [(a & t & E & Hc & Ht)|(e & [=] & _)]. injection E as <-.
  unfold find_rollout. destruct (uuid_param rolloutID) as [id2|] eqn:E1; [|done]. cbn [res_bind] in Hc |- *.
  destruct (uuid_param siteID) as [site|] eqn:E2; [|done]. cbn [res_bind] in Hc |- *.
  destruct (rollout_runs (tn w) !! id2) as [r2|] eqn:Er; [|done].
  destruct (claim_candidate _ _ _ r2) eqn:Ec; [|done]. injection Hc as <- <- <-.
  assert (of_site site r2 = true) as Hof by (unfold claim_candidate in Ec; by bools).
  exists id2, site, r2. rewrite Er. cbn. rewrite Hof.
  unfold uuid_param in E2. destruct (uuid_in siteID); [|done]. injection E2 as ->. done.
Qed.

Lemma claimRolloutDraftTx_run now token siteID rolloutID w rec w' :
  claimRolloutDraftTx now token siteID rolloutID w = (Ok rec, w') → run now (tn w) (tn w').
Proof.
  intros (id & site & r & _ & _ & Hc & _ & Hr & ->)%claimRolloutDraftTx_inv. apply run_once. by apply e_claim.
Qed.

Lemma ClaimRolloutDraft_run now token schema siteID rolloutID w r w' :
  ClaimRolloutDraft now token schema siteID rolloutID w = (r, w') → run now (tn w) (tn w').
Proof.
  unfold ClaimRolloutDraft. intros H. m_bind H as s w1 Hs; [apply rtc_refl|].
  apply transaction_inv in H as [(e & -> & ->)|(rec & w2 & -> & H & ->)]; [apply rtc_refl|].
  m_bind H as u w3 Hl. apply advisory_lock_inv in Hl. cbn in Hl. rewrite <- Hl. by eapply claimRolloutDraftTx_run.
Qed.

Definition item_documents (items : list DeviceChangeSetQueueItem) : list json :=
  map (λ i, default JNull (qi_ChangeSet i)) items.

Lemma queue_items_run now schema siteID rolloutID items g w r w' :
  Forall accepts (item_documents items) →
  queue_items now schema siteID rolloutID items g w = (r, w') → run now (tn w) (tn w').
Proof.
  revert g w r w'. induction items as [|item items IH]; intros g w r w' Hall H; cbn [queue_items] in H.
  { m_end H. apply rtc_refl. }
  inversion Hall as [|x l Ha Hrest]; subst. m_bind H as i w1 Hp; [apply rtc_refl|].
  m_bind H as g' w2 Hq; [by eapply queueDeviceChangeSet_run|].
  eapply run_trans; [by eapply queueDeviceChangeSet_run|].
  m_bind H as p w3 Hr; [by eapply IH|]. destruct p as [gs ids]. m_end H. by eapply IH.
Qed.

Lemma audit_queued_run now user siteID ip rolloutID g ids w r w' :
  audit_queued user siteID ip rolloutID g ids w = (r, w') → run now (tn w) (tn w').
Proof.
  revert w. induction ids as [|i ids IH]; intros w H; cbn [audit_queued] in H; [m_end H; apply rtc_refl|].
  m_bind H as u w1 Ha; [by eapply InsertAuditLogContext_run|].
  eapply run_trans; [by eapply InsertAuditLogContext_run | by eapply IH].
Qed.

Lemma close_claim_inv now results rolloutID siteID token w r w' :
  close_claim now results rolloutID siteID token w = (r, w') →
  (tn w' = tn w ∧ r ≠ Ok 1%nat) ∨
  ∃ id row doc, r = Ok 1%nat ∧ jsonb_in results = Some doc ∧ find_rollout rolloutID siteID (tn w) = Ok (id, Some row) ∧
    rollout_runs (tn w) !! id = Some row ∧ held_by token row = true ∧
    tn w' = set_rollouts <[id := set_results "QUEUED" None doc now row]> (tn w).
Proof.
  intros H. apply statement_inv in H as [(a & t & -> & Hf & Ht)|(e & -> & ->)]; [|by left].
  destruct (jsonb_param results) as [doc|] eqn:Ed; [|done]. cbn [res_bind] in Hf. apply jsonb_param_ok in Ed.
  destruct (find_rollout rolloutID siteID (tn w)) as [[id found]|] eqn:Ef; [|done]. cbn [res_bind] in Hf.
  destruct found as [row|]; [|injection Hf as <- <-; by left].
  destruct (_ && _) eqn:Eh; [|injection Hf as <- <-; by left]. injection Hf as <- <-.
  right. exists id, row, doc. split; [done|]. split; [done|]. split; [done|]. split; [|done].
  unfold find_rollout in Ef. destruct (uuid_param rolloutID); [|done]. destruct (uuid_param siteID); [|done].
  cbn in Ef. injection Ef as -> Ef. destruct (rollout_runs (tn w) !! id) as [r|]; [|done]. cbn in Ef.
  by destruct (of_site _ r).
Qed.

Lemma ClaimAndQueueDeviceChangeSets_run now token schema siteID rolloutID items results user ip w r w' :
  Forall accepts (item_documents items) →
  ClaimAndQueueDeviceChangeSets now token schema siteID rolloutID items results user ip w = (r, w') →
  run now (tn w) (tn w').
Proof.
  unfold ClaimAndQueueDeviceChangeSets. intros Hall H. m_bind H as u w1 Hn; [apply rtc_refl|].
  m_bind H as s w2 Hs; [apply rtc_refl|].
  apply transaction_inv in H as [(e & -> & ->)|(g & w2 & -> & H & ->)]; [apply rtc_refl|].
  m_bind H as u3 w3 Hl. apply advisory_lock_inv in Hl. cbn in Hl. rewrite <- Hl.
  m_bind H as rec w4 Hc. eapply run_trans; [by eapply claimRolloutDraftTx_run|].
  m_bind H as p w5 Hq. destruct p as [gs ids]. eapply run_trans; [by eapply queue_items_run|].
  m_bind H as res w6 Ha. m_bind H as n w7 Hcl. m_bind H as u4 w8 Hf. m_bind H as u5 w9 Hau. m_bind H as u6 w10 Hau2.
  m_end H. apply close_claim_inv in Hcl as [[He _]|(id & row & doc & _ & _ & _ & Hrow & Hh & He)].
  - rewrite <- He. eapply run_trans; [by eapply InsertAuditLogContext_run | by eapply audit_queued_run].
  - eapply run_trans; [apply run_once; eapply e_row; [exact Hrow | by eapply row_queued]|]. rewrite <- He.
    eapply run_trans; [by eapply InsertAuditLogContext_run | by eapply audit_queued_run].
Qed.

Lemma ClaimAndQueueDeviceChangeSet_run now token schema siteID rolloutID role changeSet result user ip w r w' :
  accepts (default JNull changeSet) →
  ClaimAndQueueDeviceChangeSet now token schema siteID rolloutID role changeSet result user ip w = (r, w') →
  run now (tn w) (tn w').
Proof.
  unfold ClaimAndQueueDeviceChangeSet. intros Ha H.
  m_bind H as g w1 Hc; [|m_bind H as i w2 Hp; try m_end H];
    (eapply ClaimAndQueueDeviceChangeSets_run; [|exact Hc]; by constructor).
Qed.

(** ** Closing a draft *)

Lemma RejectRolloutDraft_run now schema siteID rolloutID reason w r w' :
  RejectRolloutDraft now schema siteID rolloutID reason w = (r, w') → run now (tn w) (tn w').
Proof.
  unfold RejectRolloutDraft. intros H. m_bind H as s w1 Hs; [apply rtc_refl|]. m_bind H as u w2 Hn; [apply rtc_refl|].
  m_bind H as n w3 Hu; [|apply one_row_tn in H as [-> _]];
    (eapply update_rollout_run; [|exact Hu]; intros row Hrow; by apply row_rejected).
Qed.

Lemma ReleaseRolloutDraft_run now schema siteID rolloutID token w r w' :
  ReleaseRolloutDraft now schema siteID rolloutID token w = (r, w') → run now (tn w) (tn w').
Proof.
  unfold ReleaseRolloutDraft. intros H. m_bind H as s w1 Hs; [apply rtc_refl|].
  m_bind H as n w3 Hu; [|apply one_row_tn in H as [-> _]];
    (eapply update_rollout_run; [|exact Hu]; intros row Hrow; by eapply row_released).
Qed.

Lemma fail_running_run now site t : run now t (set_devices (fail_running_devices now site) t).
Proof.
  apply run_once.
  apply (e_device_statuses accepts now t (fail_running_devices now site (devices t))).
  intros id. unfold fail_running_devices, update_where. rewrite lookup_fmap.
  destruct (devices t !! id) as [d|] eqn:E; [|by left]. cbn. destruct (_ && _); [right; by exists d, "FAILED" | by left].
Qed.

Lemma MarkRolloutDraftStale_run now schema siteID rolloutID token w r w' :
  MarkRolloutDraftStale now schema siteID rolloutID token w = (r, w') → run now (tn w) (tn w').
Proof.
  unfold MarkRolloutDraftStale. intros H. m_bind H as s w1 Hs; [apply rtc_refl|].
  apply transaction_inv in H as [(e & -> & ->)|(rec & w2 & -> & H & ->)]; [apply rtc_refl|].
  m_bind H as previous w3 Hq. apply query_inv in Hq as [Ht Hq]. cbn in Ht. specialize (Hq _ eq_refl). cbn in Hq.
  rewrite <- Ht in Hq |- *. destruct (find_rollout rolloutID siteID (tn w3)) as [[id found]|] eqn:Ef; [|done].
  cbn in Hq. destruct previous as [status|]; [|m_end H]. destruct found as [row|]; [|done]. cbn in Hq.
  destruct (is_draft row || held_by token row) eqn:Er; [|done]. clear Hq Ht.
  m_bind H as n w4 Hu. m_bind H as u w5 Ho. assert (n = 1%nat) as -> by by destruct (Nat.eqb_spec n 1).
  apply update_rollout_inv in Hu as [[_ Hne]|(id2 & row2 & _ & Hrow & _ & Ef2 & He)]; [congruence|].
  rewrite Ef in Ef2. injection Ef2 as <- <-.
  eapply run_trans; [apply run_once; eapply e_row; [exact Hrow | by eapply row_stale]|]. rewrite <- He.
  destruct (status =? "RUNNING"); [|m_end H; apply rtc_refl].
  apply statement_inv in H as [(a & t & _ & H & ->)|(e & [=] & _)].
  destruct (uuid_param siteID) as [site|]; [|done]. injection H as _ <-. apply fail_running_run.
Qed.

(** ** The worker *)

Lemma fenced_update_run now schema lease f w r w' :
  (∀ row, fenced now (l_Token lease) row = true → row_step now row (f row)) →
  fenced_update now schema lease f w = (r, w') → run now (tn w) (tn w').
Proof.
  unfold fenced_update. intros Hf H. m_bind H as s w1 Hs; [apply rtc_refl|].
  m_bind H as n w3 Hu; [|apply one_row_tn in H as [-> _]]; by eapply update_rollout_run.
Qed.
Lemma UpdateRolloutWorkerCursor_run now schema lease cursor w r w' :
  UpdateRolloutWorkerCursor now schema lease cursor w = (r, w') → run now (tn w) (tn w').
Proof. apply fenced_update_run. intros row Hr. eapply row_worker; [exact Hr | lia | by left]. Qed.
Lemma UpdateRolloutWorkerResults_run now schema lease results w r w' :
  UpdateRolloutWorkerResults now schema lease results w = (r, w') → run now (tn w) (tn w').
Proof.
  unfold UpdateRolloutWorkerResults. destruct (jsonb_in results) as [doc|].
  - apply fenced_update_run. intros row Hr. eapply row_worker; [exact Hr | lia | by left].
  - intros H. m_bind H as s w1 Hs; [apply rtc_refl|]. m_end H. apply rtc_refl.
Qed.
Lemma RenewRolloutLease_run now schema lease duration w r w' :
  RenewRolloutLease now schema lease duration w = (r, w') → run now (tn w) (tn w').
Proof. apply fenced_update_run. intros row Hr. eapply row_worker; [exact Hr | lia | right; by eexists]. Qed.

(** The claim of a queued rollout takes the first claimable row. *)
Lemma ClaimQueuedRollout_inv now token schema duration w r w' :
  ClaimQueuedRollout now token schema duration w = (r, w') →
  (tn w' = tn w ∧ ∃ e, r = Err e) ∨
  ∃ id row rest, claim_order (tn w) now = (id, row) :: rest ∧ (0 < duration)%Z ∧
    rollout_runs (tn w) !! id = Some row ∧ claimable now (tn w) row = true ∧
    r = Ok (Lease id (r_site_id row) token (r_worker_cursor row)) ∧
    tn w' = set_rollouts
      <[id := set_worker (Some token) (Some (now + duration)%Z) (r_worker_cursor row) (r_results row) now row]> (tn w).
Proof.
  unfold ClaimQueuedRollout. intros H. m_bind H as s w1 Hs; [left; eauto|]. m_bind H as u w2 Hd; [left; eauto|].
  unfold fail_if in Hd. destruct (duration <=? 0)%Z eqn:Ed; [done|]. bools.
  m_bind H as claimed w3 Hc.
  { apply statement_inv in Hc as [(? & ? & ? & _)|(? & _ & ->)]; [done | left; eauto]. }
  apply statement_inv in Hc as [(a & t & E & Hc & Ht)|(e & [=] & _)]. injection E as <-.
  destruct (claim_order (tn w) now) as [|[id row] rest] eqn:Eo.
  { injection Hc as <- <-. m_end H. left. eauto. }
  injection Hc as <- <-. m_end H. right. exists id, row, rest. split; [done|]. split; [lia|].
  assert ((id, row) ∈ claim_order (tn w) now) as Hin by (rewrite Eo; left).
  unfold claim_order in Hin. rewrite stable_sort_perm in Hin. apply list_elem_of_filter in Hin as [Hcl Hin].
  apply elem_of_map_to_list in Hin. done.
Qed.

Lemma ClaimQueuedRollout_run now token schema duration w r w' :
  ClaimQueuedRollout now token schema duration w = (r, w') → run now (tn w) (tn w').
Proof.
  intros [[-> _]|(id & row & rest & _ & Hd & Hr & Hc & _ & ->)]%ClaimQueuedRollout_inv; [apply rtc_refl|].
  apply run_once. by eapply e_lease.
Qed.
End refinement.
