(* ===== verification/History.v ===== *)
(** Histories: sequences of calls of the database operations and turns of the
    rollout worker, at times that do not go back, each call with the faults the
    driver shows it.  Every history is a path of the protocol's transition
    system, so what holds on all paths holds after every history. *)

From stdpp Require Import relations.
From S2P Require Import Prelude GoStrings Json Uci DeviceOperation Store DeviceOperations ChangeSets Rollouts Worker.
From S2P Require Import QueueFacts Protocol Generations RolloutInvariants Refinement.

(** ** Calls *)

Inductive call :=
  | CallQueueOperation (deviceID : string) (plan : raw_message)
  | CallQueueChangeSet (deviceID : string) (changeSet : raw_message)
  | CallQueueChangeSetForRollout (siteID role deviceID : string) (changeSet : raw_message) (rolloutID : string)
  | CallRecordOperation (deviceID : string) (status : raw_message)
  | CallRecordChangeSet (deviceID : string) (status : raw_message)
  | CallCreateDraft (new_id siteID requestedBy planHash : string) (targets plan : raw_message)
  | CallClaim (token siteID rolloutID : string)
  | CallClaimAndQueue (token siteID rolloutID : string) (items : list DeviceChangeSetQueueItem)
      (results : raw_message) (user ip : string)
  | CallReject (siteID rolloutID reason : string)
  | CallRelease (siteID rolloutID token : string)
  | CallMarkStale (siteID rolloutID token : string)
  | CallWorker (token : string) (leaseDuration : Z) (ticks : list (Z * Z)).

(** The result of a call does not matter for the tables. *)
Definition ignore {A} (m : M A) : M unit := let* _ := m in mret tt.
Definition exec (now : Z) (schema : string) (c : call) : M unit :=
  match c with
  | CallQueueOperation id plan => ignore (QueueDeviceOperation now schema id plan)
  | CallQueueChangeSet id cs => ignore (QueueDeviceChangeSet now schema id cs)
  | CallQueueChangeSetForRollout site role id cs rollout =>
      ignore (QueueDeviceChangeSetForRollout now schema site role id cs rollout)
  | CallRecordOperation id status => RecordDeviceOperationStatus now schema id status
  | CallRecordChangeSet id status => RecordDeviceChangeSetStatus now schema id status
  | CallCreateDraft new_id site user hash targets plan =>
      ignore (CreateRolloutDraft now new_id schema site user hash targets plan)
  | CallClaim token site rollout => ignore (ClaimRolloutDraft now token schema site rollout)
  | CallClaimAndQueue token site rollout items results user ip =>
      ignore (ClaimAndQueueDeviceChangeSets now token schema site rollout items results user ip)
  | CallReject site rollout reason => RejectRolloutDraft now schema site rollout reason
  | CallRelease site rollout token => ReleaseRolloutDraft now schema site rollout token
  | CallMarkStale site rollout token => MarkRolloutDraftStale now schema site rollout token
  | CallWorker token duration ticks => reconcile_tenant now token schema duration ticks
  end.

(** The documents a call hands to the database. *)
Definition documents (c : call) : list json :=
  match c with
  | CallQueueOperation _ raw | CallQueueChangeSet _ raw | CallQueueChangeSetForRollout _ _ _ raw _
  | CallRecordOperation _ raw | CallRecordChangeSet _ raw => [default JNull raw]
  | CallClaimAndQueue _ _ _ items _ _ _ => item_documents items
  | _ => []
  end.

(** The times of a worker's turn, from [now] on. *)
Fixpoint ticks_from (now : Z) (ticks : list (Z * Z)) : bool :=
  match ticks with
  | [] => true
  | (a, b) :: ticks => (now <=? a)%Z && (a <=? b)%Z && ticks_from b ticks
  end.
Definition call_end (now : Z) (c : call) : Z :=
  match c with CallWorker _ _ ticks => default now (snd <$> last ticks) | _ => now end.
Definition call_timely (now : Z) (c : call) : bool :=
  match c with CallWorker _ _ ticks => ticks_from now ticks | _ => true end.

(** A call with its time and its faults, and a history of them. *)
Record event := Event { ev_now : Z; ev_call : call; ev_faults : list bool }.
Definition step_event (schema : string) (e : event) (t : tenant) : tenant :=
  tn (exec (ev_now e) schema (ev_call e) (World t (ev_faults e))).2.
Fixpoint history (schema : string) (events : list event) (t : tenant) : tenant :=
  match events with
  | [] => t
  | e :: events => history schema events (step_event schema e t)
  end.
Fixpoint timely (now : Z) (events : list event) : bool :=
  match events with
  | [] => true
  | e :: events =>
      (now <=? ev_now e)%Z && call_timely (ev_now e) (ev_call e) && timely (call_end (ev_now e) (ev_call e)) events
  end.
Fixpoint history_end (now : Z) (events : list event) : Z :=
  match events with
  | [] => now
  | e :: events => history_end (call_end (ev_now e) (ev_call e)) events
  end.

(** ** Every history is a path *)

Section history.
Context (accepts : json → Prop).
(** The documents the worker writes itself are accepted. *)
Hypothesis accepts_worker : ∀ cs, accepts (change_set_json cs).
Notation run := (run accepts).
Notation reachable := (reachable accepts).

Lemma reachable_trans s s1 s2 : reachable s s1 → reachable s1 s2 → reachable s s2.
Proof. intros ? ?. by etrans. Qed.

Lemma queueNextPhase_run now schema lease progress w r w' :
  queueNextPhase now schema lease progress w = (r, w') → run now (tn w) (tn w').
Proof.
  unfold queueNextPhase. intros H.
  destruct (dec_plan _ _) as [plan|]; [|m_end H; apply rtc_refl].
  destruct (dec_maps _) as [results|]; [|m_end H; apply rtc_refl].
  destruct (worker_order _ !! _) as [device|]; [|m_end H; apply rtc_refl].
  destruct (already_queued _ _); [m_end H; apply rtc_refl|].
  destruct (device_operations plan device) as [ops|]; [|m_end H; apply rtc_refl].
  unfold queue_device in H. m_bind H as cs w1 Hn; [apply rtc_refl|].
  m_bind H as g w2 Hq; [eapply queueDeviceChangeSet_run; [|exact Hq]; apply accepts_worker|].
  eapply run_trans; [eapply queueDeviceChangeSet_run; [|exact Hq]; apply accepts_worker|].
  by eapply UpdateRolloutWorkerResults_run.
Qed.

Lemma advance_cursor_run now schema lease progress w r w' :
  advance_cursor now schema lease progress w = (r, w') → run now (tn w) (tn w').
Proof.
  unfold advance_cursor. destruct (_ <? _)%Z; intros H; [|m_end H; apply rtc_refl].
  m_bind H as u w1 Hu; [|m_end H]; by eapply UpdateRolloutWorkerCursor_run.
Qed.

Lemma reconcile_round_run now schema lease w r w' :
  reconcile_round now schema lease w = (r, w') → run now (tn w) (tn w').
Proof.
  unfold reconcile_round. intros H.
  assert (∀ x w1, GetRolloutProgress schema (l_RolloutID lease) (l_SiteID lease) w = (x, w1) → tn w1 = tn w) as Hp.
  { unfold GetRolloutProgress. intros x w1 Hg. m_bind Hg as s w2 Hs; [done|].
    m_bind Hg as found w3 Hf; apply query_inv in Hf as [Hf _]; [done|].
    destruct found as [? [?|]]; m_end Hg; done. }
  m_bind H as progress w1 Hg; apply Hp in Hg as <-; [apply rtc_refl|].
  m_bind H as lease' w2 Ha; [by eapply advance_cursor_run|].
  eapply run_trans; [by eapply advance_cursor_run|].
  m_bind H as u w3 Hq; [|m_end H];
    (destruct (canAdvancePhase _ _); [by eapply queueNextPhase_run | m_end Hq; apply rtc_refl]).
Qed.

Lemma ticks_end now ticks : ticks_from now ticks = true → (now ≤ default now (snd <$> last ticks))%Z.
Proof.
  revert now. induction ticks as [|[a b] ticks IH]; intros now; [cbn; lia|]. cbn [ticks_from]. intros Hl. bools.
  rewrite last_cons. specialize (IH _ H0). destruct (last ticks); cbn in *; lia.
Qed.

Lemma reachable_wait now now' t : (now ≤ now')%Z → reachable (now, t) (now', t).
Proof. intros Hle. apply run_reachable; [done | apply rtc_refl]. Qed.

Lemma reconcileLease_reachable ticks schema lease duration now w r w' :
  ticks_from now ticks = true → reconcileLease ticks schema lease duration w = (r, w') →
  reachable (now, tn w) (default now (snd <$> last ticks), tn w').
Proof.
  revert now lease w. induction ticks as [|[a b] ticks IH]; intros now lease w Ht H; cbn [reconcileLease] in H.
  { m_end H. apply rtc_refl. }
  pose proof (ticks_end _ _ Ht) as Hend. cbn [ticks_from] in Ht.
  apply andb_true_iff in Ht as [Ht Ht3]. apply andb_true_iff in Ht as [Ht1 Ht2]. apply Z.leb_le in Ht1, Ht2.
  assert (default now (snd <$> last ((a, b) :: ticks)) = default b (snd <$> last ticks)) as Hlast
    by (rewrite last_cons; by destruct (last ticks)).
  pose proof (ticks_end _ _ Ht3) as Hb. rewrite Hlast in Hend |- *. unfold mtry in H.
  destruct (reconcile_round a schema lease w) as [x w1] eqn:Er. apply reconcile_round_run in Er.
  eapply reachable_trans; [apply (run_reachable accepts now a); [done | exact Er]|].
  destruct x as [[lease'|]|e]; [|m_end H; apply reachable_wait; lia..].
  destruct (RenewRolloutLease b schema lease' duration w1) as [y w2] eqn:Ew. apply (RenewRolloutLease_run accepts) in Ew.
  eapply reachable_trans; [apply (run_reachable accepts a b); [done | exact Ew]|].
  destruct y as [u|e]; [by eapply IH | m_end H; by apply reachable_wait].
Qed.

Lemma reconcile_tenant_reachable now token schema duration ticks w r w' :
  ticks_from now ticks = true → reconcile_tenant now token schema duration ticks w = (r, w') →
  reachable (now, tn w) (default now (snd <$> last ticks), tn w').
Proof.
  intros Ht. pose proof (ticks_end _ _ Ht) as Hend. unfold reconcile_tenant, mtry.
  destruct (ClaimQueuedRollout now token schema duration w) as [x w1] eqn:Ec. intros H.
  apply (ClaimQueuedRollout_run accepts) in Ec.
  eapply reachable_trans; [apply (run_reachable accepts now now); [done | exact Ec]|].
  destruct x as [lease|e]; [|m_end H; by apply reachable_wait].
  destruct (InsertAuditLogContext _ _ _ _ _ _ w1) as [y w2] eqn:Ea. apply (InsertAuditLogContext_run accepts now) in Ea.
  eapply reachable_trans; [apply (run_reachable accepts now now); [done | exact Ea]|].
  by eapply reconcileLease_reachable.
Qed.

Lemma ignore_inv {A} (m : M A) w r w' : ignore m w = (r, w') → ∃ r1, m w = (r1, w').
Proof. unfold ignore. intros H. m_bind H as a w1 H1; [by eexists|]. m_end H. by eexists. Qed.

(** What one call does is a path from its time to its end. *)
Lemma exec_reachable now schema c w r w' :
  Forall accepts (documents c) → call_timely now c = true → exec now schema c w = (r, w') →
  reachable (now, tn w) (call_end now c, tn w').
Proof.
  intros Hd Ht H. destruct c; cbn [documents exec call_end call_timely] in *;
    try (apply Forall_cons in Hd as [Hd _]);
    [..|by eapply reconcile_tenant_reachable]; try (apply ignore_inv in H as [r1 H]); (apply run_reachable; [done|]).
  - by eapply QueueDeviceOperation_run.
  - by eapply queueDeviceChangeSet_run.
  - by eapply queueDeviceChangeSet_run.
  - by eapply RecordDeviceOperationStatus_run.
  - by eapply RecordDeviceChangeSetStatus_run.
  - by eapply CreateRolloutDraft_run.
  - by eapply ClaimRolloutDraft_run.
  - by eapply ClaimAndQueueDeviceChangeSets_run.
  - by eapply RejectRolloutDraft_run.
  - by eapply ReleaseRolloutDraft_run.
  - by eapply MarkRolloutDraftStale_run.
Qed.

Lemma history_reachable schema events now t :
  Forall (λ e, Forall accepts (documents (ev_call e))) events → timely now events = true →
  reachable (now, t) (history_end now events, history schema events t).
Proof.
  revert now t. induction events as [|e events IH]; intros now t Hd Ht; [apply rtc_refl|].
  inversion Hd as [|? ? Hd1 Hd2]; subst. cbn [timely] in Ht.
  apply andb_true_iff in Ht as [Ht Ht3]. apply andb_true_iff in Ht as [Ht1 Ht2]. apply Z.leb_le in Ht1.
  cbn [history history_end]. eapply reachable_trans; [|by apply IH].
  eapply reachable_trans; [by apply (reachable_wait now (ev_now e))|].
  unfold step_event. destruct (exec (ev_now e) schema (ev_call e) (World t (ev_faults e))) as [r w'] eqn:E.
  apply (exec_reachable _ _ _ _ _ _ Hd1 Ht2) in E. exact E.
Qed.
End history.
