(* ===== verification/Scenario.v ===== *)
(** One concrete system on which the properties are instantiated: a site with an
    access point, a rollout with one change set, and the life of that change set
    from the draft to the committed report. *)

From S2P Require Import Prelude GoStrings Json Uci DeviceOperation DeviceOperationFacts Store DeviceOperations.
From S2P Require Import ChangeSets Rollouts Worker QueueFacts Protocol Generations RolloutInvariants Refinement.
From S2P Require Import History.

Definition site_id : string := "11111111-1111-1111-1111-111111111111".
Definition rollout_id : string := "22222222-2222-2222-2222-222222222222".
Definition schema_name : string := "tenant_demo".
Definition claim_token : string := "claim-1".

Definition access_point : device_row :=
  Device (Some site_id) (Some "AP")
    (Some (jsonb_of (JObj [("device_change_set", deviceChangeSetCapabilityContract)])))
    3 3 3 None None None None None None None None.
Definition start : tenant := Tenant {[site_id]} {["ap-1" := access_point]} ∅ [].

Definition scenario_operations : list DeviceChangeOperation :=
  [ChangeOperation "" "dhcp" [Cmd "set" "dhcp" "lan" "start" "100"] (concat_strings (replicate 64 "a"))].
Definition change_set : DeviceChangeSet :=
  Eval vm_compute in
  result_or zero_change_set
    (NewDeviceChangeSetForRolloutOperations rollout_id "ap-1" scenario_operations None ConfirmationLocalAuto).
Definition queued_results : json :=
  JArr [JObj [("device_id", JStr "ap-1"); ("change_set_id", JStr (cs_ChangeSetID change_set)); ("status", JStr "QUEUED")]].
Definition plan_document : json := JObj [("namespace", JStr "dhcp"); ("devices", JArr [])].

(** The agent's report of a state. *)
Definition report (state : string) : raw_message :=
  Some (JObj [("change_set_id", JStr (cs_ChangeSetID change_set)); ("device_id", JStr "ap-1");
    ("plan_hash", JStr (cs_PlanHash change_set)); ("generation", JInt 4); ("state", JStr state)]).
Definition report_event (now : Z) (state : string) : event := Event now (CallRecordChangeSet "ap-1" (report state)) [].

Definition draft_event : event :=
  Event 1000 (CallCreateDraft rollout_id site_id "admin" (cs_PlanHash change_set) (Some (JArr [JStr "ap-1"])) (Some plan_document)) [].
Definition queue_event : event :=
  Event 2000 (CallClaimAndQueue claim_token site_id rollout_id [QueueItem "AP" (Some (change_set_json change_set))]
    (Some queued_results) "admin" "10.0.0.1") [].
Definition rollout_history : list event :=
  [draft_event; queue_event; report_event 3000 "PREPARED"; report_event 4000 "APPLYING"; report_event 5000 "COMMITTED"].

Definition after (n : nat) : tenant := history schema_name (take n rollout_history) start.
Definition device_after (n : nat) : device_row := default access_point (devices (after n) !! "ap-1").
Definition rollout_after (n : nat) : option rollout_row := rollout_runs (after n) !! rollout_id.

(** The rollout completes, and the device reports the generation it was given. *)
Example rollout_completes :
  (r_status <$> rollout_after 1, r_status <$> rollout_after 2, r_status <$> rollout_after 4, r_status <$> rollout_after 5)
    = (Some "DRAFT", Some "QUEUED", Some "QUEUED", Some "completed") ∧
  (d_desired (device_after 2), d_observed (device_after 2), d_desired (device_after 5), d_observed (device_after 5))
    = (4, 3, 4, 4)%Z ∧
  d_pending_change_set (device_after 5) = None ∧ d_rollout_status (device_after 5) = Some "COMMITTED".
Proof. vm_compute. done. Qed.

(** A plan of the controller, queued on the idle device of the scenario. *)
Definition operation_plan : raw_message :=
  Some (JObj [("operation_id", JStr "op-0123456789abcdef"); ("plan_hash", JStr (concat_strings (replicate 64 "b")));
    ("config", JStr "dhcp"); ("commands", JArr [])]).

(** The scenario's rollout, claimed by the orchestrator. *)
Definition scenario_owner : rollout_owner := Owner rollout_id site_id "AP".
Definition claimed : tenant :=
  history schema_name [draft_event; Event 1500 (CallClaim claim_token site_id rollout_id) []] start.
