(* ===== verification/Guarantees.v ===== *)
(** What every history of the database operations and of the rollout worker
    guarantees, by rule induction on the protocol's transition system. *)

From stdpp Require Import relations.
From S2P Require Import Prelude GoStrings Json Uci DeviceOperation DeviceOperationFacts Store DeviceOperations.
From S2P Require Import ChangeSets Rollouts Worker QueueFacts Protocol Generations RolloutInvariants Refinement.
From S2P Require Import History Scenario.

(** ** Along a path *)

Definition anything : json → Prop := λ _, True.

Lemma anything_documents events : Forall (λ e, Forall anything (documents (ev_call e))) events.
Proof. apply Forall_true. intros e. by apply Forall_true. Qed.
Lemma history_path schema events now t :
  timely now events = true → reachable anything (now, t) (history_end now events, history schema events t).
Proof. intros Ht. apply history_reachable; [done | apply anything_documents | done]. Qed.

Lemma generations_grow_refl d : generations_grow d d.
Proof. unfold generations_grow. lia. Qed.
Lemma generations_grow_trans a b c : generations_grow a b → generations_grow b c → generations_grow a c.
Proof. unfold generations_grow. lia. Qed.
Lemma same_plan_refl r : same_plan r r.
Proof. unfold same_plan. repeat split; try done; lia. Qed.
Lemma same_plan_trans a b c : same_plan a b → same_plan b c → same_plan a c.
Proof. unfold same_plan. intros (?&?&?&?&?&?&?) (?&?&?&?&?&?&?). repeat split; try congruence. lia. Qed.

Section paths.
Context (accepts : json → Prop).

Lemma reachable_device s s' id d :
  reachable accepts s s' → devices s.2 !! id = Some d → ∃ d', devices s'.2 !! id = Some d' ∧ generations_grow d d'.
Proof.
  intros H. revert d. induction H as [s|s s1 s2 [Hle [He|He]] H IH]; intros d Hd.
  - exists d. split; [done | apply generations_grow_refl].
  - rewrite <- He in Hd. by apply IH.
  - destruct (effect_device _ _ _ _ _ _ He Hd) as (d1 & Hd1 & Hs). destruct (IH _ Hd1) as (d2 & Hd2 & Hg).
    exists d2. split; [done|]. eapply generations_grow_trans; [by eapply device_step_generations | done].
Qed.

Lemma reachable_row s s' id r :
  reachable accepts s s' → rollout_runs s.2 !! id = Some r →
  ∃ r', rollout_runs s'.2 !! id = Some r' ∧ same_plan r r' ∧ (r_status r ∉ open_states → r' = r).
Proof.
  intros H. revert r. induction H as [s|s s1 s2 [Hle [He|He]] H IH]; intros r Hr.
  - exists r. split; [done|]. split; [apply same_plan_refl | done].
  - rewrite <- He in Hr. by apply IH.
  - destruct (effect_row _ _ _ _ _ _ He Hr) as (r1 & Hr1 & Hc). destruct (IH _ Hr1) as (r2 & Hr2 & Hp & Hcl).
    exists r2. split; [done|]. split; [eapply same_plan_trans; [by eapply row_change_plan | done]|].
    intros Ho. pose proof (closed_row accepts _ _ _ _ Hc Ho) as ->. by apply Hcl.
Qed.
End paths.

(** A bool version of [distinct_keys]. *)
Definition distinct_keysb (j : json) : bool :=
  match j with JObj l => bool_decide (NoDup (map (λ kv, fold_case kv.1) l)) | _ => true end.
Lemma distinct_keysb_ok j : distinct_keysb j = true → distinct_keys j.
Proof. destruct j; try done. cbn. by intros ?%bool_decide_eq_true. Qed.

Lemma change_set_json_distinct cs : distinct_keys (change_set_json cs).
Proof.
  unfold change_set_json, omit_zero, omit_empty.
  destruct (cs_Generation cs =? 0)%Z; destruct (elems (cs_HealthChecks cs)); apply distinct_keysb_ok; vm_compute; done.
Qed.

Lemma start_device id d : devices start !! id = Some d → d = access_point.
Proof. unfold start. cbn [devices]. by intros [_ <-]%lookup_singleton_Some. Qed.
Lemma start_fenced : devices_fenced start.
Proof. intros id d ->%start_device. by left. Qed.
Lemma start_bounded : devices_bounded start.
Proof. intros id d ->%start_device. split; cbn; try lia; intros g Hg; discriminate Hg. Qed.

(** ** Properties *)



(** C2: no history leaves a device with a pending operation and a pending change
    set at once, if none had both. *)
Theorem history_fenced (schema : string) (events : list event) (now : Z) (t : tenant) (id : string) (d : device_row) :
  timely now events = true → devices_fenced t → devices (history schema events t) !! id = Some d →
  d_pending_operation d = None ∨ d_pending_change_set d = None.
Proof.
  intros Ht Hf Hd. pose proof (history_path schema events now t Ht) as Hr.
  refine (reachable_invariant anything (λ _, devices_fenced) _ _ _ _ Hr Hf id d Hd); [done|].
  intros. by eapply effect_fenced.
Qed.

Lemma history_fenced_witness :
  d_pending_operation (device_after 2) = None ∨ d_pending_change_set (device_after 2) = None.
Proof.
  apply (history_fenced schema_name (take 2 rollout_history) 0 start "ap-1" (device_after 2));
    [reflexivity | apply start_fenced | vm_compute; reflexivity].
Defined.

(** C4: no history loses a device or takes one of its generations back, and the
    desired generation stays in the range of a BIGINT. *)
Theorem history_generations (schema : string) (events : list event) (now : Z) (t : tenant) (id : string) (d : device_row) :
  timely now events = true → devices t !! id = Some d → (d_desired d ≤ int64_max)%Z →
  ∃ d', devices (history schema events t) !! id = Some d' ∧
    (d_desired d ≤ d_desired d' ≤ int64_max)%Z ∧ (d_observed d ≤ d_observed d')%Z ∧
    (d_last_successful d ≤ d_last_successful d')%Z.
Proof.
  intros Ht Hd Hmax. destruct (reachable_device anything _ _ _ _ (history_path schema events now t Ht) Hd) as (d' & Hd' & Hg).
  exists d'. split; [done|]. unfold generations_grow in Hg. lia.
Qed.

Lemma history_generations_witness :
  ∃ d', devices (after 5) !! "ap-1" = Some d' ∧ (3 ≤ d_desired d' ≤ int64_max)%Z ∧ (3 ≤ d_observed d')%Z ∧
    (3 ≤ d_last_successful d')%Z.
Proof. by apply (history_generations schema_name rollout_history 0 start "ap-1" access_point). Defined.

(** C5: as long as the documents that are sent name no key twice (up to case), no
    device observes or succeeds with a generation nobody desired, and none of its
    stored documents names one. *)
Theorem history_observed (schema : string) (events : list event) (now : Z) (t : tenant) (id : string) (d : device_row) :
  timely now events = true → forallb (λ e, forallb distinct_keysb (documents (ev_call e))) events = true →
  devices_bounded t → devices (history schema events t) !! id = Some d →
  (d_observed d ≤ d_desired d)%Z ∧ (d_last_successful d ≤ d_desired d)%Z ∧ device_bounded d.
Proof.
  intros Ht Hdoc Hb Hd.
  assert (device_bounded d) as Hdb; [|by destruct Hdb].
  refine (reachable_invariant distinct_keys (λ _, devices_bounded) _ _ (now, t) (history_end now events, _) _ Hb id d Hd);
    [done | intros; by eapply effect_bounded|].
  apply history_reachable; [apply change_set_json_distinct| |done].
  apply Forall_forall. intros e He. apply Forall_forall. intros j Hj. apply distinct_keysb_ok.
  rewrite forallb_forall in Hdoc. specialize (Hdoc e ltac:(by apply list_elem_of_In)).
  rewrite forallb_forall in Hdoc. apply Hdoc. by apply list_elem_of_In.
Qed.

Lemma history_observed_witness :
  (d_observed (device_after 5) ≤ d_desired (device_after 5))%Z ∧
  (d_last_successful (device_after 5) ≤ d_desired (device_after 5))%Z ∧ device_bounded (device_after 5).
Proof.
  apply (history_observed schema_name (take 5 rollout_history) 0 start "ap-1" (device_after 5));
    [vm_compute; reflexivity | vm_compute; reflexivity | apply start_bounded | vm_compute; reflexivity].
Defined.

(** No history changes the plan, the targets, the generation or the requester of
    a rollout, or takes its cursor back; and a rollout that is over (completed,
    failed, stale, rejected, ...) never changes again. *)
Theorem history_plans (schema : string) (events : list event) (now : Z) (t : tenant) (id : string) (r : rollout_row) :
  timely now events = true → rollout_runs t !! id = Some r →
  ∃ r', rollout_runs (history schema events t) !! id = Some r' ∧ same_plan r r' ∧
    (r_status r ∉ open_states → r' = r).
Proof. intros Ht. by apply (reachable_row anything _ _ _ _ (history_path schema events now t Ht)). Qed.

Lemma history_plans_witness :
  ∃ r r', rollout_after 1 = Some r ∧
    rollout_runs (history schema_name (drop 1 rollout_history) (after 1)) !! rollout_id = Some r' ∧ same_plan r r'.
Proof.
  destruct (rollout_after 1) as [r|] eqn:Hr; [|vm_compute in Hr; discriminate Hr].
  destruct (history_plans schema_name (drop 1 rollout_history) 1000 (after 1) rollout_id r eq_refl Hr)
    as (r' & Hr' & Hp & _).
  exists r, r'. split; [reflexivity|]. split; [exact Hr' | exact Hp].
Defined.


