(* ===== verification/DeviceQueueSpec.v ===== *)
(** What one operation on a device's queue promises: when work is queued and under
    which generation, what a repeated call answers, which statuses are recorded,
    and which readers hide a failure of the driver. *)

From S2P Require Import Prelude GoStrings Json GoNet Uci DeviceOperation DeviceOperationFacts Store DeviceOperations.
From S2P Require Import ChangeSets ChangeSetFacts Rollouts Worker QueueFacts Protocol Generations History Scenario.

(** ** Idle devices *)

(** Nothing is queued on the device, none of its last reports asks for recovery,
    and no rollout is running on it. *)
Record idle (d : device_row) : Prop := {
  idle_operation : d_pending_operation d = None;
  idle_change_set : d_pending_change_set d = None;
  idle_last_operation : col_text "state" (d_last_operation d) ≠ Some "RECOVERY_REQUIRED";
  idle_last_change_set : col_text "state" (d_last_change_set d) ≠ Some "RECOVERY_REQUIRED";
  idle_rollout : d_rollout_status d ≠ Some "RUNNING"
}.

Lemma coalesce_ne j s : s ≠ "" → (coalesce j "" =? s) = false → j ≠ Some s.
Proof. intros Hs H ->. cbn in H. by rewrite String.eqb_refl in H. Qed.

Lemma queue_operation_where_idle now doc id g t d :
  holds (queue_operation_where now doc id g t d) = true → idle d ∧ active_rollout now (λ _, true) (d_site_id d) t = false.
Proof.
  intros H. destruct (queue_operation_idle _ _ _ _ _ _ H) as (Hp & Hc & _).
  unfold queue_operation_where in H. rewrite !holds_and, !holds_fact in H.
  repeat match goal with H : _ && _ = true |- _ => apply andb_true_iff in H as [? ?] end.
  split; [|by apply negb_true_iff]. split; try done; apply coalesce_ne; try done; by apply negb_true_iff.
Qed.
Lemma queue_change_set_where_idle now owner id g t d :
  holds (queue_change_set_where now owner id g t d) = true →
  idle d ∧ change_set_capability d = true ∧
  active_rollout now (λ rid, match owner with Some o => negb (to_lower rid =? to_lower (ow_rollout o)) | None => true end)
    (d_site_id d) t = false ∧
  match owner with
  | Some o => ∃ site, d_site_id d = Some site ∧ to_lower site = to_lower (ow_site o) ∧
                      coalesce (d_device_role d) "AP" = ow_role o
  | None => True
  end.
Proof.
  intros H. destruct (queue_change_set_idle _ _ _ _ _ _ H) as (Hp & Hc & _ & Hcap).
  unfold queue_change_set_where in H. rewrite !holds_and, !holds_fact in H.
  repeat match goal with H : _ && _ = true |- _ => apply andb_true_iff in H as [? ?] end.
  split; [split; try done; apply coalesce_ne; try done; by apply negb_true_iff|].
  split; [done|]. split; [by apply negb_true_iff|]. destruct owner as [o|]; [|done].
  unfold owner_where in *.
  match goal with H : holds (tri_and _ _) = true |- _ => rewrite !holds_and, !holds_fact in H; bools end.
  destruct (d_site_id d) as [site|]; [|done]. exists site. cbn in *. by bools.
Qed.

(** The document that is stored for the work. *)
Definition stored_document (requested desired g : Z) (doc stored : json) : Prop :=
  (stored = doc ∧ requested = desired ∧ g = desired ∧ (0 < requested)%Z) ∨
  (stored = jsonb_set "generation" (JInt g) doc ∧ g = (desired + 1)%Z ∧ (desired < int64_max)%Z ∧
   col_text "generation" (Some stored) = Some (dec g)).

Lemma stored_document_ok requested desired doc :
  (∃ l, doc = JObj l) → (desired = requested ∨ requested = 0)%Z → ((0 <? requested)%Z = false → (desired < int64_max)%Z) →
  stored_document requested desired (queued_generation requested desired) doc (queued_document requested desired doc).
Proof.
  intros Hobj Hg Hlt. unfold stored_document, queued_generation, queued_document.
  destruct (0 <? requested)%Z eqn:E; [left; bools; repeat split; lia|].
  right. split; [done|]. split; [done|]. split; [by apply Hlt | by apply col_text_set].
Qed.

(** What a call answers that queued nothing: the work is pending, or it is the last
    that was reported. *)
Definition operation_known (i : deviceOperationIdentity) (d : device_row) (g : Z) : Prop :=
  (∃ p k, d_pending_operation d = Some p ∧ parseOperationIdentity (Some p) false = Ok k ∧
     oi_ID k = oi_ID i ∧ oi_PlanHash k = oi_PlanHash i ∧ oi_Generation k = g) ∨
  (∃ l k, d_pending_operation d = None ∧ d_last_operation d = Some l ∧ parseOperationIdentity (Some l) true = Ok k ∧
     oi_ID k = oi_ID i ∧ (oi_PlanHash k = "" ∨ oi_PlanHash k = oi_PlanHash i) ∧
     (g = oi_Generation k ∨ g = oi_Generation i ∧ d_desired d = g)).

Lemma fail_if_ok b e : fail_if b e = Ok tt → b = false.
Proof. by destruct b. Qed.

(** Splits the guards of a chain of [let! _ := fail_if ...]. *)
Ltac guards H :=
  repeat match type of H with
  | res_bind (fail_if ?b ?e) _ = Ok _ =>
      let E := fresh "Hg" in destruct b eqn:E; cbn [fail_if res_bind] in H; [discriminate H|]
  end.

Lemma queue_operation_reply_known i d g :
  queue_operation_reply i (d_desired d) (d_pending_operation d) (d_last_operation d) = Ok g → operation_known i d g.
Proof.
  unfold queue_operation_reply. intros H. guards H. destruct (d_pending_operation d) as [p|] eqn:Ep.
  - left. unfold queue_pending_reply in H. destruct (parseOperationIdentity (Some p) false) as [k|] eqn:Ek; [|done].
    destruct (String.eqb_spec (oi_ID k) (oi_ID i)); [|done]. guards H. injection H as <-. bools. by exists p, k.
  - destruct (d_last_operation d) as [l|] eqn:El; cbn in H; [|guards H; done].
    unfold queue_last_reply in H. destruct (parseOperationIdentity (Some l) true) as [k|] eqn:Ek; [|guards H; done].
    destruct (String.eqb_spec (oi_ID k) (oi_ID i)); [|guards H; done]. guards H. right. exists l, k.
    do 3 (split; [done|]). split; [done|]. split.
    { apply andb_false_iff in Hg0 as [Hg0|Hg0]; bools; [left; by destruct (oi_PlanHash k) | by right]. }
    destruct (0 <? oi_Generation i)%Z; [|injection H as <-; by left]. guards H. injection H as <-. bools. by right.
Qed.

(** What [QueueDeviceOperation] does.  An error leaves the tables unchanged.  A
    success either finds the operation pending or reported already, under the
    same plan hash, or queues it: the device was idle, no rollout of its site was
    running, a bound plan keeps its generation, which is the desired one, and an
    unbound plan gets the next one, stored in the document. *)
Theorem queue_operation_spec (now : Z) (schema id : string) (plan : raw_message) (w w' : world) (r : res Z) :
  QueueDeviceOperation now schema id plan w = (r, w') →
  match r with
  | Err _ => tn w' = tn w
  | Ok g =>
      (tn w' = tn w ∧ ∃ i d, parseOperationIdentity plan false = Ok i ∧ devices (tn w) !! id = Some d ∧
         operation_known i d g) ∨
      (∃ i doc d d', parseOperationIdentity plan false = Ok i ∧ jsonb_in (default JNull plan) = Some doc ∧
         device_change id d d' (tn w) (tn w') ∧ idle d ∧ active_rollout now (λ _, true) (d_site_id d) (tn w) = false ∧
         d_desired d' = g ∧
         ∃ stored, d_pending_operation d' = Some stored ∧ stored_document (oi_Generation i) (d_desired d) g doc stored)
  end.
Proof.
  unfold QueueDeviceOperation. intros H. m_bind H as s w1 Hs; [done|]. m_bind H as i w2 Hp; [done|].
  m_bind H as q w3 Hu;
    apply queue_operation_update_inv in Hu as [[He Hn]|(doc & d & d' & Hdoc & Hw & Hset & Hr & Hd)]; [done|done| |].
  - destruct q as [g'|]; [by destruct (Hn g')|].
    m_bind H as l w4 Hl; apply query_inv in Hl as [Ht Hl]; [congruence|].
    specialize (Hl _ eq_refl). injection Hl as <-. rewrite He in H, Ht.
    destruct (devices (tn w) !! id) as [d|] eqn:Ed; cbn in H; m_end H; [|done].
    destruct (queue_operation_reply _ _ _ _) as [g|] eqn:Er; [|done].
    left. split; [done|]. exists i, d. do 2 (split; [done|]). by apply queue_operation_reply_known.
  - injection Hr as ->. m_end H. right.
    destruct (queue_operation_where_idle _ _ _ _ _ _ Hw) as [Hidle Hact].
    destruct (queue_operation_idle _ _ _ _ _ _ Hw) as (_ & _ & Hg).
    apply queue_operation_set_ok in Hset as [-> Hlt].
    exists i, doc, d. eexists. do 2 (split; [done|]). split; [exact Hd|]. do 3 (split; [done|]).
    eexists. split; [done|]. apply stored_document_ok; [by eapply operation_object | done | done].
Qed.

Lemma queue_operation_spec_witness :
  let w := World start [] in
  let w' := (QueueDeviceOperation 1000 schema_name "ap-1" operation_plan w).2 in
  ∃ d', devices (tn w') !! "ap-1" = Some d' ∧ d_desired d' = 4%Z.
Proof.
  intros w w'.
  destruct (queue_operation_spec 1000 schema_name "ap-1" operation_plan w w' (Ok 4%Z))
    as [(_ & i & d & _ & Hd & Hk)|(i & doc & d & d' & _ & _ & [_ ->] & _ & _ & Hg & _)].
  - vm_compute. reflexivity.
  - exfalso. cbn in Hd. injection Hd as <-. destruct Hk as [(p & k & Hp & _)|(l & k & _ & Hl & _)]; discriminate.
  - exists d'. split; [apply lookup_insert_eq | exact Hg].
Defined.

(** The same for change sets. *)
Definition change_set_known (i : deviceChangeSetIdentity) (d : device_row) (g : Z) : Prop :=
  ∃ j st k, ((not_null (d_pending_change_set d) = Some j ∧ st = false) ∨
             (not_null (d_pending_change_set d) = None ∧ not_null (d_last_change_set d) = Some j ∧ st = true)) ∧
    parseDeviceChangeSet (Some j) st = Ok k ∧ ci_ID k = ci_ID i ∧ ci_PlanHash k = ci_PlanHash i ∧
    ci_Generation k = g ∧ (ci_HasGen i = true → g = ci_Generation i).
Definition owner_current (owner : option rollout_owner) (site : string) (d : device_row) : Prop :=
  match owner with
  | Some o => equal_fold site (ow_site o) = true ∧ coalesce (d_device_role d) "AP" = ow_role o
  | None => True
  end.

Lemma queue_change_set_reply_known owner i site d g :
  queue_change_set_reply owner i site d = Ok g →
  owner_current owner site d ∧ change_set_capability d = true ∧ change_set_known i d g.
Proof.
  unfold queue_change_set_reply. intros H.
  destruct (match owner with Some _ => _ | None => _ end) as [[]|] eqn:Eo; [|done]. cbn [res_bind] in H. guards H.
  apply negb_false_iff in Hg. split; [|split; [done|]].
  { destruct owner as [o|]; [|done]. guards Eo. bools. split; [done|].
    apply fail_if_ok in Eo. by apply negb_false_iff, String.eqb_eq in Eo. }
  destruct (not_null (d_pending_change_set d)) as [p|] eqn:Ep.
  - unfold queue_pending_change_set in H. destruct (parseDeviceChangeSet (Some p) false) as [k|] eqn:Ek; [|done].
    destruct (String.eqb_spec (ci_ID k) (ci_ID i)); [|done]. guards H. injection H as <-.
    exists p, false, k. split; [by left|]. repeat split; try done; bools; [done|]. intros Hh. rewrite Hh in Hg2. cbn in Hg2. by bools.
  - destruct (not_null (d_last_change_set d)) as [l|] eqn:El; cbn in H; [|guards H; done].
    unfold queue_last_change_set in H. destruct (parseDeviceChangeSet (Some l) true) as [k|] eqn:Ek; [|guards H; done].
    destruct (String.eqb_spec (ci_ID k) (ci_ID i)); [|guards H; done]. guards H. injection H as <-.
    exists l, true, k. split; [by right|]. repeat split; try done; bools; [done|]. intros Hh. rewrite Hh in Hg2. cbn in Hg2. by bools.
Qed.

(** C36: what queueing a change set does, on its own or for a rollout.  An error
    leaves the tables unchanged.  A success finds the change set pending or
    reported, under the same plan hash and the requested generation, or queues it
    on an idle device that announces the capability contract; no other rollout of
    the site was running, and the device still had the site and the role the
    rollout planned for. *)
Theorem queue_change_set_spec (now : Z) (schema id : string) (owner : option rollout_owner) (raw : raw_message)
    (w w' : world) (r : res Z) :
  queueDeviceChangeSet now schema owner id raw w = (r, w') →
  match r with
  | Err _ => tn w' = tn w
  | Ok g => ∃ i d, parseDeviceChangeSet raw false = Ok i ∧ equal_fold (ci_DeviceID i) id = true ∧
      devices (tn w) !! id = Some d ∧ change_set_capability d = true ∧
      ((tn w' = tn w ∧ change_set_known i d g ∧ ∃ site, d_site_id d = Some site ∧ owner_current owner site d) ∨
       (∃ doc d' stored, jsonb_in (default JNull raw) = Some doc ∧ device_change id d d' (tn w) (tn w') ∧ idle d ∧
          active_rollout now
            (λ rid, match owner with Some o => negb (to_lower rid =? to_lower (ow_rollout o)) | None => true end)
            (d_site_id d) (tn w) = false ∧
          match owner with
          | Some o => ∃ site, d_site_id d = Some site ∧ to_lower site = to_lower (ow_site o) ∧
                              coalesce (d_device_role d) "AP" = ow_role o
          | None => True
          end ∧
          d_desired d' = g ∧ d_pending_change_set d' = Some stored ∧
          stored_document (ci_Generation i) (d_desired d) g doc stored))
  end.
Proof.
  unfold queueDeviceChangeSet. intros H. m_bind H as s w1 Hs; [done|]. m_bind H as i w2 Hp; [done|].
  m_bind H as u w3 Hdev; [done|]. destruct u. symmetry in Hdev. apply fail_if_ok, negb_false_iff in Hdev.
  m_bind H as q w4 Hu;
    apply queue_change_set_update_inv in Hu as [[He Hn]|(doc & d & d' & Hdoc & Hw & Hset & Hr & Hd)]; [done|done| |].
  - destruct q as [g'|]; [by destruct (Hn g')|].
    m_bind H as l w5 Hl; apply query_inv in Hl as [Ht Hl]; [congruence|].
    specialize (Hl _ eq_refl). cbn in Hl. rewrite He in Hl, Ht.
    destruct (devices (tn w) !! id) as [d|] eqn:Ed; [|injection Hl as <-; m_end H; done].
    destruct (d_site_id d) as [site|] eqn:Es; [|done]. injection Hl as <-. m_end H.
    destruct (queue_change_set_reply _ _ _ _) as [g|] eqn:Er; [|done].
    apply queue_change_set_reply_known in Er as (Ho & Hc & Hk).
    exists i, d. do 4 (split; [done|]). left. split; [done|]. split; [done|]. by exists site.
  - injection Hr as ->. m_end H.
    destruct (queue_change_set_where_idle _ _ _ _ _ _ Hw) as (Hidle & Hcap & Hact & Ho).
    destruct (queue_change_set_idle _ _ _ _ _ _ Hw) as (_ & _ & Hg & _).
    apply queue_change_set_set_ok in Hset as [-> Hlt].
    exists i, d. do 2 (split; [done|]). split; [by destruct Hd|]. split; [done|]. right.
    exists doc. eexists _, _. split; [done|]. split; [exact Hd|]. do 3 (split; [done|]). do 2 (split; [done|]).
    apply stored_document_ok; [by eapply change_set_object | tauto | done].
Qed.

Lemma queue_change_set_spec_witness :
  let w := World claimed [] in
  let w' := (queueDeviceChangeSet 1600 schema_name (Some scenario_owner) "ap-1" (Some (change_set_json change_set)) w).2 in
  ∃ d', devices (tn w') !! "ap-1" = Some d' ∧ d_desired d' = 4%Z ∧ d_pending_change_set d' ≠ None.
Proof.
  intros w w'.
  destruct (queue_change_set_spec 1600 schema_name "ap-1" (Some scenario_owner) (Some (change_set_json change_set)) w w' (Ok 4%Z))
    as (i & d & _ & _ & Hd & _ & [(_ & Hk & _)|(doc & d' & stored & _ & [_ ->] & _ & _ & _ & Hg & Hp & _)]).
  - vm_compute. reflexivity.
  - exfalso. assert (d = access_point) as -> by (vm_compute in Hd; injection Hd as <-; reflexivity).
    destruct Hk as (j & st & k & [[Hp _]|(_ & Hl & _)] & _); [discriminate Hp | discriminate Hl].
  - exists d'. split; [apply lookup_insert_eq|]. split; [exact Hg|]. rewrite Hp. discriminate.
Defined.
(** The stored change set the retry finds. *)
Lemma stored_pending cs g :
  change_set_ok cs → texts_utf8 cs → cs_Generation cs = 0%Z → append_nil (cs_HealthChecks cs) = cs_HealthChecks cs →
  queueable cs = true → (0 < g ≤ int64_max)%Z →
  parseDeviceChangeSet (Some (jsonb_set "generation" (JInt g) (jsonb_of (change_set_json cs)))) false =
    Ok (stored_identity cs (Some g)).
Proof.
  intros Hok Hu Hg Hhc Hq Hr. rewrite (parse_decoded cs (Some g)); [by rewrite Hq | done | done | lia|].
  apply decode_stored; [done..|]. assert (int64_min < 0)%Z by done. lia.
Qed.
Lemma sent_change_set cs :
  change_set_ok cs → texts_utf8 cs → cs_Generation cs = 0%Z → append_nil (cs_HealthChecks cs) = cs_HealthChecks cs →
  parseDeviceChangeSet (Some (change_set_json cs)) false =
    if queueable cs then Ok (stored_identity cs None) else Err (ErrText "invalid device change set command").
Proof. intros Hok Hu Hg Hhc. apply (parse_decoded cs None); try done. by apply decode_change_set. Qed.

(** What a second call finds on a device that holds the change set. *)
Lemma queue_again now schema o id cs g d t :
  change_set_ok cs → texts_utf8 cs → cs_Generation cs = 0%Z → append_nil (cs_HealthChecks cs) = cs_HealthChecks cs →
  queueable cs = true → equal_fold (cs_DeviceID cs) id = true → (0 < g ≤ int64_max)%Z →
  is_ok (SafeSchemaIdent schema) = true → jsonb_in (change_set_json cs) = Some (jsonb_of (change_set_json cs)) →
  devices t !! id = Some d → d_site_id d = Some (ow_site o) → coalesce (d_device_role d) "AP" = ow_role o →
  change_set_capability d = true → requires_recovery (not_null (d_last_change_set d)) = false →
  d_pending_change_set d = Some (jsonb_set "generation" (JInt g) (jsonb_of (change_set_json cs))) →
  queueDeviceChangeSet now schema (Some o) id (Some (change_set_json cs)) (World t []) = (Ok g, World t []).
Proof.
  intros Hok Hu Hg Hhc Hq Hdev Hr Hsch Hin Hd Hsite Hrole Hcap Hrec Hp.
  unfold queueDeviceChangeSet, mbind_, lift. destruct (SafeSchemaIdent schema) as [sch|]; [|done].
  rewrite (sent_change_set cs) by done. rewrite Hq. cbn [ci_DeviceID stored_identity]. rewrite Hdev. cbn [negb fail_if].
  unfold queue_change_set_update. rewrite statement_run. unfold jsonb_param. change (default JNull (Some (change_set_json cs))) with (change_set_json cs). rewrite Hin.
  cbn [res_bind]. rewrite Hd.
  destruct (holds _) eqn:Ew; [apply queue_change_set_idle in Ew as (_ & He & _); congruence|].
  unfold change_set_lookup, query. rewrite statement_run, Hd, Hsite. cbn [res_bind].
  unfold queue_change_set_reply. rewrite Hcap, Hrec, Hrole.
  unfold equal_fold at 1. rewrite !String.eqb_refl. cbn [negb fail_if res_bind]. rewrite Hp.
  assert (∃ l, jsonb_of (change_set_json cs) = JObj l) as [l Hl] by (eexists; reflexivity).
  pose proof (stored_pending cs g Hok Hu Hg Hhc Hq Hr) as Hs. rewrite Hl in Hs |- *. cbn [jsonb_set not_null] in Hs |- *.
  unfold queue_pending_change_set. rewrite Hs. cbn [ci_ID ci_PlanHash ci_HasGen ci_Generation stored_identity default from_option].
  rewrite !String.eqb_refl. done.
Qed.

(** What the first call leaves on a device without a pending change set. *)
Lemma queued_fresh now schema o id cs w w' d d' g :
  change_set_ok cs → texts_utf8 cs → cs_Generation cs = 0%Z → append_nil (cs_HealthChecks cs) = cs_HealthChecks cs →
  devices (tn w) !! id = Some d → d_pending_change_set d = None → (0 <= d_desired d)%Z →
  queueDeviceChangeSet now schema o id (Some (change_set_json cs)) w = (Ok g, w') →
  devices (tn w') !! id = Some d' → d_pending_change_set d' ≠ None →
  is_ok (SafeSchemaIdent schema) = true ∧ queueable cs = true ∧ equal_fold (cs_DeviceID cs) id = true ∧ (0 < g ≤ int64_max)%Z ∧
  jsonb_in (change_set_json cs) = Some (jsonb_of (change_set_json cs)) ∧ idle d ∧ change_set_capability d' = true ∧
  match o with Some o => coalesce (d_device_role d') "AP" = ow_role o | None => True end ∧
  d_site_id d' = d_site_id d ∧ d_last_change_set d' = d_last_change_set d ∧ d_pending_operation d' = d_pending_operation d ∧
  d_pending_change_set d' = Some (jsonb_set "generation" (JInt g) (jsonb_of (change_set_json cs))).
Proof.
  intros Hok Hu Hg0 Hhc Hd Hp H0 Hrun Hd' Hp'.
  assert (is_ok (SafeSchemaIdent schema) = true) as Hsch.
  { unfold queueDeviceChangeSet in Hrun. apply mbind_inv in Hrun as [(e & _ & [=])|(s & w1 & Hs & _)].
    unfold lift in Hs. injection Hs as Hs _. by rewrite Hs. }
  destruct (queueDeviceChangeSet_inv _ _ _ _ _ _ _ _ Hrun) as [He|(doc & i & d1 & d2 & [Hi Hdoc Hdev Hw Hset] & [Hd1 Ht] & Hg)].
  { rewrite He in Hd'. congruence. }
  assert (d1 = d) as -> by congruence. rewrite (sent_change_set cs) in Hi by done.
  destruct (queueable cs) eqn:Hq; [|done]. injection Hi as <-. injection Hg as ->.
  rewrite Ht in Hd'. cbn [devices set_devices] in Hd'. rewrite lookup_insert_eq in Hd'. injection Hd' as <-.
  destruct (queue_change_set_where_idle _ _ _ _ _ _ Hw) as (Hidle & Hcap & _ & Hrole).
  cbn [ci_ID ci_DeviceID ci_Generation stored_identity default from_option] in *.
  pose proof (jsonb_in_ok _ _ Hdoc) as ->. apply queue_change_set_set_ok in Hset as [-> Hlt].
  specialize (Hlt eq_refl). cbn [d_desired d_site_id d_last_change_set d_pending_operation d_pending_change_set d_device_role].
  unfold queued_generation. cbn [Z.ltb Z.compare].
  split_and!; try done; try lia. destruct o as [o|]; [|done]. by destruct Hrole as (site & _ & _ & ?).
Qed.

(** Queueing for a rollout can be retried: once the change set the controller
    built is pending (the first answer may have been lost), the same call at any
    later time answers the same generation and changes nothing. *)
Theorem queue_retry_idempotent (rollout device policy : string) (operations : list DeviceChangeOperation) (hc : gslice)
    (cs : DeviceChangeSet) (now now' : Z) (schema id : string) (o : rollout_owner) (w w' : world) (d d' : device_row) (g : Z) :
  NewDeviceChangeSetForRolloutOperations rollout device operations hc policy = Ok cs → texts_utf8b cs = true →
  devices (tn w) !! id = Some d → d_pending_change_set d = None → (0 <=? d_desired d)%Z = true →
  d_site_id d = Some (ow_site o) → requires_recovery (not_null (d_last_change_set d)) = false →
  queueDeviceChangeSet now schema (Some o) id (Some (change_set_json cs)) w = (Ok g, w') →
  devices (tn w') !! id = Some d' → d_pending_change_set d' ≠ None →
  queueDeviceChangeSet now' schema (Some o) id (Some (change_set_json cs)) (World (tn w') []) = (Ok g, World (tn w') []).
Proof.
  intros Hnew Hu%texts_utf8_sound Hd Hp H0 Hsite Hrec Hrun Hd' Hp'.
  destruct (constructed_healthchecks _ _ _ _ _ _ Hnew) as (Hok & Hhc & Hg0). apply Z.leb_le in H0.
  destruct (queued_fresh _ _ _ _ _ _ _ _ _ _ Hok Hu Hg0 Hhc Hd Hp H0 Hrun Hd' Hp')
    as (Hsch & Hq & Hdev & Hr & Hdoc & _ & Hcap & Hrole & Hs & Hl & _ & Hpend).
  eapply (queue_again now' schema o id cs g d'); try done; [by rewrite Hs|by rewrite Hl].
Qed.

Lemma queue_retry_idempotent_witness :
  let call now w := queueDeviceChangeSet now schema_name (Some scenario_owner) "ap-1" (Some (change_set_json change_set)) w in
  let w' := (call 1600%Z (World claimed [])).2 in
  call 9000%Z (World (tn w') []) = (Ok 4%Z, World (tn w') []).
Proof.
  intros call w'.
  apply (queue_retry_idempotent rollout_id "ap-1" ConfirmationLocalAuto scenario_operations None change_set 1600 9000 schema_name
    "ap-1" scenario_owner (World claimed []) w' access_point
    (default access_point (devices (tn w') !! "ap-1")) 4); try (vm_compute; reflexivity).
  vm_compute. discriminate.
Defined.

(** ** Statuses *)

Lemma update_rows_none {A} (p : A → bool) (f : A → res A) l :
  forallb (λ kr, negb (p kr.2)) l = true → update_rows p f l = Ok l.
Proof.
  induction l as [|[k a] l IH]; [done|]. cbn. intros [H1 H2]%andb_true_iff.
  apply negb_true_iff in H1. by rewrite H1, IH.
Qed.

Definition no_queued (t : tenant) : bool :=
  forallb (λ kr, negb (r_status kr.2 =? "QUEUED")) (map_to_list (rollout_runs t)).

Lemma results_change_none now a id st rs failure t t' :
  no_queued t = true → rollout_results_change now a id st rs failure t t' → rollout_runs t' = rollout_runs t.
Proof.
  unfold rollout_results_change, update_rollouts, no_queued. intros Hn.
  rewrite update_rows_none.
  - cbn. intros [= <-]. cbn. apply list_to_map_to_list.
  - rewrite forallb_forall in Hn |- *. intros kr Hin. specialize (Hn kr Hin). unfold rollout_results_where.
    apply negb_true_iff in Hn. by rewrite Hn.
Qed.


(** The rollout of the scenario, taken by the worker before the report. *)
Definition worker_event : event := Event 2500 (CallWorker "worker-1" 60000000 []) [].
Definition leased : tenant :=
  history schema_name [draft_event; queue_event; report_event 2100 "PREPARED"; report_event 2200 "APPLYING"; worker_event] start.

Lemma previous_terminal s s' : s ∈ previous_states s' → terminal_state s = true → s = s'.
Proof.
  intros Hp%text_in_elem Ht. unfold terminal_state in Ht. apply text_in_elem in Ht.
  unfold terminal_states in Ht.
  rewrite !elem_of_cons, elem_of_nil in Ht. unfold previous_states in Hp.
  destruct Ht as [->|[->|[->|[->|[]]]]];
    repeat match type of Hp with
    | context [String.eqb s' ?y] => destruct (String.eqb_spec s' y); [subst s'; first [reflexivity | vm_compute in Hp; discriminate Hp]|]
    end; vm_compute in Hp; discriminate Hp.
Qed.

(** The life of a change set, as its reported states; the empty state is that of a
    device that has not reported yet. *)
Inductive lifecycle : string → string → Prop :=
  | stay s : lifecycle s s
  | prepare : lifecycle "" "PREPARED"
  | refuse s : s ∈ [""; "PREPARED"; "APPLYING"] → lifecycle s "REJECTED"
  | apply_changes : lifecycle "PREPARED" "APPLYING"
  | ask_confirmation : lifecycle "APPLYING" "PENDING_CONFIRM"
  | commit s : s ∈ ["APPLYING"; "PENDING_CONFIRM"] → lifecycle s "COMMITTED"
  | roll_back s : s ∈ ["PREPARED"; "APPLYING"; "PENDING_CONFIRM"] → lifecycle s "ROLLING_BACK"
  | restore : lifecycle "ROLLING_BACK" "RESTORED"
  | require_recovery s :
      s ∈ ["PREPARED"; "APPLYING"; "PENDING_CONFIRM"; "ROLLING_BACK"] → lifecycle s "RECOVERY_REQUIRED".
#[local] Hint Constructors lifecycle : lifecycle.

Lemma previous_lifecycle s s' : s ∈ previous_states s' → lifecycle s s'.
Proof.
  unfold previous_states. intros Hp.
  repeat match type of Hp with
  | context [String.eqb s' ?y] => destruct (String.eqb_spec s' y); [subst s'; rewrite !elem_of_cons, elem_of_nil in Hp|]
  end; [..|by apply elem_of_nil in Hp];
  destruct_or? Hp; subst; try done; constructor; set_solver.
Qed.

Lemma recorded_transition id status a d :
  recorded_change_set id status a d → holds (status_transition a d) = true ∧
  ((holds (change_set_match a id (d_pending_change_set d)) = true) ∨
   (d_pending_change_set d = None ∧ holds (change_set_match a id (d_last_change_set d)) = true)).
Proof.
  intros [_ _ _ _ _ Hw]. apply orb_true_iff in Hw as [Hw|Hw].
  - unfold change_set_pending_match in Hw. rewrite !holds_and in Hw. bools. split; [done | by left].
  - unfold change_set_last_match in Hw. rewrite !holds_and in Hw. bools.
    split; [done|right]. split; [by destruct (d_pending_change_set d) | done].
Qed.

(** C8: a status of a change set is recorded only if the pending or the last
    reported document has its identity, device, plan hash and generation, and only
    along the state machine [lifecycle]; a terminal state is never left; the report becomes
    the last one, a terminal one takes its change set out of the queue, and only a
    COMMITTED one moves the observed generation. *)
Theorem change_set_status_machine (now : Z) (schema id : string) (status : raw_message) (w w' : world) :
  RecordDeviceChangeSetStatus now schema id status w = (Ok tt, w') →
  ∃ a d d', recorded_change_set id status a d ∧
    devices (tn w) !! id = Some d ∧ devices (tn w') !! id = Some d' ∧
    (let last := coalesce (col_text "state" (d_last_change_set d)) "" in
     col_text "change_set_id" (d_last_change_set d) = Some (s_id a) →
     lifecycle last (s_state a) ∧ (terminal_state last = true → s_state a = last)) ∧
    (holds (change_set_match a id (d_pending_change_set d)) = true ∨
     d_pending_change_set d = None ∧ holds (change_set_match a id (d_last_change_set d)) = true) ∧
    d_last_change_set d' = Some (s_status a) ∧
    d_pending_change_set d' =
      (if s_terminal a && holds (change_set_pending_match a id d) then None else d_pending_change_set d) ∧
    d_observed d' =
      (if s_terminal a && (s_state a =? "COMMITTED") then Z.max (d_observed d) (s_generation a) else d_observed d) ∧
    d_desired d' = d_desired d.
Proof.
  intros H. apply RecordDeviceChangeSetStatus_inv in H as [[_ [e [=]]]|(a & d & t1 & Hr & [Hd ->] & Hend)].
  exists a, d, (record_change_set_set now a id d). split; [done|]. split; [done|].
  destruct (recorded_transition _ _ _ _ Hr) as [Htr Hm]. split; [|split; [|done]].
  - destruct Hend as [[-> _]|(st & rs & failure & _ & _ & _ & _ & Hc)]; [cbn; apply lookup_insert_eq|].
    apply update_rollouts_lookup in Hc as [-> _]. cbn. apply lookup_insert_eq.
  - intros last Hid. unfold status_transition in Htr. rewrite holds_or, !holds_fact in Htr.
    rewrite Hid in Htr.
    change (negb (s_id a =? s_id a) || text_in last (previous_states (s_state a)) = true) in Htr.
    rewrite String.eqb_refl in Htr. cbn in Htr. apply text_in_elem in Htr. split; [by apply previous_lifecycle|].
    intros Ht. symmetry. by apply previous_terminal.
Qed.

Lemma change_set_status_machine_witness :
  let w := World (after 4) [] in
  let w' := (RecordDeviceChangeSetStatus 5000 schema_name "ap-1" (report "COMMITTED") w).2 in
  ∃ d d', devices (tn w) !! "ap-1" = Some d ∧ devices (tn w') !! "ap-1" = Some d' ∧ d_desired d' = d_desired d.
Proof.
  intros w w'.
  destruct (change_set_status_machine 5000 schema_name "ap-1" (report "COMMITTED") w w')
    as (a & d & d' & _ & Hd & Hd' & _ & _ & _ & _ & _ & He).
  - vm_compute. reflexivity.
  - exists d, d'. split; [exact Hd|]. split; [exact Hd' | exact He].
Defined.

(** A committed report with the given generation members. *)
Definition doubled_report (j : list (string * json)) : raw_message :=
  Some (JObj ([("change_set_id", JStr (cs_ChangeSetID change_set)); ("device_id", JStr "ap-1");
    ("plan_hash", JStr (cs_PlanHash change_set)); ("state", JStr "COMMITTED")] ++ j)%list).
Definition doubled_history : list event := (take 4 rollout_history ++
  [Event 5000 (CallRecordChangeSet "ap-1" (doubled_report [("generation", JInt 9); ("Generation", JInt 4)])) [];
   Event 6000 (CallRecordChangeSet "ap-1" (doubled_report [("generation", JInt 9)])) []])%list.
(** The two decoders disagree on documents with keys that differ in case only.
    Two reports of a device that name their generation twice make it observe a
    generation that was never desired. *)
Theorem doubled_generation_observed :
  (λ d, (d_desired d, d_observed d)) <$> devices (history schema_name doubled_history start) !! "ap-1" = Some (4, 9)%Z.
Proof. vm_compute. reflexivity. Qed.

(** C32: [GetPendingDeviceOperation] and [GetLastDeviceOperation] answer nothing,
    without an error, when the driver fails; the readers of change sets report the
    failure. *)
Theorem operation_readers_hide_failures (schema id : string) (t : tenant) (fs : list bool) :
  isValidSchemaName schema = true →
  GetPendingDeviceOperation schema id (World t (true :: fs)) = (Ok None, World t fs) ∧
  GetLastDeviceOperation schema id (World t (true :: fs)) = (Ok None, World t fs) ∧
  GetPendingDeviceChangeSet schema id (World t (true :: fs)) = (Err ErrDriver, World t fs) ∧
  GetLastDeviceChangeSet schema id (World t (true :: fs)) = (Err ErrDriver, World t fs).
Proof.
  intros Hs. unfold GetPendingDeviceOperation, GetLastDeviceOperation, GetPendingDeviceChangeSet, GetLastDeviceChangeSet,
    read_operation, read_change_set, SafeSchemaIdent, mbind_, lift. rewrite Hs. done.
Qed.

Lemma operation_readers_hide_failures_witness :
  GetPendingDeviceOperation schema_name "ap-1" (World start [true]) = (Ok None, World start []).
Proof. apply (operation_readers_hide_failures schema_name "ap-1" start []). reflexivity. Defined.
