(* ===== verification/RolloutSpec.v ===== *)
(** What the operations on rollouts promise: the numbering of drafts, exclusive
    claims, fencing by tokens, the atomic claim-and-queue and its bookkeeping of
    results, and the worker's rounds. *)

From stdpp Require Import relations.
From S2P Require Import Prelude GoStrings Json Uci DeviceOperation DeviceOperationFacts Store DeviceOperations.
From S2P Require Import ChangeSets Rollouts Worker QueueFacts Protocol RolloutInvariants Refinement History Scenario.

(** ** Drafts *)

Lemma site_rows_elem t id r : rollout_runs t !! id = Some r → r ∈ site_rows (r_site_id r) t.
Proof.
  intros Hr. unfold site_rows. apply list_elem_of_filter. unfold of_site. split; [by rewrite String.eqb_refl|].
  apply list_elem_of_fmap. exists (id, r). split; [done|]. by apply elem_of_map_to_list.
Qed.
Lemma max_generation_le rows r : r ∈ rows → (r_generation r ≤ max_generation rows)%Z.
Proof.
  unfold max_generation. induction rows as [|r' rows IH]; [by intros ?%elem_of_nil|].
  cbn. intros [->|Hin]%elem_of_cons; [lia|]. specialize (IH Hin). lia.
Qed.
Lemma site_generation t site id r :
  rollout_runs t !! id = Some r → of_site site r = true → (r_generation r ≤ max_generation (site_rows site t))%Z.
Proof.
  unfold of_site. intros Hr <-%String.eqb_eq. apply max_generation_le. by eapply site_rows_elem.
Qed.

(** C25: [CreateRolloutDraft] fails without a trace, or adds one draft for an
    existing site with the plan as sent, numbered after every rollout of the site;
    the site's earlier drafts become STALE, and nothing else changes. *)
Theorem create_draft_spec (now : Z) (new_id schema siteID user hash : string) (targets plan : raw_message)
    (w w' : world) (r : res RolloutDraftRecord) :
  CreateRolloutDraft now new_id schema siteID user hash targets plan w = (r, w') →
  match r with
  | Err _ => tn w' = tn w
  | Ok rec => ∃ site row,
      uuid_in siteID = Some site ∧ site ∈ sites (tn w) ∧ rollout_runs (tn w) !! new_id = None ∧ rd_ID rec = new_id ∧
      rollout_runs (tn w') !! new_id = Some row ∧ r_site_id row = site ∧ r_status row = "DRAFT" ∧
      r_generation row = rd_Generation rec ∧ plan ≫= jsonb_in = Some (r_plan row) ∧
      targets ≫= jsonb_in = Some (r_target_device_ids row) ∧
      devices (tn w') = devices (tn w) ∧
      ∀ id old, id ≠ new_id → rollout_runs (tn w) !! id = Some old →
        (of_site site old = true → (r_generation old < r_generation row)%Z) ∧
        rollout_runs (tn w') !! id = Some (if of_site site old && is_draft old then set_status "STALE" None now old else old)
  end.
Proof.
  intros [[-> [e ->]]|(site & h & requested & tg & pl & Hs & Hin & Hnew & Htg & Hpl & _ & -> & ->)]%CreateRolloutDraft_inv; [done|].
  exists site. eexists. do 4 (split; [done|]). split; [cbn; apply lookup_insert_eq|]. do 6 (split; [done|]).
  intros id old Hne Hold. cbn. rewrite lookup_insert_ne by done. unfold stale_drafts, update_where.
  rewrite lookup_fmap, Hold. cbn. unfold is_draft. destruct (of_site site old) eqn:Ho; [|done].
  pose proof (site_generation _ _ _ _ Hold Ho) as Hle. split; [intros _; lia|].
  assert ((r_generation old <? max_generation (site_rows site (tn w)) + 1)%Z = true) as -> by (apply Z.ltb_lt; lia).
  cbn. by destruct (r_status old =? "DRAFT").
Qed.

Definition second_draft_id : string := "33333333-3333-3333-3333-333333333333".
Definition second_record : RolloutDraftRecord :=
  DraftRecord second_draft_id site_id 2 "DRAFT" "" (cs_PlanHash change_set) "admin" (JArr [JStr "ap-1"]) plan_document (JArr []).
Lemma create_draft_spec_witness :
  let w := World (after 1) [] in
  let w' := (CreateRolloutDraft 1100 second_draft_id schema_name site_id "admin" (cs_PlanHash change_set)
               (Some (JArr [JStr "ap-1"])) (Some plan_document) w).2 in
  ∃ row, rollout_runs (tn w') !! second_draft_id = Some row ∧ r_status row = "DRAFT" ∧ r_generation row = 2%Z.
Proof.
  intros w w'.
  destruct (create_draft_spec 1100 second_draft_id schema_name site_id "admin" (cs_PlanHash change_set)
    (Some (JArr [JStr "ap-1"])) (Some plan_document) w w' (Ok second_record))
    as (site & row & _ & _ & _ & _ & Hrow & _ & Hst & Hgen & _).
  - vm_compute. reflexivity.
  - exists row. split; [exact Hrow|]. split; [exact Hst | exact Hgen].
Defined.

(** ** Claims *)

Lemma ClaimRolloutDraft_inv now token schema siteID rolloutID w r w' :
  ClaimRolloutDraft now token schema siteID rolloutID w = (r, w') →
  (tn w' = tn w ∧ ∃ e, r = Err e) ∨
  ∃ id site row, find_rollout rolloutID siteID (tn w) = Ok (id, Some row) ∧ uuid_in siteID = Some site ∧
    claim_candidate now site (site_rows site (tn w)) row = true ∧ rollout_runs (tn w) !! id = Some row ∧
    r = Ok (record_of id (set_status "RUNNING" (Some token) now row)) ∧
    rollout_runs (tn w') !! id = Some (set_status "RUNNING" (Some token) now row).
Proof.
  unfold ClaimRolloutDraft. intros H. m_bind H as s w1 Hs; [left; eauto|].
  apply transaction_inv in H as [(e & -> & ->)|(rec & w2 & -> & H & ->)]; [left; eauto|]. right.
  m_bind H as u w3 Hl. apply advisory_lock_inv in Hl. cbn in Hl.
  apply claimRolloutDraftTx_inv in H as (id & site & row & Hf & Hu & Hc & -> & Hrow & Ht). rewrite Hl in *.
  exists id, site, row. do 5 (split; [done|]). rewrite Ht. cbn. apply lookup_insert_eq.
Qed.

Lemma newest_draft rows r other :
  newer_draft rows r = false → other ∈ rows → is_draft other = true → (r_generation other ≤ r_generation r)%Z.
Proof.
  unfold newer_draft. intros Hn Hin Hd. destruct (decide (r_generation other ≤ r_generation r)%Z); [done|].
  exfalso. apply Bool.not_true_iff_false in Hn. apply Hn. apply existsb_exists. exists other.
  split; [by apply list_elem_of_In|]. rewrite Hd. apply Z.ltb_lt. lia.
Qed.

(** C34: [ClaimRolloutDraft] either leaves no trace or claims the site's newest
    draft; within twenty minutes of a claim that nothing has touched since, every
    other claim on the site, of whatever rollout, fails and changes nothing. *)
Theorem claim_exclusive (now : Z) (token schema siteID rolloutID : string) (w w' : world) (r : res RolloutDraftRecord) :
  ClaimRolloutDraft now token schema siteID rolloutID w = (r, w') →
  match r with
  | Err _ => tn w' = tn w
  | Ok rec => ∃ id site row,
      uuid_in siteID = Some site ∧ rollout_runs (tn w) !! id = Some row ∧ rd_ID rec = id ∧ rd_ClaimToken rec = token ∧
      rd_Plan rec = r_plan row ∧ is_draft row = true ∧
      (∀ other, other ∈ site_rows site (tn w) → is_draft other = true → (r_generation other ≤ r_generation row)%Z) ∧
      rollout_runs (tn w') !! id = Some (set_status "RUNNING" (Some token) now row) ∧
      ∀ now2 token2 schema2 siteID2 rolloutID2 w2 r2 w3,
        (now ≤ now2 ≤ now + minutes 20)%Z → uuid_in siteID2 = Some site → tn w2 = tn w' →
        ClaimRolloutDraft now2 token2 schema2 siteID2 rolloutID2 w2 = (r2, w3) → (∃ e, r2 = Err e) ∧ tn w3 = tn w2
  end.
Proof.
  intros [[-> [e ->]]|(id & site & row & _ & Hu & Hc & Hrow & -> & Hrow')]%ClaimRolloutDraft_inv; [done|].
  exists id, site, row. pose proof Hc as Hc2. unfold claim_candidate in Hc2.
  repeat match goal with H : _ && _ = true |- _ => apply andb_true_iff in H as [? ?] end.
  do 6 (split; [done|]). split; [intros other Hin Hd; eapply newest_draft; [by apply negb_true_iff|done..]|].
  split; [done|]. intros now2 token2 schema2 siteID2 rolloutID2 w2 r2 w3 Hnow Hu2 Ht Hrun.
  apply ClaimRolloutDraft_inv in Hrun as [[-> [e ->]]|(id2 & site2 & row2 & _ & Hu3 & Hc2 & _)]; [split; [by eexists | done]|].
  exfalso. assert (site2 = site) as -> by congruence. unfold claim_candidate in Hc2. rewrite Ht in Hc2.
  apply andb_true_iff in Hc2 as [_ Hc2]. apply negb_true_iff, Bool.not_true_iff_false in Hc2. apply Hc2.
  apply existsb_exists. eexists. split.
  - apply list_elem_of_In. pose proof (site_rows_elem _ _ _ Hrow') as Hin. cbn in Hin.
    unfold of_site in *. assert (r_site_id row = site) as He by (by apply String.eqb_eq). rewrite He in Hin. exact Hin.
  - unfold recent. cbn. apply Z.leb_le. lia.
Qed.

Lemma claim_exclusive_witness :
  let w := World (after 1) [] in
  let w' := (ClaimRolloutDraft 1500 claim_token schema_name site_id rollout_id w).2 in
  let again := ClaimRolloutDraft 2000 "claim-2" schema_name site_id rollout_id (World (tn w') []) in
  (∃ e, again.1 = Err e) ∧ tn again.2 = tn w'.
Proof.
  intros w w' again.
  destruct (claim_exclusive 1500 claim_token schema_name site_id rollout_id w w'
    (Ok (record_of rollout_id (set_status "RUNNING" (Some claim_token) 1500
           (default (new_draft 0 "" 0 "" "" JNull JNull) (rollout_after 1))))))
    as (id & site & row & Hu & _ & _ & _ & _ & _ & _ & _ & Hagain).
  - vm_compute. reflexivity.
  - apply (Hagain 2000%Z "claim-2" schema_name site_id rollout_id (World (tn w') []) again.1 again.2).
    + vm_compute. split; discriminate.
    + exact Hu.
    + reflexivity.
    + unfold again. by destruct (ClaimRolloutDraft 2000 _ _ _ _ _).
Defined.

(** ** Tokens *)

(** The call failed and left the tables alone. *)
Definition refused {A} (w : world) (run : res A * world) : Prop := (∃ e, run.1 = Err e) ∧ tn run.2 = tn w.

Lemma update_rollout_refused rolloutID siteID p f w r w' id row :
  find_rollout rolloutID siteID (tn w) = Ok (id, Some row) → p row = false →
  update_rollout rolloutID siteID p f w = (r, w') → tn w' = tn w ∧ r ≠ Ok 1%nat.
Proof.
  intros Hf Hp [?|(id2 & row2 & _ & _ & Hp2 & Hf2 & _)]%update_rollout_inv; [done|]. congruence.
Qed.
Lemma one_row_refused e n : n ≠ 1%nat → ∀ w, refused w (one_row e n w).
Proof.
  intros Hn w. unfold one_row, lift, fail_if. destruct (Nat.eqb_spec n 1); [done|]. split; [by eexists | done].
Qed.
Lemma updated_refused rolloutID siteID p f e w id row :
  find_rollout rolloutID siteID (tn w) = Ok (id, Some row) → p row = false →
  refused w ((let* affected := update_rollout rolloutID siteID p f in one_row e affected)%go w).
Proof.
  intros Hf Hp. unfold mbind_. destruct (update_rollout rolloutID siteID p f w) as [r w1] eqn:E.
  destruct (update_rollout_refused _ _ _ _ _ _ _ _ _ Hf Hp E) as [Ht Hr].
  destruct r as [n|e']; [|split; [by eexists | done]].
  destruct (one_row_refused e n ltac:(congruence) w1) as [He Ht2]. split; [done|]. by rewrite Ht2.
Qed.
Lemma after_schema {A} schema (m : M A) w :
  refused w (m w) → refused w ((let* _ := lift (SafeSchemaIdent schema) in m)%go w).
Proof. unfold mbind_, lift. destruct (SafeSchemaIdent schema); [done|]. split; [by eexists | done]. Qed.

Lemma transaction_refused {A} (body : M A) w :
  (∀ w1, tn w1 = tn w → ∃ e, (body w1).1 = Err e) → refused w (transaction body w).
Proof.
  intros Hb. destruct (transaction body w) as [r w'] eqn:E.
  apply transaction_inv in E as [(e & -> & Ht)|(a & w2 & -> & H & _)]; [split; [by eexists | done]|].
  destruct (Hb (World (tn w) (tl (faults w))) eq_refl) as [e He]. rewrite H in He. done.
Qed.

Lemma fenced_update_refused now schema lease f w id row :
  find_rollout (l_RolloutID lease) (l_SiteID lease) (tn w) = Ok (id, Some row) → fenced now (l_Token lease) row = false →
  refused w (fenced_update now schema lease f w).
Proof. intros Hf Hn. apply after_schema. by eapply updated_refused. Qed.

(** A rollout answers only to the token that holds it: with another claim token
    it is neither released nor marked stale, and with another worker token, or
    after the lease ran out, its cursor, its results and its lease stay as they
    are. *)
Theorem token_fencing (now : Z) (schema rolloutID siteID token id : string) (cursor duration : Z) (results : json)
    (worker : RolloutLease) (w : world) (row : rollout_row) :
  find_rollout rolloutID siteID (tn w) = Ok (id, Some row) →
  l_RolloutID worker = rolloutID → l_SiteID worker = siteID →
  (held_by token row = false →
     refused w (ReleaseRolloutDraft now schema siteID rolloutID token w) ∧
     (is_draft row = false → refused w (MarkRolloutDraftStale now schema siteID rolloutID token w))) ∧
  (fenced now (l_Token worker) row = false →
     refused w (UpdateRolloutWorkerCursor now schema worker cursor w) ∧
     refused w (UpdateRolloutWorkerResults now schema worker results w) ∧
     refused w (RenewRolloutLease now schema worker duration w)).
Proof.
  intros Hf <- <-. split.
  - intros Hh. split; [apply after_schema; by eapply updated_refused|]. intros Hd.
    apply after_schema, transaction_refused. intros w1 Ht.
    destruct ((let* previous := _ in _)%go w1) as [r w2] eqn:E. cbn.
    m_bind E as previous w3 Hq; [by eexists|]. apply query_inv in Hq as [_ Hq]. specialize (Hq _ eq_refl).
    rewrite Ht, Hf in Hq. cbn in Hq. rewrite Hh, Hd in Hq. injection Hq as <-. m_end E. by eexists.
  - intros Hn. split; [by eapply fenced_update_refused|]. split; [|by eapply fenced_update_refused].
    unfold UpdateRolloutWorkerResults. destruct (jsonb_in results); [by eapply fenced_update_refused|].
    apply after_schema. split; [by eexists | done].
Qed.

Lemma token_fencing_witness :
  refused (World claimed []) (ReleaseRolloutDraft 1600 schema_name site_id rollout_id "claim-2" (World claimed [])) ∧
  refused (World claimed []) (RenewRolloutLease 1600 schema_name (Lease rollout_id site_id "worker-9" 0) 1000 (World claimed [])).
Proof.
  destruct (token_fencing 1600 schema_name rollout_id site_id "claim-2" rollout_id 0 1000 JNull
    (Lease rollout_id site_id "worker-9" 0) (World claimed [])
    (default (new_draft 0 "" 0 "" "" JNull JNull) (rollout_runs claimed !! rollout_id))) as [H1 H2];
    [vm_compute; reflexivity | reflexivity | reflexivity|].
  split; [apply H1; vm_compute; reflexivity | apply H2; vm_compute; reflexivity].
Defined.

(** ** Results and generations *)

(** The device a result is about. *)
Definition result_device (r : option go_map) : option string :=
  match map_get "device_id" r with Some (JStr d) => Some d | _ => None end.
Definition results_of (device : string) (results : list (option go_map)) : list (option go_map) :=
  filter (λ r, result_device r = Some device) results.
(** What becomes of a result. *)
Definition result_update (generations : gmap string Z) (r r' : option go_map) : Prop :=
  ∃ device, result_device r = Some device ∧
    match generations !! device with
    | Some g => r' = map_insert ("device_generation", JInt g) <$> r
    | None => r' = r ∧ map_get "status" r = Some (JStr "WAITING")
    end.

Lemma add_generations_spec generations results seen out seen' :
  add_generations generations seen results = Ok (out, seen') →
  Forall2 (result_update generations) results out ∧
  ∀ device, is_Some (generations !! device) →
    (device ∈ seen → results_of device results = []) ∧ (List.length (results_of device results) ≤ 1)%nat ∧
    (device ∈ seen' → device ∈ seen ∨ List.length (results_of device results) = 1%nat).
Proof.
  revert seen out seen'. induction results as [|r results IH]; intros seen out seen' H; cbn [add_generations] in H.
  { injection H as <- <-. split; [constructor|]. intros device Hd. cbn. split; [done|]. split; [lia|]. by left. }
  destruct (map_get "device_id" r) as [[| | |dev| |]|] eqn:Ed; try done.
  assert (result_device r = Some dev) as Hdev by (unfold result_device; by rewrite Ed).
  assert (∀ x, results_of x (r :: results) = (if decide (dev = x) then [r] else []) ++ results_of x results)%list as Hcons.
  { intros x. unfold results_of. rewrite filter_cons, Hdev. destruct (decide (dev = x)) as [->|]; [by rewrite decide_True|].
    rewrite decide_False by congruence. done. }
  destruct (generations !! dev) as [g|] eqn:Eg.
  - unfold fail_if in H. destruct (bool_decide (dev ∈ seen)) eqn:Es; [done|]. cbn [res_bind] in H. bools.
    destruct (add_generations generations _ results) as [[rest seen1]|] eqn:Er; [|done]. cbn in H. injection H as <- <-.
    destruct (IH _ _ _ Er) as [Hall Hcount]. split.
    { constructor; [|done]. exists dev. split; [done|]. by rewrite Eg. }
    intros x Hx. rewrite Hcons. destruct (Hcount x Hx) as (H1 & H2 & H3). destruct (decide (dev = x)) as [->|Hne].
    + rewrite H1 by set_solver. cbn. split; [done|]. split; [lia | by right].
    + cbn. split; [intros; apply H1; set_solver|]. split; [done|]. intros Hin. destruct (H3 Hin); [set_solver | by right].
  - destruct (map_get "status" r) as [[| | |st| |]|] eqn:Est; try done.
    destruct (decide (st = "WAITING")) as [->|Hne].
    2:{ exfalso. revert H. clear -Hne. intros H. repeat (case_match; try done). }
    destruct (add_generations generations _ results) as [[rest seen1]|] eqn:Er; [|done]. cbn in H. injection H as <- <-.
    destruct (IH _ _ _ Er) as [Hall Hcount]. split.
    { constructor; [|done]. exists dev. split; [done|]. by rewrite Eg. }
    intros x Hx. rewrite Hcons. assert (dev ≠ x) by (intros ->; rewrite Eg in Hx; by destruct Hx).
    rewrite decide_False by done. destruct (Hcount x Hx) as (H1 & H2 & H3). cbn.
    split; [intros; apply H1; set_solver|]. split; [done|]. intros Hin. destruct (H3 Hin); [set_solver | by right].
Qed.

(** C26: [addDeviceGenerations] gives the generation of every queued device to
    exactly one result and leaves every other result alone, which must be one of a
    waiting device; otherwise it fails. *)
Theorem addDeviceGenerations_spec (raw : raw_message) (generations : gmap string Z) (j : json) :
  addDeviceGenerations raw generations = Ok j →
  ∃ results results', dec_maps raw = Some results ∧ j = maps_json results' ∧
    Forall2 (result_update generations) results results' ∧
    ∀ device, is_Some (generations !! device) → List.length (results_of device results) = 1%nat.
Proof.
  unfold addDeviceGenerations. destruct (dec_maps raw) as [results|]; [|done].
  destruct (add_generations generations ∅ results) as [[out seen]|] eqn:E; [|done]. cbn [res_bind].
  unfold fail_if. destruct (negb _) eqn:Ec; [done|]. cbn. intros [= <-]. bools.
  apply add_generations_spec in E as [Hall Hcount]. exists results, out. do 3 (split; [done|]).
  intros device Hd. destruct (Hcount device Hd) as (_ & _ & H3). apply elem_of_dom in Hd.
  destruct (H3 ltac:(by apply Ec)); [set_solver | done].
Qed.

Lemma addDeviceGenerations_spec_witness :
  ∃ results, dec_maps (Some queued_results) = Some results ∧ List.length (results_of "ap-1" results) = 1%nat.
Proof.
  destruct (addDeviceGenerations (Some queued_results) {["ap-1" := 4%Z]}) as [j|] eqn:E; [|vm_compute in E; discriminate E].
  destruct (addDeviceGenerations_spec (Some queued_results) {["ap-1" := 4%Z]} j E) as (results & results' & Hr & _ & _ & Hc).
  exists results. split; [exact Hr|]. apply Hc. by exists 4%Z.
Defined.

(** ** Claim and queue *)

Lemma queueDeviceChangeSet_devices now schema owner id raw w r w' :
  queueDeviceChangeSet now schema owner id raw w = (r, w') → ∃ f, tn w' = set_devices f (tn w).
Proof.
  intros [He|(doc & i & d & d' & _ & [_ ->] & _)]%queueDeviceChangeSet_inv; [|by eexists].
  exists (λ m, m). rewrite He. by destruct (tn w).
Qed.
Lemma queue_items_inv now schema siteID rolloutID items g w gs ids w' :
  queue_items now schema siteID rolloutID items g w = (Ok (gs, ids), w') →
  (∃ f, tn w' = set_devices f (tn w)) ∧ List.length ids = List.length items ∧
  dom gs = dom g ∪ list_to_set (map ci_DeviceID ids) ∧
  Forall2 (λ item i, parseDeviceChangeSet (qi_ChangeSet item) false = Ok i) items ids.
Proof.
  revert g w gs ids w'. induction items as [|item items IH]; intros g w gs ids w' H; cbn [queue_items] in H.
  { apply mret_inv in H as [H ->]. injection H as -> ->. split; [exists (λ m, m); by destruct (tn w)|]. split; [done|]. split; [set_solver | constructor]. }
  m_bind H as i w1 Hp. m_bind H as g' w2 Hq. m_bind H as p w3 Hr. destruct p as [gs1 ids1]. apply mret_inv in H as [H ->]. injection H as -> ->.
  apply queueDeviceChangeSet_devices in Hq as [f Hf]. apply IH in Hr as ([f2 Hf2] & Hl & Hdom & Hall).
  split; [exists (f2 ∘ f); rewrite Hf2, Hf; done|]. split; [cbn; lia|]. split; [|by constructor].
  rewrite Hdom, dom_insert_L. cbn. set_solver.
Qed.

Lemma InsertAuditLogContext_inv user action kind id payload ip w w' :
  InsertAuditLogContext user action kind id payload ip w = (Ok tt, w') →
  tn w' = add_audit (Audit user action kind id payload ip) (tn w).
Proof.
  intros [(a & t & _ & Hf & ->)|(e & [=] & _)]%statement_inv. by injection Hf as _ <-.
Qed.
Lemma audit_queued_inv user siteID ip rolloutID g ids w w' :
  audit_queued user siteID ip rolloutID g ids w = (Ok tt, w') →
  rollout_runs (tn w') = rollout_runs (tn w) ∧ devices (tn w') = devices (tn w) ∧
  List.length (audit_logs (tn w')) = (List.length (audit_logs (tn w)) + List.length ids)%nat.
Proof.
  revert w. induction ids as [|i ids IH]; intros w H; cbn [audit_queued] in H; [m_end H; cbn; auto with lia|].
  m_bind H as u w1 Ha. destruct u. apply InsertAuditLogContext_inv in Ha. apply IH in H as (-> & -> & ->). rewrite Ha.
  cbn. rewrite length_app. cbn. split; [done|]. split; [done | lia].
Qed.

(** C7: [ClaimAndQueueDeviceChangeSets] is atomic: it fails and changes nothing, or
    it takes the site's newest draft through the claim to QUEUED without a token,
    its plan untouched, its results carrying the reserved generations, with one
    generation per queued device and one audit entry per change set and one for
    the rollout. *)
Theorem claim_and_queue_atomic (now : Z) (token schema siteID rolloutID : string) (items : list DeviceChangeSetQueueItem)
    (queuedResults : raw_message) (user ip : string) (w w' : world) (r : res (gmap string Z)) :
  ClaimAndQueueDeviceChangeSets now token schema siteID rolloutID items queuedResults user ip w = (r, w') →
  match r with
  | Err _ => tn w' = tn w
  | Ok generations => ∃ id site row row' results ids,
      find_rollout rolloutID siteID (tn w) = Ok (id, Some row) ∧ uuid_in siteID = Some site ∧
      claim_candidate now site (site_rows site (tn w)) row = true ∧
      rollout_runs (tn w') !! id = Some row' ∧ same_plan row row' ∧ r_status row' = "QUEUED" ∧ r_claim_token row' = None ∧
      addDeviceGenerations queuedResults generations = Ok results ∧ jsonb_in results = Some (r_results row') ∧
      Forall2 (λ item i, parseDeviceChangeSet (qi_ChangeSet item) false = Ok i) items ids ∧
      dom generations = list_to_set (map ci_DeviceID ids) ∧
      List.length (audit_logs (tn w')) = (List.length (audit_logs (tn w)) + 1 + List.length items)%nat
  end.
Proof.
  unfold ClaimAndQueueDeviceChangeSets. intros H. m_bind H as u w1 Hn; [done|]. m_bind H as s w2 Hs; [done|].
  apply transaction_inv in H as [(e & -> & ->)|(g & w2 & -> & H & ->)]; [done|].
  m_bind H as u3 w3 Hl. apply advisory_lock_inv in Hl. cbn in Hl.
  m_bind H as rec w4 Hc. apply claimRolloutDraftTx_inv in Hc as (id & site & row & Hf & Hu & Hcand & Hrec & Hrow & Hw4).
  rewrite Hl in Hf, Hcand, Hrow, Hw4.
  m_bind H as p w5 Hq. destruct p as [gs ids]. apply queue_items_inv in Hq as ([f Hw5] & Hlen & Hdom & Hall).
  m_bind H as results w6 Ha. m_bind H as n w7 Hcl. m_bind H as u4 w8 Hone.
  m_bind H as u5 w9 Hau. destruct u5. apply InsertAuditLogContext_inv in Hau.
  m_bind H as u6 w10 Hau2. destruct u6. apply audit_queued_inv in Hau2 as (Hr10 & _ & Hlog). m_end H.
  assert (n = 1%nat) as -> by (unfold fail_if in Hone; by destruct (Nat.eqb_spec n 1)).
  apply close_claim_inv in Hcl as [[_ ?]|(id2 & row2 & doc & _ & Hdoc & Hf2 & Hrow2 & Hheld & Hw7)]; [done|].
  assert (id2 = id) as ->.
  { unfold find_rollout in Hf, Hf2. destruct (uuid_param rolloutID); [|done]. destruct (uuid_param siteID); [|done].
    cbn in Hf, Hf2. congruence. }
  assert (row2 = set_status "RUNNING" (Some token) now row) as ->.
  { rewrite Hw5, Hw4 in Hrow2. cbn in Hrow2. rewrite lookup_insert_eq in Hrow2. congruence. }
  exists id, site, row, (set_results "QUEUED" None doc now (set_status "RUNNING" (Some token) now row)), results, ids.
  do 3 (split; [done|]). rewrite Hr10, Hau, Hw7. split; [cbn; apply lookup_insert_eq|].
  split; [unfold same_plan; cbn; repeat split; lia|]. do 5 (split; [done|]). split; [rewrite Hdom; set_solver|].
  rewrite Hlog, Hau, Hw7, Hw5, Hw4. cbn. rewrite length_app. cbn. lia.
Qed.

Definition queue_call (w : world) : res (gmap string Z) * world :=
  ClaimAndQueueDeviceChangeSets 2000 claim_token schema_name site_id rollout_id
    [QueueItem "AP" (Some (change_set_json change_set))] (Some queued_results) "admin" "10.0.0.1" w.
Lemma claim_and_queue_atomic_witness :
  let w := World (after 1) [] in
  List.length (audit_logs (tn (queue_call w).2)) = (List.length (audit_logs (tn w)) + 1 + 1)%nat ∧
  let w := World (after 1) [false; false; false; false; false; false; true] in tn (queue_call w).2 = tn w.
Proof.
  intros w. split.
  - destruct (claim_and_queue_atomic 2000 claim_token schema_name site_id rollout_id
      [QueueItem "AP" (Some (change_set_json change_set))] (Some queued_results) "admin" "10.0.0.1" w (queue_call w).2
      (Ok {["ap-1" := 4%Z]})) as (id & site & row & row' & results & ids & _ & _ & _ & _ & _ & _ & _ & _ & _ & _ & _ & Hlog).
    + vm_compute. reflexivity.
    + exact Hlog.
  - intros w2.
    apply (claim_and_queue_atomic 2000 claim_token schema_name site_id rollout_id
      [QueueItem "AP" (Some (change_set_json change_set))] (Some queued_results) "admin" "10.0.0.1" w2 (queue_call w2).2
      (Err ErrDriver)).
    vm_compute. reflexivity.
Defined.
