(* ===== verification/WorkerSpec.v ===== *)
(** What a round of the rollout worker promises: the order of the devices, the gate
    of the first phase, and one device per round. *)

From S2P Require Import Prelude GoStrings Json Uci DeviceOperation DeviceOperationFacts Store DeviceOperations.
From S2P Require Import ChangeSets Rollouts Worker QueueFacts Protocol RolloutInvariants Refinement History Scenario.

(** ** Order *)

(** Bytewise order is total and transitive. *)
Lemma str_less_trans a b c : str_less b a = false → str_less c b = false → str_less c a = false.
Proof.
  unfold str_less. revert b c. induction a as [|x a IH]; intros [|y b] [|z c]; cbn; try done.
  unfold Ascii.compare. intros H1 H2.
  destruct (N.compare_spec (N_of_ascii y) (N_of_ascii x)), (N.compare_spec (N_of_ascii z) (N_of_ascii y)),
    (N.compare_spec (N_of_ascii z) (N_of_ascii x)); try done; try lia.
  by eapply IH.
Qed.
Lemma str_less_asym a b : str_less a b = true → str_less b a = false.
Proof. unfold str_less. rewrite (String.compare_antisym b a). by destruct (String.compare a b). Qed.

Lemma device_less_trans a b c : device_less b a = false → device_less c b = false → device_less c a = false.
Proof.
  unfold device_less. intros H1 H2.
  destruct (is_gateway (wd_Role a)), (is_gateway (wd_Role b)), (is_gateway (wd_Role c)); cbn in *; try done;
    by eapply str_less_trans.
Qed.
Lemma device_less_asym a b : device_less a b = true → device_less b a = false.
Proof.
  unfold device_less. intros H.
  destruct (is_gateway (wd_Role a)), (is_gateway (wd_Role b)); cbn in *; try done; by apply str_less_asym.
Qed.

Lemma sorted_lookup {A} (R : A → A → Prop) l i j a b :
  StronglySorted R l → l !! i = Some a → l !! j = Some b → (i < j)%nat → R a b.
Proof.
  intros Hs. revert i j. induction Hs as [|x l Hs IH Hall]; intros i j Hi Hj Hlt; [done|].
  destruct j as [|j]; [lia|]. cbn in Hj. destruct i as [|i]; cbn in Hi.
  - injection Hi as <-. rewrite Forall_forall in Hall. apply Hall. by eapply list_elem_of_lookup_2.
  - eapply IH; [done..|lia].
Qed.

(** The worker visits every device of the plan once, the gateways after all the
    others, and devices of the same kind by their ids. *)
Theorem worker_order_spec (devices : list rolloutDevice) :
  worker_order devices ≡ₚ devices ∧
  ∀ i j a b, worker_order devices !! i = Some a → worker_order devices !! j = Some b → (i < j)%nat →
    (is_gateway (wd_Role a) = true → is_gateway (wd_Role b) = true) ∧
    (is_gateway (wd_Role a) = is_gateway (wd_Role b) → str_less (wd_DeviceID b) (wd_DeviceID a) = false).
Proof.
  split; [apply stable_sort_perm|]. intros i j a b Ha Hb Hlt.
  pose proof (stable_sort_sorted device_less device_less_trans device_less_asym devices) as Hs.
  pose proof (sorted_lookup _ _ _ _ _ _ Hs Ha Hb Hlt) as H. cbn in H. unfold device_less in H.
  destruct (is_gateway (wd_Role a)), (is_gateway (wd_Role b)); done.
Qed.

(** ** Rounds *)

Lemma update_rollout_devices rolloutID siteID p f w r w' :
  update_rollout rolloutID siteID p f w = (r, w') → devices (tn w') = devices (tn w).
Proof. by intros [[-> _]|(? & ? & _ & _ & _ & _ & ->)]%update_rollout_inv. Qed.
Lemma fenced_update_devices now schema lease f w r w' :
  fenced_update now schema lease f w = (r, w') → devices (tn w') = devices (tn w).
Proof.
  unfold fenced_update. intros H. m_bind H as s w1 Hs; [done|].
  m_bind H as n w3 Hu; [|apply one_row_tn in H as [-> _]]; by eapply update_rollout_devices.
Qed.
Lemma results_update_devices now schema lease results w r w' :
  UpdateRolloutWorkerResults now schema lease results w = (r, w') → devices (tn w') = devices (tn w).
Proof.
  unfold UpdateRolloutWorkerResults. destruct (jsonb_in results); [apply fenced_update_devices|].
  intros H. m_bind H as s w1 Hs; [done|]. by m_end H.
Qed.

(** What the round reads. *)
Lemma GetRolloutProgress_inv schema rolloutID siteID w r w' :
  GetRolloutProgress schema rolloutID siteID w = (r, w') →
  tn w' = tn w ∧ ∀ p, r = Ok p → ∃ id row, find_rollout rolloutID siteID (tn w) = Ok (id, Some row) ∧ rollout_progress row = Ok p.
Proof.
  unfold GetRolloutProgress. intros H. m_bind H as s w1 Hs; [done|].
  m_bind H as found w3 Hf; apply query_inv in Hf as [Ht Hf]; [done|]. specialize (Hf _ eq_refl).
  destruct found as [id [row|]]; m_end H; [|done]. split; [done|]. intros p Hp. by exists id, row.
Qed.

Lemma queueDeviceChangeSet_others now schema owner id raw w r w' :
  queueDeviceChangeSet now schema owner id raw w = (r, w') →
  ∀ other, other ≠ id → devices (tn w') !! other = devices (tn w) !! other.
Proof.
  intros [He|(doc & i & d & d' & _ & [_ ->] & _)]%queueDeviceChangeSet_inv other Hne; [by rewrite He|].
  cbn. by rewrite lookup_insert_ne.
Qed.

Lemma queueNextPhase_devices now schema lease progress w r w' :
  queueNextPhase now schema lease progress w = (r, w') →
  devices (tn w') = devices (tn w) ∨
  ∃ plan device, dec_plan (pg_Plan progress) (WorkerPlan None "" None) = Some plan ∧
    worker_order (default [] (wp_Devices plan)) !! Z.to_nat (l_Cursor lease) = Some device ∧
    ∀ id, id ≠ wd_DeviceID device → devices (tn w') !! id = devices (tn w) !! id.
Proof.
  unfold queueNextPhase. intros H.
  destruct (dec_plan _ _) as [plan|]; [|m_end H; by left].
  destruct (dec_maps _) as [results|]; [|m_end H; by left].
  destruct (worker_order _ !! _) as [device|] eqn:Eo; [|m_end H; by left].
  destruct (already_queued _ _); [m_end H; by left|].
  destruct (device_operations plan device) as [ops|]; [|m_end H; by left].
  right. exists plan, device. do 2 (split; [done|]). intros id Hne.
  unfold queue_device in H. m_bind H as cs w1 Hn; [done|].
  m_bind H as g w2 Hq; [by eapply queueDeviceChangeSet_others|].
  apply results_update_devices in H as ->. by eapply queueDeviceChangeSet_others.
Qed.


(** A rollout of two access points in the worker's hands: the first has committed. *)
Definition phase_device (id : string) : json :=
  JObj [("device_id", JStr id); ("hostname", JStr id); ("role", JStr "AP");
    ("commands", JArr [JObj [("action", JStr "set"); ("config", JStr "dhcp"); ("section", JStr "lan");
                             ("option", JStr "start"); ("value", JStr "100")]]);
    ("observed_state", JObj [("dhcp", JStr (concat_strings (replicate 64 "a")))])].
Definition phase_result (id status state : string) : json :=
  JObj [("device_id", JStr id); ("status", JStr status); ("change_set_state", JStr state)].
Definition phased_rollout (first : json) : rollout_row :=
  Rollout site_id 1 "RUNNING" None (Some "worker-1") (Some 9000%Z) 0 (cs_PlanHash change_set) "admin"
    (JArr [JStr "ap-0"; JStr "ap-1"])
    (JObj [("namespace", JStr "dhcp"); ("devices", JArr [phase_device "ap-1"; phase_device "ap-0"])])
    (JArr [first; phase_result "ap-1" "WAITING" ""]) 1000.
Definition phased (first : json) : tenant :=
  Tenant {[site_id]} {["ap-1" := access_point; "ap-0" := access_point]} {[rollout_id := phased_rollout first]} [].
Definition worker_lease : RolloutLease := Lease rollout_id site_id "worker-1" 0.

(** The next access point is queued after the first has committed, none after it
    has failed. *)
Example phases :
  let queued first := (d_rollout_status <$>
    devices (tn (reconcile_round 2000 schema_name worker_lease (World (phased first) [])).2) !! "ap-1") in
  queued (phase_result "ap-0" "SUCCESS" "COMMITTED") = Some (Some "QUEUED") ∧
  queued (phase_result "ap-0" "FAILED" "RESTORED") = Some None ∧
  queued (phase_result "ap-0" "QUEUED" "APPLYING") = Some None.
Proof. vm_compute. done. Qed.

