(* ===== verification/OrchestratorFacts.v ===== *)
(** The orchestrator's handler is a client of the protocol: every run of
    [SyncFleetHandler] is a path of the transition system, whatever the environment
    answers and wherever the driver fails. *)

From stdpp Require Import relations.
From S2P Require Import Prelude GoStrings Json Uci DeviceOperation Store DeviceOperations ChangeSets Rollouts RolloutPlan.
From S2P Require Import Orchestrator QueueFacts Protocol RolloutInvariants Refinement.

Section runs.
Context (accepts : json → Prop).
Notation run := (run accepts).

(** ** Statements *)

Lemma update_device_status_run now siteID deviceID status p w r w' :
  update_device_status now siteID deviceID status p w = (r, w') → run now (tn w) (tn w').
Proof.
  intros H. apply statement_inv in H as [(a & t & -> & Hf & ->)|(e & -> & ->)]; [|apply rtc_refl].
  destruct (uuid_param siteID) as [site|]; [|done]. cbn [res_bind] in Hf.
  destruct (devices (tn w) !! deviceID) as [d|] eqn:Ed; [|injection Hf as _ <-; apply rtc_refl].
  destruct (_ && _); [|injection Hf as _ <-; apply rtc_refl]. injection Hf as _ <-.
  apply run_once.
  apply (e_device_statuses accepts now (tn w) (<[deviceID := set_rollout_status status now d]> (devices (tn w)))).
  intros id. destruct (decide (deviceID = id)) as [->|].
  - right. exists d, status. split; [done | apply lookup_insert_eq].
  - left. by rewrite lookup_insert_ne.
Qed.

Lemma assertRolloutClaim_inv rolloutID token w r w' :
  assertRolloutClaim rolloutID token w = (r, w') → tn w' = tn w.
Proof.
  unfold assertRolloutClaim. intros H. m_bind H as status w1 Hq; apply query_inv in Hq as [Ht _]; [done|].
  destruct status; m_end H; done.
Qed.

Lemma mark_devices_run now siteID devices w r w' :
  mark_devices now siteID devices w = (r, w') → run now (tn w) (tn w').
Proof.
  revert w. induction devices as [|d devices IH]; intros w H; cbn [mark_devices] in H; [m_end H; apply rtc_refl|].
  m_bind H as n w1 Hu; [by eapply update_device_status_run|].
  eapply run_trans; [by eapply update_device_status_run|].
  m_bind H as u w2 Ho; [apply rtc_refl | by apply IH].
Qed.

Lemma update_where_run now site p status t :
  run now t (set_devices (update_where (λ d, bool_decide (d_site_id d = Some site) && p d) (set_rollout_status status now)) t).
Proof.
  apply run_once.
  apply (e_device_statuses accepts now t
    (update_where (λ d, bool_decide (d_site_id d = Some site) && p d) (set_rollout_status status now) (devices t))).
  intros id. unfold update_where. rewrite lookup_fmap. destruct (devices t !! id) as [d|] eqn:E; [|by left].
  cbn. destruct (_ && _); [right; by exists d, status | by left].
Qed.

Lemma markRolloutDevicesRunning_run now siteID rolloutID token devices w r w' :
  markRolloutDevicesRunning now siteID rolloutID token devices w = (r, w') → run now (tn w) (tn w').
Proof.
  unfold markRolloutDevicesRunning. intros H.
  apply transaction_inv in H as [(e & -> & ->)|(a & w2 & -> & H & ->)]; [apply rtc_refl|].
  m_bind H as u w3 Ha. apply assertRolloutClaim_inv in Ha. cbn in Ha. rewrite <- Ha.
  destruct devices; [|by eapply mark_devices_run].
  apply statement_inv in H as [(b & t & _ & Hf & ->)|(e & [=] & _)].
  destruct (uuid_param siteID); [|done]. injection Hf as _ <-. apply update_where_run.
Qed.

Lemma persist_devices_run now siteID results w r w' :
  persist_devices now siteID results w = (r, w') → run now (tn w) (tn w').
Proof.
  revert w. induction results as [|d results IH]; intros w H; cbn [persist_devices] in H; [m_end H; apply rtc_refl|].
  m_bind H as n w1 Hu; [by eapply update_device_status_run|].
  eapply run_trans; [by eapply update_device_status_run|].
  m_bind H as u w2 Ho; [apply rtc_refl | by apply IH].
Qed.

Lemma close_rollout_inv now rolloutID token status results w r w' :
  close_rollout now rolloutID token status results w = (r, w') →
  (tn w' = tn w ∧ r ≠ Ok 1%nat) ∨
  ∃ id row doc, r = Ok 1%nat ∧ rollout_runs (tn w) !! id = Some row ∧ held_by token row = true ∧
    uuid_in rolloutID = Some id ∧
    tn w' = set_rollouts <[id := set_results status None doc now row]> (tn w).
Proof.
  intros H. apply statement_inv in H as [(a & t & -> & Hf & Ht)|(e & -> & ->)]; [|by left].
  destruct (jsonb_param _) as [doc|]; [|done]. cbn [res_bind] in Hf. unfold uuid_param in Hf.
  destruct (uuid_in rolloutID) as [id|]; [|done]. cbn [res_bind] in Hf.
  destruct (rollout_runs (tn w) !! id) as [row|] eqn:Er; [|injection Hf as <- <-; by left].
  destruct (held_by token row) eqn:Eh; [|injection Hf as <- <-; by left]. injection Hf as <- <-.
  right. by exists id, row, doc.
Qed.
Lemma close_rollout_run now rolloutID token status results w r w' :
  status ∉ open_states → close_rollout now rolloutID token status results w = (r, w') → run now (tn w) (tn w').
Proof.
  intros Hs H. apply close_rollout_inv in H as [[-> _]|(id & row & doc & _ & Hr & Hh & _ & ->)]; [apply rtc_refl|].
  apply run_once. eapply e_row; [done | by eapply row_finished].
Qed.

Lemma persistRolloutResults_run now siteID rolloutID token status results w r w' :
  status ∉ open_states → persistRolloutResults now siteID rolloutID token status results w = (r, w') → run now (tn w) (tn w').
Proof.
  unfold persistRolloutResults. intros Hs H.
  apply transaction_inv in H as [(e & -> & ->)|(a & w2 & -> & H & ->)]; [apply rtc_refl|].
  m_bind H as u w3 Ha. apply assertRolloutClaim_inv in Ha. cbn in Ha. rewrite <- Ha.
  m_bind H as u2 w4 Hp. eapply run_trans; [by eapply persist_devices_run|].
  m_bind H as n w5 Hc. apply one_row_tn in H as [-> _]. by eapply close_rollout_run.
Qed.

Lemma failed_closed : "FAILED" ∉ open_states.
Proof. unfold open_states. set_solver. Qed.
Lemma markRolloutPersistenceFailure_run now siteID rolloutID token results cause w r w' :
  markRolloutPersistenceFailure now siteID rolloutID token results cause w = (r, w') → run now (tn w) (tn w').
Proof.
  unfold markRolloutPersistenceFailure. intros H.
  apply transaction_inv in H as [(e & -> & ->)|(a & w2 & -> & H & ->)]; [apply rtc_refl|].
  m_bind H as u w3 Hf. m_bind H as n w5 Hc. apply one_row_tn in H as [-> _].
  apply statement_inv in Hf as [(b & t & _ & Hf & Ht)|(e & [=] & _)].
  destruct (uuid_param siteID); [|done]. injection Hf as _ <-.
  eapply run_trans; [apply fail_running_run|]. cbn in Ht. rewrite <- Ht.
  eapply close_rollout_run; [apply failed_closed | done].
Qed.

Lemma verify_targets_inv siteID devices w r w' : verify_targets siteID devices w = (r, w') → tn w' = tn w.
Proof.
  revert w. induction devices as [|d devices IH]; intros w H; cbn [verify_targets] in H; [by m_end H|].
  unfold mtry in H. destruct (target_row siteID (dd_DeviceID d) w) as [x w1] eqn:E. apply query_inv in E as [E _].
  destruct x as [[[[role op] cs]|]|]; [|by m_end H..].
  m_bind H as u w2 H1; [done|]. m_bind H as u2 w3 H2; [done|]. m_bind H as u3 w4 H3; [done|]. rewrite <- E. by apply IH.
Qed.

(** ** Paths of a handler *)

Context {E : Type} {environment : Environment E}.

(** Every run of [m] is a path. *)
Definition path {A} (m : H (E := E) A) : Prop :=
  ∀ e w a e' w', m (e, w) = (a, (e', w')) →
    (clock e ≤ clock e')%Z ∧ reachable accepts (clock e, tn w) (clock e', tn w').

Lemma path_ret {A} (a : A) : path (hret a).
Proof. intros e w a' e' w' [= _ <- <-]. split; [done | apply rtc_refl]. Qed.
Lemma path_bind_post {A B} (P : A → Prop) (m : H (E := E) A) (k : A → H (E := E) B) :
  path m → (∀ s a s', m s = (a, s') → P a) → (∀ a, P a → path (k a)) → path (hbind m k).
Proof.
  intros Hm HP Hk e w b e' w' Hrun. unfold hbind in Hrun. destruct (m (e, w)) as [a [e1 w1]] eqn:Em.
  destruct (Hm _ _ _ _ _ Em) as [H1 R1]. destruct (Hk a (HP _ _ _ Em) _ _ _ _ _ Hrun) as [H2 R2].
  split; [lia | by etrans].
Qed.
Lemma path_bind {A B} (m : H (E := E) A) (k : A → H (E := E) B) : path m → (∀ a, path (k a)) → path (hbind m k).
Proof. intros Hm Hk. by apply (path_bind_post (λ _, True)). Qed.
Lemma path_db {A} (m : Z → M A) :
  (∀ now w r w', m now w = (r, w') → run now (tn w) (tn w')) → path (db m).
Proof.
  intros Hm e w a e' w' H. unfold db in H. destruct (m (clock e) w) as [r w1] eqn:Em. injection H as _ <- <-.
  split; [done|]. apply run_reachable; [done|]. by eapply Hm.
Qed.
Lemma path_env {A} (f : E → A * E) : (∀ e, (clock e ≤ clock (f e).2)%Z) → path (env f).
Proof.
  intros Hf e w a e' w' H. unfold env in H. specialize (Hf e). destruct (f e) as [x e1]. injection H as _ <- <-.
  cbn in Hf. split; [done|]. apply run_reachable; [done | apply rtc_refl].
Qed.

Context (req : request) (token : string).
(** What the handler queues is accepted. *)
Hypothesis accepts_built : ∀ cs, accepts (change_set_json cs).

Lemma path_audit action payload : path (auditRolloutEvent req action payload).
Proof. apply path_db. intros now w x w' Hx. by eapply InsertAuditLogContext_run. Qed.
Lemma path_audit_or action payload answer : path (audit_or req action payload answer).
Proof. apply path_bind; [apply path_audit|]. intros a. apply path_ret. Qed.
Lemma path_reject schema rolloutID reason answer : path (reject_with req schema rolloutID reason answer).
Proof.
  apply path_bind; [|intros; apply path_ret]. apply path_bind.
  - apply path_db. intros now w x w' Hx. by eapply RejectRolloutDraft_run.
  - intros _. apply path_bind; [apply path_audit|]. intros _. apply path_ret.
Qed.
Lemma path_release schema rolloutID tok :
  path (db (λ now, ReleaseRolloutDraft now schema (q_siteID req) rolloutID tok)).
Proof. apply path_db. intros now w x w' Hx. by eapply ReleaseRolloutDraft_run. Qed.
Lemma path_stale schema rolloutID tok :
  path (db (λ now, MarkRolloutDraftStale now schema (q_siteID req) rolloutID tok)).
Proof. apply path_db. intros now w x w' Hx. by eapply MarkRolloutDraftStale_run. Qed.
Lemma path_validation_failure schema rolloutID tok e :
  path (handleRolloutDraftValidationFailure req schema rolloutID tok e).
Proof.
  unfold handleRolloutDraftValidationFailure. destruct (errors_is e _).
  - apply path_bind; [apply path_release|]. intros _. apply path_audit_or.
  - apply path_bind; [apply path_stale|]. intros _. apply path_audit_or.
Qed.

Lemma GetRolloutDraft_inv schema siteID rolloutID w r w' :
  GetRolloutDraft schema siteID rolloutID w = (r, w') → tn w' = tn w.
Proof.
  unfold GetRolloutDraft. intros H. m_bind H as s w1 Hs; [done|].
  m_bind H as found w2 Hf; apply query_inv in Hf as [Hf _]; [done|]. destruct found as [id [row|]]; m_end H; done.
Qed.
Lemma path_get schema rolloutID : path (db (λ _, GetRolloutDraft schema (q_siteID req) rolloutID)).
Proof. apply path_db. intros now w x w' Hx%GetRolloutDraft_inv. by apply run_same. Qed.

(** *** Change sets *)

Lemma fleet_items_accepted draft changeSets : Forall accepts (item_documents (fleet_items draft changeSets)).
Proof.
  unfold item_documents, fleet_items. apply Forall_forall. intros j Hj.
  apply list_elem_of_fmap in Hj as (item & -> & Hin).
  apply list_elem_of_In, in_concat in Hin as (l & Hl & Hin).
  apply list_elem_of_In, elem_of_lookup_imap in Hl as (i & p & -> & _).
  destruct (bool_decide _); [|done]. apply list_elem_of_In, list_elem_of_singleton in Hin as ->. apply accepts_built.
Qed.

Lemma path_queue_fleet schema rolloutID record draft :
  path (queueFleetDeviceChangeSets req token schema rolloutID record draft).
Proof.
  unfold queueFleetDeviceChangeSets. destruct (buildFleetDeviceChangeSets _ _) as [changeSets|]; [|apply path_ret].
  destruct (text_in _ _); [apply path_ret|]. apply path_bind; [|intros; apply path_ret].
  apply path_db. intros now w x w' Hx. eapply ClaimAndQueueDeviceChangeSets_run; [apply fleet_items_accepted | exact Hx].
Qed.
Lemma path_sync_fleet schema rolloutID record draft :
  path (sync_fleet_change_sets req token schema rolloutID record draft).
Proof.
  apply path_bind; [apply path_queue_fleet|]. intros [reply|e]; [apply path_ret|].
  destruct (errors_is e _); [apply path_reject | apply path_ret].
Qed.
Lemma path_sync_single schema rolloutID record draft device :
  path (sync_single req token schema rolloutID record draft device).
Proof.
  unfold sync_single. destruct (buildSingleDeviceChangeSet _ _) as [cs|]; [|apply path_reject].
  destruct (rd_Status record =? "QUEUED"); [apply path_ret|]. apply path_bind.
  { apply path_db. intros now w x w' Hx. eapply ClaimAndQueueDeviceChangeSet_run; [|exact Hx]. apply accepts_built. }
  intros [g|e]; [apply path_ret|]. destruct (errors_is e ErrDeviceChangeSetCapability); [apply path_reject|].
  destruct (errors_is e _); [|apply path_ret]. apply path_bind; [apply path_get|]. intros. apply path_ret.
Qed.

(** *** Scripts *)

Lemma path_verify_configs deviceID state configs : path (verify_configs deviceID state configs).
Proof.
  induction configs as [|config configs IH]; cbn [verify_configs]; [apply path_ret|].
  destruct (_ =? ""); [apply path_ret|]. apply path_bind; [apply path_env, command_time|].
  intros [output [e|]]; [apply path_ret|]. destruct (_ =? _); [done | apply path_ret].
Qed.
Lemma path_verify draft : path (verifyRolloutDraftObservedState draft).
Proof.
  unfold verifyRolloutDraftObservedState. induction (draft_device_list draft) as [|d l IH]; cbn [verify_devices]; [apply path_ret|].
  apply path_bind; [apply path_verify_configs|]. intros [u|e]; [done | apply path_ret].
Qed.
Lemma path_backup results : path (backup_devices results).
Proof.
  induction results as [|d l IH]; cbn [backup_devices]; [apply path_ret|]. destruct (bool_decide _); [done|].
  apply path_bind; [apply path_env, backup_time|]. intros [e|]; [apply path_ret | done].
Qed.
Lemma path_run_scripts rr scripts names out : path (run_scripts rr scripts names out).
Proof.
  revert out. induction names as [|cfg names IH]; intros out; cbn [run_scripts]; [apply path_ret|].
  destruct (_ =? ""); [apply path_ret|]. apply path_bind; [apply path_env, script_time|].
  intros [o [e|]]; [apply path_ret | apply IH].
Qed.
Lemma path_batch draft results indices sr : path (executeBatch draft results indices sr).
Proof.
  revert sr. induction indices as [|i indices IH]; intros sr; cbn [executeBatch]; [apply path_ret|].
  apply path_bind; [|intros; apply IH]. unfold execute_device. destruct (bool_decide _); [apply path_ret | apply path_run_scripts].
Qed.
Lemma path_phases draft results later phases sr : path (run_phases draft results later phases sr).
Proof.
  revert sr. induction phases as [|p phases IH]; intros sr; cbn [run_phases]; [apply path_ret|].
  apply path_bind; [apply path_batch|]. intros sr'. destruct (rolloutResultSuccess _); [apply IH | apply path_ret].
Qed.
Lemma path_execute draft results : path (execute_rollout draft results).
Proof.
  unfold execute_rollout. apply path_bind; [apply path_batch|]. intros sr.
  destruct (rolloutResultSuccess _); [apply path_phases | apply path_ret].
Qed.

(** The states a rollout ends in. *)
Definition final_states : list string := ["completed"; "STALE"; "aborted"; "canary_failed"].
Lemma stop_status_final failed other : other ∈ final_states → stop_status failed other ∈ final_states.
Proof. unfold stop_status, final_states. destruct (_ =? _); set_solver. Qed.
Lemma run_phases_final draft results later phases sr s a s' :
  run_phases draft results later phases sr s = (a, s') → a.1 ∈ final_states.
Proof.
  revert sr s. induction phases as [|p phases IH]; intros sr s H; cbn [run_phases] in H.
  { injection H as <- _. unfold final_states. set_solver. }
  unfold hbind in H. destruct (executeBatch _ _ _ _ s) as [sr' s1]. destruct (rolloutResultSuccess _); [by eapply IH|].
  injection H as <- _. apply stop_status_final. unfold final_states. set_solver.
Qed.
Lemma execute_final draft results s a s' : execute_rollout draft results s = (a, s') → a.1 ∈ final_states.
Proof.
  unfold execute_rollout, hbind. destruct (executeBatch _ _ _ _ s) as [sr s1]. destruct (rolloutResultSuccess _).
  - apply run_phases_final.
  - intros [= <- _]. apply stop_status_final. unfold final_states. set_solver.
Qed.
Lemma final_closed status : status ∈ final_states → status ∉ open_states.
Proof.
  unfold final_states, open_states. rewrite !elem_of_cons, elem_of_nil.
  intros [->|[->|[->|[->|[]]]]]; set_solver.
Qed.

Lemma path_finish rolloutID record draft status sr :
  status ∉ open_states → path (finish_rollout req rolloutID record draft status sr).
Proof.
  intros Hs. apply path_bind; [apply path_db; intros now w x w' Hx; by eapply persistRolloutResults_run|].
  intros [u|cause].
  - apply path_bind; [apply path_audit | intros; apply path_ret].
  - apply path_bind; [|intros; apply path_ret].
    apply path_db. intros now w x w' Hx. by eapply markRolloutPersistenceFailure_run.
Qed.
Lemma path_mark_and_execute schema rolloutID record draft results :
  path (mark_and_execute req schema rolloutID record draft results).
Proof.
  apply path_bind; [apply path_db; intros now w x w' Hx; by eapply markRolloutDevicesRunning_run|].
  intros [u|e].
  - apply (path_bind_post (λ a, a.1 ∈ final_states)); [apply path_execute | intros; by eapply execute_final|].
    intros a Ha. apply path_finish. by apply final_closed.
  - destruct (_ || _); (apply path_bind; [|intros _; apply path_audit_or]); [apply path_stale | apply path_release].
Qed.
Lemma path_sync_scripts schema rolloutID draft results : path (sync_scripts req token schema rolloutID draft results).
Proof.
  apply path_bind.
  { apply path_db. intros now w x w' Hx. apply run_same. unfold verifyRolloutDraftTargets in Hx.
    destruct (SafeSchemaIdent schema); [by eapply verify_targets_inv | by m_end Hx]. }
  intros [u|e]; [|apply path_validation_failure].
  apply path_bind; [apply path_db; intros now w x w' Hx; by eapply ClaimRolloutDraft_run|].
  intros [record|e]; [|apply path_ret]. apply path_bind; [apply path_audit|]. intros [v|e].
  2:{ apply path_bind; [apply path_release | intros; apply path_ret]. }
  apply path_bind; [apply path_verify|]. intros [v2|e]; [|apply path_validation_failure].
  apply path_bind; [apply path_backup|]. intros [e|].
  { apply path_bind; [apply path_release | intros; apply path_audit_or]. }
  apply path_bind; [apply path_verify|]. intros [v3|e]; [apply path_mark_and_execute | apply path_validation_failure].
Qed.

Lemma path_sync_draft schema rolloutID record : path (sync_draft req token schema rolloutID record).
Proof.
  unfold sync_draft. destruct (decodeRolloutDraft record) as [draft|]; [|apply path_reject].
  destruct (rolloutResultsFromDraft draft) as [|r0 rs]; [apply path_reject|].
  destruct (rejectUnsafeNetworkMutations _); [|apply path_reject].
  destruct (_ =? ""); [apply path_sync_scripts|].
  destruct (draft_device_list draft) as [|d [|d2 l]]; [apply path_sync_fleet | apply path_sync_single | apply path_sync_fleet].
Qed.
Lemma SyncFleetHandler_path : path (SyncFleetHandler req token).
Proof.
  unfold SyncFleetHandler. destruct (requestedRolloutID req); [|apply path_ret].
  destruct (getTenantSchema req); [|apply path_ret].
  apply path_bind; [apply path_get|]. intros [record|e]; [apply path_sync_draft | apply path_ret].
Qed.
End runs.
