(* ===== verification/OrchestratorSpec.v ===== *)
(** What applying a rollout over SSH promises: the handler keeps to the protocol, a
    failure stops the execution, and the results close the rollout atomically. *)

From stdpp Require Import relations.
From S2P Require Import Prelude GoStrings Json Uci DeviceOperation DeviceOperationFacts Store DeviceOperations.
From S2P Require Import ChangeSets Rollouts RolloutPlan Orchestrator Worker QueueFacts Protocol Generations RolloutInvariants.
From S2P Require Import Refinement OrchestratorFacts History Scenario Guarantees.

(** ** Execution *)

Section execution.
Context {E : Type} {environment : Environment E}.
Implicit Types (s : E * world) (sr : list fleetSyncResult).

Lemma batch_app draft results l1 l2 sr s :
  executeBatch draft results (l1 ++ l2)%list sr s =
  (let '(sr', s') := executeBatch draft results l1 sr s in executeBatch draft results l2 sr' s').
Proof.
  revert sr s. induction l1 as [|i l1 IH]; intros sr s; [done|]. cbn [app executeBatch]. unfold hbind.
  destruct (execute_device _ _ _ s) as [x s1]. apply IH.
Qed.

(** A device's run yields a status, and leaves the database alone. *)
Lemma run_scripts_spec rr scripts names out s x s' :
  run_scripts rr scripts names out s = (x, s') → fr_Status x ∈ ["SUCCESS"; "FAILED"; "STALE"] ∧ s'.2 = s.2.
Proof.
  revert out s. induction names as [|cfg names IH]; intros out s H; cbn [run_scripts] in H.
  { injection H as <- <-. split; [cbn; set_solver | done]. }
  destruct (_ =? ""); [injection H as <- <-; split; [cbn; set_solver | done]|].
  unfold hbind, env in H. destruct s as [e w]. destruct (run_script _ _ e) as [[o [err|]] e1].
  - injection H as <- <-. split; [|done]. cbn [fr_Status set_result]. destruct err as [z t|t]; [|by right; left].
    repeat case_match; first [by right; left | by right; right; left].
  - destruct (IH _ _ H) as [? ?]. done.
Qed.
Lemma execute_device_spec draft rr idx s x s' :
  execute_device draft rr idx s = (x, s') → fr_Status x ∈ ["SUCCESS"; "FAILED"; "STALE"; "SKIPPED"] ∧ s'.2 = s.2.
Proof.
  unfold execute_device. destruct (bool_decide _).
  - intros [= <- <-]. split; [cbn; set_solver | done].
  - intros [H ?]%run_scripts_spec. split; [set_solver | done].
Qed.

(** After the first [k] devices. *)
Record executed (n k : nat) (sr : list fleetSyncResult) : Prop := {
  ex_length : List.length sr = n;
  ex_run : ∀ i, (i < k)%nat → fr_Status (nth i sr zero_sync_result) ∈ ["SUCCESS"; "FAILED"; "STALE"; "SKIPPED"];
  ex_rest : ∀ i, (k ≤ i)%nat → nth i sr zero_sync_result = zero_sync_result
}.

Lemma nth_insert {A} i j (x d : A) l : (i < List.length l)%nat → nth j (<[i := x]> l) d = if decide (i = j) then x else nth j l d.
Proof.
  intros Hi. rewrite !nth_lookup. destruct (decide (i = j)) as [->|Hne].
  - by rewrite list_lookup_insert_eq.
  - by rewrite list_lookup_insert_ne.
Qed.

Lemma batch_executed draft results n k sr s sr' s' :
  (k < n)%nat → executed n k sr → executeBatch draft results [k] sr s = (sr', s') →
  executed n (S k) sr' ∧ s'.2 = s.2 ∧ ∀ i, (i < k)%nat → nth i sr' zero_sync_result = nth i sr zero_sync_result.
Proof.
  intros Hk [Hlen Hrun Hrest] H. cbn [executeBatch] in H. unfold hbind in H.
  destruct (execute_device _ _ _ s) as [x s1] eqn:Ed. injection H as <- <-.
  apply execute_device_spec in Ed as [Hx Hs]. split; [|split; [done|]].
  - split; [by rewrite length_insert| |].
    + intros i Hi. rewrite nth_insert by lia. destruct (decide (k = i)); [done|]. apply Hrun. lia.
    + intros i Hi. rewrite nth_insert by lia. destruct (decide (k = i)); [lia|]. apply Hrest. lia.
  - intros i Hi. rewrite nth_insert by lia. destruct (decide (k = i)); [lia | done].
Qed.

Lemma abort_unstarted_length results error indices sr :
  List.length (abort_unstarted results error indices sr) = List.length sr.
Proof.
  unfold abort_unstarted. revert sr. induction indices as [|i l IH]; intros sr; [done|]. cbn [fold_left]. rewrite IH.
  destruct (_ =? ""); [apply length_insert | done].
Qed.
Lemma abort_unstarted_nth results error indices sr i :
  Forall (λ j, j < List.length sr)%nat indices →
  nth i (abort_unstarted results error indices sr) zero_sync_result =
  if bool_decide (i ∈ indices) && (fr_Status (nth i sr zero_sync_result) =? "")
  then abort_result error (nth i results zero_rendered) else nth i sr zero_sync_result.
Proof.
  unfold abort_unstarted. revert sr. induction indices as [|j l IH]; intros sr Hall; [done|]. cbn [fold_left].
  apply Forall_cons in Hall as [Hj Hall].
  destruct (fr_Status (nth j sr zero_sync_result) =? "") eqn:Ej.
  - rewrite IH by (by rewrite length_insert). rewrite nth_insert by done.
    destruct (decide (j = i)) as [->|Hne].
    + cbn [abort_result fr_Status set_result]. rewrite Ej, (bool_decide_eq_true_2 (i ∈ i :: l)) by left.
      change ("ABORTED" =? "") with false. by rewrite andb_false_r.
    + replace (bool_decide (i ∈ j :: l)) with (bool_decide (i ∈ l)); [done|]. apply bool_decide_ext. set_solver.
  - rewrite IH by done. destruct (decide (j = i)) as [->|Hne].
    + by rewrite Ej, !andb_false_r.
    + replace (bool_decide (i ∈ j :: l)) with (bool_decide (i ∈ l)); [done|]. apply bool_decide_ext. set_solver.
Qed.
Lemma abort_all_nth results error indices sr i :
  Forall (λ j, j < List.length sr)%nat indices →
  nth i (abort_all results error indices sr) zero_sync_result =
  if bool_decide (i ∈ indices) then abort_result error (nth i results zero_rendered) else nth i sr zero_sync_result.
Proof.
  unfold abort_all. revert sr. induction indices as [|j l IH]; intros sr Hall; [done|]. cbn [fold_left].
  apply Forall_cons in Hall as [Hj Hall]. rewrite IH by (by rewrite length_insert). rewrite nth_insert by done.
  destruct (decide (j = i)) as [->|Hne].
  - rewrite (bool_decide_eq_true_2 (i ∈ i :: l)) by left. by destruct (bool_decide _).
  - replace (bool_decide (i ∈ j :: l)) with (bool_decide (i ∈ l)); [done|]. apply bool_decide_ext. set_solver.
Qed.

(** How an execution ends, when [k] of the [n] devices were executed. *)
Record stopped (draft : rolloutDraft) (results : list RenderResult) (s s' : E * world) (k : nat) (status : string)
    (sr : list fleetSyncResult) : Prop := {
  st_count : (1 ≤ k ≤ List.length results)%nat;
  (** the environment saw the first [k] devices and nothing else *)
  st_run : ∃ sr', executeBatch draft results (seq 0 k) (replicate (List.length results) zero_sync_result) s = (sr', s') ∧
             ∀ i, (i < k)%nat → nth i sr zero_sync_result = nth i sr' zero_sync_result;
  (** all before the last one succeeded *)
  st_before : ∀ i, (S i < k)%nat → rolloutResultSuccess (fr_Status (nth i sr zero_sync_result)) = true;
  st_end :
    let last := fr_Status (nth (pred k) sr zero_sync_result) in
    if rolloutResultSuccess last then k = List.length results ∧ status = "completed"
    else status = (if last =? "STALE" then "STALE" else if (k =? 1)%nat then "canary_failed" else "aborted") ∧
         ∀ i, (k ≤ i < List.length results)%nat → fr_Status (nth i sr zero_sync_result) = "ABORTED"
}.

Lemma run_phases_stopped draft results s0 m k sr s status sr' s' :
  let n := List.length results in
  (1 ≤ k)%nat → (k + m = n)%nat → executed n k sr →
  executeBatch draft results (seq 0 k) (replicate n zero_sync_result) s0 = (sr, s) →
  (∀ i, (i < k)%nat → rolloutResultSuccess (fr_Status (nth i sr zero_sync_result)) = true) →
  run_phases draft results (seq 1 (pred n)) (map (λ i, [i]) (seq k m)) sr s = ((status, sr'), s') →
  ∃ k', stopped draft results s0 s' k' status sr'.
Proof.
  intros n. revert k sr s. induction m as [|m IH]; intros k sr s Hk Hn Hex Hrun Hok H; cbn [seq map run_phases] in H.
  { injection H as <- <- <-. exists k. split; [lia|by exists sr|intros; apply Hok; lia|].
    cbn zeta. rewrite Hok by lia. split; [unfold n in *; lia | done]. }
  unfold hbind in H. destruct (executeBatch draft results [k] sr s) as [sr1 s1] eqn:Eb.
  destruct (batch_executed _ _ n k _ _ _ _ ltac:(lia) Hex Eb) as (Hex1 & _ & Hsame).
  assert (executeBatch draft results (seq 0 (S k)) (replicate n zero_sync_result) s0 = (sr1, s1)) as Hrun1.
  { rewrite seq_S, batch_app, Hrun. exact Eb. }
  change (status_at sr1 [k]) with (fr_Status (nth k sr1 zero_sync_result)) in H.
  destruct (rolloutResultSuccess (fr_Status (nth k sr1 zero_sync_result))) eqn:Es.
  - apply (IH (S k) sr1 s1); [lia|lia|done|done| |exact H].
    intros i Hi. destruct (decide (i = k)) as [->|]; [done|]. rewrite Hsame by lia. apply Hok. lia.
  - injection H as <- <- <-. exists (S k).
    assert (Forall (λ j, j < List.length sr1)%nat (seq 1 (pred n))) as Hall.
    { apply Forall_forall. intros j Hj%elem_of_seq. rewrite (ex_length _ _ _ Hex1). lia. }
    assert (∀ i, (i < S k)%nat → nth i (abort_unstarted results "previous device failed; rollout not started"
      (seq 1 (pred n)) sr1) zero_sync_result = nth i sr1 zero_sync_result) as Hkeep.
    { intros i Hi. rewrite abort_unstarted_nth by done. pose proof (ex_run _ _ _ Hex1 i Hi) as Hst.
      destruct (String.eqb_spec (fr_Status (nth i sr1 zero_sync_result)) "") as [He|]; [|by rewrite andb_false_r].
      rewrite He in Hst. rewrite !elem_of_cons, elem_of_nil in Hst. naive_solver. }
    split.
    + lia.
    + exists sr1. split; [done | exact Hkeep].
    + intros i Hi. rewrite Hkeep by lia. rewrite Hsame by lia. apply Hok. lia.
    + cbn [pred]. rewrite Hkeep by lia. cbn zeta. rewrite Es. split.
      { unfold stop_status. destruct (_ =? "STALE"); [done|]. by destruct k; [lia|]. }
      intros i Hi. rewrite abort_unstarted_nth by done. rewrite (ex_rest _ _ _ Hex1) by lia.
      rewrite bool_decide_eq_true_2 by (apply elem_of_seq; unfold n in *; lia). done.
Qed.

Lemma concat_singletons l : concat (map (λ i : nat, [i]) l) = l.
Proof. induction l as [|i l IH]; [done|]. cbn. by rewrite IH. Qed.

Lemma execute_stopped draft results s status sr s' :
  results ≠ [] → execute_rollout draft results s = ((status, sr), s') → ∃ k, stopped draft results s s' k status sr.
Proof.
  intros Hne H. unfold execute_rollout, rollout_phases, fleetSyncSequential, orderedFleetRolloutPhases in H.
  set (n := List.length results) in *. assert (n ≠ 0)%nat as Hn by (unfold n; by destruct results).
  destruct n as [|m] eqn:En; [done|]. cbn [seq map hd tl] in H. unfold hbind in H.
  rewrite concat_singletons in H.
  destruct (executeBatch draft results [0] _ s) as [sr1 s1] eqn:Eb.
  assert (executed (S m) 0 (replicate (S m) zero_sync_result)) as Hex0.
  { split; [by rewrite length_replicate | lia|]. intros i _. rewrite nth_lookup.
    destruct (replicate (S m) zero_sync_result !! i) eqn:E2; [by apply lookup_replicate in E2 as [-> _] | done]. }
  destruct (batch_executed _ _ (S m) 0 _ _ _ _ ltac:(lia) Hex0 Eb) as (Hex1 & _ & _).
  change (status_at sr1 [0]) with (fr_Status (nth 0 sr1 zero_sync_result)) in H.
  destruct (rolloutResultSuccess (fr_Status (nth 0 sr1 zero_sync_result))) eqn:Es.
  - eapply (run_phases_stopped draft results s m 1 sr1 s1 status sr s'); fold n; rewrite ?En; [lia|lia|done|exact Eb| |exact H].
    intros i Hi. assert (i = 0)%nat as -> by lia. done.
  - injection H as <- <- <-. exists 1%nat.
    assert (Forall (λ j, j < List.length sr1)%nat (seq 1 m)) as Hall.
    { apply Forall_forall. intros j Hj%elem_of_seq. rewrite (ex_length _ _ _ Hex1). lia. }
    assert (∀ i, (i < 1)%nat → nth i (abort_all results "canary failed; rollout not started" (seq 1 m) sr1) zero_sync_result =
      nth i sr1 zero_sync_result) as Hkeep.
    { intros i Hi. rewrite abort_all_nth by done. rewrite bool_decide_eq_false_2; [done|]. rewrite elem_of_seq. lia. }
    split.
    + fold n. lia.
    + exists sr1. fold n. rewrite En. split; [exact Eb | exact Hkeep].
    + lia.
    + cbn [pred]. rewrite Hkeep by lia. cbn zeta. rewrite Es. split; [done|]. fold n. rewrite En.
      intros i Hi. rewrite abort_all_nth by done. rewrite bool_decide_eq_true_2 by (apply elem_of_seq; lia). done.
Qed.
End execution.

(** ** A concrete environment *)

(** The time, and the answers of the sessions to come; without one, a session
    fails. *)
Definition scripted : Type := Z * list (string * option ssh_error).
Definition next_answer (e : scripted) : (string * option ssh_error) * scripted :=
  match e.2 with
  | a :: rest => (a, ((e.1 + 10)%Z, rest))
  | [] => (("", Some (SessionError "connection refused")), e)
  end.
Lemma next_answer_time e : (e.1 ≤ (next_answer e).2.1)%Z.
Proof. unfold next_answer. destruct e.2; cbn; lia. Qed.
#[export] Instance scripted_environment : Environment scripted := {|
  clock := fst;
  run_command _ _ := next_answer;
  run_script _ _ := next_answer;
  create_backup _ e := (None, e);
  uuid_parse := uuid_in;
  command_time _ _ := next_answer_time;
  script_time _ _ := next_answer_time;
  backup_time _ e := Z.le_refl _
|}.

(** Three devices of a draft with one namespace each. *)
Definition script_device (id : string) : rolloutDraftDevice :=
  DraftDevice id id "AP" (Some [Cmd "set" "dhcp" "lan" "start" "100"]) (Some ["uci set dhcp.lan.start='100'"])
    (Some {["dhcp" := "apply dhcp"]}) (Some {["dhcp" := observedStateHash "dhcp.lan=dhcp"]}).
Definition script_draft : rolloutDraft :=
  Draft site_id "" "" (Some ["1.1.1.1"]) (Some (map script_device ["ap-0"; "ap-1"; "ap-2"])).
Definition script_results : list RenderResult := rolloutResultsFromDraft script_draft.

(** ** Properties *)


Definition sync_request : request := Request site_id rollout_id None "admin" "10.0.0.1" schema_name.

(** C11: the scripts of a draft run device by device, and the first device that fails
    stops the rollout: the environment has seen the devices up to it and no other,
    all before it succeeded, the rest are ABORTED, and the rollout is STALE,
    canary_failed or aborted; without a failure it is completed. *)
Theorem execution_stops {E} {environment : Environment E} (draft : rolloutDraft) (results : list RenderResult)
    (s s' : E * world) (status : string) (sr : list fleetSyncResult) :
  results ≠ [] → execute_rollout draft results s = ((status, sr), s') → ∃ k, stopped draft results s s' k status sr.
Proof. apply execute_stopped. Qed.

Lemma execution_stops_witness :
  let s : scripted * world := ((0%Z, [("ok", None); ("uci: failed", Some (ExitStatus 1 "exit status 1")); ("ok", None)]), World start []) in
  let run := execute_rollout script_draft script_results s in
  run.1.1 = "aborted" ∧ map fr_Status run.1.2 = ["SUCCESS"; "FAILED"; "ABORTED"] ∧
  ∃ k, stopped script_draft script_results s run.2 k "aborted" run.1.2.
Proof.
  intros s run. split; [vm_compute; reflexivity|]. split; [vm_compute; reflexivity|].
  apply execution_stops; [discriminate|]. vm_compute. reflexivity.
Defined.

(** *** Persistence *)

Lemma update_device_status_inv now siteID deviceID status p w w' :
  update_device_status now siteID deviceID status p w = (Ok 1%nat, w') →
  ∃ site d, uuid_in siteID = Some site ∧ devices (tn w) !! deviceID = Some d ∧ d_site_id d = Some site ∧ p d = true ∧
    tn w' = set_devices <[deviceID := set_rollout_status status now d]> (tn w).
Proof.
  intros H. apply statement_inv in H as [(a & t & Ha & Hf & ->)|(e & [=] & _)]. injection Ha as <-. unfold uuid_param in Hf.
  destruct (uuid_in siteID) as [site|]; [|done]. cbn [res_bind] in Hf.
  destruct (devices (tn w) !! deviceID) as [d|] eqn:Ed; [|done].
  destruct (_ && _) eqn:Ep; [|done]. injection Hf as <-. apply andb_true_iff in Ep as [Es Ep].
  exists site, d. split; [done|]. split; [done|]. split; [by apply bool_decide_eq_true in Es|]. done.
Qed.

Lemma persisted_not_running status : persisted_status status ≠ "RUNNING".
Proof. unfold persisted_status. repeat case_match; done. Qed.

(** The devices of the results leave RUNNING, each with its own status. *)
Lemma persist_devices_spec now siteID results w w' :
  persist_devices now siteID results w = (Ok tt, w') →
  rollout_runs (tn w') = rollout_runs (tn w) ∧
  (∀ id d, devices (tn w) !! id = Some d → d_rollout_status d ≠ Some "RUNNING" → devices (tn w') !! id = Some d) ∧
  ∀ sr, sr ∈ results → ∃ d, devices (tn w') !! fr_DeviceID sr = Some d ∧ d_rollout_status d = Some (persisted_status (fr_Status sr)).
Proof.
  revert w. induction results as [|r results IH]; intros w H; cbn [persist_devices] in H.
  { m_end H. split; [done|]. split; [done|]. by intros sr ?%elem_of_nil. }
  m_bind H as n w1 Hu. m_bind H as u w2 Ho. assert (n = 1%nat) as -> by by destruct (Nat.eqb_spec n 1).
  apply update_device_status_inv in Hu as (site & d & _ & Hd & _ & Hrun & Hw1). apply bool_decide_eq_true in Hrun.
  destruct (IH _ H) as (Hr & Hkeep & Hall). split; [by rewrite Hr, Hw1|]. split.
  - intros id d2 Hd2 Hn. apply Hkeep; [|done]. rewrite Hw1. cbn. rewrite lookup_insert_ne; [done|]. intros <-. congruence.
  - intros sr [->|Hin]%elem_of_cons; [|by apply Hall].
    exists (set_rollout_status (persisted_status (fr_Status r)) now d). split; [|done].
    apply Hkeep; [rewrite Hw1; cbn; apply lookup_insert_eq|]. cbn. intros [= He]. by apply persisted_not_running in He.
Qed.

(** The results of an executed rollout are persisted atomically: it fails and
    changes nothing, or the rollout, still held by the claim, gets its final status
    without a token, and every device of the results leaves RUNNING with its own
    outcome. *)
Theorem persist_results_spec (now : Z) (siteID rolloutID token status : string) (results : list fleetSyncResult)
    (w w' : world) (r : res unit) :
  persistRolloutResults now siteID rolloutID token status results w = (r, w') →
  match r with
  | Err _ => tn w' = tn w
  | Ok _ => ∃ id row row',
      uuid_in rolloutID = Some id ∧ rollout_runs (tn w) !! id = Some row ∧ held_by token row = true ∧
      rollout_runs (tn w') !! id = Some row' ∧ same_plan row row' ∧ r_status row' = status ∧ r_claim_token row' = None ∧
      ∀ sr, sr ∈ results →
        ∃ d, devices (tn w') !! fr_DeviceID sr = Some d ∧ d_rollout_status d = Some (persisted_status (fr_Status sr))
  end.
Proof.
  unfold persistRolloutResults. intros H.
  apply transaction_inv in H as [(e & -> & ->)|(a & w2 & -> & H & ->)]; [done|].
  m_bind H as u w3 Ha. apply assertRolloutClaim_inv in Ha. cbn in Ha.
  m_bind H as u2 w4 Hp. destruct u2. apply persist_devices_spec in Hp as (Hruns & _ & Hall).
  m_bind H as n w5 Hc. unfold one_row, fail_if in H. destruct (Nat.eqb_spec n 1) as [->|]; cbn in H; m_end H.
  apply close_rollout_inv in Hc as [[_ ?]|(id & row & doc & _ & Hrow & Hh & Hid & Ht)]; [done|].
  rewrite Hruns, Ha in Hrow. exists id, row, (set_results status None doc now row). do 3 (split; [done|]).
  rewrite Ht. split; [cbn; apply lookup_insert_eq|]. split; [unfold same_plan; cbn; repeat split; lia|].
  do 2 (split; [done|]). exact Hall.
Qed.

Definition marked : world :=
  (markRolloutDevicesRunning 1600 site_id rollout_id claim_token [script_device "ap-1"] (World claimed [])).2.
Definition one_success : list fleetSyncResult := [set_result (Rendered "ap-1" "ap-1" "AP" []) "SUCCESS" "done" ""].
Lemma persist_results_spec_witness :
  let w' := (persistRolloutResults 1700 site_id rollout_id claim_token "completed" one_success marked).2 in
  ∃ d row, devices (tn w') !! "ap-1" = Some d ∧ d_rollout_status d = Some "SUCCESS" ∧ r_status row = "completed" ∧
    r_claim_token row = None.
Proof.
  intros w'.
  destruct (persist_results_spec 1700 site_id rollout_id claim_token "completed" one_success marked w' (Ok tt))
    as (id & row & row' & _ & _ & _ & _ & _ & Hst & Htok & Hall).
  - vm_compute. reflexivity.
  - destruct (Hall (hd zero_sync_result one_success)) as (d & Hd & Hds); [left|].
    exists d, row'. split; [exact Hd|]. split; [exact Hds|]. split; [exact Hst | exact Htok].
Defined.
