(* ===== verification/PlanSpec.v ===== *)
(** What a rollout draft promises: the phases cover the devices, the draft that is
    read back is the one that was previewed, and its change sets are the ones the
    rollout worker queues later. *)

From S2P Require Import Prelude GoStrings Sha256 Json Uci UciShell DeviceOperation DeviceOperationFacts Store DeviceOperations.
From S2P Require Import ChangeSets ChangeSetFacts Rollouts RolloutPlan Worker Generations QueueFacts Protocol Refinement.
From S2P Require Import Scenario WorkerSpec.

(** ** Phases *)

Lemma fleet_batches_concat fuel start n :
  (n - start ≤ fuel)%nat → concat (fleet_batches fuel start n) = seq start (n - start).
Proof.
  revert start. induction fuel as [|fuel IH]; intros start Hf; cbn [fleet_batches].
  { by replace (n - start)%nat with 0%nat by lia. }
  destruct (Nat.ltb_spec start n) as [Hlt|Hge]; [|by replace (n - start)%nat with 0%nat by lia].
  cbn [concat]. rewrite IH by (unfold fleetSyncMaxConcurrency; lia). unfold fleetSyncMaxConcurrency.
  destruct (decide (start + 4 ≤ n)%nat).
  - rewrite Nat.min_l by lia. replace (n - start)%nat with (4 + (n - (start + 4)))%nat by lia.
    rewrite seq_app. by replace (start + 4 - start)%nat with 4%nat by lia.
  - rewrite Nat.min_r by lia. replace (n - (start + 4))%nat with 0%nat by lia. apply app_nil_r.
Qed.
Lemma fleet_batches_size fuel start n :
  Forall (λ p, 1 ≤ List.length p ≤ fleetSyncMaxConcurrency)%nat (fleet_batches fuel start n).
Proof.
  revert start. induction fuel as [|fuel IH]; intros start; cbn [fleet_batches]; [constructor|].
  destruct (Nat.ltb_spec start n) as [Hlt|Hge]; [|constructor]. constructor; [|apply IH].
  rewrite length_seq. unfold fleetSyncMaxConcurrency. lia.
Qed.

Lemma rendered_less_trans a b c : rendered_less b a = false → rendered_less c b = false → rendered_less c a = false.
Proof.
  unfold rendered_less. intros H1 H2.
  destruct (rr_Role a =? "Gateway"), (rr_Role b =? "Gateway"), (rr_Role c =? "Gateway"); cbn in *; try done;
    by eapply str_less_trans.
Qed.
Lemma rendered_less_asym a b : rendered_less a b = true → rendered_less b a = false.
Proof.
  unfold rendered_less. intros H.
  destruct (rr_Role a =? "Gateway"), (rr_Role b =? "Gateway"); cbn in *; try done; by apply str_less_asym.
Qed.
Lemma concat_singleton_map l : concat (map (λ i : nat, [i]) l) = l.
Proof. induction l as [|i l IH]; [done|]. cbn. by rewrite IH. Qed.

(** Every way to cut a fleet into phases visits each device exactly once: the
    batched phases are a canary and then at most four devices at a time, the
    ordered ones single devices, and the phases of a draft put the gateways last
    and sort the others by their ids. *)
Theorem phases_cover (results : list RenderResult) :
  let n := List.length results in
  concat (fleetRolloutPhases n) = seq 0 n ∧
  Forall (λ p, 1 ≤ List.length p ≤ fleetSyncMaxConcurrency)%nat (fleetRolloutPhases n) ∧
  (results ≠ [] → hd [] (fleetRolloutPhases n) = [0]) ∧
  concat (orderedFleetRolloutPhases n) = seq 0 n ∧
  concat (sequentialFleetRolloutPhases results) ≡ₚ seq 0 n ∧
  ∀ i j a b, concat (sequentialFleetRolloutPhases results) !! i = Some a →
    concat (sequentialFleetRolloutPhases results) !! j = Some b → (i < j)%nat →
    let ra := nth a results zero_rendered in let rb := nth b results zero_rendered in
    (rr_Role ra = "Gateway" → rr_Role rb = "Gateway") ∧
    ((rr_Role ra =? "Gateway") = (rr_Role rb =? "Gateway") → str_less (rr_DeviceID rb) (rr_DeviceID ra) = false).
Proof.
  intros n. split; [|split; [|split; [|split; [|split]]]].
  - unfold fleetRolloutPhases. destruct n as [|m] eqn:En; [done|]. cbn [concat]. rewrite fleet_batches_concat by lia.
    by replace (S m - 1)%nat with m by lia.
  - unfold fleetRolloutPhases. destruct n; [constructor|]. constructor; [cbn; unfold fleetSyncMaxConcurrency; lia|].
    apply fleet_batches_size.
  - intros Hne. unfold n. by destruct results.
  - apply concat_singleton_map.
  - unfold sequentialFleetRolloutPhases. rewrite concat_singleton_map. apply stable_sort_perm.
  - unfold sequentialFleetRolloutPhases. rewrite concat_singleton_map. intros i j a b Ha Hb Hlt.
    set (ra := nth a results zero_rendered). set (rb := nth b results zero_rendered).
    pose proof (stable_sort_sorted (index_less results) (λ a b c, rendered_less_trans _ _ _)
      (λ a b, rendered_less_asym _ _) (seq 0 n)) as Hs.
    pose proof (sorted_lookup _ _ _ _ _ _ Hs Ha Hb Hlt) as H. cbn in H. unfold index_less, rendered_less in H.
    fold ra rb in H. destruct (String.eqb_spec (rr_Role ra) "Gateway"), (String.eqb_spec (rr_Role rb) "Gateway"); done.
Qed.

Lemma phases_cover_witness :
  let results := [Rendered "gw" "gw" "Gateway" []; Rendered "ap-2" "b" "AP" []; Rendered "ap-1" "a" "AP" []] in
  hd [] (fleetRolloutPhases (List.length results)) = [0] ∧
  concat (sequentialFleetRolloutPhases results) = [2; 1; 0].
Proof.
  intros results. split; [|vm_compute; reflexivity].
  destruct (phases_cover results) as (_ & _ & H & _). apply H. discriminate.
Defined.

(** ** Maps in jsonb *)

Lemma insert_member_fresh (kv : string * json) l :
  kv.1 ∉ map fst l → insert_member kv l ≡ₚ kv :: l.
Proof.
  induction l as [|kv' l IH]; [done|]. cbn [map insert_member]. intros Hn.
  destruct (String.eqb_spec kv'.1 kv.1) as [He|]; [by destruct Hn; rewrite He; left|].
  destruct (key_less _ _); [|done]. rewrite IH by (intros ?; apply Hn; by right). apply Permutation_swap.
Qed.
Lemma jsonb_members_perm (l acc : list (string * json)) :
  NoDup (map fst l) → (∀ k, k ∈ map fst l → k ∉ map fst acc) →
  fold_left (λ acc kv, insert_member (kv.1, jsonb_of kv.2) acc) l acc ≡ₚ map (λ kv, (kv.1, jsonb_of kv.2)) l ++ acc.
Proof.
  revert acc. induction l as [|[k j] l IH]; intros acc Hnd Hacc; [done|]. cbn [map] in *. apply NoDup_cons in Hnd as [Hk Hnd].
  cbn [fold_left fst snd].
  pose proof (insert_member_fresh (k, jsonb_of j) acc (Hacc k ltac:(left))) as Hp.
  rewrite IH; [|done|].
  - rewrite Hp. cbn. symmetry. apply Permutation_middle.
  - intros k' Hk' Hin. assert (k' ∈ map fst ((k, jsonb_of j) :: acc)) as Hin2.
    { apply list_elem_of_fmap in Hin as (kv & -> & Hin). apply list_elem_of_fmap. exists kv. split; [done|]. by rewrite <- Hp. }
    apply elem_of_cons in Hin2 as [->|Hin2]; [done|]. by apply (Hacc k'); [right|].
Qed.

Lemma dec_map_entries_strings (l : list (string * string)) old :
  NoDup (map fst l) →
  dec_map_entries (map (λ kv, (kv.1, JStr kv.2)) l) old = Some (list_to_map l ∪ old : gmap string string).
Proof.
  revert old. induction l as [|[k v] l IH]; intros old Hnd; cbn [map dec_map_entries fst snd].
  { by rewrite list_to_map_nil, (left_id_L ∅ union). }
  apply NoDup_cons in Hnd as [Hk Hnd]. change (dec_string (JStr v) "") with (Some v). cbn [mbind option_bind].
  rewrite IH by done. f_equal. rewrite list_to_map_cons, <- insert_union_l, insert_union_r; [done|].
  by apply not_elem_of_list_to_map_1.
Qed.
Lemma dec_worker_map_entries (l : list (string * json)) old : dec_map_members l old = dec_map_entries l old.
Proof. revert old. induction l as [|[k j] l IH]; intros old; [done|]. cbn. destruct (dec_string j ""); [apply IH | done]. Qed.

Definition sorted_entries (m : gmap string string) : list (string * string) :=
  stable_sort (λ a b, str_less a.1 b.1) (map_to_list m).
Lemma sorted_entries_keys m : NoDup (map fst (sorted_entries m)).
Proof.
  unfold sorted_entries. rewrite (stable_sort_perm _ (map_to_list m)). apply NoDup_fst_map_to_list.
Qed.
Lemma permuted_strings (l : list (string * string)) lj :
  lj ≡ₚ map (λ kv, (kv.1, JStr kv.2)) l → ∃ l', l' ≡ₚ l ∧ lj = map (λ kv, (kv.1, JStr kv.2)) l'.
Proof.
  intros Hp. apply Permutation_map_inv in Hp as (l' & -> & Hp). exists l'. split; [by symmetry | done].
Qed.

(** A map that was stored as [jsonb] is read back. *)
Lemma stored_map (m : gmap string string) :
  ∃ lj, jsonb_of (map_json (Some m)) = JObj lj ∧ dec_map_entries lj ∅ = Some m.
Proof.
  unfold map_json. fold (sorted_entries m).
  exists (fold_left (λ acc kv, insert_member (kv.1, jsonb_of kv.2) acc) (map (λ kv, (kv.1, JStr kv.2)) (sorted_entries m)) []).
  split; [reflexivity|].
  pose proof (jsonb_members_perm (map (λ kv, (kv.1, JStr kv.2)) (sorted_entries m)) []) as Hp.
  rewrite map_map in Hp. specialize (Hp (sorted_entries_keys m)). rewrite app_nil_r, map_map in Hp. cbn [fst snd jsonb_of] in Hp.
  destruct (permuted_strings (sorted_entries m) _ (Hp ltac:(by intros k _ ?%elem_of_nil))) as (l' & Hl & ->).
  assert (NoDup (map fst l')) as Hnd by (rewrite Hl; apply sorted_entries_keys).
  rewrite dec_map_entries_strings by done. rewrite (right_id_L ∅ union). f_equal.
  rewrite (list_to_map_proper l' (map_to_list m) Hnd); [apply list_to_map_to_list|].
  rewrite Hl. apply stable_sort_perm.
Qed.
Lemma dec_stored_map m : dec_map (jsonb_of (map_json m)) None = Some m.
Proof.
  destruct m as [m|]; [|done]. destruct (stored_map m) as (lj & -> & Hd). unfold dec_map. cbn [default]. 
  change (default ∅ None) with (∅ : gmap string string). by rewrite Hd.
Qed.
Lemma dec_stored_worker_map m : dec_string_map (jsonb_of (map_json m)) ∅ = Some (default ∅ m).
Proof.
  destruct m as [m|]; [|done]. destruct (stored_map m) as (lj & -> & Hd). unfold dec_string_map.
  by rewrite dec_worker_map_entries, Hd.
Qed.

(** ** Decoding a stored draft *)

Lemma dec_members_hit {A} (fields : list (string * decoder A)) k j l old n d new :
  List.find (λ f, equal_fold k f.1) fields = Some (n, d) → d j old = Some new →
  dec_members fields ((k, j) :: l) old = dec_members fields l new.
Proof. intros Hf Hd. cbn [dec_members]. rewrite Hf, Hd. done. Qed.
(** One member of a document with known keys. *)
Ltac member tac :=
  erewrite dec_members_hit; [|reflexivity|cbv beta iota; tac; reflexivity].

Lemma dec_stored_strings s : dec_slice dec_string "" (jsonb_of (slice_json s)) None = Some s.
Proof.
  destruct s as [l|]; [|done]. cbn [slice_json jsonb_of]. rewrite map_map. unfold dec_slice.
  change (default [] None) with (@nil string). by rewrite dec_strings.
Qed.
Lemma dec_stored_commands c : dec_slice dec_command zero_command (jsonb_of (commands_json c)) None = Some c.
Proof.
  destruct c as [l|]; [|done]. cbn [commands_json jsonb_of]. rewrite map_map. unfold dec_slice.
  change (default [] None) with (@nil UciCommand).
  rewrite (dec_elements_map dec_command zero_command (λ c, jsonb_of (command_json c)) id).
  - by rewrite map_id.
  - intros c _. exact (proj2 (dec_command_doc c)).
Qed.

Lemma stored_device d :
  jsonb_of (draft_device_json d) =
  JObj [("role", JStr (dd_Role d)); ("scripts", jsonb_of (map_json (dd_Scripts d)));
        ("commands", jsonb_of (commands_json (dd_Commands d))); ("hostname", JStr (dd_Hostname d));
        ("device_id", JStr (dd_DeviceID d)); ("observed_state", jsonb_of (map_json (dd_ObservedState d)));
        ("preview_commands", jsonb_of (slice_json (dd_PreviewCommands d)))].
Proof. reflexivity. Qed.

Lemma dec_stored_device d : dec_draft_device (jsonb_of (draft_device_json d)) zero_draft_device = Some d.
Proof.
  rewrite stored_device. unfold dec_draft_device, dec_struct, zero_draft_device.
  member ltac:(idtac). member ltac:(rewrite dec_stored_map). member ltac:(rewrite dec_stored_commands).
  member ltac:(idtac). member ltac:(idtac). member ltac:(rewrite dec_stored_map). member ltac:(rewrite dec_stored_strings).
  by destruct d.
Qed.

(** What the worker reads of a device and of a draft. *)
Definition worker_device (d : rolloutDraftDevice) : rolloutDevice :=
  WorkerDevice (dd_DeviceID d) (dd_Hostname d) (dd_Role d) (dd_Commands d) (default ∅ (dd_ObservedState d)).
Definition worker_plan (d : rolloutDraft) : rolloutPlan :=
  WorkerPlan (dr_HealthChecks d) (dr_Namespace d) (map worker_device <$> dr_Devices d).

Lemma dec_members_miss {A} (fields : list (string * decoder A)) k j l old :
  List.find (λ f, equal_fold k f.1) fields = None → dec_members fields ((k, j) :: l) old = dec_members fields l old.
Proof. intros Hf. cbn [dec_members]. by rewrite Hf. Qed.
Ltac no_member := rewrite dec_members_miss by reflexivity.

Lemma dec_stored_worker_device d : dec_device (jsonb_of (draft_device_json d)) zero_device = Some (worker_device d).
Proof.
  rewrite stored_device. unfold dec_device, dec_struct, zero_device.
  member ltac:(idtac). no_member. member ltac:(rewrite dec_stored_commands).
  member ltac:(idtac). member ltac:(idtac). member ltac:(rewrite dec_stored_worker_map). no_member. done.
Qed.

Definition devices_json (ds : option (list rolloutDraftDevice)) : json :=
  match ds with None => JNull | Some l => JArr (map draft_device_json l) end.
Lemma dec_stored_devices ds :
  dec_slice dec_draft_device zero_draft_device (jsonb_of (devices_json ds)) None = Some ds ∧
  dec_slice dec_device zero_device (jsonb_of (devices_json ds)) None = Some (map worker_device <$> ds).
Proof.
  destruct ds as [l|]; [|done]. cbn [devices_json jsonb_of]. rewrite map_map. unfold dec_slice.
  split.
  - change (default [] None) with (@nil rolloutDraftDevice).
    rewrite (dec_elements_map dec_draft_device zero_draft_device (λ d, jsonb_of (draft_device_json d)) id).
    + by rewrite map_id.
    + intros d _. apply dec_stored_device.
  - change (default [] None) with (@nil rolloutDevice).
    rewrite (dec_elements_map dec_device zero_device (λ d, jsonb_of (draft_device_json d)) worker_device); [done|].
    intros d _. apply dec_stored_worker_device.
Qed.

(** The members of a stored draft: the two optional texts may be missing. *)
Lemma stored_draft d :
  jsonb_of (draft_json d) =
  JObj (([("devices", jsonb_of (devices_json (dr_Devices d))); ("site_id", JStr (dr_SiteID d))] ++
         omit_text "namespace" (dr_Namespace d) ++
         [("health_checks", jsonb_of (slice_json (dr_HealthChecks d)))] ++
         omit_text "target_device_id" (dr_TargetDeviceID d))%list).
Proof.
  unfold draft_json, omit_text. fold (devices_json (dr_Devices d)).
  destruct (dr_Namespace d =? ""), (dr_TargetDeviceID d =? ""); reflexivity.
Qed.

Lemma dec_stored_draft d :
  unmarshal dec_draft zero_draft (Some (jsonb_of (draft_json d))) = Some d ∧
  dec_plan (jsonb_of (draft_json d)) (WorkerPlan None "" None) = Some (worker_plan d).
Proof.
  rewrite stored_draft. unfold unmarshal, dec_draft, dec_plan, dec_struct, zero_draft, omit_text.
  change (mbind ?f (Some ?x)) with (f x). cbv beta iota.
  destruct (dec_stored_devices (dr_Devices d)) as [Hd Hw].
  destruct (String.eqb_spec (dr_Namespace d) "") as [Hn|Hn], (String.eqb_spec (dr_TargetDeviceID d) "") as [Ht|Ht];
    cbn [app]; (split;
    [member ltac:(rewrite Hd); member ltac:(idtac); try member ltac:(idtac); member ltac:(rewrite dec_stored_strings);
       try member ltac:(idtac); destruct d; cbn in *; subst; reflexivity
    |member ltac:(rewrite Hw); no_member; try member ltac:(idtac); member ltac:(rewrite dec_stored_strings);
       try no_member; unfold worker_plan; try rewrite Hn; reflexivity]).
Qed.

(** *** Through the database *)

Lemma char_length_hex s : str_forall is_hex s = true → char_length s = String.length s.
Proof.
  induction s as [|c s IH]; [done|]. cbn. intros [Hc Hs]%andb_true_iff. rewrite IH by done.
  by destruct c as [[] [] [] [] [] [] [] []].
Qed.
Lemma char64_hash msg : char64 (sha256_hex msg) = Ok (sha256_hex msg).
Proof.
  unfold char64. rewrite char_length_hex by apply sha256_hex_hex. rewrite sha256_hex_length. cbn. by rewrite str_app_nil.
Qed.

Definition namespace_ok (d : rolloutDraft) : bool :=
  (dr_Namespace d =? "") || is_ok (requestedChangeSetNamespaces (dr_Namespace d)).

(** The stored draft, as long as its row is as it was created. *)
Lemma created_draft_loads (draft : rolloutDraft) (now : Z) (new_id schema schema' siteID site user : string) (targets : raw_message)
    (w w' w2 w3 : world) (created loaded : RolloutDraftRecord) :
  json_coerce (draft_json draft) = draft_json draft → namespace_ok draft = true → uuid_in siteID = Some site →
  uuid_in new_id = Some new_id →
  CreateRolloutDraft now new_id schema siteID user (rolloutPlanHash draft) targets (Some (json_coerce (draft_json draft))) w
    = (Ok created, w') →
  rollout_runs (tn w2) !! new_id = rollout_runs (tn w') !! new_id → GetRolloutDraft schema' siteID new_id w2 = (Ok loaded, w3) →
  decodeRolloutDraft loaded =
    (if dr_SiteID draft =? site then Ok draft
     else Err (ErrText "rollout draft identity does not match its stored plan")) ∧
  dec_plan (rd_Plan loaded) (WorkerPlan None "" None) = Some (worker_plan draft).
Proof.
  intros Hu Hns Hsite Hid Hc Ht Hg. rewrite Hu in Hc.
  apply CreateRolloutDraft_inv in Hc as [[_ [e [=]]]|(site2 & hash & requested & tg & pl & Hs2 & _ & _ & _ & Hpl & Hhash & _ & Hw')].
  assert (site2 = site) as -> by congruence. cbn [mbind option_bind] in Hpl. apply jsonb_in_ok in Hpl as ->.
  assert (char64 (rolloutPlanHash draft) = Ok (rolloutPlanHash draft)) as Hh by apply char64_hash.
  rewrite Hh in Hhash. injection Hhash as <-. destruct (dec_stored_draft draft) as [Hd Hw].
  remember (jsonb_of (draft_json draft)) as stored eqn:Hstored. clear Hstored.
  remember (rolloutPlanHash draft) as planned eqn:Hp.
  unfold GetRolloutDraft in Hg. m_bind Hg as s w4 Hsch. m_bind Hg as found w5 Hf. apply query_inv in Hf as [_ Hf].
  specialize (Hf _ eq_refl). unfold find_rollout, uuid_param in Hf. rewrite Hid, Hsite in Hf.
  cbn in Hf. rewrite Ht, Hw' in Hf. cbn in Hf.
  rewrite lookup_insert_eq in Hf. cbn in Hf. unfold of_site in Hf. cbn in Hf. rewrite String.eqb_refl in Hf.
  injection Hf as <-. m_end Hg. cbn [record_of rd_Plan new_draft r_plan].
  split; [|exact Hw].
  unfold decodeRolloutDraft. cbn [rd_Plan rd_SiteID rd_PlanHash record_of new_draft r_plan r_site_id r_plan_hash].
  rewrite Hd, <- Hp, String.eqb_refl, orb_false_r.
  destruct (dr_SiteID draft =? site); [|done]. cbn [negb fail_if res_bind].
  unfold namespace_ok in Hns. destruct (dr_Namespace draft =? ""); [done|].
  by destruct (requestedChangeSetNamespaces (dr_Namespace draft)).
Qed.

(** C9: the draft an operator previewed is the draft that is applied: what
    [CreateRolloutDraft] stored is read back and decoded to the same draft, with
    the hash it was stored under, and the worker decodes the same devices,
    commands and states from it; except that a draft whose site was written in
    another form than the database's canonical one is refused. *)
Theorem draft_roundtrip (draft : rolloutDraft) (now : Z) (new_id schema siteID site user : string) (targets : raw_message)
    (w w' w2 w3 : world) (created loaded : RolloutDraftRecord) :
  json_coerce (draft_json draft) = draft_json draft → namespace_ok draft = true → uuid_in siteID = Some site →
  uuid_in new_id = Some new_id →
  CreateRolloutDraft now new_id schema siteID user (rolloutPlanHash draft) targets (Some (json_coerce (draft_json draft))) w
    = (Ok created, w') →
  tn w2 = tn w' → GetRolloutDraft schema siteID new_id w2 = (Ok loaded, w3) →
  decodeRolloutDraft loaded =
    (if dr_SiteID draft =? site then Ok draft
     else Err (ErrText "rollout draft identity does not match its stored plan")) ∧
  dec_plan (rd_Plan loaded) (WorkerPlan None "" None) = Some (worker_plan draft).
Proof. intros Hu Hns Hs Hid Hc Ht. eapply created_draft_loads; [done..|]. by rewrite Ht. Qed.

(** A draft of the scenario's device. *)
Definition dhcp_device (id : string) : rolloutDraftDevice :=
  DraftDevice id id "AP" (Some [Cmd "set" "dhcp" "lan" "start" "100"]) (Some ["uci set dhcp.lan.start='100'"])
    (Some {["dhcp" := "script"]}) (Some {["dhcp" := concat_strings (replicate 64 "a")]}).
Definition dhcp_draft : rolloutDraft :=
  Draft site_id "" "dhcp" (Some ["1.1.1.1"]) (Some [dhcp_device "ap-1"; dhcp_device "ap-2"]).
Lemma draft_roundtrip_witness :
  let create w := CreateRolloutDraft 1000 rollout_id schema_name site_id "admin" (rolloutPlanHash dhcp_draft)
    (Some (JArr [])) (Some (json_coerce (draft_json dhcp_draft))) w in
  ∃ loaded, (GetRolloutDraft schema_name site_id rollout_id (create (World start [])).2).1 = Ok loaded ∧
    decodeRolloutDraft loaded = Ok dhcp_draft.
Proof.
  intros create. destruct (create (World start [])) as [[created|e] w'] eqn:Hc; [|vm_compute in Hc; discriminate Hc].
  destruct (GetRolloutDraft schema_name site_id rollout_id w') as [[loaded|e] w3] eqn:Hg.
  - exists loaded. cbn [snd]. rewrite Hg. split; [reflexivity|].
    destruct (draft_roundtrip dhcp_draft 1000 rollout_id schema_name site_id site_id "admin" (Some (JArr []))
      (World start []) w' w' w3 created loaded) as [H _]; [vm_compute; reflexivity..|exact Hc|reflexivity|exact Hg|].
    exact H.
  - exfalso. assert (w' = (create (World start [])).2) as -> by (by rewrite Hc). vm_compute in Hg. discriminate Hg.
Defined.

(** ** Change sets of a draft *)

(** The commands of the operations, taken together. *)
Definition operation_commands (operations : list DeviceChangeOperation) : list UciCommand :=
  concat (map o_Commands operations).

Lemma commands_of_cons n c l :
  commands_of n (c :: l) = if decide (Config c = n) then c :: commands_of n l else commands_of n l.
Proof. unfold commands_of. by rewrite filter_cons. Qed.
Lemma commands_split_cons names c l :
  NoDup names → Config c ∈ names →
  concat (map (λ n, commands_of n (c :: l)) names) ≡ₚ c :: concat (map (λ n, commands_of n l) names).
Proof.
  intros Hnd Hc. induction names as [|n names IH]; [by apply elem_of_nil in Hc|]. apply NoDup_cons in Hnd as [Hn Hnd].
  cbn [map concat]. rewrite commands_of_cons. destruct (decide (Config c = n)) as [He|Hne].
  - cbn [app]. constructor. apply Permutation_app_head.
    assert (map (λ n0, commands_of n0 (c :: l)) names = map (λ n0, commands_of n0 l) names) as ->; [|done].
    apply map_ext_in. intros m Hm. rewrite commands_of_cons, decide_False; [done|].
    intros <-. apply Hn. rewrite <- He. by apply list_elem_of_In.
  - apply elem_of_cons in Hc as [?|Hc]; [done|]. rewrite (IH Hnd Hc). symmetry. apply Permutation_middle.
Qed.
Lemma commands_split names l :
  NoDup names → Forall (λ c, Config c ∈ names) l → concat (map (λ n, commands_of n l) names) ≡ₚ l.
Proof.
  intros Hnd. induction 1 as [|c l Hc Hall IH].
  { clear. induction names as [|n names IH]; [done|]. exact IH. }
  by rewrite commands_split_cons, IH.
Qed.

Lemma change_operations_spec names device ops :
  change_operations names device = Ok ops →
  operation_commands ops = concat (map (λ n, commands_of n (device_commands device)) names) ∧
  Forall (λ o, o_ObservedStateHash o = observed_hash device (o_Config o) ∧ o_ObservedStateHash o ≠ "" ∧
               o_Commands o = commands_of (o_Config o) (device_commands device)) ops.
Proof.
  revert ops. induction names as [|n names IH]; intros ops; cbn [change_operations]; [by intros [= <-]|].
  cbn [map concat]. destruct (commands_of n (device_commands device)) as [|c l] eqn:Ec; [intros H; by apply IH|].
  unfold fail_if. destruct (observed_hash device n =? "") eqn:Eo; [done|]. cbn [res_bind].
  destruct (change_operations names device) as [rest|]; [|done]. cbn. intros [= <-].
  destruct (IH _ eq_refl) as [Hc Hall]. split; [cbn; by rewrite <- Hc|].
  constructor; [|done]. bools. cbn. by rewrite Ec.
Qed.

(** The worker builds the same operations. *)
Lemma next_operations_same names device ops :
  change_operations names device = Ok ops → next_operations names (worker_device device) = Some ops.
Proof.
  revert ops. induction names as [|n names IH]; intros ops; cbn [change_operations next_operations]; [by intros [= <-]|].
  unfold commands_in. cbn [wd_Commands worker_device]. fold (device_commands device).
  fold (commands_of n (device_commands device)).
  destruct (commands_of n (device_commands device)) as [|c l]; [apply IH|].
  cbn [wd_ObservedState worker_device]. unfold observed_hash, fail_if.
  destruct (default ∅ (dd_ObservedState device) !! n) as [h|]; [|done].
  change (default "" (Some h)) with h. destruct (h =? ""); [done|]. cbn [res_bind].
  destruct (change_operations names device) as [rest|]; [|done]. cbn. intros [= <-].
  by rewrite (IH _ eq_refl).
Qed.

Lemma requested_namespaces_spec names s :
  requested_namespaces names = Ok s →
  ∀ n, n ∈ s ↔ n ∈ filter (λ n, n ∈ deviceChangeSetConfigs) (map trim_space names).
Proof.
  revert s. induction names as [|name names IH]; intros s; cbn [requested_namespaces map]; [intros [= <-]; set_solver|].
  unfold fail_if. destruct (_ || _) eqn:E; [done|]. cbn [res_bind].
  destruct (requested_namespaces names) as [rest|]; [|done]. cbn [res_bind]. intros [= <-] n. bools.
  rewrite filter_cons, decide_True by done. rewrite elem_of_union, elem_of_singleton, elem_of_cons, (IH _ eq_refl). done.
Qed.

Lemma rollout_ids_commands seed i ops : operation_commands (rollout_operation_ids seed i ops) = operation_commands ops.
Proof. revert i. induction ops as [|o ops IH]; intros i; [done|]. unfold operation_commands in *. cbn. by rewrite IH. Qed.
Lemma command_count ops : foldr Nat.add 0 (map (λ o, List.length (o_Commands o)) ops) = List.length (operation_commands ops).
Proof.
  unfold operation_commands. induction ops as [|o ops IH]; [done|]. cbn. by rewrite length_app, IH.
Qed.

(** C10: the change set of a device of a draft is well-formed, carries exactly the
    device's commands, each under the state that was observed for its namespace,
    and it is the very change set, identities and plan hash included, that the
    rollout worker builds from the stored plan when the device's turn comes. *)
Theorem change_set_of_draft (rolloutID : string) (draft : rolloutDraft) (device : rolloutDraftDevice) (cs : DeviceChangeSet) :
  buildDeviceChangeSet rolloutID draft device = Ok cs →
  change_set_ok cs ∧ cs_DeviceID cs = dd_DeviceID device ∧
  operation_commands (cs_Operations cs) ≡ₚ device_commands device ∧
  changeSetCommandCount cs = Z.of_nat (List.length (device_commands device)) ∧
  ∃ operations,
    Forall (λ o, o_ObservedStateHash o = observed_hash device (o_Config o) ∧ o_ObservedStateHash o ≠ "") operations ∧
    device_operations (worker_plan draft) (worker_device device) = Some operations ∧
    NewDeviceChangeSetForRolloutOperations rolloutID (wd_DeviceID (worker_device device)) operations
      (wp_HealthChecks (worker_plan draft)) ConfirmationLocalAuto = Ok cs.
Proof.
  unfold buildDeviceChangeSet. intros H.
  destruct (requestedChangeSetNamespaces (dr_Namespace draft)) as [ns|] eqn:En; [|done]. cbn [res_bind] in H.
  unfold fail_if in H. destruct (_ || _); [done|]. cbn [res_bind] in H.
  destruct (forallb _ (device_commands device)) eqn:Eall; [|done]. cbn [negb res_bind] in H.
  destruct (change_operations deviceChangeSetConfigs device) as [ops|] eqn:Eo; [|done]. cbn [res_bind] in H.
  destruct (NewDeviceChangeSetForRolloutOperations _ _ _ _ _) as [cs'|] eqn:Ec; [|done]. injection H as ->.
  pose proof Ec as Ec2. apply finish_change_set_ok in Ec2 as [Hcs Hok].
  pose proof (requested_namespaces_spec _ _ En) as Hns.
  assert (Forall (λ c, Config c ∈ ns) (device_commands device)) as Hin.
  { apply Forall_forall. intros c Hc. rewrite forallb_forall in Eall.
    specialize (Eall c ltac:(by apply list_elem_of_In)). by apply bool_decide_eq_true in Eall. }
  assert (Forall (λ c, Config c ∈ deviceChangeSetConfigs) (device_commands device)) as Hin2.
  { eapply Forall_impl; [exact Hin|]. intros c Hc. apply Hns, list_elem_of_filter in Hc. tauto. }
  destruct (change_operations_spec _ _ _ Eo) as [Hcmds Hhash].
  assert (operation_commands (cs_Operations cs) ≡ₚ device_commands device) as Hperm.
  { rewrite Hcs. cbn [cs_Operations with_plan_hash]. rewrite rollout_ids_commands, Hcmds. apply commands_split; [|done].
    apply (bool_decide_unpack _). vm_compute. done. }
  split; [done|]. split; [by rewrite Hcs|]. split; [done|]. split.
  { unfold changeSetCommandCount. by rewrite command_count, Hperm. }
  exists ops. split; [eapply Forall_impl; [exact Hhash|]; intros o (Ho1 & Ho2 & _); by split|]. split; [|exact Ec].
  unfold device_operations. rewrite (next_operations_same _ _ _ Eo).
  assert (forallb (λ c, bool_decide (Config c ∈ plan_namespaces (worker_plan draft)))
            (default [] (wd_Commands (worker_device device))) = true) as ->; [|done].
  change (default [] (wd_Commands (worker_device device))) with (device_commands device).
  apply forallb_forall. intros c Hc. apply bool_decide_eq_true_2. apply Hns.
  rewrite Forall_forall in Hin. apply Hin. by apply list_elem_of_In.
Qed.

Lemma change_set_of_draft_witness :
  ∃ cs, buildDeviceChangeSet rollout_id dhcp_draft (dhcp_device "ap-1") = Ok cs ∧ change_set_ok cs.
Proof.
  destruct (buildDeviceChangeSet rollout_id dhcp_draft (dhcp_device "ap-1")) as [cs|e] eqn:E; [|vm_compute in E; discriminate E].
  exists cs. split; [reflexivity|]. destruct (change_set_of_draft rollout_id dhcp_draft (dhcp_device "ap-1") cs E) as [H _]. exact H.
Defined.
