(* ===== verification/PreviewSpec.v ===== *)
(** What a preview promises: it stores a draft or leaves the tables as they are, the
    draft it answers with is the one that is applied, every command of it is one
    the translator accepts, and which templates can never be previewed. *)

From S2P Require Import Prelude GoStrings Sha256 Json Uci UciShell DeviceOperation Store DeviceOperations ChangeSets.
From S2P Require Import Rollouts UciState UciStateSpec PlanFilter RolloutPlan Renderer RendererSpec Orchestrator Preview.
From S2P Require Import Worker QueueFacts Protocol Refinement RolloutSpec Scenario OrchestratorSpec PlanSpec.

(** ** Groups *)

Lemma commands_of_elem config commands c : c ∈ commands_of config commands ↔ Config c = config ∧ c ∈ commands.
Proof. unfold commands_of. by rewrite list_elem_of_filter. Qed.
Lemma group_lookup config commands :
  groupCommandsByConfig commands !! config =
  (if bool_decide (config ∈ map Config commands) then Some (commands_of config commands) else None).
Proof.
  unfold groupCommandsByConfig.
  assert (map fst (map (λ config, (config, commands_of config commands)) (dedup_first (map Config commands))) =
    dedup_first (map Config commands)) as Hk by (rewrite map_map; apply map_id).
  case_bool_decide as Hc.
  - apply elem_of_list_to_map_1; [change (NoDup (map fst (map (λ config, (config, commands_of config commands)) (dedup_first (map Config commands))))); rewrite Hk; apply NoDup_dedup_seen|].
    apply (list_elem_of_fmap_2 (λ config, (config, commands_of config commands))). rewrite elem_of_dedup_seen. set_solver.
  - apply not_elem_of_list_to_map_1.
    change (config ∉ map fst (map (λ config, (config, commands_of config commands)) (dedup_first (map Config commands)))).
    rewrite Hk, elem_of_dedup_seen. tauto.
Qed.
Lemma group_default config commands : default [] (groupCommandsByConfig commands !! config) = commands_of config commands.
Proof.
  rewrite group_lookup. case_bool_decide as Hc; [done|]. symmetry. unfold commands_of.
  apply elem_of_nil_inv. intros c (<- & Hin)%list_elem_of_filter. apply Hc. by apply list_elem_of_fmap_2.
Qed.
Lemma group_names config commands : config ∈ sortedConfigNames (groupCommandsByConfig commands) ↔ config ∈ map Config commands.
Proof.
  unfold sortedConfigNames. rewrite stable_sort_perm. split.
  - intros ([k v] & -> & H%elem_of_map_to_list)%list_elem_of_fmap. cbn in *. rewrite group_lookup in H. by case_bool_decide.
  - intros H. apply list_elem_of_fmap. exists (config, commands_of config commands). split; [done|].
    apply elem_of_map_to_list. by rewrite group_lookup, bool_decide_eq_true_2.
Qed.

(** ** Drafts *)

(** A script is built from commands that the translator accepts. *)
Lemma script_built config commands healthChecks expected script :
  buildGuardedRolloutScript config commands healthChecks expected = Ok script → Forall applied commands.
Proof.
  unfold buildGuardedRolloutScript. destruct (render_commands config commands) as [body|] eqn:E.
  - intros _. rewrite render_commands_spec in E. destruct (forallb _ commands) eqn:Ef; [|done].
    rewrite forallb_forall in Ef. apply Forall_forall. intros c Hc%list_elem_of_In. specialize (Ef c Hc).
    apply andb_true_iff in Ef as [_ Ef]. unfold applied, nonempty in *. by destruct (String.eqb_spec (translateCommand c) "").
  - by destruct (BuildSafeBatchScript_invalid config commands healthChecks) as [-> _]; [right|].
Qed.
Lemma device_scripts_built names groups healthChecks state scripts config :
  device_scripts names groups healthChecks state = Ok scripts → config ∈ names →
  Forall applied (default [] (groups !! config)).
Proof.
  revert scripts. induction names as [|n names IH]; intros scripts; [by intros _ ?%elem_of_nil|]. cbn [device_scripts].
  destruct (buildGuardedRolloutScript _ _ _ _) as [script|] eqn:Es; [|done]. cbn [res_bind].
  destruct (device_scripts names _ _ _) as [rest|]; [|done]. intros _ [->|Hc]%elem_of_cons; [by eapply script_built|].
  by eapply IH.
Qed.
(** A device of a draft stands for a rendered result: its commands are accepted and
    its preview has a line for each. *)
Definition shows (d : rolloutDraftDevice) : Prop :=
  Forall applied (device_commands d) ∧ dd_PreviewCommands d = Some (map translateCommand (device_commands d)).
Definition built_from (r : RenderResult) (d : rolloutDraftDevice) : Prop :=
  dd_DeviceID d = rr_DeviceID r ∧ dd_Commands d = Some (rr_Commands r) ∧ shows d.
Lemma preview_all commands : Forall applied commands → PreviewCommands commands = map translateCommand commands.
Proof.
  unfold PreviewCommands. induction 1 as [|c l Hc Hl IH]; [done|]. cbn [map]. rewrite filter_cons_True; [by rewrite IH|].
  unfold nonempty. by rewrite (proj2 (String.eqb_neq _ _) Hc).
Qed.
Lemma draft_device_built healthChecks observed result device :
  draft_device healthChecks observed result = Ok device → built_from result device.
Proof.
  unfold draft_device. destruct (fail_if _ _) as [[]|]; [|done]. cbn [res_bind].
  destruct (device_scripts _ _ _ _) as [scripts|] eqn:Es; [|done]. cbn [res_bind]. intros [= <-].
  assert (Forall applied (rr_Commands result)) as Ha.
  { apply Forall_forall. intros c Hc. apply (device_scripts_built _ _ _ _ _ (Config c)) in Es.
    - rewrite group_default, Forall_forall in Es. apply Es. by apply commands_of_elem.
    - apply group_names. by apply list_elem_of_fmap_2. }
  split; [done|]. split; [done|]. split; [exact Ha|]. cbn. by rewrite preview_all.
Qed.
Lemma draft_devices_built healthChecks observed results devices :
  draft_devices healthChecks observed results = Ok devices → Forall2 built_from results devices.
Proof.
  revert devices. induction results as [|r results IH]; intros devices; cbn [draft_devices]; [by intros [= <-]|].
  destruct (draft_device _ _ _) as [d|] eqn:Ed; [|done]. cbn [res_bind].
  destruct (draft_devices _ _ results) as [ds|]; [|done]. intros [= <-]. constructor; [by eapply draft_device_built|by apply IH].
Qed.
Lemma phase_results_perm results : phase_results results ≡ₚ results.
Proof.
  unfold phase_results, sequentialFleetRolloutPhases. rewrite concat_singleton_map, stable_sort_perm.
  enough (map (λ i, nth i results zero_rendered) (seq 0 (List.length results)) = results) as -> by done.
  apply nth_ext with (d := zero_rendered) (d' := zero_rendered); [by rewrite length_map, length_seq|].
  intros i Hi. rewrite length_map, length_seq in Hi.
  rewrite nth_indep with (d' := nth 0 results zero_rendered) by (by rewrite length_map, length_seq).
  change (nth 0 results zero_rendered) with ((λ i, nth i results zero_rendered) 0).
  rewrite map_nth. f_equal. rewrite seq_nth by done. done.
Qed.
Lemma built_draft siteID target healthChecks results observed draft :
  buildRolloutDraft siteID target healthChecks results observed = Ok draft →
  dr_SiteID draft = siteID ∧ (∀ result, result ∈ results → Forall applied (rr_Commands result)) ∧
  Forall shows (draft_device_list draft).
Proof.
  unfold buildRolloutDraft. destruct (draft_devices _ _ _) as [devices|] eqn:Ed; [|done]. intros [= <-].
  apply draft_devices_built in Ed. split; [done|]. split.
  - intros result Hr. destruct (Forall2_partner _ _ _ result Ed) as (d & _ & _ & Hc & Hs & _); [by rewrite phase_results_perm|].
    unfold device_commands in Hs. by rewrite Hc in Hs.
  - cbn [draft_device_list dr_Devices default]. clear -Ed. induction Ed as [|r d rs ds (_ & _ & H) _ IH]; by constructor.
Qed.

(** ** Preflight *)

Section preview.
Context {E : Type} {environment : Environment E}.

(** A command without an option is never dropped. *)
Lemma filter_keeps c commands sections :
  c ∈ commands → Opt c = "" → c ∈ filterUCICommandsByObservedState commands sections.
Proof.
  intros Hc Ho. induction commands as [|c' commands IH]; [by apply elem_of_nil in Hc|]. cbn.
  apply elem_of_cons in Hc as [<-|Hc]; [|by destruct (already_observed _ _ _); [|right]; apply IH].
  unfold already_observed. rewrite Ho. cbn. by left.
Qed.
Lemma preflight_configs_spec deviceID groups configs e w a e' w' :
  preflight_configs deviceID groups configs (e, w) = (a, (e', w')) →
  w' = w ∧ ∀ out, a = Ok out → ∀ config c,
    config ∈ configs → c ∈ default [] (groups !! config) → Opt c = "" → c ∈ out.1.
Proof.
  revert e w a e' w'. induction configs as [|config configs IH]; intros e w a e' w'; cbn [preflight_configs].
  { intros [= <- <- <-]. split; [done|]. intros out _ ? ? ?%elem_of_nil. done. }
  unfold hbind at 1, env at 1. destruct (run_command _ _ e) as [[output [err|]] e1]; [by intros [= <- <- <-]|].
  unfold hbind. destruct (preflight_configs _ _ configs (e1, w)) as [b [e2 w2]] eqn:Eb. intros [= <- <- <-].
  apply IH in Eb as [-> Hb]. split; [done|]. intros out Ho config' c [->|Hin]%elem_of_cons Hc Hopt;
    (destruct b as [rest|]; [|done]); injection Ho as <-; cbn [fst]; apply elem_of_app.
  - left. by apply filter_keeps.
  - right. by apply (Hb rest eq_refl config').
Qed.
Lemma preflight_results_spec results observed e w a e' w' :
  preflight_results results observed (e, w) = (a, (e', w')) →
  w' = w ∧ ∀ out, a = Ok out →
    Forall2 (λ r r', rr_DeviceID r' = rr_DeviceID r ∧ ∀ c, c ∈ rr_Commands r → Opt c = "" → c ∈ rr_Commands r') results out.1.
Proof.
  revert observed e w a e' w'. induction results as [|r results IH]; intros observed e w a e' w'; cbn [preflight_results].
  { intros [= <- <- <-]. split; [done|]. intros out [= <-]. constructor. }
  unfold hbind at 1. destruct (preflight_configs _ _ _ (e, w)) as [b [e1 w1]] eqn:Eb.
  apply preflight_configs_spec in Eb as [-> Hb]. destruct b as [[commands state]|]; [|by intros [= <- <- <-]].
  unfold hbind. destruct (preflight_results results _ (e1, w)) as [rest [e2 w2]] eqn:Er. intros [= <- <- <-].
  apply IH in Er as [-> Hr]. split; [done|]. intros out Ho. destruct rest as [rest|]; [|done]. injection Ho as <-.
  cbn [fst]. constructor; [|by apply Hr]. split; [done|]. intros c Hc Hopt. cbn [rr_Commands].
  apply (Hb _ eq_refl (Config c)); [| |done].
  - apply group_names. by apply list_elem_of_fmap_2.
  - rewrite group_default. by apply commands_of_elem.
Qed.
(** ** The handler *)

Context (r : request) (namespace_query target new_id : string) (configured : res SiteConfig)
  (site_devices : res (list DeviceRoleInfo)).

Lemma planned_draft_inv namespace healthChecks preflight draft :
  planned_draft r target namespace healthChecks preflight = inr draft →
  dr_SiteID draft = q_siteID r ∧ dr_Namespace draft = namespace ∧ Forall shows (draft_device_list draft) ∧
  ∀ result, result ∈ preflight.1 → Forall applied (rr_Commands result).
Proof.
  unfold planned_draft.
  destruct (if negb (namespace =? "") then dropEmptyRolloutResults preflight.1 preflight.2 else preflight)
    as [results observed] eqn:Ep.
  assert (∀ result, result ∈ preflight.1 → rr_Commands result ≠ [] → result ∈ results) as Hkept.
  { intros result Hr Hc. destruct (namespace =? ""); cbn [negb] in Ep; [destruct preflight; by injection Ep as -> ->|].
    unfold dropEmptyRolloutResults in Ep. injection Ep as <- _. by apply list_elem_of_filter. }
  destruct (_ && _); [done|]. destruct (rejectUnsafeNetworkMutations results); [|done].
  destruct (buildRolloutDraft _ _ _ _ _) as [d|] eqn:Ed; [|done]. intros [= <-].
  apply built_draft in Ed as (Hs & Ha & Hsh). split; [exact Hs|]. split; [done|]. split; [exact Hsh|].
  intros result Hr. destruct (rr_Commands result) as [|c l] eqn:Ec; [constructor|]. rewrite <- Ec. apply Ha, Hkept; [done|].
  by rewrite Ec.
Qed.
Lemma rendered_plan_inv schema namespace healthChecks results :
  rendered_plan r namespace_query target configured site_devices = inr (schema, namespace, healthChecks, results) →
  namespace = trim_space namespace_query ∧
  (namespace = "" ∨ is_ok (requestedChangeSetNamespaces namespace) = true) ∧
  ∃ sc devs selected, configured = Ok sc ∧ ValidateSQM sc = Ok tt ∧ site_devices = Ok devs ∧
    selectRolloutDevices di_DeviceID devs target = Ok selected ∧
    filterRolloutResultsByNamespace (RenderSiteConfig sc selected) namespace = Ok results.
Proof.
  unfold rendered_plan. set (n := trim_space namespace_query).
  destruct (if n =? "" then Ok ∅ else requestedChangeSetNamespaces n) eqn:En; [|done].
  destruct configured as [sc|]; [|done]. destruct (ValidateSQM sc) as [[]|] eqn:Ev; [|done].
  destruct site_devices as [devs|]; [|done].
  destruct (selectRolloutDevices di_DeviceID devs target) as [[|d l]|] eqn:Es; [done| |done].
  destruct (rolloutHealthTargets (HealthChecks sc)); [|done]. destruct (getTenantSchema r); [|done].
  destruct (filterRolloutResultsByNamespace _ n) eqn:Ef; [|done]. intros [= <- <- <- <-].
  split; [done|]. split; [|exists sc, devs, (d :: l); eauto].
  destruct (String.eqb_spec n "") as [|Hn]; [by left|]. right. by rewrite En.
Qed.

(** The draft that the template, the devices and their reports determine. *)
Definition previewed_draft (s : E * world) : option rolloutDraft :=
  match rendered_plan r namespace_query target configured site_devices with
  | inl _ => None
  | inr (_, namespace, healthChecks, results) =>
      match (preflightRenderedResultsWithState results s).1 with
      | Err _ => None
      | Ok preflight =>
          match planned_draft r target namespace healthChecks preflight with inl _ => None | inr draft => Some draft end
      end
  end.

(** A draft answered with: its row, as it was created. *)
Lemma persist_draft_inv schema namespace draft e w answer e' w' :
  persist_draft r target new_id schema namespace draft (e, w) = (answer, (e', w')) →
  (∃ status text, answer = PreviewError status text ∧ tn w' = tn w) ∨
  ∃ created w1, CreateRolloutDraft (clock e) new_id schema (q_siteID r) (q_username r) (rolloutPlanHash draft)
      (Some (json_coerce (JArr (map (λ d, JStr (dd_DeviceID d)) (draft_device_list draft)))))
      (Some (json_coerce (draft_json draft))) w = (Ok created, w1) ∧
    rd_ID created = new_id ∧ rollout_runs (tn w') = rollout_runs (tn w1) ∧
    (answer = PreviewError 503 "could not record rollout audit event" ∨
     answer = Previewed (q_siteID r) target namespace new_id (rd_Generation created) (rolloutPlanHash draft)
                (elems (dr_HealthChecks draft)) (rolloutDevicePreviews draft)).
Proof.
  unfold persist_draft, hbind at 1, db.
  destruct (CreateRolloutDraft _ _ _ _ _ _ _ _ w) as [created w1] eqn:Ec.
  pose proof Ec as [[Ht [err ->]]|(site & hash & q & tg & pl & _ & _ & _ & _ & _ & _ & -> & _)]%CreateRolloutDraft_inv.
  { intros [= <- _ <-]. left. eauto. }
  unfold hbind, auditRolloutEvent, db. destruct (InsertAuditLogContext _ _ _ _ _ _ w1) as [audited w2] eqn:Ea.
  intros [= <- _ <-]. right. eexists _, w1. split; [reflexivity|]. split; [done|]. split; [|by destruct audited; [right|left]].
  apply statement_inv in Ea as [(u & t & _ & Hf & ->)|(err & _ & ->)]; [|done]. by injection Hf as _ <-.
Qed.
End preview.

(** ** Properties *)


(** An access point and what it reports; the identifier of the new draft. *)
Definition hall_ap : DeviceRoleInfo := RoleInfo "ap-1" "hall" "AP" ∅.
Definition hall_reports : scripted := (1000%Z,
  [(lines ["dropbear.@dropbear[0]=dropbear"; "dropbear.@dropbear[0].Port='22'"; "dropbear.@dropbear[0].PasswordAuth='off'"], None);
   (lines ["system.@system[0]=system"; "system.@system[0].hostname='OpenWrt'"; "system.@system[0].timezone='UTC'"], None)]).
Definition preview_request : request := Request site_id "" None "admin" "10.0.0.1" schema_name.
Definition hall_preview :=
  PreviewSyncHandler preview_request "" "" rollout_id (Ok sample_site) (Ok [hall_ap]) (hall_reports, World start []).

(** A rule opens with a command that no namespace filter of the firewall drops. *)
Lemma redirect_rendered cfg i dev :
  render_role dev = "Gateway" → dec_array dec_forward zero_forward (PortForwardingRules cfg) ≠ [] →
  redirect_add ∈ rr_Commands (render_device cfg i dev).
Proof.
  intros Hr Hf. cbn [rr_Commands render_device]. rewrite Hr. change ("Gateway" =? "Gateway") with true. cbv iota.
  apply elem_of_app. right. apply elem_of_app. left. unfold gateway_commands.
  destruct (dec_array dec_forward zero_forward (PortForwardingRules cfg)) as [|pf l]; [done|].
  rewrite !elem_of_app. do 3 right. left. cbn [map concat]. apply elem_of_app. left. by left.
Qed.
Lemma filter_namespace_keeps results namespace filtered c r :
  filterRolloutResultsByNamespace results namespace = Ok filtered → r ∈ results → c ∈ rr_Commands r →
  (namespace = "" ∨ ∃ names, requestedChangeSetNamespaces namespace = Ok names ∧ Config c ∈ names) →
  ∃ r', r' ∈ filtered ∧ c ∈ rr_Commands r'.
Proof.
  unfold filterRolloutResultsByNamespace. intros Hf Hr Hc Hn. destruct (String.eqb_spec namespace "") as [|Hne].
  { injection Hf as <-. eauto. }
  destruct Hn as [|(names & Hn & Hin)]; [done|]. rewrite Hn in Hf. injection Hf as <-.
  eexists. split; [apply list_elem_of_fmap; exists r; split; [reflexivity|exact Hr]|]. cbn [rr_Commands].
  by apply list_elem_of_filter.
Qed.

(** C26: a site with a port forwarding rule cannot be previewed: whenever a gateway is
    among the selected devices and the firewall among the namespaces, every preview
    fails, whatever the devices report, and stores nothing: the renderer puts the
    type of the rule's section where the translator does not read it. *)
Theorem port_forwarding_unappliable {E} {environment : Environment E} (r : request) (namespace_query target new_id : string)
    (sc : SiteConfig) (devs selected : list DeviceRoleInfo) (dev : DeviceRoleInfo) (e e' : E) (w w' : world)
    (answer : preview_answer) :
  dec_array dec_forward zero_forward (PortForwardingRules sc) ≠ [] →
  selectRolloutDevices di_DeviceID devs target = Ok selected → dev ∈ selected → di_Role dev = "Gateway" →
  (trim_space namespace_query = "" ∨
   ∃ names, requestedChangeSetNamespaces (trim_space namespace_query) = Ok names ∧ "firewall" ∈ names) →
  PreviewSyncHandler r namespace_query target new_id (Ok sc) (Ok devs) (e, w) = (answer, (e', w')) →
  (∃ status text, answer = PreviewError status text) ∧ tn w' = tn w.
Proof.
  intros Hf Hsel Hdev Hrole Hns. unfold PreviewSyncHandler.
  destruct (rendered_plan r namespace_query target (Ok sc) (Ok devs)) as [a|[[[schema namespace] hc] results]] eqn:Er.
  { intros [= <- _ <-]. split; [|done]. revert Er. unfold rendered_plan. repeat case_match; intros [= <-]; eauto. }
  apply rendered_plan_inv in Er as (-> & _ & sc' & devs' & sel' & [= <-] & _ & [= <-] & Hs' & Hres). rewrite Hsel in Hs'.
  injection Hs' as <-. apply list_elem_of_lookup in Hdev as [i Hi].
  assert (∃ result, result ∈ results ∧ redirect_add ∈ rr_Commands result) as (result & Hr & Hadd).
  { eapply (filter_namespace_keeps _ _ _ redirect_add (render_device sc i dev)); [exact Hres| |by apply redirect_rendered; [unfold render_role; rewrite Hrole|]|exact Hns].
    apply list_elem_of_lookup. exists i. unfold RenderSiteConfig. by rewrite list_lookup_imap, Hi. }
  unfold hbind. destruct (preflightRenderedResultsWithState results (e, w)) as [pre [e1 w1]] eqn:Ep.
  apply preflight_results_spec in Ep as [-> Hpre]. destruct pre as [pre|err]; [|intros [= <- _ <-]; eauto].
  specialize (Hpre pre eq_refl). destruct (Forall2_partner _ _ _ result Hpre Hr) as (result' & Hr' & _ & Hkeep).
  destruct (planned_draft r target _ hc pre) as [a|draft] eqn:Ed.
  { intros [= <- _ <-]. split; [|done]. revert Ed. unfold planned_draft. repeat case_match; intros [= <-]; eauto. }
  apply planned_draft_inv in Ed as (_ & _ & _ & Ha). specialize (Ha result' Hr'). rewrite Forall_forall in Ha.
  exfalso. apply (Ha redirect_add); [by apply Hkeep|]. reflexivity.
Qed.
Lemma port_forwarding_unappliable_witness :
  let run := PreviewSyncHandler preview_request "firewall" "" rollout_id (Ok sample_site) (Ok [sample_gateway; hall_ap])
    ((1000%Z, [("firewall.@defaults[0]=defaults", None)]) : scripted, World start []) in
  (∃ status text, run.1 = PreviewError status text) ∧ tn run.2.2 = start.
Proof.
  intros run. destruct run as [answer [e' w']] eqn:Hrun.
  apply (port_forwarding_unappliable preview_request "firewall" "" rollout_id sample_site [sample_gateway; hall_ap]
    [sample_gateway; hall_ap] sample_gateway ((1000%Z, [("firewall.@defaults[0]=defaults", None)]) : scripted) e' (World start []) w' answer).
  - vm_compute. discriminate.
  - reflexivity.
  - by left.
  - reflexivity.
  - right. exists {["firewall"]}. split; [vm_compute; reflexivity|]. apply (bool_decide_unpack _). vm_compute. exact I.
  - exact Hrun.
Defined.

(** ** Devices that settle *)

(** What a device's session answers to [uci show]. *)
Definition device_shows {E} {environment : Environment E} (deviceID config : string) (st : list UCISection) : Prop :=
  ∀ e, (run_command deviceID ("uci show " +:+ config +:+ " 2>&1") e).1 = (uci_show config st, None).

Lemma preflight_settled {E} {environment : Environment E} deviceID groups configs (e : E) w :
  (∀ config, config ∈ configs → ∃ st, device_shows deviceID config st ∧
     filterUCICommandsByObservedState (default [] (groups !! config)) (parseUciShow (uci_show config st) config) = []) →
  ∃ state e', preflight_configs deviceID groups configs (e, w) = (Ok ([], state), (e', w)).
Proof.
  revert e. induction configs as [|config configs IH]; intros e H; [by eexists _, _|]. cbn [preflight_configs].
  destruct (H config ltac:(by left)) as (st & Hs & Hf). unfold hbind at 1, env at 1. specialize (Hs e).
  destruct (run_command deviceID _ e) as [out e1]. cbn [fst] in Hs. subst out. rewrite Hf.
  destruct (IH e1) as (state & e2 & He); [intros; apply H; by right|]. unfold hbind. rewrite He. by eexists _, _.
Qed.
(** Two options of the first section of a type. *)
Lemma pair_settles config st id o1 v1 o2 v2 :
  let section := "@" +:+ config +:+ "[0]" in
  let plan := [Cmd "set" config section o1 v1; Cmd "set" config section o2 v2] in
  text_ok name_char config → config ≠ "wireless" → o1 ≠ o2 → text_ok name_char o1 → text_ok name_char o2 →
  no_nl v1 = true → no_nl v2 = true → printable st → resolves section id st →
  filterUCICommandsByObservedState plan (parseUciShow (uci_show config (run_plan plan st)) config) = [].
Proof.
  intros section plan Hc Hw Ho H1 H2 Hv1 Hv2 Hst Hr.
  assert (printable (run_plan plan st)) as [Hok Hnd] by (apply run_plan_printable; [done|]; repeat apply Forall_cons_2; [..|apply Forall_nil_2]; (split; [done|by split])).
  rewrite parse_uci_show by done. apply (set_plan_settles plan [(id, o1); (id, o2)]). split.
  - repeat apply Forall2_cons_2; [..|apply Forall2_nil_2]; (split; [done|]; cbn [Opt Config Sect fst snd]; destruct H1, H2; done).
  - repeat apply NoDup_cons_2; [set_solver..|apply NoDup_nil_2].
Qed.

(** C27: the configuration of an access point settles: when its reports show the state
    that its rendered commands lead to, the next preview finds nothing left to do
    on it, in every namespace that is rendered for it. *)
Theorem access_point_settles {E} {environment : Environment E} (cfg : SiteConfig) (i : nat) (dev : DeviceRoleInfo)
    (state : string → list UCISection) (id : string → string) (e : E) (w : world) :
  let result := render_device cfg i dev in
  let after config := run_plan (commands_of config (rr_Commands result)) (state config) in
  render_role dev ≠ "Gateway" → no_nl (render_hostname cfg i dev) = true → no_nl (Timezone cfg) = true →
  (∀ config, config ∈ ["system"; "dropbear"] →
     printable (state config) ∧ resolves ("@" +:+ config +:+ "[0]") (id config) (state config) ∧
     device_shows (di_DeviceID dev) config (after config)) →
  ∃ observed e', preflightRenderedResultsWithState [result] (e, w) =
    (Ok ([Rendered (rr_DeviceID result) (rr_Hostname result) (rr_Role result) []], observed), (e', w)).
Proof.
  intros result after Hrole Hhost Hzone Hstate.
  assert (rr_Commands result =
    [Cmd "set" "system" "@system[0]" "hostname" (render_hostname cfg i dev);
     Cmd "set" "system" "@system[0]" "timezone" (Timezone cfg);
     Cmd "set" "dropbear" "@dropbear[0]" "Port" (dec (DropbearPort cfg));
     Cmd "set" "dropbear" "@dropbear[0]" "PasswordAuth" (if DropbearPasswordAuth cfg then "on" else "off")]) as Hcmds.
  { cbn [result render_device rr_Commands]. by destruct (String.eqb_spec (render_role dev) "Gateway"). }
  assert (rr_DeviceID result = di_DeviceID dev) as Hid by done. unfold after in Hstate. clearbody result. clear after.
  unfold preflightRenderedResultsWithState. cbn [preflight_results]. unfold hbind at 1.
  destruct (preflight_settled (rr_DeviceID result) (groupCommandsByConfig (rr_Commands result))
    (sortedConfigNames (groupCommandsByConfig (rr_Commands result))) e w) as (observed & e1 & ->); [|unfold hbind; by eexists _, _].
  intros config Hc. rewrite group_names in Hc. rewrite Hid, group_default.
  assert (config ∈ ["system"; "dropbear"]) as Hin by (rewrite Hcmds in Hc; cbn [map Config] in Hc; set_solver).
  destruct (Hstate config Hin) as (Hp & Hr & Hs). eexists. split; [exact Hs|]. rewrite Hcmds.
  apply elem_of_cons in Hin as [->|Hin%list_elem_of_singleton]; [|subst config].
  - apply (pair_settles "system" _ (id "system")); first [done | by repeat split].
  - apply (pair_settles "dropbear" _ (id "dropbear")); first [done | by repeat split | apply no_nl_name_text, dec_name | idtac].
    by destruct (DropbearPasswordAuth cfg).
Qed.

(** An environment in which every device reports the same states. *)
Definition reporting (st : string → list UCISection) : Environment Z := {|
  clock := id;
  run_command _ command e :=
    ((if command =? "uci show system 2>&1" then uci_show "system" (st "system") else uci_show "dropbear" (st "dropbear"), None), e);
  run_script _ _ e := (("", None), e);
  create_backup _ e := (None, e);
  uuid_parse := uuid_in;
  command_time _ _ := Z.le_refl;
  script_time _ _ := Z.le_refl;
  backup_time _ := Z.le_refl
|}.
Definition factory_state (config : string) : list UCISection :=
  if config =? "system" then [Section_ "@system[0]" "system" "@system[0]" true {["hostname" := Text "OpenWrt"]}]
  else [Section_ "@dropbear[0]" "dropbear" "@dropbear[0]" true ∅].
Definition settled_state (config : string) : list UCISection :=
  run_plan (commands_of config (rr_Commands (render_device sample_site 0 hall_ap))) (factory_state config).
Lemma access_point_settles_witness :
  ∃ observed e', preflightRenderedResultsWithState (environment := reporting settled_state)
    [render_device sample_site 0 hall_ap] (7%Z, World start []) =
    (Ok ([Rendered "ap-1" "hall" "AP" []], observed), (e', World start [])).
Proof.
  apply (access_point_settles (environment := reporting settled_state) sample_site 0 hall_ap factory_state
    (λ config, "@" +:+ config +:+ "[0]") 7%Z (World start [])); [discriminate|reflexivity|reflexivity|].
  intros config [->|[->|[]%elem_of_nil]%elem_of_cons]%elem_of_cons.
  all: split; [|split; [vm_compute; reflexivity|intros e; reflexivity]].
  all: (split; [apply Forall_cons_2; [split|apply Forall_nil_2]|apply NoDup_singleton]).
  all: try reflexivity; try (split; [discriminate|reflexivity]); apply map_Forall_to_list; vm_compute;
    repeat apply Forall_cons_2; try apply Forall_nil_2.
  split; [split; [discriminate|reflexivity]|]. split; [exact I|]. repeat constructor.
Defined.
