(* ===== verification/SiteConfigsSpec.v ===== *)
(** What the template store promises: a saved template is read back, it never
    contradicts a network policy, and what a save loses; and what a change of a
    device's role does to the drafts of its site. *)

From S2P Require Import Prelude GoStrings Json Uci UciShell DeviceOperation Store DeviceOperations Rollouts RolloutPlan.
From S2P Require Import Renderer RendererSpec Orchestrator SiteConfigs Scenario.

(** ** Saving *)

(** A document as [jsonb] returns it. *)
Definition stored_document (raw : raw_field) (empty : json) : raw_field :=
  match raw with Some (Some j) => Some (Some (jsonb_of j)) | _ => Some (Some empty) end.
Definition stored_config (site : string) (sc : SiteConfig) : SiteConfig :=
  with_documents site (stored_document (DHCPReservations sc) (JArr [])) (stored_document (PortForwardingRules sc) (JArr []))
    (stored_document (WANInterfaces sc) (JArr [])) (stored_document (BenchmarkBaseline sc) (JObj []))
    (stored_document (TopologyMetadata sc) (JObj [])) (stored_document (HealthChecks sc) (JArr [])) sc.

Lemma document_column_stored raw empty v : empty = JArr [] ∨ empty = JObj [] →
  document_column (default_document raw empty) = Ok v → v = stored_document raw empty.
Proof.
  unfold document_column, default_document, stored_document, jsonb_param, jsonb_in. intros He.
  destruct raw as [[j|]|]; [|done|].
  - destruct (jsonb_accepts j); [|done]. by intros [= <-].
  - destruct He as [-> | ->]; by intros [= <-].
Qed.
Lemma UpsertSiteConfig_inv fault sites table sc table' :
  DHCPReservations sc ≠ None → PortForwardingRules sc ≠ None → UpsertSiteConfig fault sites table sc = Ok table' →
  ∃ site, uuid_in (SiteID sc) = Some site ∧ site ∈ sites ∧ ValidateSQM sc = Ok tt ∧ table' = <[site := stored_config site sc]> table.
Proof.
  intros Hd Hp. unfold UpsertSiteConfig. destruct (ValidateSQM sc) as [[]|]; [|done]. cbn [res_bind].
  destruct (fail_if fault _) as [[]|]; [|done]. cbn [res_bind]. unfold uuid_param. destruct (uuid_in (SiteID sc)) as [site|]; [|done].
  cbn [res_bind].
  assert (∀ raw, raw ≠ None → document_column raw = document_column (default_document raw (JArr []))) as Hraw by (by intros [raw|]).
  rewrite (Hraw (DHCPReservations sc)), (Hraw (PortForwardingRules sc)) by done.
  destruct (document_column (default_document (DHCPReservations sc) _)) as [v1|] eqn:E1; [|done].
  destruct (document_column (default_document (PortForwardingRules sc) _)) as [v2|] eqn:E2; [|done].
  destruct (document_column (default_document (WANInterfaces sc) _)) as [v3|] eqn:E3; [|done].
  destruct (document_column (default_document (BenchmarkBaseline sc) _)) as [v4|] eqn:E4; [|done].
  destruct (document_column (default_document (TopologyMetadata sc) _)) as [v5|] eqn:E5; [|done].
  destruct (document_column (default_document (HealthChecks sc) _)) as [v6|] eqn:E6; [|done].
  cbn [res_bind]. unfold fail_if. destruct (_ || _) eqn:Ef; [done|]. cbn [res_bind]. intros [= <-].
  apply orb_false_iff in Ef as [_ Ef]. apply negb_false_iff, bool_decide_eq_true in Ef.
  apply document_column_stored in E1, E2, E3, E4, E5, E6; [|by auto..]. subst. by exists site.
Qed.

(** A template that was saved: the request, and the policies it passed. *)
Lemma PutSiteConfigHandler_saved pf sf tenant siteID body sites wlans table table' :
  PutSiteConfigHandler pf sf tenant siteID body sites wlans table = (ConfigSaved, table') →
  ∃ d site, unmarshal dec_dto zero_dto body = Some d ∧ uuid_in siteID = Some site ∧ site ∈ sites ∧
    let sc := config_of_dto siteID d in
    ValidateSQM sc = Ok tt ∧ table' = <[site := stored_config site sc]> table ∧
    (EnableGlobalSSID sc && negb (GlobalSSID sc =? "") = true →
     siteWLANPolicyConflicts pf wlans siteID (GlobalSSID sc) (GlobalEncryption sc) (GlobalWPAKey sc) = Ok []).
Proof.
  unfold PutSiteConfigHandler. destruct (unmarshal dec_dto zero_dto body) as [d|]; [|done].
  set (sc := config_of_dto siteID d).
  destruct (if EnableGlobalSSID sc && negb (GlobalSSID sc =? "") then _ else None) as [a|] eqn:Ec.
  { intros [= -> _]. exfalso. revert Ec. repeat case_match; discriminate. }
  destruct (ValidateSQM sc) as [[]|] eqn:Ev; [|done].
  destruct (UpsertSiteConfig sf sites table sc) as [t|] eqn:Eu; [|done]. intros [= <-].
  assert (∀ raw, array_document raw ≠ None) as Hraw by (by intros [[[]|]|]).
  apply UpsertSiteConfig_inv in Eu as (site & Hs & Hin & _ & ->); [|apply Hraw..].
  exists d, site. fold sc. split; [done|]. split; [exact Hs|]. split; [done|]. split; [done|]. split; [done|].
  intros He. rewrite He in Ec. destruct (SafeSchemaIdent _); [|done].
  destruct (siteWLANPolicyConflicts _ _ _ _ _ _) as [[|x l]|]; done.
Qed.
Lemma stored_config_scanned fault table site siteID sc :
  fault = false → uuid_in siteID = Some site → GetSiteConfig fault (<[site := stored_config site sc]> table) siteID = Ok (stored_config site sc).
Proof.
  intros -> Hs. unfold GetSiteConfig, uuid_param. rewrite Hs. cbn [fail_if res_bind]. rewrite lookup_insert_eq.
  assert (∀ raw e, stored_document raw e ≠ None) as Hd by (by intros [[]|]).
  rewrite !bool_decide_eq_false_2 by apply Hd. done.
Qed.

(** ** Properties *)

Definition template_body : raw_message :=
  Some (JObj [("enable_global_ssid", JBool true); ("global_ssid", JStr "office"); ("global_encryption", JStr "psk2");
              ("lan_ipaddr", JStr "10.0.0.1"); ("timezone", JStr "UTC"); ("dhcp_start", JInt 100); ("guest_portal_enabled", JBool true);
              ("wan_interfaces", JArr [JObj [("iface_name", JStr "wan")]; JObj [("iface_name", JStr "wwan")]])]).
Definition office_wlan : wlan_row := Wlan site_id "office" "psk2" (Some "secret") true.
Definition save_template := PutSiteConfigHandler false false "tenant_a" site_id template_body {[site_id]} [office_wlan] ∅.

(** C28: saving a template always empties its uplinks and turns the guest portal off,
    whatever the request asks for and whatever was stored: the handler does not
    read the two fields.  The devices of such a site never get failover or portal
    commands, although the renderer has them. *)
Theorem saved_template_has_no_uplinks (policy_fault save_fault : bool) (tenant siteID : string) (body : raw_message)
    (sites : gset string) (wlans : list wlan_row) (table table' : site_table) (sc : SiteConfig) (devices : list DeviceRoleInfo)
    (result : RenderResult) :
  PutSiteConfigHandler policy_fault save_fault tenant siteID body sites wlans table = (ConfigSaved, table') →
  GetSiteConfig false table' siteID = Ok sc → result ∈ RenderSiteConfig sc devices →
  WANInterfaces sc = Some (Some (JArr [])) ∧ GuestPortalEnabled sc = false ∧
  "mwan3" ∉ namespaces_of (rr_Commands result) ∧ "opennds" ∉ namespaces_of (rr_Commands result).
Proof.
  intros H Hg (i & dev & -> & _)%elem_of_lookup_imap_1.
  apply PutSiteConfigHandler_saved in H as (d & site & _ & Hs & _ & _ & -> & _).
  rewrite (stored_config_scanned false) in Hg by done. injection Hg as <-. split; [done|]. split; [done|].
  rewrite !render_device_namespaces. unfold gateway_namespace. cbn [stored_config with_documents config_of_dto WANInterfaces GuestPortalEnabled].
  assert (List.length (wans (stored_config site (config_of_dto siteID d))) = 0%nat) as Hw by done.
  rewrite !elem_of_cons, !elem_of_nil. split; intros [?|[_ ?]]; naive_solver lia.
Qed.
Lemma saved_template_has_no_uplinks_witness :
  ∃ sc, GetSiteConfig false save_template.2 site_id = Ok sc ∧
    "mwan3" ∉ namespaces_of (rr_Commands (render_device sc 0 sample_gateway)).
Proof.
  assert (save_template.1 = ConfigSaved) as Ha by (vm_compute; reflexivity).
  destruct (GetSiteConfig false save_template.2 site_id) as [sc|] eqn:Hg; [|vm_compute in Hg; discriminate Hg].
  exists sc. split; [reflexivity|].
  apply (saved_template_has_no_uplinks false false "tenant_a" site_id template_body {[site_id]} [office_wlan] ∅ save_template.2 sc
    [sample_gateway] (render_device sc 0 sample_gateway)); [|exact Hg|by left].
  rewrite <- Ha. unfold save_template. apply surjective_pairing.
Defined.

Lemma elem_concat {A B} (x : B) (f : A → list B) l : x ∈ concat (map f l) ↔ ∃ a, a ∈ l ∧ x ∈ f a.
Proof.
  induction l as [|a l IH]; cbn; [rewrite elem_of_nil; split; [done|intros (? & ?%elem_of_nil & _); done]|].
  rewrite elem_of_app, IH. setoid_rewrite elem_of_cons. split; [|naive_solver].
  intros [H|(b & Hb & H)]; [exists a | exists b]; tauto.
Qed.
Lemma conflicts_none pf wlans siteID site ssid encryption key :
  uuid_in siteID = Some site → ssid ≠ "" → siteWLANPolicyConflicts pf wlans siteID ssid encryption key = Ok [] →
  ∀ row, row ∈ wlans → wl_site row = site → wl_ssid row = ssid → wl_enabled row = true →
    encryption ∈ [""; wl_security row] ∧ key ∈ [""; coalesce (wl_password row) ""].
Proof.
  intros Hs Hne. unfold siteWLANPolicyConflicts. destruct (fail_if pf _) as [[]|]; [|done]. cbn [res_bind].
  unfold uuid_param. rewrite Hs. cbn [res_bind]. intros [= H] row Hrow Hsite Hssid Hen.
  set (rows := filter _ wlans) in H.
  assert (row ∈ rows) as Hin.
  { apply list_elem_of_filter. split; [|done]. by rewrite Hsite, Hssid, !String.eqb_refl, Hen. }
  assert (wr_Conflicts (ResolveCanonicalWLAN ssid encryption key ssid (wl_security row) (coalesce (wl_password row) "")) = []) as Hc.
  { apply elem_of_nil_inv. intros x Hx. assert (x ∈ @nil string) as Hf; [|by apply elem_of_nil in Hf]. rewrite <- H.
    apply elem_of_dedup_seen. split; [|set_solver]. apply elem_concat. by exists row. }
  revert Hc. unfold ResolveCanonicalWLAN. cbn [wr_Conflicts]. rewrite (proj2 (String.eqb_neq ssid "")), String.eqb_refl by done.
  cbn [negb orb]. rewrite !elem_of_cons, !elem_of_nil.
  destruct (String.eqb_spec encryption ""), (String.eqb_spec encryption (wl_security row)),
    (String.eqb_spec key ""), (String.eqb_spec key (coalesce (wl_password row) "")); cbn; try done; tauto.
Qed.

(** The network policies are authoritative: a template that enables the site's
    network is only saved when its security and its key are empty or those of
    every enabled policy of that network at the site. *)
Theorem saved_template_agrees (policy_fault save_fault : bool) (tenant siteID site : string) (body : raw_message)
    (sites : gset string) (wlans : list wlan_row) (table table' : site_table) (d : config_dto) (row : wlan_row) :
  PutSiteConfigHandler policy_fault save_fault tenant siteID body sites wlans table = (ConfigSaved, table') →
  unmarshal dec_dto zero_dto body = Some d → uuid_in siteID = Some site →
  dto_flag d "enable_global_ssid" = true → dto_text d "global_ssid" ≠ "" →
  row ∈ wlans → wl_site row = site → wl_ssid row = dto_text d "global_ssid" → wl_enabled row = true →
  dto_text d "global_encryption" ∈ [""; wl_security row] ∧ dto_text d "global_wpa_key" ∈ [""; coalesce (wl_password row) ""].
Proof.
  intros H Hd Hs He Hn. apply PutSiteConfigHandler_saved in H as (d' & site' & Hd' & _ & _ & _ & _ & Hc).
  rewrite Hd in Hd'. injection Hd' as <-. cbn [config_of_dto EnableGlobalSSID GlobalSSID GlobalEncryption GlobalWPAKey] in Hc.
  rewrite He, (proj2 (String.eqb_neq _ _) Hn) in Hc. intros Hrow Hsite Hssid Hen.
  exact (conflicts_none _ _ _ _ _ _ _ Hs Hn (Hc eq_refl) row Hrow Hsite Hssid Hen).
Qed.
Lemma saved_template_agrees_witness :
  ∃ d, unmarshal dec_dto zero_dto template_body = Some d ∧ dto_text d "global_encryption" ∈ [""; "psk2"].
Proof.
  destruct (unmarshal dec_dto zero_dto template_body) as [d|] eqn:Hd; [|vm_compute in Hd; discriminate Hd].
  exists d. split; [reflexivity|].
  assert (save_template.1 = ConfigSaved) as Ha by (vm_compute; reflexivity).
  assert (dto_flag d "enable_global_ssid" = true ∧ dto_text d "global_ssid" = "office") as [Hf Ht]
    by (vm_compute in Hd; injection Hd as <-; split; vm_compute; reflexivity).
  apply (saved_template_agrees false false "tenant_a" site_id site_id template_body {[site_id]} [office_wlan] ∅ save_template.2 d office_wlan);
    [rewrite <- Ha; unfold save_template; apply surjective_pairing|exact Hd|reflexivity|exact Hf|rewrite Ht; discriminate
    |by left|reflexivity|symmetry; exact Ht|reflexivity].
Defined.

(** ** Roles *)

(** A draft does not pass the check of its targets when one of them has another role. *)
Lemma verify_targets_role siteID ds w r w' device d role :
  verify_targets siteID ds w = (r, w') → device ∈ ds → devices (tn w) !! dd_DeviceID device = Some d →
  d_device_role d = Some role → role ≠ dd_Role device → is_ok r = false.
Proof.
  intros H Hin Hd Hr Hne. revert w H Hd. induction ds as [|x ds IH]; intros w H Hd; [by apply elem_of_nil in Hin|].
  cbn [verify_targets] in H. unfold mtry in H. destruct (target_row siteID (dd_DeviceID x) w) as [row w1] eqn:E.
  apply query_inv in E as [Ht E].
  destruct row as [[[[found op] cs]|]|]; [|by m_end H..]. specialize (E _ eq_refl).
  m_bind H as u w2 H1; [done|]. m_bind H as u2 w3 H2; [done|]. m_bind H as u3 w4 H3; [done|].
  apply elem_of_cons in Hin as [->|Hin]; [|apply (IH Hin _ H); by rewrite Ht].
  exfalso. destruct (uuid_param siteID); [|done]. cbn [res_bind] in E. rewrite Hd in E. cbn in E. rewrite Hr in E.
  destruct (_ && _) in E; [|done]. injection E as <- _ _. unfold fail_if in H1. cbn in H1.
  rewrite (proj2 (String.eqb_neq role (dd_Role x))) in H1 by done. done.
Qed.
Lemma PutDeviceRoleHandler_saved username remote tenant deviceID body w role w' :
  PutDeviceRoleHandler username remote tenant deviceID body w = (RoleSaved role, w') →
  role ∈ valid_roles ∧ ∃ d, devices (tn w) !! deviceID = Some d ∧ coalesce (d_rollout_status d) "" ≠ "RUNNING" ∧
    devices (tn w') = <[deviceID := set_role role d]> (devices (tn w)) ∧ rollout_runs (tn w') = rollout_runs (tn w).
Proof.
  unfold PutDeviceRoleHandler. destruct (unmarshal _ "" body) as [role'|]; [|done].
  destruct (text_in role' valid_roles) eqn:Er; [|done]. cbn [negb]. destruct (SafeSchemaIdent _) as [schema|]; [|done].
  destruct (UpdateDeviceRoleForTenant schema deviceID role' w) as [[u|err] w1] eqn:Eu; [|by destruct (errors_is _ _)].
  intros [= <- <-]. split.
  { unfold text_in in Er. apply existsb_exists in Er as (x & Hx & He%String.eqb_eq). subst. by apply list_elem_of_In. }
  unfold UpdateDeviceRoleForTenant in Eu. m_bind Eu as s w2 Hs. m_bind Eu as n w3 Hn.
  apply statement_inv in Hn as [(k & t & E & Hn & Ht)|(err & [=] & _)]. injection E as <-.
  unfold one_row in Eu. apply lift_inv in Eu as [Eu ->].
  destruct (varchar 50 role') as [v|] eqn:Ev; [|done]. cbn [res_bind] in Hn.
  assert (v = role') as -> by (unfold varchar in Ev; destruct (_ <=? _)%nat; [by injection Ev|done]).
  destruct (devices (tn w) !! deviceID) as [d|]; [|injection Hn as <- _; done].
  destruct (String.eqb_spec (coalesce (d_rollout_status d) "") "RUNNING"); cbn [negb] in Hn; injection Hn as <- <-; [done|].
  exists d. split; [done|]. split; [done|].
  destruct (InsertAuditLogContext username _ _ _ _ remote w3) as [a w4] eqn:Ea. cbn [snd].
  apply statement_inv in Ea as [(b & t2 & _ & Hf & ->)|(err & _ & ->)].
  - injection Hf as _ <-. cbn. by rewrite Ht.
  - by rewrite Ht.
Qed.

(** A device's role only changes to a known role and outside a rollout, and nothing
    else of the tables but the audit log does; every draft that was previewed for
    the old role then fails the check of its targets, so it is never applied. *)
Theorem role_change_stales_drafts (username remote tenant schema siteID deviceID role : string) (body : raw_message)
    (draft : rolloutDraft) (device : rolloutDraftDevice) (w w' w2 w3 : world) (checked : res unit) :
  PutDeviceRoleHandler username remote tenant deviceID body w = (RoleSaved role, w') →
  device ∈ draft_device_list draft → dd_DeviceID device = deviceID → dd_Role device ≠ role →
  devices (tn w2) = devices (tn w') → verifyRolloutDraftTargets schema siteID draft w2 = (checked, w3) →
  role ∈ valid_roles ∧ rollout_runs (tn w') = rollout_runs (tn w) ∧ is_ok checked = false ∧
  ∃ d, devices (tn w) !! deviceID = Some d ∧ d_rollout_status d ≠ Some "RUNNING" ∧
    devices (tn w') = <[deviceID := set_role role d]> (devices (tn w)).
Proof.
  intros H Hin Hid Hne Hw2 Hv. apply PutDeviceRoleHandler_saved in H as (Hr & d & Hd & Hs & Ht & Hrows).
  split; [done|]. split; [done|]. split; [|exists d; split; [done|]; split; [|done]; by intros He; rewrite He in Hs].
  unfold verifyRolloutDraftTargets in Hv. destruct (SafeSchemaIdent schema); [|by injection Hv as <- _].
  apply (verify_targets_role _ _ _ _ _ _ (set_role role d) role Hv Hin); [|done|done].
  rewrite Hw2, Ht, Hid. by rewrite lookup_insert_eq.
Qed.
Lemma role_change_stales_drafts_witness :
  let run := PutDeviceRoleHandler "admin" "10.0.0.1" schema_name "ap-1" (Some (JObj [("role", JStr "Gateway")])) (World start []) in
  ∃ role, run.1 = RoleSaved role ∧
    is_ok (verifyRolloutDraftTargets schema_name site_id (Draft site_id "" "" None (Some [DraftDevice "ap-1" "ap-1" "AP" None None None None]))
             run.2).1 = false.
Proof.
  intros run. exists "Gateway". assert (run.1 = RoleSaved "Gateway") as Hr by (vm_compute; reflexivity). split; [exact Hr|].
  apply (role_change_stales_drafts "admin" "10.0.0.1" schema_name schema_name site_id "ap-1" "Gateway"
    (Some (JObj [("role", JStr "Gateway")])) (Draft site_id "" "" None (Some [DraftDevice "ap-1" "ap-1" "AP" None None None None]))
    (DraftDevice "ap-1" "ap-1" "AP" None None None None) (World start []) run.2 run.2
    (verifyRolloutDraftTargets schema_name site_id (Draft site_id "" "" None (Some [DraftDevice "ap-1" "ap-1" "AP" None None None None])) run.2).2).
  - rewrite <- Hr. apply surjective_pairing.
  - by left.
  - reflexivity.
  - discriminate.
  - reflexivity.
  - apply surjective_pairing.
Defined.
