(* ===== verification/TicketsSpec.v ===== *)
(** What the tickets promise: over every history of calls, a ticket is redeemed at
    most once, in time, and for the device it was issued for; and until then it can
    be redeemed, whatever else happens to the store. *)

From S2P Require Import Prelude GoStrings DeviceOperation Tickets.

Definition issued_id (o : Z * ticket_outcome) : option string := match o.2 with Issued id _ => Some id | _ => None end.
Definition redeemed_id (o : Z * ticket_outcome) : option string := match o.2 with Redeemed id _ _ => Some id | _ => None end.
Definition issued (h : list (Z * ticket_outcome)) : list string := omap issued_id h.
Definition redeemed (h : list (Z * ticket_outcome)) : list string := omap redeemed_id h.

Lemma issued_app a b : issued (a ++ b)%list = (issued a ++ issued b)%list.
Proof. apply omap_app. Qed.
Lemma redeemed_app a b : redeemed (a ++ b)%list = (redeemed a ++ redeemed b)%list.
Proof. apply omap_app. Qed.
Lemma redeemed_elem h now id device t : (now, Redeemed id device t) ∈ h → id ∈ redeemed h.
Proof. intros H. apply list_elem_of_omap. by exists (now, Redeemed id device t). Qed.
Lemma issued_elem h now id t : (now, Issued id t) ∈ h → id ∈ issued h.
Proof. intros H. apply list_elem_of_omap. by exists (now, Issued id t). Qed.

(** ** One call *)

(** A ticket of the store that is not used is one that was issued, unchanged. *)
Definition comes_from (s : Store) (now0 : Z) (t t0 : Ticket) : Prop :=
  t_Consumed t0 = false ∧ t_ExpiresAt t0 = (now0 + ttl s)%Z ∧ (t_Consumed t = false → t = t0).
(** A redemption was in time, for the right device. *)
Definition rightful (s : Store) (now now0 : Z) (device : option string) (t t0 : Ticket) : Prop :=
  t = used now t0 ∧ (now <= now0 + ttl s)%Z ∧
  ∀ d, device = Some d → t_DeviceID t0 = d ∧ d ≠ "" ∧ t_TenantSchema t0 ≠ "".
Record good (h : list (Z * ticket_outcome)) (s : Store) : Prop := {
  backed : ∀ id t, tickets s !! id = Some t → ∃ now0 t0, (now0, Issued id t0) ∈ h ∧ comes_from s now0 t t0;
  spent : ∀ id t, id ∈ redeemed h → tickets s !! id = Some t → t_Consumed t = true;
  once : NoDup (redeemed h);
  known : ∀ id, id ∈ redeemed h → id ∈ issued h
}.

Lemma live_Ok now id s t :
  live now id s = Ok t → tickets s !! id = Some t ∧ t_Consumed t = false ∧ (now <= t_ExpiresAt t)%Z.
Proof.
  unfold live, fail_if, expired. destruct (tickets s !! id) as [x|]; [|done]. destruct (t_Consumed x) eqn:Ec; [done|].
  cbn [res_bind]. destruct (Z.ltb_spec (t_ExpiresAt x) now); [done|]. intros [= <-]. done.
Qed.
Lemma gc_lookup now s id t : tickets (gcLocked now s) !! id = Some t → tickets s !! id = Some t.
Proof. cbn. by intros [? _]%map_lookup_filter_Some. Qed.
Lemma good_subset h h' s s' :
  good h s → ttl s' = ttl s → redeemed h' = redeemed h → (∀ o, o ∈ h → o ∈ h') →
  (∀ id t, tickets s' !! id = Some t → tickets s !! id = Some t) → good h' s'.
Proof.
  intros [Hb Hs Ho Hk] Ht Hr Hh Hl. assert (∀ id, id ∈ issued h → id ∈ issued h') as Hi.
  { intros id ((now & o) & Hin & He)%list_elem_of_omap. destruct o; try done. injection He as ->. eapply issued_elem. by apply Hh. }
  split; rewrite ?Hr; [|naive_solver..].
  intros id t (now0 & t0 & Hin & Hc)%Hl%Hb. exists now0, t0. split; [by apply Hh|]. unfold comes_from. by rewrite Ht.
Qed.

(** What a call leads to. *)
Definition good_step (h : list (Z * ticket_outcome)) (s : Store) (now : Z) (o : ticket_outcome) (s' : option Store) : Prop :=
  ∃ s1, s' = Some s1 ∧ ttl s1 = ttl s ∧ good (h ++ [(now, o)])%list s1 ∧
    ∀ id device t, o = Redeemed id device t → ∃ now0 t0, (now0, Issued id t0) ∈ h ∧ rightful s now now0 device t t0.

(** A call that neither issues nor redeems. *)
Lemma quiet_good h s now o s1 : good h s → issued_id (now, o) = None → redeemed_id (now, o) = None → ttl s1 = ttl s →
  (∀ id t, tickets s1 !! id = Some t → tickets s !! id = Some t) → good_step h s now o (Some s1).
Proof.
  intros Hg Hi Hr Ht Hl. exists s1. split; [done|]. split; [done|]. split; [|by intros id device t ->].
  eapply (good_subset h); [done|done| |set_solver|done]. rewrite redeemed_app. unfold redeemed at 2. cbn [omap list_omap].
  rewrite Hr. apply app_nil_r.
Qed.
(** Replacing one ticket keeps the others. *)
Lemma insert_lookup_cases (m : gmap string Ticket) id t id' t' :
  <[id := t]> m !! id' = Some t' → id' = id ∧ t' = t ∨ id' ≠ id ∧ m !! id' = Some t'.
Proof. intros [[<- <-]|[? ?]]%lookup_insert_Some; [by left|by right]. Qed.

Lemma issue_good h s now rand username role deviceID tenantSchema :
  good h s →
  let '(o, s') := perform now (CallIssue rand username role deviceID tenantSchema) (Some s) in
  NoDup (issued (h ++ [(now, o)])%list) → good_step h s now o s'.
Proof.
  intros Hg. cbn [perform]. unfold Issue. destruct (newTicketID rand) as [id|e]; [|intros _; by apply quiet_good].
  set (t := MkTicket _ _ _ _ _ _ _ _). rewrite issued_app. intros (_ & Hnew & _)%NoDup_app.
  assert (id ∉ issued h) as Hid by (intros H; apply (Hnew id H); by left).
  eexists. split; [done|]. split; [done|]. split; [|done]. destruct Hg as [Hb Hs Ho Hk].
  assert (redeemed (h ++ [(now, Issued id t)])%list = redeemed h) as Hr by (rewrite redeemed_app; apply app_nil_r).
  split; rewrite ?Hr.
  - intros id' t' [[-> ->]|[Hne H']]%gc_lookup%insert_lookup_cases.
    + exists now, t. split; [set_solver|]. by split.
    + destruct (Hb id' t' H') as (n1 & t1 & ? & ?). exists n1, t1. split; [set_solver|done].
  - intros id' t' Hin [[-> ->]|[Hne H']]%gc_lookup%insert_lookup_cases; [by apply Hk in Hin|by eapply Hs].
  - done.
  - intros id' Hin. rewrite issued_app, elem_of_app. auto.
Qed.

Lemma redeem_good h s now id device enforce : good h s → (enforce = true ↔ is_Some device) →
  let '(r, s') := consume now id (default "" device) enforce (Some s) in good_step h s now (redeem_outcome id device r) s'.
Proof.
  intros Hg He. unfold consume. destruct (live now id s) as [t|e] eqn:El; [|by apply quiet_good].
  destruct (enforce && _) eqn:Es; [by apply quiet_good|].
  apply live_Ok in El as (Hl & Hc & Hx). destruct Hg as [Hb Hs Ho Hk].
  destruct (Hb id t Hl) as (now0 & t0 & Hin & Hc0 & Hx0 & Ht). rewrite (Ht Hc) in *. clear t Ht Hc.
  assert (redeemed (h ++ [(now, Redeemed id device (used now t0))])%list = (redeemed h ++ [id])%list) as Hr by apply redeemed_app.
  eexists. split; [done|]. split; [done|]. cbn [redeem_outcome]. split; [split; rewrite ?Hr|].
  - intros id' t' [[-> ->]|[Hne H']]%insert_lookup_cases.
    + exists now0, t0. split; [set_solver|]. by split.
    + destruct (Hb id' t' H') as (n1 & t1 & ? & ?). exists n1, t1. split; [set_solver|done].
  - intros id' t' Hin' [[-> ->]|[Hne H']]%insert_lookup_cases; [done|]. eapply Hs; [|done]. set_solver.
  - apply NoDup_app. split; [done|]. split; [|apply NoDup_singleton].
    intros id' Hr' ->%list_elem_of_singleton. specialize (Hs id t0 Hr' Hl). congruence.
  - intros id'. rewrite issued_app, !elem_of_app. intros [H'|H']; [left; by apply Hk|].
    apply list_elem_of_singleton in H' as ->. left. by eapply issued_elem.
  - intros id' device' t' [= <- <- <-]. exists now0, t0. split; [done|]. split; [done|]. split; [lia|].
    intros d ->. rewrite (proj2 He) in Es by done. cbn in Es. apply orb_false_iff in Es as [[E1 E2]%orb_false_iff E3].
    apply String.eqb_neq in E1, E2. apply negb_false_iff, String.eqb_eq in E3. by subst.
Qed.

Lemma perform_good h s now c : good h s →
  let '(o, s') := perform now c (Some s) in NoDup (issued (h ++ [(now, o)])%list) → good_step h s now o s'.
Proof.
  intros Hg. destruct c as [rand username role deviceID tenantSchema|id|id|id deviceID|].
  - by apply issue_good.
  - cbn [perform]. by destruct (Validate now id (Some s)); intros _; apply quiet_good.
  - cbn [perform]. unfold Consume. pose proof (redeem_good h s now id None false Hg) as H. cbn [default] in H.
    destruct (consume _ _ _ _ _). intros _. apply H. split; [done|]. by intros [? ?].
  - cbn [perform]. unfold ConsumeForDevice. pose proof (redeem_good h s now id (Some deviceID) true Hg) as H.
    cbn [default] in H. destruct (consume _ _ _ _ _). intros _. apply H. by split.
  - intros _. apply quiet_good; [done..|]. apply gc_lookup.
Qed.

(** ** Histories *)

Lemma perform_all_good calls h s os s' : good h s → perform_all calls (Some s) = (os, s') →
  NoDup (issued (h ++ os)%list) →
  NoDup (redeemed (h ++ os)%list) ∧
  ∀ k now id device t, os !! k = Some (now, Redeemed id device t) →
    ∃ now0 t0, (now0, Issued id t0) ∈ (h ++ take k os)%list ∧ rightful s now now0 device t t0.
Proof.
  revert h s os s'. induction calls as [|[now c] calls IH]; intros h s os s' Hg; cbn [perform_all].
  { intros [= <- <-]. rewrite app_nil_r. intros _. split; [apply Hg|done]. }
  pose proof (perform_good h s now c Hg) as Hstep. destruct (perform now c (Some s)) as [o s1].
  destruct (perform_all calls s1) as [os1 s2] eqn:Ep. intros [= <- <-]. rewrite (cons_middle (now, o) h os1), app_assoc. intros Hnd.
  assert (NoDup (issued (h ++ [(now, o)])%list)) as Hnd1.
  { rewrite issued_app in Hnd. by apply NoDup_app in Hnd as [? _]. }
  destruct (Hstep Hnd1) as (s3 & -> & Ht & Hg' & Hr).
  destruct (IH _ _ _ _ Hg' Ep Hnd) as [H1 H2]. split; [done|].
  intros [|k] n id device t; cbn [lookup list_lookup].
  - intros [= <- ->]. destruct (Hr _ _ _ eq_refl) as (now0 & t0 & Hin & Hf). exists now0, t0. split; [by rewrite app_nil_r|done].
  - intros Hk. destruct (H2 k n id device t Hk) as (now0 & t0 & Hin & Hf). exists now0, t0. cbn [take].
    rewrite (cons_middle (now, o) h), app_assoc. split; [done|]. unfold rightful in *. by rewrite <- Ht.
Qed.
Lemma new_store_good ttl : good [] (LoadStore ttl).
Proof. split; [intros id t H; cbn in H; by rewrite lookup_empty in H|intros id t H; by apply elem_of_nil in H|apply NoDup_nil_2|done]. Qed.

(** C20: a ticket is redeemed at most once over every history of a store, and only
    after it was issued, within its lifetime, for the device and the tenant it was
    issued for, with the identity of the issue; the random identifiers of a
    history being distinct. *)
Theorem ticket_single_use (lifetime : Z) (calls : list (Z * ticket_call)) (history : list (Z * ticket_outcome))
    (s' : option Store) :
  perform_all calls (Some (LoadStore lifetime)) = (history, s') → NoDup (issued history) →
  NoDup (redeemed history) ∧
  ∀ k now id device t, history !! k = Some (now, Redeemed id device t) →
    ∃ j now0 t0, (j < k)%nat ∧ history !! j = Some (now0, Issued id t0) ∧ t = used now t0 ∧
      (now <= now0 + ttl (LoadStore lifetime))%Z ∧
      ∀ d, device = Some d → t_DeviceID t0 = d ∧ d ≠ "" ∧ t_TenantSchema t0 ≠ "".
Proof.
  intros Hp Hnd. destruct (perform_all_good calls [] _ history s' (new_store_good lifetime) Hp Hnd) as [H1 H2].
  split; [exact H1|]. intros k now id device t Hk. destruct (H2 k now id device t Hk) as (now0 & t0 & Hin & Ht & Hn & Hd).
  apply list_elem_of_lookup in Hin as [j Hj]. exists j, now0, t0. cbn [app] in Hj. apply lookup_take_Some in Hj as [Hj Hlt].
  do 4 (split; [done|]). exact Hd.
Qed.
Definition sample_bytes : entropy := Some (map N.of_nat (seq 0 16)).
Definition sample_ticket : string := hex_encode (map N.of_nat (seq 0 16)).
Definition ticket_history :=
  perform_all [(0%Z, CallIssue sample_bytes "ann" "ADMIN" "ap-1" "acme"); (5%Z, CallConsumeForDevice sample_ticket "ap-2");
               (9%Z, CallConsumeForDevice sample_ticket "ap-1"); (10%Z, CallConsumeForDevice sample_ticket "ap-1")]
    (Some (LoadStore 0)).
Lemma ticket_single_use_witness :
  map (λ o, match o.2 with Redeemed _ _ t => Ok (t_Username t) | Refused e => Err e | _ => Ok "" end) ticket_history.1 =
    [Ok ""; Err ErrTicketScope; Ok "ann"; Err ErrTicketReused] ∧ NoDup (redeemed ticket_history.1).
Proof.
  split; [vm_compute; reflexivity|].
  apply (ticket_single_use 0 [(0%Z, CallIssue sample_bytes "ann" "ADMIN" "ap-1" "acme");
    (5%Z, CallConsumeForDevice sample_ticket "ap-2"); (9%Z, CallConsumeForDevice sample_ticket "ap-1");
    (10%Z, CallConsumeForDevice sample_ticket "ap-1")] ticket_history.1 ticket_history.2).
  - unfold ticket_history. apply surjective_pairing.
  - apply (bool_decide_unpack _). vm_compute. exact I.
Defined.

(** ** Availability *)

(** A ticket that is alive stays so through calls that neither reissue nor redeem
    its identifier, until its time is over. *)
Lemma perform_keeps now c s o s' id t :
  tickets s !! id = Some t → perform now c (Some s) = (o, s') → issued_id (now, o) ≠ Some id →
  redeemed_id (now, o) ≠ Some id → (now <= t_ExpiresAt t)%Z → ∃ s1, s' = Some s1 ∧ tickets s1 !! id = Some t.
Proof.
  intros Hl Hp Hi Hr Hn.
  assert (∀ m, m !! id = Some t → tickets (gcLocked now (MkStore m (ttl s))) !! id = Some t) as Hgc.
  { intros m Hm. apply map_lookup_filter_Some. split; [done|]. cbn. unfold expired. apply Z.ltb_ge. lia. }
  assert (∀ id' device enforce out, consume now id' device enforce (Some s) = out →
    (∃ e, out = (Err e, Some s)) ∨ ∃ t', out = (Ok t', Some (MkStore (<[id' := t']> (tickets s)) (ttl s)))) as Hcons.
  { intros id' device enforce out <-. unfold consume. destruct (live now id' s); [|by left; eexists].
    destruct (enforce && _); [by left; eexists|by right; eexists]. }
  destruct c as [rand username role deviceID tenantSchema|id'|id'|id' deviceID|]; cbn [perform] in Hp.
  - unfold Issue in Hp. destruct (newTicketID rand) as [id'|e]; [|injection Hp as <- <-; by eexists].
    injection Hp as <- <-. eexists. split; [done|]. apply Hgc. rewrite lookup_insert_ne; [done|]. intros ->. by apply Hi.
  - destruct (Validate now id' (Some s)); injection Hp as <- <-; by eexists.
  - destruct (Hcons id' "" false _ eq_refl) as [[e He]|[t' He]]; unfold Consume in Hp; rewrite He in Hp; injection Hp as <- <-.
    + by eexists.
    + eexists. split; [done|]. cbn. rewrite lookup_insert_ne; [done|]. intros ->. by apply Hr.
  - destruct (Hcons id' deviceID true _ eq_refl) as [[e He]|[t' He]]; unfold ConsumeForDevice in Hp; rewrite He in Hp;
      injection Hp as <- <-.
    + by eexists.
    + eexists. split; [done|]. cbn. rewrite lookup_insert_ne; [done|]. intros ->. by apply Hr.
  - injection Hp as <- <-. eexists. split; [done|]. by apply Hgc.
Qed.
Lemma perform_all_keeps calls s os s' id t :
  tickets s !! id = Some t → perform_all calls (Some s) = (os, s') → id ∉ issued os → id ∉ redeemed os →
  Forall (λ o, (o.1 <= t_ExpiresAt t)%Z) os → ∃ s1, s' = Some s1 ∧ tickets s1 !! id = Some t.
Proof.
  revert s os. induction calls as [|[now c] calls IH]; intros s os Hl; cbn [perform_all]; [intros [= <- <-]; by eexists|].
  destruct (perform now c (Some s)) as [o s1] eqn:Ep. destruct (perform_all calls s1) as [os1 s2] eqn:Ea.
  intros [= <- <-]. change ((now, o) :: os1) with ([(now, o)] ++ os1)%list. rewrite issued_app, redeemed_app, !not_elem_of_app.
  intros [Hi1 Hi2] [Hr1 Hr2] [Hn Hos]%Forall_cons.
  assert (∀ f : Z * ticket_outcome → option string, id ∉ omap f [(now, o)] → f (now, o) ≠ Some id) as Hf.
  { intros f Hf He. apply Hf. cbn. rewrite He. by left. }
  eapply perform_keeps in Ep as (s3 & -> & Hl'); [|exact Hl|by apply Hf|by apply Hf|done]. by eapply IH.
Qed.

(** C51: a ticket stays redeemable: whatever happens between, unless the identifier is
    drawn again or redeemed, the device it was issued for redeems it within its
    lifetime; requests for other devices, refused calls and the collector do not
    use it up. *)
Theorem ticket_available (now0 now : Z) (rand : entropy) (username role deviceID tenantSchema id : string) (t : Ticket)
    (s s1 s2 : option Store) (calls : list (Z * ticket_call)) (history : list (Z * ticket_outcome)) :
  Issue now0 rand username role deviceID tenantSchema s = (Ok (id, t), s1) →
  perform_all calls s1 = (history, s2) → id ∉ issued history → id ∉ redeemed history →
  Forall (λ o, (o.1 <= t_ExpiresAt t)%Z) history → deviceID ≠ "" → tenantSchema ≠ "" →
  (now0 <= now)%Z → (now <= t_ExpiresAt t)%Z →
  (ConsumeForDevice now id deviceID s2).1 = Ok (used now t) ∧
  t_Username t = username ∧ t_Role t = role ∧ t_TenantSchema t = tenantSchema.
Proof.
  unfold Issue. destruct s as [s|]; [|done]. destruct (newTicketID rand) as [id'|]; [|done].
  intros [= -> <- <-] Hp Hi Hr Hall Hd Ht Hn0 Hn.
  eapply perform_all_keeps in Hp as (s3 & -> & Hl); [|shelve|exact Hi|exact Hr|exact Hall].
  split; [|done]. unfold ConsumeForDevice, consume, live. rewrite Hl. cbn [t_Consumed fail_if res_bind]. unfold expired.
  rewrite (proj2 (Z.ltb_ge _ _)) by exact Hn. cbn [fail_if res_bind t_DeviceID t_TenantSchema].
  rewrite (proj2 (String.eqb_neq _ _) Hd), (proj2 (String.eqb_neq _ _) Ht), String.eqb_refl. done.
  Unshelve. apply map_lookup_filter_Some. split; [apply lookup_insert_eq|]. cbn. unfold expired. apply Z.ltb_ge.
  cbn in Hn |- *. lia.
Qed.
Lemma ticket_available_witness :
  let issue := Issue 0 sample_bytes "ann" "ADMIN" "ap-1" "acme" (Some (LoadStore 0)) in
  let calls := [(5%Z, CallConsumeForDevice sample_ticket "ap-2"); (6%Z, CallGC)] in
  match issue.1 with
  | Ok (id, t) => (ConsumeForDevice 7 id "ap-1" (perform_all calls issue.2).2).1 = Ok (used 7 t)
  | Err _ => False
  end.
Proof.
  intros issue calls. destruct issue as [[[id t]|e] s1] eqn:Hi; [|vm_compute in Hi; discriminate Hi]. cbn [fst snd].
  assert (id = sample_ticket ∧ t = MkTicket "ann" "ADMIN" "ap-1" "acme" 0 30000000000 false None) as [-> ->]
    by (vm_compute in Hi; injection Hi as <- <- _; split; reflexivity).
  apply (ticket_available 0 7 sample_bytes "ann" "ADMIN" "ap-1" "acme" sample_ticket
    (MkTicket "ann" "ADMIN" "ap-1" "acme" 0 30000000000 false None) (Some (LoadStore 0)) s1 (perform_all calls s1).2 calls
    (perform_all calls s1).1 Hi); [apply surjective_pairing| | | |discriminate|discriminate|lia|cbn; lia].
  all: vm_compute in Hi; injection Hi as <-; apply (bool_decide_unpack _); vm_compute; exact I.
Defined.
