(* ===== verification/AccessSpec.v ===== *)
(** What the middleware promises: a login binds its requests to one tenant, a user
    whose tenant was switched off is served from another one, and a console ticket
    opens one console of one device. *)

From S2P Require Import Prelude GoStrings Json Store DeviceOperation Uci UciStateSpec Tickets Access.

(** ** Aliases *)

(** The rows of the tenants: their aliases are well formed and distinct. *)
Record registered (l : landlord) : Prop := {
  aliases_valid : ∀ id t, tenants l !! id = Some t → valid_alias (tr_alias t) = true;
  aliases_distinct : ∀ id1 id2 t1 t2, tenants l !! id1 = Some t1 → tenants l !! id2 = Some t2 →
    tr_alias t1 = tr_alias t2 → id1 = id2
}.
(** What happens to the tables: tenants are registered and switched, users change. *)
Inductive landlord_step : landlord → landlord → Prop :=
  | RegisterStep f now new_id name alias l : landlord_step l (RegisterTenant f now new_id name alias l).2
  | ToggleStep fault id active l : landlord_step l (ToggleTenant fault id active l).2
  | UsersStep u l : landlord_step l (Landlord (tenants l) u).

Lemma insert_registered l id t : registered l → valid_alias (tr_alias t) = true →
  (∀ id' t', id' ≠ id → tenants l !! id' = Some t' → tr_alias t' ≠ tr_alias t) →
  registered (Landlord (<[id := t]> (tenants l)) (users l)).
Proof.
  intros [Hv Hd] Ht Hne. split; cbn [tenants].
  - intros id' t' [[<- <-]|[_ H]]%lookup_insert_Some; [done|by eapply Hv].
  - intros i1 i2 t1 t2 [[<- <-]|[? H1]]%lookup_insert_Some [[<- <-]|[? H2]]%lookup_insert_Some; [done| | |by eauto].
    + intros E. exfalso. by eapply (Hne i2 t2).
    + intros E. exfalso. by eapply (Hne i1 t1).
Qed.
Lemma step_registered l l' : landlord_step l l' → registered l → registered l'.
Proof.
  intros Hs Hr. destruct Hs as [f now new_id name alias l|fault id active l|u l].
  - unfold RegisterTenant. destruct (valid_alias _) eqn:Ev; [|done]. cbn [negb]. destruct (g_check f); [done|].
    case_bool_decide as He; [done|]. destruct (_ || _ || _); [done|]. cbv zeta.
    assert (registered (Landlord (<[new_id := TenantRow (trim_space name) (normalize_alias alias) true now]> (tenants l)) (users l))).
    { apply insert_registered; [done..|]. intros id' t' _ Hl E. apply He. by exists id', t'. }
    destruct (g_migrate f); [by destruct (g_delete f)|done].
  - unfold ToggleTenant. destruct fault; [done|]. destruct (uuid_in id) as [u|]; [|done].
    destruct (tenants l !! u) as [t|] eqn:El; [|done]. apply insert_registered; [done|exact (aliases_valid l Hr u t El)|].
    intros id' t' Hne Hl E. apply Hne. exact (aliases_distinct l Hr id' u t' t Hl El E).
  - by destruct Hr as [Hv Hd].
Qed.
Lemma history_registered l l' : rtc landlord_step l l' → registered l → registered l'.
Proof. induction 1 as [|l1 l2 l3 H12 _ IH]; [done|]. intros. by apply IH, (step_registered l1). Qed.

Lemma alias_char_name c : alias_char c = true → name_char c = true ∧ lower_byte c = c ∧ schema_start c || is_digit c = true.
Proof. destruct c as [[] [] [] [] [] [] [] []]; vm_compute; try done; intros H; discriminate H. Qed.
Lemma alias_fold a : str_forall alias_char a = true → fold_case a = a.
Proof.
  induction a as [|c a IH]; [done|]. intros [Hc Ha]%andb_true_iff. specialize (IH Ha).
  assert (fold_case (String c a) = String (lower_byte c) (fold_case a)) as ->.
  { destruct c as [[] [] [] [] [] [] [] []]; vm_compute in Hc; try discriminate Hc; reflexivity. }
  rewrite IH. by destruct (alias_char_name c Hc) as (_ & -> & _).
Qed.
(** What the middleware does to an alias. *)
Lemma valid_alias_facts a : valid_alias a = true →
  a ≠ "" ∧ SafeTenantSchema a = Ok ("tenant_" +:+ a) ∧ fold_case a = a ∧ trim_space a = a.
Proof.
  destruct a as [|c r]; [done|]. unfold valid_alias.
  intros [[[Hc Hr]%andb_true_iff Hn]%andb_true_iff Hl]%andb_true_iff. apply Nat.leb_le in Hl.
  assert (str_forall alias_char (String c r) = true) as Ha.
  { cbn. unfold alias_char at 1. by rewrite Hc, Hr. }
  assert (isValidSchemaName (String c r) = true) as Hs.
  { unfold isValidSchemaName. unfold schema_start at 1. rewrite Hc, orb_true_r. cbn [orb andb].
    rewrite (proj2 (Nat.leb_le _ _)) by lia. rewrite andb_true_r. revert Hr. apply str_forall_impl.
    intros x Hx. by destruct (alias_char_name x Hx) as (_ & _ & ?). }
  split; [done|]. split; [|split; [by apply alias_fold|]].
  - unfold SafeTenantSchema. rewrite Hs. cbn [String.eqb fail_if res_bind]. rewrite (proj2 (Nat.ltb_ge _ _)) by (cbn; lia). done.
  - apply trim_name. split; [done|]. revert Ha. apply str_forall_impl. intros x Hx. by destruct (alias_char_name x Hx).
Qed.
Lemma active_alias_spec l a : active_alias l a = true ↔ ∃ id t, tenants l !! id = Some t ∧ tr_active t = true ∧ tr_alias t = a.
Proof.
  unfold active_alias, active_tenants. rewrite existsb_exists. setoid_rewrite <- list_elem_of_In.
  setoid_rewrite stable_sort_perm. setoid_rewrite list_elem_of_filter. setoid_rewrite String.eqb_eq. split.
  - intros (t & [Ha Hin] & He). apply list_elem_of_In, in_map_iff in Hin as ([id t'] & <- & Hin).
    apply list_elem_of_In, elem_of_map_to_list in Hin. by exists id, t'.
  - intros (id & t & Hl & Ha & He). exists t. split; [|done]. split; [done|]. apply list_elem_of_In, in_map_iff.
    exists (id, t). split; [done|]. apply list_elem_of_In. by apply elem_of_map_to_list.
Qed.
Lemma active_registered l a : registered l → active_alias l a = true → valid_alias a = true.
Proof. intros Hr (id & t & Hl & _ & <-)%active_alias_spec. by eapply Hr. Qed.

Lemma no_tenants_registered l : tenants l = ∅ → registered l.
Proof. intros H. split; rewrite H; [by intros ? ? ?%lookup_empty_Some|by intros ? ? ? ? ?%lookup_empty_Some]. Qed.
Lemma equal_fold_empty s : s ≠ "" → equal_fold s "" = false.
Proof.
  intros Hs. apply String.eqb_neq. change (fold_case "") with "". destruct s as [|c s]; [done|]. cbn [fold_case].
  repeat case_match; done.
Qed.
Lemma safe_ident s t : SafeSchemaIdent s = Ok t → t = s.
Proof. unfold SafeSchemaIdent. destruct (isValidSchemaName s); [by intros [= ->]|done]. Qed.
Lemma tenant_not_public a : ("tenant_" +:+ a =? "public") = false.
Proof. reflexivity. Qed.

Section access.
Context `{Tokens}.

(** ** The token of a login *)

Lemma login_spec p f_user f_tenant l method body token username role alias :
  LoginHandler p f_user f_tenant l method body = LoggedIn token username role alias →
  ∃ u, users l !! username = Some u ∧ u_role u = Some role ∧ alias = login_alias f_tenant l u ∧
    jwt_sign (p_secret p) (login_claims (p_seconds p) username role (u_tenant u) alias) = Some token.
Proof.
  unfold LoginHandler. destruct (negb _); [done|]. destruct (unmarshal _ _ _) as [q|]; [|done].
  destruct f_user as [[]|]; [done..|]. destruct (users l !! lq_username q) as [u|] eqn:Hu; [|done].
  destruct (u_role u) as [role'|] eqn:Hr; [|done]. destruct (negb _); [done|]. cbv zeta.
  destruct (jwt_sign _ _) eqn:Hj; [|done]. intros [= <- <- <- <-]. by exists u.
Qed.
Lemma login_claims_lookup now username role tenant alias :
  let c := login_claims now username role tenant alias in
  c !! "sub" = Some (JStr username) ∧ c !! "role" = Some (JStr role) ∧ c !! "exp" = Some (JInt (now + 86400)) ∧
  claim_text "schema_alias" c = alias.
Proof. unfold login_claims, claim_text. destruct (String.eqb_spec alias "") as [->|]; split_and!; by simplify_map_eq. Qed.

(** Whether a request is a WebSocket to a console. *)
Definition console (r : http_request) : bool := equal_fold (h_upgrade r) "websocket" && has_suffix (h_path r) "/ssh".
(** A bearer request is served with the claims that were signed. *)
Lemma bearer_request p f l r store token secret c expiry :
  jwt_sign secret c = Some token → p_secret p = secret → c !! "exp" = Some (JInt expiry) →
  bearer (h_authorization r) = Some token → trim_space (h_ticket r) = "" →
  WithAuth p f l r store =
    (if console r then Denied 401 "UNAUTHORIZED: WebSocket ticket required"
     else if (p_seconds p <? expiry)%Z then
       match requested_tenant f l r c None with inl denied => denied | inr tenant => open_tenant f l c tenant end
     else Denied 401 "UNAUTHORIZED: invalid token", store).
Proof.
  intros Hs <- He Hb Ht. unfold WithAuth, authenticate. fold (console r). rewrite Ht, Hb. cbn [String.eqb negb orb].
  destruct (console r); [done|]. destruct (String.eqb_spec token "") as [->|_]; [by apply sign_nonempty in Hs|].
  rewrite (sign_parse _ _ _ _ _ _ Hs He) by done. by destruct (_ <? _)%Z.
Qed.
Lemma open_tenant_Passed f l c tenant c' schema : open_tenant f l c tenant = Passed c' schema →
  c' = c ∧ (tenant = "" ∧ schema = None ∨ active_alias l tenant = true ∧ schema = Some ("tenant_" +:+ tenant)).
Proof.
  unfold open_tenant. destruct (String.eqb_spec tenant "") as [->|Hne]; cbn [negb].
  - destruct (f_begin f); [done|]. destruct (f_path f); [done|]. intros [= <- <-]. auto.
  - destruct (SafeTenantSchema tenant) as [full|] eqn:Hs; [|done]. destruct (f_begin f); [done|]. destruct (f_lookup f); [done|].
    destruct (active_alias l tenant); [|done]. destruct (f_path f); [done|]. intros [= <- <-]. split; [done|]. right. split; [done|].
    unfold SafeTenantSchema in Hs. do 3 (destruct (fail_if _ _); [cbn [res_bind] in Hs|done]). by injection Hs as <-.
Qed.
Lemma open_tenant_active l c alias : valid_alias alias = true → active_alias l alias = true →
  open_tenant no_faults l c alias = Passed c (Some ("tenant_" +:+ alias)).
Proof.
  intros Hv Ha. destruct (valid_alias_facts alias Hv) as (Hne & Hs & _). unfold open_tenant.
  rewrite (proj2 (String.eqb_neq _ _) Hne), Hs, Ha. done.
Qed.

(** A user who is no superadmin asks for the tenant of the claims, or is refused. *)
Lemma requested_bound f l r c alias :
  equal_fold (claim_text "role" c) "SUPERADMIN" = false → claim_text "schema_alias" c = alias → trim_space alias = alias →
  alias ≠ "" → fold_case alias = alias →
  requested_tenant f l r c None = inl (Denied 403 "FORBIDDEN: tenant assumption requires SUPERADMIN") ∧
    trim_space (h_tenant r) ∉ [""; alias] ∨
  ∃ tenant, requested_tenant f l r c None = inr tenant ∧ fold_case tenant = alias ∧
    (trim_space (h_tenant r) ∈ [""; alias] → tenant = alias).
Proof.
  intros Hrole Hsa Htr Hne Hf. unfold requested_tenant, tenantHeaderAllowed. rewrite Hrole, Hsa, Htr.
  destruct (String.eqb_spec (trim_space (h_tenant r)) "") as [He|He]; cbn [negb andb].
  - right. exists alias. rewrite He, String.eqb_refl, (proj2 (String.eqb_neq _ _) Hne). done.
  - destruct (equal_fold (trim_space (h_tenant r)) alias) eqn:Ef; cbn [negb].
    + right. exists (trim_space (h_tenant r)). pose proof (proj2 (String.eqb_neq _ _) He) as E. rewrite E. cbv beta iota zeta. rewrite E.
      split; [done|].
      apply String.eqb_eq in Ef. split; [congruence|]. set_solver.
    + left. split; [done|]. intros Hin. assert (trim_space (h_tenant r) = alias) as E by set_solver.
      rewrite E in Ef. unfold equal_fold in Ef. by rewrite String.eqb_refl in Ef.
Qed.


(** ** Users without an active tenant *)

Lemma active_tenants_elem l t : t ∈ active_tenants l → active_alias l (tr_alias t) = true.
Proof. intros Ht. unfold active_alias. apply existsb_exists. exists t. split; [by apply list_elem_of_In|]. apply String.eqb_refl. Qed.
Lemma toggled_off id tenantID l l1 : uuid_in tenantID = Some id → ToggleTenant false tenantID false l = (Ok tt, l1) →
  users l1 = users l ∧ ∃ t, tenants l1 !! id = Some t ∧ tr_active t = false.
Proof.
  intros Hid. unfold ToggleTenant. rewrite Hid. destruct (tenants l !! id) as [t|]; [|done]. intros [= <-]. split; [done|].
  eexists. split; [apply lookup_insert_eq|]. done.
Qed.


(** ** Console tickets *)

(** A console request with a ticket, and a ticket that is spent. *)
Lemma ticket_request p f l r s id : trim_space (h_ticket r) = id → id ≠ "" → console r = true →
  WithAuth p f l r (Some s) =
    match ConsumeForDevice (p_nanos p) id (h_device r) (Some s) with
    | (Err e, store) =>
        (Denied (if errors_is e ErrTicketScope then 403 else 401) "UNAUTHORIZED: invalid or expired WebSocket ticket", store)
    | (Ok t, store) =>
        let c : claims := {["sub" := JStr (t_Username t); "role" := JStr (t_Role t); "schema_alias" := JStr (t_TenantSchema t)]} in
        (match requested_tenant f l r c (Some (t_TenantSchema t)) with
         | inl denied => denied
         | inr tenant => open_tenant f l c tenant
         end, store)
    end.
Proof.
  intros Ht Hid Hc. unfold WithAuth, authenticate. fold (console r). rewrite Ht, Hc, (proj2 (String.eqb_neq _ _) Hid). cbn [negb orb].
  by destruct (ConsumeForDevice _ _ _ _) as [[t|e] store].
Qed.
Lemma spent_ticket p f l r s id t : trim_space (h_ticket r) = id → id ≠ "" → tickets s !! id = Some t → t_Consumed t = true →
  ∃ text, WithAuth p f l r (Some s) = (Denied 401 text, Some s).
Proof.
  intros Ht Hid Hl Hc. destruct (console r) eqn:Hr.
  - rewrite (ticket_request p f l r s id Ht Hid Hr). unfold ConsumeForDevice, consume, live. rewrite Hl, Hc. by eexists.
  - unfold WithAuth, authenticate. fold (console r). rewrite Ht, Hr, (proj2 (String.eqb_neq _ _) Hid). by eexists.
Qed.

Lemma requested_ticket f l r c alias : alias ≠ "" → trim_space (h_tenant r) = "" → requested_tenant f l r c (Some alias) = inr alias.
Proof.
  intros Ha Hh. apply String.eqb_neq in Ha. unfold requested_tenant. rewrite Hh. cbn [String.eqb negb andb]. rewrite Ha.
  cbv beta iota zeta. by rewrite Ha.
Qed.

(** C18: a console ticket opens one console: the ticket that a user of a tenant is given
    for a device of that tenant is refused, and stays good, for any other device; within its lifetime it opens the
    console of that device, on the tenant it was issued in and with the user's role,
    once; and after that it is refused for whatever is asked. *)
Theorem console_ticket_once (p p1 p2 : process) (rand : entropy) (f_devices : bool) (devices : gset string)
    (authorization alias id : string) (body : raw_message) (expires : Z) (s : Store) (store1 : option Store)
    (f f2 : query_faults) (l l2 : landlord) (r r2 : http_request) :
  IssueWSTicketHandler p rand f_devices devices authorization (Some ("tenant_" +:+ alias)) body (Some s) =
    (TicketIssued id expires, store1) →
  valid_alias alias = true → id ≠ "" → (0 <= ttl s)%Z → (p_nanos p <= p_nanos p1 <= p_nanos p + ttl s)%Z →
  console r = true → trim_space (h_ticket r) = id → trim_space (h_tenant r) = "" →
  trim_space (h_ticket r2) = id →
  ∃ device token c,
    device ∈ devices ∧ bearer authorization = Some token ∧ jwt_parse (p_seconds p) (hmac_only (p_secret p)) token = Some c ∧
    (h_device r ≠ device →
     WithAuth p1 f l r store1 = (Denied 403 "UNAUTHORIZED: invalid or expired WebSocket ticket", store1)) ∧
    (h_device r = device → let '(result, store2) := WithAuth p1 f l r store1 in
     (f = no_faults → active_alias l alias = true → ∃ ct, result = Passed ct (Some ("tenant_" +:+ alias)) ∧
        claim_text "role" ct = claim_text "role" c ∧ claim_text "schema_alias" ct = alias) ∧
     (∀ ct schema, result = Passed ct schema → schema = Some ("tenant_" +:+ alias) ∧ active_alias l alias = true) ∧
     ∃ text, WithAuth p2 f2 l2 r2 store2 = (Denied 401 text, store2)).
Proof.
  unfold IssueWSTicketHandler. destruct (bearer authorization) as [token|]; [|done].
  destruct (jwt_parse _ _ _) as [c|] eqn:Hj; [|done]. cbv zeta. destruct (unmarshal _ _ _) as [raw|]; [|done].
  destruct (String.eqb_spec (trim_space raw) "") as [|Hdev]; [done|]. cbn [default from_option]; unfold Datatypes.id.
  destruct (SafeSchemaIdent _) as [schema|] eqn:Hs; [|done]. apply safe_ident in Hs as ->. rewrite tenant_not_public.
  destruct f_devices; [done|]. case_bool_decide as Hin; [|done]. cbn [negb].
  replace (trim_prefix _ _) with alias by (unfold trim_prefix; by rewrite strip_prefix_app).
  unfold Issue. destruct (newTicketID rand) as [id'|]; [|done]. set (t := MkTicket _ _ _ _ _ _ _ _). intros [= <- _ <-].
  intros Hv Hid Httl Hn Hc Htk Hh Htk2. exists (trim_space raw), token, c. split; [done|]. split; [done|]. split; [done|].
  destruct (valid_alias_facts alias Hv) as (Hane & _ & _ & Htr).
  set (s1 := gcLocked _ _). assert (tickets s1 !! id' = Some t) as Hlook.
  { apply map_lookup_filter_Some. split; [apply lookup_insert_eq|]. cbn. unfold expired. apply Z.ltb_ge. cbn. lia. }
  assert (live (p_nanos p1) id' s1 = Ok t) as Hlive.
  { unfold live. rewrite Hlook. change (expired (p_nanos p1) t) with (p_nanos p + ttl s <? p_nanos p1)%Z.
    by rewrite (proj2 (Z.ltb_ge _ _)) by lia. }
  split; intros Hd.
  - rewrite (ticket_request p1 f l r s1 id' Htk Hid Hc). unfold ConsumeForDevice, consume. rewrite Hlive.
    change (t_DeviceID t) with (trim_space raw). rewrite (proj2 (String.eqb_neq (trim_space raw) (h_device r))) by congruence.
    by rewrite orb_true_r.
  - rewrite (ticket_request p1 f l r s1 id' Htk Hid Hc). unfold ConsumeForDevice, consume. rewrite Hlive.
    change (t_DeviceID t) with (trim_space raw). change (t_TenantSchema t) with alias. cbv zeta.
    rewrite Hd, String.eqb_refl, (proj2 (String.eqb_neq _ _) Hdev), (proj2 (String.eqb_neq _ _) Hane).
    cbv beta iota zeta delta [negb orb andb]. change (t_TenantSchema (used (p_nanos p1) t)) with alias.
    rewrite requested_ticket by done. split; [|split].
    + intros -> Hact. eexists. rewrite (open_tenant_active l _ alias Hv Hact). done.
    + intros ct schema [_ [[-> _]|[? ->]]]%open_tenant_Passed; done.
    + by apply spent_ticket with id' (used (p_nanos p1) t); [| |apply lookup_insert_eq|].
Qed.
End access.

(** ** A token library that signs one set of claims *)

Definition plain (j : json) : option (string + number) :=
  match j with JStr s => Some (inl s) | JNum n => Some (inr n) | _ => None end.
Definition plain_json (x : string + number) : json := match x with inl s => JStr s | inr n => JNum n end.
Abbreviation plain_claims := (gmap string (string + number)).
Definition toy_sign (known : plain_claims) (secret : string) (c : claims) : option string :=
  if bool_decide (map_Forall (λ _ j, is_Some (plain j)) c) && bool_decide (omap plain c = known) && (secret =? "s3cret")
  then Some "token" else None.
Definition toy_parse (known : plain_claims) (now : Z) (keyfunc : signing_method → option string) (token : string) : option claims :=
  if (token =? "token") && bool_decide (keyfunc HMAC = Some "s3cret") then
    match known !! "exp" with
    | Some (inr e) => if (now <? mant e)%Z then Some (plain_json <$> known) else None
    | _ => None
    end
  else None.
Lemma plain_claims_exact (c : claims) : map_Forall (λ _ j, is_Some (plain j)) c → c = plain_json <$> omap plain c.
Proof.
  intros Hp. apply map_eq. intros k. rewrite lookup_fmap, lookup_omap. destruct (c !! k) as [j|] eqn:E; [|done].
  destruct (Hp k j E) as [x Hx]. cbn. rewrite Hx. destruct j; try discriminate Hx; by injection Hx as <-.
Qed.
Lemma toy_law known secret (c : claims) token expiry now keyfunc :
  toy_sign known secret c = Some token → c !! "exp" = Some (JInt expiry) → keyfunc HMAC = Some secret →
  toy_parse known now keyfunc token = if (now <? expiry)%Z then Some c else None.
Proof.
  unfold toy_sign, toy_parse. case_bool_decide as Hp; [|done]. case_bool_decide as Hk; [|done].
  destruct (String.eqb_spec secret "s3cret") as [->|]; [|done]. intros [= <-] He ->.
  rewrite (bool_decide_true _ eq_refl). cbn [String.eqb Ascii.eqb Bool.eqb andb]. rewrite <- Hk, lookup_omap, He. cbn.
  by rewrite <- plain_claims_exact.
Qed.
Definition toy_tokens (known : plain_claims) : Tokens :=
  Build_Tokens (toy_sign known) (toy_parse known) (λ hash password, hash =? "#" +:+ password)
    ltac:(intros secret c; unfold toy_sign; by case_match) (toy_law known).

Definition acme_id : string := "00000000-0000-4000-8000-000000000001".
Definition bob_id : string := "00000000-0000-4000-8000-000000000002".
Definition sample_user : user_row := UserRow "#pw" (Some "ADMIN") (Some acme_id).
Definition no_register_faults : register_faults := RegisterFaults false false false false.
Definition sample_users : landlord := Landlord ∅ {["ann" := sample_user]}.
Definition acme_landlord : landlord := (RegisterTenant no_register_faults 1 acme_id "Acme" "acme" sample_users).2.
Definition sample_landlord : landlord := (RegisterTenant no_register_faults 2 bob_id "Bob" " Bob-2 " acme_landlord).2.
Lemma sample_history : rtc landlord_step sample_users sample_landlord.
Proof. eapply rtc_l; [apply RegisterStep|]. eapply rtc_once, RegisterStep. Qed.
Definition sample_process : process := Process "s3cret" false 100 1000.
Definition login_body : raw_message := Some (JObj [("username", JStr "ann"); ("password", JStr "pw")]).
Definition sample_request (tenant : string) : http_request := HttpRequest "Bearer token" "" tenant "" "" "/api/devices" "".
Definition acme_claims : plain_claims :=
  {["sub" := inl "ann"; "role" := inl "ADMIN"; "exp" := inr (int_num 86500); "iat" := inr (int_num 100);
    "schema_alias" := inl "acme"; "tenant_id" := inl acme_id]}.
Definition bare_claims : plain_claims :=
  {["sub" := inl "ann"; "role" := inl "ADMIN"; "exp" := inr (int_num 86500); "iat" := inr (int_num 100)]}.


Definition toggled_landlord : landlord := (ToggleTenant false acme_id false sample_landlord).2.
Definition bob_row : tenant_row := TenantRow "Bob" "bob_2" true 2.

Definition ticket_body : raw_message := Some (JObj [("device_id", JStr "ap-1")]).
Definition console_request (device : string) : http_request :=
  HttpRequest "" "WebSocket" "" (hex_encode (map N.of_nat (seq 0 16))) "" ("/api/devices/" +:+ device +:+ "/ssh") device.
Lemma console_ticket_once_witness :
  let tokens := toy_tokens acme_claims in
  let issued := IssueWSTicketHandler sample_process (Some (map N.of_nat (seq 0 16))) false {["ap-1"]} "Bearer token"
    (Some ("tenant_" +:+ "acme")) ticket_body (Some (LoadStore 0)) in
  let store2 := (WithAuth sample_process no_faults sample_landlord (console_request "ap-1") issued.2).2 in
  issued.1 = TicketIssued (hex_encode (map N.of_nat (seq 0 16))) 30 ∧
  (WithAuth sample_process no_faults sample_landlord (console_request "ap-2") issued.2).1 =
    Denied 403 "UNAUTHORIZED: invalid or expired WebSocket ticket" ∧
  ∃ text, (WithAuth sample_process no_faults sample_landlord (console_request "ap-1") store2).1 = Denied 401 text.
Proof.
  intros tokens issued store2.
  assert (issued = (TicketIssued (hex_encode (map N.of_nat (seq 0 16))) 30, issued.2)) as Hi.
  { rewrite (surjective_pairing issued) at 1. f_equal; vm_compute; reflexivity. }
  pose proof (λ r, console_ticket_once sample_process sample_process sample_process (Some (map N.of_nat (seq 0 16))) false {["ap-1"]}
    "Bearer token" "acme" (hex_encode (map N.of_nat (seq 0 16))) ticket_body 30 (LoadStore 0) issued.2 no_faults no_faults sample_landlord
    sample_landlord r (console_request "ap-1") Hi) as H.
  split; [exact (f_equal fst Hi)|].
  assert (∀ device, trim_space (h_ticket (console_request device)) = hex_encode (map N.of_nat (seq 0 16))) as Htk by (intros; reflexivity).
  split.
  - destruct (H (console_request "ap-2")) as (device & token & c & Hd & _ & _ & Hw & _);
      [vm_compute; reflexivity|discriminate|vm_compute; discriminate|split; vm_compute; discriminate|vm_compute; reflexivity|
       apply Htk|vm_compute; reflexivity|apply Htk|].
    rewrite Hw; [done|]. apply elem_of_singleton in Hd as ->. vm_compute. discriminate.
  - destruct (H (console_request "ap-1")) as (device & token & c & Hd & _ & _ & _ & Hw);
      [vm_compute; reflexivity|discriminate|vm_compute; discriminate|split; vm_compute; discriminate|vm_compute; reflexivity|
       apply Htk|vm_compute; reflexivity|apply Htk|].
    apply elem_of_singleton in Hd as ->. specialize (Hw eq_refl). unfold store2.
    destruct (WithAuth sample_process no_faults sample_landlord (console_request "ap-1") issued.2) as [result s2].
    destruct Hw as (_ & _ & text & Hw). exists text. cbn [snd]. by rewrite Hw.
Defined.
