(* ===== verification/EnrollmentSpec.v ===== *)
(** What enrollment promises: only the token of a site that adopts lets a device in,
    a lost answer can be asked for again, and an enrolled device stays where it is. *)

From S2P Require Import Prelude GoStrings Sha256 Json Store DeviceOperation Rollouts Access AccessSpec Enrollment.

(** ** The transaction *)

(** The site is open for the token. *)
Definition admits (now : Z) (hash : string) (t : schema_tables) (site : string) : Prop :=
  ∃ s, site_auths t !! site = Some s ∧ opens now hash s = true.
(** What an enrollment finds when the answer is a repetition, and what it does when it
    is not. *)
Definition repeated (now : Z) (site siteID nonce : string) (e : enrollment) (t t' : schema_tables) : Prop :=
  t' = t ∧ nonce_holder now site (hashEnrollmentNonce nonce) t = Some (e_DeviceID e) ∧
  da_token (auth_of t (e_DeviceID e)) = Some (e_Token e) ∧ e_Token e ≠ "" ∧
  ∃ d, devices (base t) !! e_DeviceID e = Some d ∧ d_site_id d = Some siteID.
Definition created (now : Z) (site nonce : string) (e : enrollment) (t t' : schema_tables) : Prop :=
  nonce_holder now site (hashEnrollmentNonce nonce) t = None ∧ nonces t !! (site, hashEnrollmentNonce nonce) = None ∧
  (∀ d, devices (base t) !! e_DeviceID e = Some d → coalesce (d_site_id d) "" = "") ∧
  ∃ row a, d_site_id row = Some site ∧ da_token a = Some (e_Token e) ∧
    t' = Tables (set_devices <[e_DeviceID e := row]> (base t)) (site_auths t) (<[e_DeviceID e := a]> (device_auths t))
           (<[(site, hashEnrollmentNonce nonce) := NonceRow (e_DeviceID e) (now + hours 24)]> (nonces t)).

Lemma put_device_Ok now deviceID site token capabilities t t' :
  put_device now deviceID site token capabilities t = Ok t' →
  ∃ row a, d_site_id row = Some site ∧ da_token a = Some token ∧
    t' = Tables (set_devices <[deviceID := row]> (base t)) (site_auths t) (<[deviceID := a]> (device_auths t)) (nonces t).
Proof.
  unfold put_device. destruct (varchar 50 deviceID); [|done]. destruct (jsonb_param capabilities); [|done]. cbn [res_bind].
  destruct (fail_if _ _) as [[]|]; [|done]. cbn [res_bind].
  destruct (devices (base t) !! deviceID); intros [= <-]; (eexists _, _; split; [|split]; [..|done]; done).
Qed.
Lemma enroll_tx_Ok f now rand siteID hash deviceID nonce capabilities t e t' :
  enroll_tx f now rand siteID hash deviceID nonce capabilities t = Ok (e, t') →
  e_DeviceID e = deviceID ∧ e_SiteID e = siteID ∧ ∃ site, uuid_in siteID = Some site ∧ admits now hash t site ∧
  (e_Created e = false ∧ repeated now site siteID nonce e t t' ∨ e_Created e = true ∧ created now site nonce e t t').
Proof.
  unfold enroll_tx, uuid_param. destruct (fail_if (f 1%nat) _) as [[]|]; [|done]. cbn [res_bind].
  destruct (uuid_in siteID) as [site|]; [|done]. cbn [res_bind]. destruct (site_auths t !! site) as [s|] eqn:Hs; [|done].
  destruct (default false _) eqn:Ha; [|done]. cbn [negb fail_if res_bind].
  destruct (expired_token now s) eqn:He; [done|]. case_bool_decide as Hh; [|done]. cbn [orb negb fail_if res_bind].
  assert (admits now hash t site) as Hopen.
  { exists s. split; [done|]. unfold opens. by rewrite (bool_decide_true _ Hh), He, Ha. }
  destruct (fail_if (f 2%nat) _) as [[]|]; [|done]. cbn [res_bind].
  destruct (nonce_holder _ _ _ _) as [holder|] eqn:Hn.
  - destruct (String.eqb_spec holder deviceID) as [->|]; [|done]. cbn [negb fail_if res_bind].
    destruct (fail_if (f 3%nat) _) as [[]|]; [|done]. cbn [res_bind].
    destruct (devices (base t) !! deviceID) as [d|] eqn:Hd; [|done]. destruct (da_token _) as [token|] eqn:Ht; [|done].
    case_bool_decide as Hds; [|done]. destruct (String.eqb_spec token "") as [|Hne]; [done|]. intros [= <- <-].
    split; [done|]. split; [done|]. exists site. split; [done|]. split; [done|]. left. split; [done|]. repeat split; try done. by exists d.
  - destruct (fail_if (f 3%nat) _) as [[]|]; [|done]. cbn [res_bind].
    destruct (match devices (base t) !! deviceID with Some d => _ | None => _ end) eqn:Hd; [done|]. cbn [fail_if res_bind].
    destruct (randomEnrollmentToken rand) as [token|]; [|done]. cbn [res_bind]. destruct (fail_if (f 4%nat) _) as [[]|]; [|done].
    cbn [res_bind]. destruct (put_device _ _ _ _ _ _) as [t1|] eqn:Hp; [|done]. cbn [res_bind].
    destruct (fail_if (f 5%nat) _) as [[]|]; [|done]. cbn [res_bind]. unfold put_nonce. case_bool_decide as Hnn; [done|].
    cbn [fail_if res_bind]. intros [= <- <-]. apply put_device_Ok in Hp as (row & a & Hr & Hat & ->).
    split; [done|]. split; [done|]. exists site. split; [done|]. split; [done|]. right. split; [done|].
    split; [done|]. split; [by apply eq_None_not_Some|]. split; [|by exists row, a].
    cbn [e_DeviceID]. intros d Hd'. rewrite Hd' in Hd. unfold nonempty in Hd. apply negb_false_iff, String.eqb_eq in Hd. done.
Qed.

(** [EnrollDevice]: either it commits or nothing happened. *)
Lemma EnrollDevice_Ok f now rand schema siteID hash deviceID nonce capabilities db e db' :
  EnrollDevice f now rand schema siteID hash deviceID nonce capabilities db = (Ok e, db') →
  ∃ t t', db !! schema = Some t ∧ db' = <[schema := t']> db ∧
    enroll_tx f now rand siteID hash deviceID nonce capabilities t = Ok (e, t').
Proof.
  unfold EnrollDevice. destruct (SafeSchemaIdent schema) as [x|] eqn:Hs; [|done]. apply safe_ident in Hs as ->. cbn [res_bind].
  destruct (fail_if _ _) as [[]|]; [|done]. cbn [res_bind]. destruct (fail_if (f 0%nat) _) as [[]|]; [|done]. cbn [res_bind].
  destruct (db !! schema) as [t|]; [|done]. destruct (enroll_tx _ _ _ _ _ _ _ _ _) as [[e' t']|] eqn:He; [|done]. cbn [res_bind].
  destruct (fail_if (f 6%nat) _) as [[]|]; [|done]. intros [= -> <-]. by exists t, t'.
Qed.
Lemma EnrollDevice_Err f now rand schema siteID hash deviceID nonce capabilities db err db' :
  EnrollDevice f now rand schema siteID hash deviceID nonce capabilities db = (Err err, db') → db' = db.
Proof. unfold EnrollDevice. destruct (res_bind _ _) as [[e db1]|]; [done|]. by intros [= _ <-]. Qed.

(** ** Finding the site of a token *)

Lemma opens_earlier now now' hash s : (now <= now')%Z → opens now' hash s = true → opens now hash s = true.
Proof.
  unfold opens, expired_token. intros Hn. rewrite !andb_true_iff, !negb_involutive. intros [[Hh He] Ha]. split; [split|]; try done.
  destruct (sa_token_expires s) as [e|]; [|done]. apply Z.ltb_lt in He. apply Z.ltb_lt. lia.
Qed.
Lemma open_sites_elem now hash t site : site ∈ open_sites now hash t ↔ admits now hash t site.
Proof.
  unfold open_sites, admits. rewrite list_elem_of_In, in_map_iff. split.
  - intros ([site' s] & <- & Hin). apply list_elem_of_In, list_elem_of_filter in Hin as [Ho Hin]. apply elem_of_map_to_list in Hin. by exists s.
  - intros (s & Hs & Ho). exists (site, s). split; [done|]. apply list_elem_of_In, list_elem_of_filter. split; [done|].
    by apply elem_of_map_to_list.
Qed.
(** Filtering further keeps the first element if it still passes. *)
Lemma filter_head {A} (P Q : A → Prop) `{∀ x, Decision (P x)} `{∀ x, Decision (Q x)} l x r :
  (∀ y, Q y → P y) → Q x → filter P l = x :: r → ∃ r', filter Q l = x :: r'.
Proof.
  intros HQP Hx. induction l as [|y l IH]; [done|]. rewrite !filter_cons. destruct (decide (P y)) as [|Hp].
  - intros [= -> _]. rewrite decide_True by done. by eexists.
  - rewrite (decide_False (P := Q y)) by auto. done.
Qed.
Lemma open_sites_later now now' hash t site r : (now <= now')%Z → open_sites now hash t = site :: r → admits now' hash t site →
  ∃ r', open_sites now' hash t = site :: r'.
Proof.
  intros Hn. unfold open_sites. destruct (filter _ _) as [|[site' s] r1] eqn:Hf; [done|]. intros [= -> <-] (s' & Hs & Ho).
  assert (s' = s) as ->.
  { assert ((site, s) ∈ map_to_list (site_auths t)) as Hin.
    { eapply (proj1 (list_elem_of_filter _ _ _)). rewrite Hf. by left. }
    apply elem_of_map_to_list in Hin. congruence. }
  eapply (filter_head _ (λ kv, opens now' hash kv.2 = true)) in Hf as [r' ->]; [by eexists| |done]. intros [? ?]. by apply opens_earlier.
Qed.
Lemma open_sites_none now now' hash t : (now <= now')%Z → open_sites now hash t = [] → open_sites now' hash t = [].
Proof.
  intros Hn Ho. destruct (open_sites now' hash t) as [|site r] eqn:E; [done|].
  assert (site ∈ open_sites now hash t) as Hin; [|rewrite Ho in Hin; by apply elem_of_nil in Hin].
  apply open_sites_elem. assert (site ∈ open_sites now' hash t) as (s & Hs & Hop)%open_sites_elem by (rewrite E; by left).
  exists s. split; [done|]. by eapply opens_earlier.
Qed.

(** No site of the schema of an alias is open for the token. *)
Definition closed (now : Z) (hash : string) (db : schemas) (alias : string) : Prop :=
  ∀ schema, SafeTenantSchema alias = Ok schema → ∃ t, db !! schema = Some t ∧ open_sites now hash t = [].
Lemma resolve_sound f now hash aliases db found schema site :
  resolve_enrollment f now hash aliases db found = Ok (schema, site) →
  (found = Some (schema, site) ∧ ∀ alias, alias ∈ aliases → closed now hash db alias) ∨
  (found = None ∧ ∃ alias t, alias ∈ aliases ∧ SafeTenantSchema alias = Ok schema ∧ db !! schema = Some t ∧
     (∃ r, open_sites now hash t = site :: r) ∧ ∀ alias', alias' ∈ aliases → alias' ≠ alias → closed now hash db alias').
Proof.
  revert found. induction aliases as [|a aliases IH]; intros found; cbn [resolve_enrollment].
  { destruct found as [m|]; [|done]. intros [= ->]. left. split; [done|]. by intros ? ?%elem_of_nil. }
  destruct (SafeTenantSchema a) as [sch|] eqn:Ha.
  - destruct (f sch); [done|]. destruct (db !! sch) as [t|] eqn:Ht; [|done]. destruct (open_sites now hash t) as [|x r] eqn:Ho.
    + assert (closed now hash db a) as Hc by (intros sch' Hsch; rewrite Ha in Hsch; injection Hsch as <-; by exists t).
      intros [[-> Hall]|(-> & al & t' & Hin & Hs & Hl & Hr & Hall)]%IH; [left|right]; (split; [done|]).
      * intros al [->|Hin]%elem_of_cons; [done|by apply Hall].
      * exists al, t'. split; [by right|]. do 3 (split; [done|]). intros al' [->|Hin']%elem_of_cons; [done|by apply Hall].
    + destruct found as [m|]; [done|]. intros [[[= <- <-] Hall]|[? _]]%IH; [|done]. right. split; [done|]. exists a, t.
      split; [by left|]. split; [done|]. split; [done|]. split; [by exists r|].
      intros al' [->|Hin']%elem_of_cons; [done|by intros _; apply Hall].
  - assert (closed now hash db a) as Hc by (intros sch' Hsch; by rewrite Ha in Hsch).
    intros [[-> Hall]|(-> & al & t' & Hin & Hs & Hl & Hr & Hall)]%IH; [left|right]; (split; [done|]).
    + intros al [->|Hin]%elem_of_cons; [done|by apply Hall].
    + exists al, t'. split; [by right|]. do 3 (split; [done|]). intros al' [->|Hin']%elem_of_cons; [done|by apply Hall].
Qed.
(** The sites of all schemas are as they were. *)
Definition same_sites (db db' : schemas) : Prop :=
  ∀ schema t, db !! schema = Some t → ∃ t', db' !! schema = Some t' ∧ site_auths t' = site_auths t.
Lemma same_open now hash t t' : site_auths t' = site_auths t → open_sites now hash t' = open_sites now hash t.
Proof. unfold open_sites. by intros ->. Qed.
(** Asked again, the token leads to the same site while it is good there. *)
Lemma resolve_again f now now' hash aliases db db' found schema site t :
  resolve_enrollment f now hash aliases db found = Ok (schema, site) → (found = None ∨ found = Some (schema, site)) →
  same_sites db db' → (now <= now')%Z → db !! schema = Some t → admits now' hash t site →
  resolve_enrollment (λ _, false) now' hash aliases db' found = Ok (schema, site).
Proof.
  intros Hr Hf Hsame Hn Ht Ha. revert found Hr Hf. induction aliases as [|a aliases IH]; intros found; cbn [resolve_enrollment]; [done|].
  destruct (SafeTenantSchema a) as [sch|]; [|apply IH]. destruct (f sch); [done|]. destruct (db !! sch) as [t1|] eqn:Ht1; [|done].
  destruct (Hsame sch t1 Ht1) as (t1' & -> & Hs). rewrite (same_open now' hash t1 t1' Hs).
  destruct (open_sites now hash t1) as [|x r] eqn:Ho; [rewrite (open_sites_none now now' hash t1 Hn Ho); apply IH|].
  destruct found as [m|]; [done|]. intros Hr _. pose proof (resolve_sound _ _ _ _ _ _ _ _ Hr) as [[[= -> ->] _]|[? _]]; [|done].
  rewrite Ht in Ht1. injection Ht1 as <-. destruct (open_sites_later now now' hash t site r Hn Ho Ha) as [r' ->].
  apply IH; [done|by right].
Qed.

(** ** The handler *)

(** The keys of the sites are uuids in their canonical form. *)
Definition canonical_sites (db : schemas) : Prop :=
  ∀ schema t id s, db !! schema = Some t → site_auths t !! id = Some s → uuid_in id = Some id.
(** An enrolled device: who may, and what became of the tables. *)
Record enrolled (now : Z) (l : landlord) (header deviceID nonce : string) (status : Z) (e : enrollment) (db db' : schemas)
    (schema : string) (t t' : schema_tables) : Prop := {
  en_device : e_DeviceID e = deviceID;
  en_site : uuid_in (e_SiteID e) = Some (e_SiteID e);
  en_tenant : ∃ alias, alias ∈ active_aliases l ∧ SafeTenantSchema alias = Ok schema ∧
    ∀ alias', alias' ∈ active_aliases l → alias' ≠ alias → closed now (HashDeviceEnrollmentToken (trim_space header)) db alias';
  en_tables : db !! schema = Some t ∧ db' = <[schema := t']> db;
  en_admits : admits now (HashDeviceEnrollmentToken (trim_space header)) t (e_SiteID e);
  en_effect : status = 200%Z ∧ repeated now (e_SiteID e) (e_SiteID e) nonce e t t' ∨
    status = 201%Z ∧ created now (e_SiteID e) nonce e t t'
}.

Lemma tenant_schema_inj alias alias' schema : SafeTenantSchema alias = Ok schema → SafeTenantSchema alias' = Ok schema → alias = alias'.
Proof.
  assert (∀ a, SafeTenantSchema a = Ok schema → schema = "tenant_" +:+ a) as Hs.
  { intros a. unfold SafeTenantSchema. do 3 (destruct (fail_if _ _); [cbn [res_bind]|done]). by intros [= <-]. }
  intros ->%Hs H%Hs. by injection H.
Qed.
(** What passes before the database is asked for the token. *)
Definition asks (method header : string) (body : enrollment_body) (deviceID nonce : string) (capabilities : json) : Prop :=
  method = "POST" ∧ trim_space header ≠ "" ∧ (String.length (trim_space header) <= 256)%nat ∧
  parseDeviceEnrollmentRequest body = Ok (deviceID, nonce, capabilities).
Lemma handler_asks f now rand l method header body db deviceID nonce capabilities :
  asks method header body deviceID nonce capabilities →
  DeviceEnrollmentHandler f now rand l method header body db =
    match ResolveDeviceEnrollmentToken (ef_tenants f) (ef_schema f) now (trim_space header) l db with
    | Err e =>
        (if errors_is e ErrEnrollmentTokenNotFound then EnrollmentError 403 "invalid or expired site enrollment token"
         else EnrollmentError 503 "enrollment service unavailable", db)
    | Ok (schema, siteID) =>
        match EnrollDevice (ef_enroll f) now rand schema siteID (HashDeviceEnrollmentToken (trim_space header)) deviceID nonce
                capabilities db with
        | (Err e, db) => (enrollment_error e, db)
        | (Ok e, db) => (EnrollmentOK (if e_Created e then 201 else 200) e, db)
        end
    end.
Proof.
  intros (-> & Hh & Hlen & Hp). unfold DeviceEnrollmentHandler. rewrite String.eqb_refl. cbn [negb]. cbv zeta.
  rewrite (proj2 (String.eqb_neq _ _) Hh), (proj2 (Nat.ltb_ge _ _) Hlen), Hp. done.
Qed.
Lemma handler_OK_asks f now rand l method header body db status e db' :
  DeviceEnrollmentHandler f now rand l method header body db = (EnrollmentOK status e, db') →
  ∃ deviceID nonce capabilities, asks method header body deviceID nonce capabilities.
Proof.
  unfold DeviceEnrollmentHandler. destruct (String.eqb_spec method "POST") as [->|]; [|done]. cbn [negb]. cbv zeta.
  destruct (String.eqb_spec (trim_space header) "") as [|Hh]; [done|]. destruct (Nat.ltb_spec 256 (String.length (trim_space header))); [done|].
  destruct (parseDeviceEnrollmentRequest body) as [[[deviceID nonce] capabilities]|] eqn:Hp; [|done]. intros _.
  by exists deviceID, nonce, capabilities.
Qed.
Lemma enrollment_error_not_ok e status r : enrollment_error e ≠ EnrollmentOK status r.
Proof. unfold enrollment_error. by repeat case_match. Qed.
Lemma resolve_token_sound f_list f now token l db schema site :
  ResolveDeviceEnrollmentToken f_list f now token l db = Ok (schema, site) →
  resolve_enrollment f now (HashDeviceEnrollmentToken token) (active_aliases l) db None = Ok (schema, site).
Proof.
  unfold ResolveDeviceEnrollmentToken. destruct (fail_if _ _) as [[]|]; [|done]. cbn [res_bind].
  by destruct (fail_if f_list _) as [[]|].
Qed.
Lemma handler_OK f now rand l method header body db status e db' :
  canonical_sites db → DeviceEnrollmentHandler f now rand l method header body db = (EnrollmentOK status e, db') →
  ∃ deviceID nonce capabilities schema t t', asks method header body deviceID nonce capabilities ∧
    ResolveDeviceEnrollmentToken (ef_tenants f) (ef_schema f) now (trim_space header) l db = Ok (schema, e_SiteID e) ∧
    enrolled now l header deviceID nonce status e db db' schema t t'.
Proof.
  intros Hc H. pose proof H as (deviceID & nonce & capabilities & Ha)%handler_OK_asks. exists deviceID, nonce, capabilities.
  rewrite (handler_asks _ _ _ _ _ _ _ _ _ _ _ Ha) in H.
  destruct (ResolveDeviceEnrollmentToken _ _ _ _ _ _) as [[schema site]|err] eqn:Hr; [|by destruct (errors_is err _)].
  destruct (EnrollDevice _ _ _ _ _ _ _ _ _ _) as [[e'|err] db1] eqn:He; [|injection H as H _; by apply enrollment_error_not_ok in H].
  injection H as Hst -> ->. apply EnrollDevice_Ok in He as (t & t' & Ht & -> & He).
  pose proof Hr as Hs%resolve_token_sound. apply resolve_sound in Hs as [[? _]|(_ & alias & t2 & Hin & Hal & Ht2 & [r Ho] & Hall)]; [done|].
  rewrite Ht in Ht2. injection Ht2 as <-. assert (uuid_in site = Some site) as Hu.
  { assert (site ∈ open_sites now (HashDeviceEnrollmentToken (trim_space header)) t) as (s & Hs & _)%open_sites_elem by (rewrite Ho; by left).
    by eapply Hc. }
  apply enroll_tx_Ok in He as (Hd & Hsite & site' & Hu' & Hadm & Heff). rewrite Hu in Hu'. injection Hu' as <-. subst deviceID site.
  exists schema, t, t'. split; [done|]. split; [done|]. split; [done|done|by exists alias|done|done|].
  destruct Heff as [[Hcr Heff]|[Hcr Heff]]; rewrite Hcr in Hst; [left|right]; done.
Qed.
Lemma handler_error f now rand l method header body db response db' :
  DeviceEnrollmentHandler f now rand l method header body db = (response, db') →
  (∀ status e, response ≠ EnrollmentOK status e) → db' = db.
Proof.
  unfold DeviceEnrollmentHandler. cbv zeta. destruct (negb _); [by intros [= _ <-]|]. destruct (_ =? _); [by intros [= _ <-]|].
  destruct (_ <? _)%nat; [by intros [= _ <-]|]. destruct (parseDeviceEnrollmentRequest body) as [[[d n] c]|]; [|by intros [= _ <-]].
  destruct (ResolveDeviceEnrollmentToken _ _ _ _ _ _) as [[schema site]|]; [|by intros [= _ <-]].
  destruct (EnrollDevice _ _ _ _ _ _ _ _ _ _) as [[e|err] db1] eqn:He; [intros [= <- <-] Hno; by destruct (Hno _ _ eq_refl)|].
  intros [= _ <-] _. by eapply EnrollDevice_Err.
Qed.


(** ** Asking again *)

Definition no_enrollment_faults : enrollment_faults := EnrollmentFaults false (λ _, false) (λ _, false).
(** The transaction at a site that admits the token, when the device has its place there. *)
Lemma enroll_tx_admitted now rand site hash deviceID nonce capabilities t d token :
  uuid_in site = Some site → admits now hash t site → devices (base t) !! deviceID = Some d → d_site_id d = Some site →
  site ≠ "" → da_token (auth_of t deviceID) = Some token → token ≠ "" →
  enroll_tx (λ _, false) now rand site hash deviceID nonce capabilities t =
    match nonce_holder now site (hashEnrollmentNonce nonce) t with
    | Some holder =>
        if holder =? deviceID then Ok (Enrollment deviceID site token false, t) else Err ErrEnrollmentNonceConflict
    | None => Err ErrDeviceAlreadyEnrolled
    end.
Proof.
  intros Hu (s & Hs & Ho) Hd Hds Hne Ht Htne. unfold opens in Ho. apply andb_true_iff in Ho as [[Hh He]%andb_true_iff Ha].
  apply negb_true_iff in He. unfold enroll_tx, uuid_param. rewrite Hu. cbn [fail_if res_bind]. rewrite Hs, Ha, He, Hh.
  cbn [negb orb fail_if res_bind]. destruct (nonce_holder _ _ _ _) as [holder|].
  - destruct (holder =? deviceID); [|done]. cbn [negb fail_if res_bind]. rewrite Hd, Ht, (bool_decide_true _ Hds).
    by rewrite (proj2 (String.eqb_neq _ _) Htne).
  - rewrite Hd, Hds. cbn [coalesce default from_option]. unfold nonempty, id. by rewrite (proj2 (String.eqb_neq _ _) Hne).
Qed.
Lemma nonce_conflict now rand site hash deviceID nonce capabilities t holder :
  uuid_in site = Some site → admits now hash t site → nonce_holder now site (hashEnrollmentNonce nonce) t = Some holder →
  holder ≠ deviceID → enroll_tx (λ _, false) now rand site hash deviceID nonce capabilities t = Err ErrEnrollmentNonceConflict.
Proof.
  intros Hu (s & Hs & Ho) Hn Hne. unfold opens in Ho. apply andb_true_iff in Ho as [[Hh He]%andb_true_iff Ha].
  apply negb_true_iff in He. unfold enroll_tx, uuid_param. rewrite Hu. cbn [fail_if res_bind]. rewrite Hs, Ha, He, Hh.
  cbn [negb orb fail_if res_bind]. by rewrite Hn, (proj2 (String.eqb_neq _ _) Hne).
Qed.
(** [EnrollDevice] without faults. *)
Lemma EnrollDevice_run now rand schema siteID hash deviceID nonce capabilities db t :
  SafeSchemaIdent schema = Ok schema → siteID ≠ "" → hash ≠ "" → deviceID ≠ "" → nonce ≠ "" → db !! schema = Some t →
  EnrollDevice (λ _, false) now rand schema siteID hash deviceID nonce capabilities db =
    match enroll_tx (λ _, false) now rand siteID hash deviceID nonce capabilities t with
    | Ok (e, t') => (Ok e, <[schema := t']> db)
    | Err e => (Err e, db)
    end.
Proof.
  intros Hs H1 H2 H3 H4 Ht. unfold EnrollDevice. rewrite Hs. cbn [res_bind].
  rewrite (proj2 (String.eqb_neq _ _) H1), (proj2 (String.eqb_neq _ _) H2), (proj2 (String.eqb_neq _ _) H3), (proj2 (String.eqb_neq _ _) H4).
  cbn [orb fail_if res_bind]. rewrite Ht. by destruct (enroll_tx _ _ _ _ _ _ _ _ _) as [[e t']|].
Qed.
Lemma parsed_nonempty body deviceID nonce capabilities :
  parseDeviceEnrollmentRequest body = Ok (deviceID, nonce, capabilities) → deviceID ≠ "" ∧ nonce ≠ "".
Proof.
  unfold parseDeviceEnrollmentRequest. destruct (fail_if _ _) as [[]|]; [|done]. cbn [res_bind]. cbv zeta.
  destruct (unmarshal _ _ _) as [q|]; [|done]. destruct (fail_if _ _) as [[]|]; [|done]. cbn [res_bind].
  unfold normalizeEnrollmentDeviceID. cbv zeta. destruct (enrollment_device_id _) eqn:Hd; [|done]. cbn [res_bind].
  destruct (enrollment_nonce _) eqn:Hn; [|done]. cbn [negb fail_if res_bind].
  destruct (default _ _); try done. intros [= <- <- <-]. split; [by intros E; rewrite E in Hd|by intros E; rewrite E in Hn].
Qed.
Lemma hash_nonempty token : HashDeviceEnrollmentToken token ≠ "".
Proof. intros E. pose proof (sha256_hex_length token) as Hl. unfold HashDeviceEnrollmentToken in E. by rewrite E in Hl. Qed.
Lemma tenant_schema_safe alias schema : SafeTenantSchema alias = Ok schema → SafeSchemaIdent schema = Ok schema.
Proof.
  unfold SafeTenantSchema. destruct (String.eqb_spec alias "") as [|Hne]; [done|]. cbn [fail_if res_bind].
  destruct (Nat.ltb_spec 55 (String.length alias)); [done|]. cbn [fail_if res_bind].
  destruct (isValidSchemaName alias) eqn:Hv; [|done]. intros [= <-]. unfold SafeSchemaIdent.
  assert (isValidSchemaName ("tenant_" +:+ alias) = true) as ->; [|done].
  change (str_forall (λ c, schema_start c || is_digit c) ("enant_" +:+ alias) && (String.length ("enant_" +:+ alias) <=? 62)%nat = true).
  rewrite str_forall_app, str_app_length, (proj2 (Nat.leb_le _ _)) by (cbn; lia). rewrite andb_true_r. cbn [String.append].
  apply andb_true_iff. split; [done|]. destruct alias as [|c r]; [done|]. unfold isValidSchemaName in Hv.
  apply andb_true_iff in Hv as [[Hs Hr]%andb_true_iff _]. cbn [str_forall]. by rewrite Hs, Hr.
Qed.

(** After a device has been let in, its token and its nonce are known. *)
Lemma created_facts now site nonce e t t' : created now site nonce e t t' → site ≠ "" →
  (∃ d, devices (base t') !! e_DeviceID e = Some d ∧ d_site_id d = Some site) ∧
  da_token (auth_of t' (e_DeviceID e)) = Some (e_Token e) ∧ site_auths t' = site_auths t ∧
  ∀ now', (now' < now + hours 24)%Z → nonce_holder now' site (hashEnrollmentNonce nonce) t' = Some (e_DeviceID e).
Proof.
  intros (_ & _ & _ & row & a & Hr & Ha & ->) Hs. split; [exists row; split; [apply lookup_insert_eq|done]|].
  split; [unfold auth_of; cbn; by rewrite lookup_insert_eq|]. split; [done|].
  intros now' Hn. unfold nonce_holder. cbn [nonces]. rewrite lookup_insert_eq. cbn. by rewrite (proj2 (Z.ltb_lt _ _) Hn).
Qed.
Lemma same_sites_insert db schema t t' : db !! schema = Some t → site_auths t' = site_auths t → same_sites db (<[schema := t']> db).
Proof.
  intros Ht Hs schema' t1 Ht1. destruct (decide (schema' = schema)) as [->|Hne].
  - rewrite Ht in Ht1. injection Ht1 as <-. exists t'. by rewrite lookup_insert_eq.
  - exists t1. by rewrite lookup_insert_ne.
Qed.
(** The next request with the token reaches the same tables. *)
Lemma second_request f f_list now now' rand method header body body2 l db schema site t t' deviceID nonce capabilities :
  ResolveDeviceEnrollmentToken f_list f now (trim_space header) l db = Ok (schema, site) →
  db !! schema = Some t → site_auths t' = site_auths t → (now <= now')%Z →
  admits now' (HashDeviceEnrollmentToken (trim_space header)) t site → uuid_in site = Some site →
  SafeSchemaIdent schema = Ok schema → asks method header body deviceID nonce capabilities →
  ∀ dev2 nonce2 caps2, parseDeviceEnrollmentRequest body2 = Ok (dev2, nonce2, caps2) →
  DeviceEnrollmentHandler no_enrollment_faults now' rand l method header body2 (<[schema := t']> db) =
    match enroll_tx (λ _, false) now' rand site (HashDeviceEnrollmentToken (trim_space header)) dev2 nonce2 caps2 t' with
    | Ok (e, t2) => (EnrollmentOK (if e_Created e then 201 else 200) e, <[schema := t2]> (<[schema := t']> db))
    | Err e => (enrollment_error e, <[schema := t']> db)
    end.
Proof.
  intros Hr Ht Hs Hn Ha Hu Hsafe (Hm & Hh & Hlen & _) dev2 nonce2 caps2 Hp.
  rewrite (handler_asks _ _ _ _ _ _ _ _ dev2 nonce2 caps2) by done.
  assert (ResolveDeviceEnrollmentToken false (λ _, false) now' (trim_space header) l (<[schema := t']> db) = Ok (schema, site)) as Hr2.
  { pose proof (resolve_token_sound _ _ _ _ _ _ _ _ Hr) as Hrs. unfold ResolveDeviceEnrollmentToken in Hr |- *.
    destruct (fail_if (_ =? _) _) as [[]|]; [|done]. cbn [fail_if res_bind].
    eapply resolve_again; [exact Hrs|by left| |exact Hn|exact Ht|exact Ha]. by eapply same_sites_insert. }
  cbn [ef_tenants ef_schema ef_enroll no_enrollment_faults]. rewrite Hr2.
  destruct (parsed_nonempty _ _ _ _ Hp) as [Hd Hno].
  rewrite (EnrollDevice_run _ _ _ _ _ _ _ _ _ t'); [|done|by intros ->|apply hash_nonempty|done|done|apply lookup_insert_eq].
  by destruct (enroll_tx _ _ _ _ _ _ _ _ _) as [[e t2]|].
Qed.

(** C16: enrollment can be repeated: while the site's token is good and for a day, a device
    that asks again with its nonce is given the credential it was given before and
    nothing changes; with another nonce it is at most given that same credential; and
    another device is refused the nonce. *)
Theorem enrollment_retry (f : enrollment_faults) (now now' : Z) (rand rand' : entropy) (l : landlord) (method header : string)
    (body body' : enrollment_body) (db db' : schemas) (e : enrollment) (deviceID nonce deviceID' nonce' : string)
    (capabilities capabilities' : json) :
  canonical_sites db → DeviceEnrollmentHandler f now rand l method header body db = (EnrollmentOK 201 e, db') →
  parseDeviceEnrollmentRequest body = Ok (deviceID, nonce, capabilities) →
  parseDeviceEnrollmentRequest body' = Ok (deviceID', nonce', capabilities') →
  (now <= now' < now + hours 24)%Z → e_Token e ≠ "" →
  (∀ schema t s, db !! schema = Some t → site_auths t !! e_SiteID e = Some s → expired_token now' s = false) →
  let again := DeviceEnrollmentHandler no_enrollment_faults now' rand' l method header body' db' in
  let same := EnrollmentOK 200 (Enrollment deviceID (e_SiteID e) (e_Token e) false) in
  (deviceID' = deviceID → nonce' = nonce → again = (same, db')) ∧
  (deviceID' = deviceID → again.2 = db' ∧ (again.1 = same ∨ ∃ message, again.1 = EnrollmentError 409 message)) ∧
  (deviceID' ≠ deviceID → nonce' = nonce → again = (EnrollmentError 409 "enrollment nonce was already used", db')).
Proof.
  intros Hc H Hp Hp' [Hn Hday] Htok Hexp. cbv zeta.
  destruct (handler_OK _ _ _ _ _ _ _ _ _ _ _ Hc H) as (dev & no & caps & schema & t & t' & Hask & Hr & [Hdev Hu (alias & _ & Hal & _) [Ht ->] Hadm Heff]).
  pose proof Hask as (_ & _ & _ & Hp2). rewrite Hp in Hp2. injection Hp2 as <- <- <-.
  destruct Heff as [[? _]|[_ Heff]]; [done|]. assert (e_SiteID e ≠ "") as Hsne by (intros E; by rewrite E in Hu).
  destruct (created_facts _ _ _ _ _ _ Heff Hsne) as ((d & Hd & Hds) & Hat & Hsites & Hnonce). rewrite Hdev in *.
  assert (admits now' (HashDeviceEnrollmentToken (trim_space header)) t (e_SiteID e)) as Hadm'.
  { destruct Hadm as (s & Hs & Ho). exists s. split; [done|]. unfold opens in Ho |- *. apply andb_true_iff in Ho as [[Hh _]%andb_true_iff Ha].
    by rewrite Hh, Ha, (Hexp schema t s Ht Hs). }
  assert (admits now' (HashDeviceEnrollmentToken (trim_space header)) t' (e_SiteID e)) as Hadm2.
  { destruct Hadm' as (s & Hs & Ho). exists s. by rewrite Hsites. }
  rewrite (second_request _ _ now now' rand' method header body body' l db schema (e_SiteID e) t t' deviceID nonce capabilities
    Hr Ht Hsites Hn Hadm' Hu (tenant_schema_safe _ _ Hal) Hask deviceID' nonce' capabilities' Hp').
  pose proof (enroll_tx_admitted now' rand' (e_SiteID e) (HashDeviceEnrollmentToken (trim_space header)) deviceID nonce' capabilities' t' d
    (e_Token e) Hu Hadm2 Hd Hds Hsne Hat Htok) as Hrun.
  split; [|split].
  - intros -> ->. rewrite Hrun, (Hnonce now' Hday), String.eqb_refl. cbn [e_Created]. by rewrite insert_insert_eq.
  - intros ->. rewrite Hrun. destruct (nonce_holder _ _ _ _) as [holder|]; [destruct (holder =? deviceID)|]; cbn [fst snd e_Created].
    + rewrite insert_insert_eq. auto.
    + split; [done|]. right. by eexists.
    + split; [done|]. right. by eexists.
  - intros Hne ->. rewrite (nonce_conflict _ _ _ _ _ _ _ _ _ Hu Hadm2 (Hnonce now' Hday)) by congruence. done.
Qed.

(** ** Histories *)

(** What the handlers can do to the tables, whoever is active. *)
Inductive enrollment_step : schemas → schemas → Prop :=
  | EnrollStep f now rand l method header body db :
      enrollment_step db (DeviceEnrollmentHandler f now rand l method header body db).2
  | IssueStep f now rand schema site_path db :
      enrollment_step db (IssueDeviceEnrollmentTokenHandler f now rand schema site_path db).2
  | RevokeStep f schema site_path db :
      enrollment_step db (RevokeDeviceEnrollmentTokenHandler f schema site_path db).2.

(** Devices that have a site keep their rows and credentials, and nonces stay bound. *)
Definition settled (t t' : schema_tables) : Prop :=
  (∀ id d, devices (base t) !! id = Some d → coalesce (d_site_id d) "" ≠ "" →
     devices (base t') !! id = Some d ∧ auth_of t' id = auth_of t id) ∧
  (∀ k n, nonces t !! k = Some n → nonces t' !! k = Some n).
Definition settled_all (db db' : schemas) : Prop :=
  ∀ schema t, db !! schema = Some t → ∃ t', db' !! schema = Some t' ∧ settled t t'.

Lemma settled_refl t : settled t t.
Proof. by split. Qed.
#[local] Hint Resolve settled_refl : core.
Lemma settled_all_refl db : settled_all db db.
Proof. intros schema t Ht. by exists t. Qed.
#[local] Hint Resolve settled_all_refl : core.
Lemma settled_trans t1 t2 t3 : settled t1 t2 → settled t2 t3 → settled t1 t3.
Proof.
  intros [Hd1 Hn1] [Hd2 Hn2]. split; [|by auto]. intros id d Hd Hs. destruct (Hd1 id d Hd Hs) as [Hd' ->%symmetry].
  by apply Hd2.
Qed.
Lemma settled_insert db schema t t' : db !! schema = Some t → settled t t' → settled_all db (<[schema := t']> db).
Proof.
  intros Ht Hs schema' t1 Ht1. destruct (decide (schema' = schema)) as [->|Hne].
  - rewrite Ht in Ht1. injection Ht1 as <-. exists t'. by rewrite lookup_insert_eq.
  - exists t1. by rewrite lookup_insert_ne.
Qed.
Lemma created_settled now site nonce e t t' : created now site nonce e t t' → settled t t'.
Proof.
  intros (_ & Hn & Hno & row & a & _ & _ & ->). split.
  - intros id d Hd Hs. assert (id ≠ e_DeviceID e) as Hne by (intros ->; by apply Hs, Hno).
    unfold auth_of. cbn. by rewrite !lookup_insert_ne by done.
  - intros k n Hk. cbn. rewrite lookup_insert_ne; [done|]. intros <-. by rewrite Hn in Hk.
Qed.
Lemma enroll_settled f now rand schema siteID hash deviceID nonce capabilities db r db' :
  EnrollDevice f now rand schema siteID hash deviceID nonce capabilities db = (r, db') → settled_all db db'.
Proof.
  destruct r as [e|err]; [|by intros ->%EnrollDevice_Err].
  intros (t & t' & Ht & -> & (_ & _ & site & _ & _ & [[_ [-> _]]|[_ Hc]])%enroll_tx_Ok)%EnrollDevice_Ok;
    (eapply settled_insert; [exact Ht|]); [done|by eapply created_settled].
Qed.
Lemma site_request_settled schema site_path failed db k :
  (∀ schema siteID t, db !! schema = Some t → settled_all db (k schema siteID t).2) →
  settled_all db (site_request schema site_path failed db k).2.
Proof.
  intros Hk. unfold site_request. destruct (SafeSchemaIdent _); [|done]. cbv zeta. destruct (_ =? _); [done|].
  destruct (db !! _) eqn:E; [by apply Hk|done].
Qed.
Lemma step_settled db db' : enrollment_step db db' → settled_all db db'.
Proof.
  intros [f now rand l method header body db1|f now rand schema site_path db1|f schema site_path db1].
  - unfold DeviceEnrollmentHandler. cbv zeta. destruct (negb _); [done|]. destruct (_ =? _); [done|]. destruct (_ <? _)%nat; [done|].
    destruct (parseDeviceEnrollmentRequest body) as [[[d n] c]|]; [|done].
    destruct (ResolveDeviceEnrollmentToken _ _ _ _ _ _) as [[schema site]|]; [|done].
    destruct (EnrollDevice _ _ _ _ _ _ _ _ _ _) as [[e|err] db2] eqn:He; by eapply enroll_settled.
  - apply site_request_settled. intros schema' siteID t Ht.
    destruct (IssueDeviceEnrollmentToken _ _ _ _ _ _ _) as [[[token expires] t']|] eqn:Hi; [|done]. eapply settled_insert; [exact Ht|].
    unfold IssueDeviceEnrollmentToken in Hi. res_inv; by split.
  - apply site_request_settled. intros schema' siteID t Ht.
    destruct (RevokeDeviceEnrollmentToken _ _ _ _) as [t'|] eqn:Hi; [|done]. eapply settled_insert; [exact Ht|].
    unfold RevokeDeviceEnrollmentToken in Hi. res_inv; by split.
Qed.

(** C17: over every history of enrollments and of issued and revoked site tokens, a device
    that has a site stays in it, with the credential it has, and a nonce stays bound to
    the device it was used for. *)
Theorem enrolled_stay (db db' : schemas) (schema : string) (t : schema_tables) :
  rtc enrollment_step db db' → db !! schema = Some t →
  ∃ t', db' !! schema = Some t' ∧
    (∀ id d, devices (base t) !! id = Some d → coalesce (d_site_id d) "" ≠ "" →
       devices (base t') !! id = Some d ∧ auth_of t' id = auth_of t id) ∧
    (∀ site hash n, nonces t !! (site, hash) = Some n → nonces t' !! (site, hash) = Some n).
Proof.
  intros H Ht. cut (∃ t', db' !! schema = Some t' ∧ settled t t'); [intros (t' & ? & Hd & Hn); exists t'; naive_solver|].
  revert t Ht. induction H as [db|db1 db2 db3 H12 _ IH]; intros t Ht; [by exists t|].
  destruct (step_settled _ _ H12 schema t Ht) as (t2 & Ht2 & Hs2). destruct (IH t2 Ht2) as (t3 & Ht3 & Hs3).
  exists t3. split; [done|]. by eapply settled_trans.
Qed.

(** C63: a nonce is used up for good: once the day is over in which its answer is repeated,
    an enrollment with it by a device that may be let in, the one it was used for included, fails with a server error,
    and nothing changes. *)
Theorem expired_nonce_fails (now : Z) (rand : entropy) (l : landlord) (header schema site deviceID nonce : string)
    (body : enrollment_body) (capabilities : json) (db : schemas) (t : schema_tables) (n : nonce_row) :
  asks "POST" header body deviceID nonce capabilities →
  ResolveDeviceEnrollmentToken false (λ _, false) now (trim_space header) l db = Ok (schema, site) →
  uuid_in site = Some site → db !! schema = Some t →
  nonces t !! (site, hashEnrollmentNonce nonce) = Some n → (nr_expires n <= now)%Z →
  (∀ d, devices (base t) !! deviceID = Some d → coalesce (d_site_id d) "" = "") →
  DeviceEnrollmentHandler no_enrollment_faults now rand l "POST" header body db =
    (EnrollmentError 500 "device enrollment failed", db).
Proof.
  intros Hask Hr Hu Ht Hn Hexp Hd. rewrite (handler_asks _ _ _ _ _ _ _ _ _ _ _ Hask). cbn [ef_tenants ef_schema ef_enroll no_enrollment_faults].
  rewrite Hr. pose proof Hr as Hs%resolve_token_sound.
  apply resolve_sound in Hs as [[? _]|(_ & alias & t2 & _ & Hal & Ht2 & [r Ho] & _)]; [done|]. rewrite Ht in Ht2. injection Ht2 as <-.
  destruct Hask as (_ & _ & _ & Hp). destruct (parsed_nonempty _ _ _ _ Hp) as [Hdev Hno].
  rewrite (EnrollDevice_run _ _ _ _ _ _ _ _ _ t); [|by eapply tenant_schema_safe|by intros ->|apply hash_nonempty|done|done|done].
  assert (site ∈ open_sites now (HashDeviceEnrollmentToken (trim_space header)) t) as (s & Hs & Hop)%open_sites_elem by (rewrite Ho; by left).
  unfold opens in Hop. apply andb_true_iff in Hop as [[Hh He]%andb_true_iff Ha]. apply negb_true_iff in He.
  unfold enroll_tx, uuid_param. rewrite Hu. cbn [fail_if res_bind]. rewrite Hs, Ha, He, Hh. cbn [negb orb fail_if res_bind].
  assert (nonce_holder now site (hashEnrollmentNonce nonce) t = None) as ->.
  { unfold nonce_holder. rewrite Hn. cbn. by rewrite (proj2 (Z.ltb_ge _ _) Hexp). }
  assert (match devices (base t) !! deviceID with Some d => nonempty (coalesce (d_site_id d) "") | None => false end = false) as ->.
  { destruct (devices (base t) !! deviceID) as [d|]; [|done]. by rewrite (Hd d eq_refl). }
  cbn [fail_if res_bind]. destruct rand as [bytes|]; [|done]. cbn [randomEnrollmentToken res_bind].
  destruct (put_device _ _ _ _ _ _) as [t1|err] eqn:Hput.
  - apply put_device_Ok in Hput as (row & a & _ & _ & ->). cbn [res_bind]. unfold put_nonce. cbn [nonces].
    by rewrite bool_decide_true by (rewrite Hn; done).
  - assert (err = ErrDriver) as ->; [|done]. unfold put_device, jsonb_param, varchar, fail_if in Hput.
    repeat (case_match; try (cbn in Hput; congruence)).
Qed.

(** ** A site that adopts *)

Definition site_token : string := "token-1".
Definition open_site : site_auth := SiteAuth None (Some true) (Some (sha256_hex site_token)) (Some (hours 20)).
Definition empty_tenant : tenant := Tenant ∅ ∅ ∅ [].
Definition open_tables : schema_tables := Tables empty_tenant {[acme_id := open_site]} ∅ ∅.
Definition open_db : schemas := {["tenant_acme" := open_tables; "tenant_bob_2" := Tables empty_tenant ∅ ∅ ∅]}.
Definition join_body (device : string) : enrollment_body :=
  EnrollmentBody false (Some (JObj [("device_id", JStr device); ("nonce", JStr "nonce-0123456789")])) false.
Definition join_bytes : entropy := Some (map N.of_nat (seq 0 32)).
Definition joined (now : Z) (device : string) (db : schemas) : enrollment_response * schemas :=
  DeviceEnrollmentHandler no_enrollment_faults now join_bytes sample_landlord "POST" " token-1 " (join_body device) db.
Definition joined_e : enrollment := Enrollment "AA:01" acme_id (hex_encode (map N.of_nat (seq 0 32))) true.
Lemma open_db_site schema t id s : open_db !! schema = Some t → site_auths t !! id = Some s → id = acme_id ∧ s = open_site.
Proof.
  unfold open_db. intros [[_ <-]|[_ [_ <-]%lookup_singleton_Some]]%lookup_insert_Some; cbn [site_auths open_tables].
  - by intros [<- <-]%lookup_singleton_Some.
  - by rewrite lookup_empty.
Qed.
Lemma open_db_canonical : canonical_sites open_db.
Proof. intros schema t id s H [-> _]%(open_db_site _ _ _ _ H). vm_compute. reflexivity. Qed.


Lemma enrollment_retry_witness :
  let first := joined 5 "aa:01" open_db in
  first.1 = EnrollmentOK 201 joined_e ∧
  joined 9 "aa:01" first.2 = (EnrollmentOK 200 (Enrollment "AA:01" acme_id (hex_encode (map N.of_nat (seq 0 32))) false), first.2) ∧
  joined 9 "aa:02" first.2 = (EnrollmentError 409 "enrollment nonce was already used", first.2).
Proof.
  intros first.
  assert (first.1 = EnrollmentOK 201 joined_e) as H1 by (vm_compute; reflexivity). split; [exact H1|].
  assert (joined 5 "aa:01" open_db = (EnrollmentOK 201 joined_e, first.2)) as H.
  { rewrite <- H1. apply surjective_pairing. }
  assert (∀ schema t s, open_db !! schema = Some t → site_auths t !! e_SiteID joined_e = Some s → expired_token 9 s = false) as Hexp.
  { intros schema t s H1' [_ ->]%(open_db_site _ _ _ _ H1'). vm_compute. reflexivity. }
  pose proof (λ device' nonce' caps', enrollment_retry no_enrollment_faults 5 9 join_bytes join_bytes sample_landlord "POST" " token-1 " (join_body "aa:01")
    (join_body (if device' =? "AA:01" then "aa:01" else "aa:02")) open_db first.2 joined_e "AA:01" "nonce-0123456789" device' nonce'
    (JObj []) caps' open_db_canonical H) as Hr.
  split.
  - refine (proj1 (Hr "AA:01" "nonce-0123456789" (JObj []) _ _ _ _ Hexp) eq_refl eq_refl);
      [vm_compute; reflexivity|vm_compute; reflexivity|split; vm_compute; [discriminate|reflexivity]|vm_compute; discriminate].
  - refine (proj2 (proj2 (Hr "AA:02" "nonce-0123456789" (JObj []) _ _ _ _ Hexp)) _ eq_refl);
      [vm_compute; reflexivity|vm_compute; reflexivity|split; vm_compute; [discriminate|reflexivity]|vm_compute; discriminate|discriminate].
Defined.

Lemma enrolled_stay_witness :
  let db := (joined 5 "aa:01" open_db).2 in
  ∃ t', (joined 9 "aa:02" db).2 !! "tenant_acme" = Some t' ∧ da_token (auth_of t' "AA:01") = Some (e_Token joined_e).
Proof.
  intros db. destruct (db !! "tenant_acme") as [t|] eqn:Ht; [|vm_compute in Ht; discriminate Ht].
  destruct (enrolled_stay db (joined 9 "aa:02" db).2 "tenant_acme" t (rtc_once _ _ (EnrollStep _ _ _ _ _ _ _ _)) Ht) as (t' & Ht' & Hd & _).
  exists t'. split; [exact Ht'|].
  destruct (devices (base t) !! "AA:01") as [d|] eqn:E; [|vm_compute in Ht; injection Ht as <-; vm_compute in E; discriminate E].
  destruct (Hd "AA:01" d E) as [_ ->]; vm_compute in Ht; injection Ht as <-.
  - vm_compute in E. injection E as <-. vm_compute. discriminate.
  - vm_compute. reflexivity.
Defined.

Definition spent_tables : schema_tables :=
  Tables empty_tenant {[acme_id := open_site]} ∅ {[(acme_id, sha256_hex "nonce-0123456789") := NonceRow "AA:09" 3]}.
Definition spent_db : schemas := {["tenant_acme" := spent_tables; "tenant_bob_2" := Tables empty_tenant ∅ ∅ ∅]}.
Lemma expired_nonce_fails_witness : joined 5 "aa:01" spent_db = (EnrollmentError 500 "device enrollment failed", spent_db).
Proof.
  apply (expired_nonce_fails 5 join_bytes sample_landlord " token-1 " "tenant_acme" acme_id "AA:01" "nonce-0123456789" (join_body "aa:01")
    (JObj []) spent_db spent_tables (NonceRow "AA:09" 3)).
  - split; [reflexivity|]. split; [discriminate|]. split; [vm_compute; lia|vm_compute; reflexivity].
  - vm_compute; reflexivity.
  - vm_compute; reflexivity.
  - apply lookup_insert_eq.
  - apply lookup_singleton_eq.
  - cbn. lia.
  - intros d Hd. cbn in Hd. by rewrite lookup_empty in Hd.
Defined.
