(* ===== verification/ProvisionSpec.v ===== *)
(** What a device is served: only the holder of a device's token is taken for the
    device, an enrolled device is served, and the change set that was queued for it is
    the one it is given. *)

From S2P Require Import Prelude GoStrings Sha256 Json Store DeviceOperation DeviceOperationFacts DeviceOperations ChangeSets ChangeSetFacts QueueFacts Protocol Generations RolloutInvariants DeviceQueueSpec Scenario Rollouts RolloutPlan Orchestrator SiteConfigs Access AccessSpec Enrollment EnrollmentSpec Provision.

(** ** Tenants and devices of a token *)

Lemma readable_Some f alias db schema t : readable f alias db = Some (schema, t) →
  SafeTenantSchema alias = Ok schema ∧ db !! schema = Some t.
Proof.
  unfold readable. destruct (SafeTenantSchema alias) as [s|]; [|done]. destruct (lf_schema f s); [done|].
  destruct (db !! s) as [t'|] eqn:E; [|done]. by intros [= -> ->].
Qed.
(** The schema of a token: of an active tenant, with a device that has the token, and the
    only one among those that could be read. *)
Definition holds_token (f : lookup_faults) (token : string) (aliases : list string) (db : schemas) (schema : string) : Prop :=
  ∃ alias t, alias ∈ aliases ∧ readable f alias db = Some (schema, t) ∧ token_known token t = true ∧
    ∀ alias' schema' t', alias' ∈ aliases → readable f alias' db = Some (schema', t') → token_known token t' = true → schema' = schema.
Lemma only_with_token_spec f token aliases db m schema : only_with_token f token aliases db m = Ok schema →
  (m ≠ "" ∧ schema = m ∧ ∀ alias s t, alias ∈ aliases → readable f alias db = Some (s, t) → token_known token t = false) ∨
  (m = "" ∧ holds_token f token aliases db schema).
Proof.
  revert m. induction aliases as [|a aliases IH]; intros m; cbn [only_with_token].
  { destruct (String.eqb_spec m "") as [|Hm]; [done|]. intros [= <-]. left. split; [done|]. split; [done|]. by intros ? ? ? ?%elem_of_nil. }
  destruct (readable f a db) as [[s t]|] eqn:Hr; [destruct (token_known token t) eqn:Hk; [destruct (String.eqb_spec m "") as [->|Hm]|]|].
  - intros [(Hs & -> & Hno)|[-> (al & t' & Hin & Hr' & Hk' & Hall)]]%IH; right; (split; [done|]).
    + exists a, t. split; [by left|]. split; [done|]. split; [done|].
      intros al s' t' [->|Hin]%elem_of_cons Hr' Hk'; [congruence|]. specialize (Hno al s' t' Hin Hr'). congruence.
    + apply readable_Some in Hr as [Hs _]. apply tenant_schema_safe in Hs. discriminate Hs.
  - done.
  - intros [(Hm & -> & Hno)|[-> (al & t' & Hin & Hr' & Hk' & Hall)]]%IH; [left|right].
    + split; [done|]. split; [done|]. intros al s' t' [->|Hin]%elem_of_cons Hr'; [congruence|by eapply Hno].
    + split; [done|]. exists al, t'. split; [by right|]. split; [done|]. split; [done|].
      intros al' s'' t'' [->|Hin']%elem_of_cons Hr'' Hk''; [congruence|by eapply Hall].
  - intros [(Hm & -> & Hno)|[-> (al & t' & Hin & Hr' & Hk' & Hall)]]%IH; [left|right].
    + split; [done|]. split; [done|]. intros al s' t' [->|Hin]%elem_of_cons Hr'; [congruence|by eapply Hno].
    + split; [done|]. exists al, t'. split; [by right|]. split; [done|]. split; [done|].
      intros al' s'' t'' [->|Hin']%elem_of_cons Hr'' Hk''; [congruence|by eapply Hall].
Qed.
Lemma token_tenant f token l db schema : GetTenantSchemaForDeviceToken f token l db = Ok schema →
  holds_token f token (active_aliases l) db schema.
Proof.
  unfold GetTenantSchemaForDeviceToken. destruct (fail_if _ _) as [[]|]; [|done]. cbn [res_bind].
  destruct (fail_if (lf_list f) _) as [[]|]; [|done]. by intros [[? _]|[_ ?]]%only_with_token_spec.
Qed.
Lemma strict_tenant ft fk token key l db schema authToken : token ≠ "" →
  resolveDeviceTenant ft fk false token key l db = Ok (schema, authToken) →
  authToken = token ∧ holds_token ft token (active_aliases l) db schema.
Proof.
  intros Ht. unfold resolveDeviceTenant. rewrite (proj2 (String.eqb_neq _ _) Ht).
  destruct (GetTenantSchemaForDeviceToken _ _ _ _) as [s|] eqn:E; [|done]. intros [= -> <-]. split; [done|]. by apply token_tenant.
Qed.
Lemma find_device_Some p t id : find_device p t = Some id →
  ∃ d, devices (base t) !! id = Some d ∧ p id d (auth_of t id) = true.
Proof.
  unfold find_device. destruct (filter _ _) as [|[id' d] r] eqn:E; [done|]. intros [= ->].
  assert ((id, d) ∈ filter (λ kv, p kv.1 kv.2 (auth_of t kv.1) = true) (map_to_list (devices (base t)))) as Hin by (rewrite E; by left).
  apply list_elem_of_filter in Hin as [Hp Hin]. apply elem_of_map_to_list in Hin. by exists d.
Qed.
Lemma stored_token_Some t id token : stored_token t id = token → token ≠ "" → da_token (auth_of t id) = Some token.
Proof. unfold stored_token, coalesce. destruct (da_token _) as [s|]; cbn; congruence. Qed.

(** The tenant and the device of a token. *)
Record identified (f : lookup_faults) (token : string) (l : landlord) (db : schemas) (schema device : string) : Prop := {
  id_token : token ≠ "";
  id_tenant : holds_token f token (active_aliases l) db schema;
  id_device : ∃ t d, db !! schema = Some t ∧ devices (base t) !! device = Some d ∧ da_token (auth_of t device) = Some token
}.

(** The credentials of a strict installation are the token that is stored. *)
Lemma strict_credentials authToken key storedToken site siteKey : authToken ≠ "" →
  telemetry_credentials false authToken key storedToken site siteKey = None → storedToken = authToken.
Proof.
  intros Ha. unfold telemetry_credentials, validateDeviceTelemetryTokenForMode, validateDeviceTelemetryToken, nonempty.
  apply String.eqb_neq in Ha. rewrite Ha. cbn [negb andb orb].
  destruct (String.eqb_spec storedToken "") as [->|Hs]; cbn [negb andb orb].
  - destruct site; [|done]. by repeat case_match.
  - destruct (String.eqb_spec authToken storedToken) as [->|]; [done|]. cbn [negb fail_if is_ok].
    destruct site; by repeat case_match.
Qed.
Lemma serve_config_device f legacy wt schema id token key storedToken t schema' c :
  serve_config f legacy wt schema id token key storedToken t = ConfigApply schema' c →
  schema' = schema ∧ dc_device c = id ∧ dc_token c = storedToken ∧ is_Some (devices (base t) !! id).
Proof.
  unfold serve_config. destruct (f 4%nat); [done|]. destruct (devices (base t) !! id) as [d|]; [|done]. cbv zeta.
  destruct (_ && _); [done|]. destruct (pending_work _ _ _ _) as [|[op cs]]; [done|]. destruct (d_site_id d); [|done].
  destruct (f 8%nat); [done|]. destruct (provision_wlans _ _). by intros [= <- <-].
Qed.

Lemma telemetry_identified ft fk f l key token ip body db telemetry db1 :
  TelemetryHandler ft fk f false l key token ip body db = (telemetry, db1) →
  db1 = db ∧ ∀ schema device reports, telemetry = TelemetryAccepted schema device reports → identified ft token l db schema device.
Proof.
  intros Htel. unfold TelemetryHandler in Htel. destruct body as [[]|]; try (injection Htel as <- <-; done). cbv zeta in Htel.
    destruct (body_text _ _ =? ""); [by injection Htel as <- <-|]. destruct (normalizeEnrollmentDeviceID _) as [dev|]; [|by injection Htel as <- <-].
    destruct (_ && _); [by injection Htel as <- <-|]. destruct (String.eqb_spec token "") as [->|Hne]; [by injection Htel as <- <-|].
    cbn [negb andb] in Htel. destruct (resolveDeviceTenant _ _ _ _ _ _ _) as [[schema authToken]|] eqn:Hr; [|by injection Htel as <- <-].
    apply strict_tenant in Hr as [-> Hh]; [|done]. destruct (db !! schema) as [t|] eqn:Hs; [|by injection Htel as <- <-].
    destruct (telemetry_device _ _ _ _ _ _) as [[]|id]; [by injection Htel as <- <-|].
    destruct (devices (base t) !! id) as [d|] eqn:Hd; [|by injection Htel as <- <-].
    destruct (telemetry_credentials _ _ _ _ _ _) eqn:Hc; [by injection Htel as <- <-|]. apply strict_credentials in Hc; [|done].
    rewrite Hc, (proj2 (String.eqb_neq _ _) Hne), andb_false_r in Htel. cbn [andb] in Htel.
    assert (identified ft token l db schema id) as Hid.
    { split; [done|done|]. exists t, d. split; [done|]. split; [done|]. by apply stored_token_Some. }
    destruct (body_member _ _) as [[]|]; injection Htel as <- <-; (split; [done|]); intros ? ? ?; [done..|by intros [= -> -> _]|by intros [= -> -> _]].
Qed.
Lemma config_identified ft fk f rand l wt r db config db2 :
  GetDeviceConfigHandler ft fk f false rand l wt r db = (config, db2) →
  db2 = db ∧ ∀ schema c, config = ConfigApply schema c →
    identified ft (dr_token r) l db schema (dc_device c) ∧ dc_token c = dr_token r.
Proof.
  intros Hcfg.
  unfold GetDeviceConfigHandler in Hcfg. destruct (normalizeEnrollmentDeviceID _) as [dev|]; [|by injection Hcfg as <- <-].
  destruct (_ && _); [by injection Hcfg as <- <-|]. destruct (String.eqb_spec (dr_token r) "") as [|Hne]; [by injection Hcfg as <- <-|].
  cbn [negb andb] in Hcfg. destruct (resolveDeviceTenant _ _ _ _ _ _ _) as [[schema authToken]|] eqn:Hr; [|by injection Hcfg as <- <-].
  apply strict_tenant in Hr as [-> Hh]; [|done]. destruct (SafeSchemaIdent schema) as [s|] eqn:Hs; [|by injection Hcfg as <- <-].
  apply safe_ident in Hs as ->. cbn [mbind option_bind] in Hcfg. destruct (db !! schema) as [t|] eqn:Hdb;
    cbn [mbind option_bind] in Hcfg; [|by injection Hcfg as <- <-].
  destruct (config_device _ _ _ _ _ _) as [[id|]|]; [|destruct (_ =? _); by injection Hcfg as <- <-|by injection Hcfg as <- <-].
  rewrite (proj2 (String.eqb_neq _ _) Hne) in Hcfg. cbn [negb] in Hcfg.
  destruct (String.eqb_spec (stored_token t id) ""); [by injection Hcfg as <- <-|].
  destruct (String.eqb_spec (stored_token t id) (dr_token r)) as [Heq|]; [|by injection Hcfg as <- <-]. cbn [orb negb] in Hcfg.
  injection Hcfg as Hcfg ->. split; [done|]. intros sch c ->. apply serve_config_device in Hcfg as (-> & <- & -> & [d Hd]).
  split; [|done]. split; [done|done|]. exists t, d. split; [done|]. split; [done|]. by apply stored_token_Some.
Qed.


(** ** The pending change set *)

Definition with_generation (g : Z) (cs : DeviceChangeSet) : DeviceChangeSet :=
  ChangeSet (cs_ChangeSetID cs) (cs_DeviceID cs) (cs_PlanHash cs) g (cs_Operations cs) (cs_HealthChecks cs) (cs_ConfirmationPolicy cs).
Lemma dec_change_operation_doc o : dec_change_operation (jsonb_of (change_operation_json o)) zero_change_operation = Some o.
Proof.
  destruct o as [oid c cmds h]. unfold change_operation_json. cbn [o_OperationID o_Config o_Commands o_ObservedStateHash].
  assert (dec_elements dec_command zero_command (map jsonb_of (map command_json cmds)) [] = Some cmds) as Hc.
  { rewrite map_map, (dec_elements_map dec_command zero_command (λ x, jsonb_of (command_json x)) id)
      by (intros x _; exact (proj2 (dec_command_doc x))). by rewrite map_id. }
  revert Hc. generalize (map command_json cmds). intros l Hc.
  cbn [jsonb_of map fold_left fst snd]. cbv -[dec_elements dec_command zero_command jsonb_of map]. by rewrite Hc.
Qed.
Lemma dec_int64_of g old : (int64_min ≤ g ≤ int64_max)%Z → dec_int64 (JInt g) old = Some g.
Proof. intros H. unfold dec_int64. change (JInt g) with (JNum (int_num g)). cbv beta iota. fold (JInt g). by rewrite dec_int64_in. Qed.
Lemma dec_change_set_members a b c g ops hc pol : (int64_min ≤ g ≤ int64_max)%Z →
  dec_change_set (jsonb_set "generation" (JInt g) (jsonb_of (members a b c [] ops hc pol))) zero_change_set =
  (o ← dec_elements dec_change_operation zero_change_operation (map jsonb_of ops) [];
   h ← (match hc with [] => Some None | l => Some <$> dec_elements dec_string "" (map jsonb_of l) [] end);
   Some (ChangeSet a b c g o h pol)).
Proof.
  intros Hg. rewrite stored_members. unfold dec_change_set, dec_struct. rewrite dec_members_app.
  match goal with |- context [dec_members ?f ?l zero_change_set] =>
    assert (dec_members f l zero_change_set = Some (ChangeSet "" b c 0 [] None "")) as -> by reflexivity end.
  change (mbind ?f (Some ?x)) with (f x). cbv beta. rewrite dec_members_app.
  match goal with |- context [dec_members ?f [("generation", ?v)] ?e] =>
    assert (dec_members f [("generation", v)] e = Some (ChangeSet "" b c g [] None "")) as -> end.
  { cbv -[dec_int64 JInt]. by rewrite dec_int64_of. }
  change (mbind ?f (Some ?x)) with (f x). cbv beta.
  destruct hc as [|h hc]; cbv -[dec_elements dec_change_operation zero_change_operation jsonb_of map];
  destruct (dec_elements dec_change_operation _ _ _); try destruct (dec_elements _ _ _ _); done.
Qed.
Lemma decode_pending cs g :
  change_set_ok cs → texts_utf8 cs → cs_Generation cs = 0%Z → append_nil (cs_HealthChecks cs) = cs_HealthChecks cs → (0 < g ≤ int64_max)%Z →
  decodePendingDeviceChangeSet (jsonb_set "generation" (JInt g) (jsonb_of (change_set_json cs))) = Ok (with_generation g cs).
Proof.
  intros Hok Hu Hg Hhc Hr. unfold decodePendingDeviceChangeSet. rewrite change_set_json_members by done.
  rewrite dec_change_set_members by (assert (int64_min < 0)%Z by done; lia).
  rewrite (map_map change_operation_json jsonb_of), (dec_elements_map dec_change_operation zero_change_operation (λ o, jsonb_of (change_operation_json o)) id)
    by (intros x _; apply dec_change_operation_doc). rewrite map_id.
  assert ((h ← match map JStr (elems (cs_HealthChecks cs)) with [] => Some None | _ :: _ => Some <$> dec_elements dec_string "" (map jsonb_of (map JStr (elems (cs_HealthChecks cs)))) [] end;
    Some (ChangeSet (cs_ChangeSetID cs) (cs_DeviceID cs) (cs_PlanHash cs) g (cs_Operations cs) h ConfirmationLocalAuto)) =
    Some (with_generation g cs)) as Hh.
  { rewrite <- (ok_policy _ Hok). unfold with_generation. rewrite <- Hhc at 2. unfold append_nil.
    destruct (elems (cs_HealthChecks cs)) as [|x l] eqn:E; [done|]. rewrite map_map.
    change (map (λ y, jsonb_of (JStr y)) (x :: l)) with (map JStr (x :: l)). by rewrite dec_strings. }
  change (mbind ?f (Some ?x)) with (f x). cbv beta. rewrite Hh.
  assert (ValidateDeviceChangeSet (with_generation g cs) = Ok tt) as ->; [|done].
  apply ValidateDeviceChangeSet_spec. destruct Hok. split; try done. cbn. lia.
Qed.
(** What the handler reads of a device that has only a change set pending. *)
Lemma pending_change_set schema id t d cs g :
  is_ok (SafeSchemaIdent schema) = true → devices t !! id = Some d → d_pending_operation d = None →
  d_pending_change_set d = Some (jsonb_set "generation" (JInt g) (jsonb_of (change_set_json cs))) →
  decodePendingDeviceChangeSet (jsonb_set "generation" (JInt g) (jsonb_of (change_set_json cs))) = Ok (with_generation g cs) →
  equal_fold (cs_DeviceID cs) id = true → (0 < g)%Z →
  pending_work (λ _, false) schema id t = inr (None, Some (with_generation g cs)).
Proof.
  intros Hs Hd Ho Hp Hdec Hid Hg. unfold pending_work, GetPendingDeviceOperation, GetPendingDeviceChangeSet, read_operation, read_change_set, mbind_, lift.
  destruct (SafeSchemaIdent schema) as [s|]; [|done]. unfold mtry, query, statement. cbn [faults tn]. rewrite Hd. cbn [res_bind mbind option_bind].
  rewrite Ho. cbn [not_null mret fst]. rewrite Hp.
  assert (∃ l, jsonb_set "generation" (JInt g) (jsonb_of (change_set_json cs)) = JObj l) as [l Hl] by (eexists; reflexivity).
  rewrite Hl in Hdec |- *. cbn [not_null fst]. rewrite Hdec. unfold validatePendingDeviceChangeSetForDevice.
  cbn [with_generation cs_DeviceID cs_Generation]. rewrite Hid. cbn [negb fail_if res_bind]. by rewrite (proj2 (Z.leb_gt _ _) Hg).
Qed.

(** C14: a queued change set is delivered: once the change set that the controller built
    is queued on a device that has a site, the device, asking with its token, is
    given that change set with the generation it was queued under, and no operation. *)
Theorem queued_change_set_delivered (rollout device policy : string) (operations : list DeviceChangeOperation) (hc : gslice)
    (cs : DeviceChangeSet) (now : Z) (schema id site name : string) (o : option rollout_owner) (w w' : world) (d d' : device_row) (g : Z)
    (ft fk : lookup_faults) (legacy : bool) (rand : entropy) (l : landlord) (wt : wireless_tables) (r : device_request)
    (db : schemas) (t : schema_tables) :
  NewDeviceChangeSetForRolloutOperations rollout device operations hc policy = Ok cs → texts_utf8b cs = true →
  devices (tn w) !! id = Some d → d_pending_change_set d = None → (0 <=? d_desired d)%Z = true → d_site_id d = Some site →
  queueDeviceChangeSet now schema o id (Some (change_set_json cs)) w = (Ok g, w') →
  devices (tn w') !! id = Some d' → d_pending_change_set d' ≠ None →
  db !! schema = Some t → base t = tn w' → dr_token r ≠ "" →
  resolveDeviceTenant ft fk legacy (dr_token r) (dr_key r) l db = Ok (schema, dr_token r) →
  normalizeEnrollmentDeviceID (dr_device r) = Ok name → resolveDeviceIdentity name t = Some id →
  da_token (auth_of t id) = Some (dr_token r) →
  ∃ c, GetDeviceConfigHandler ft fk (λ _, false) legacy rand l wt r db = (ConfigApply schema c, db) ∧
    dc_device c = id ∧ dc_token c = dr_token r ∧ dc_operation c = None ∧ dc_change_set c = Some (with_generation g cs).
Proof.
  intros Hnew Hu%texts_utf8_sound Hd Hp H0 Hsite Hrun Hd' Hp' Ht Hb Htok Hten Hname Hid Hat.
  destruct (constructed_healthchecks _ _ _ _ _ _ Hnew) as (Hok & Hhc & Hg0). apply Z.leb_le in H0.
  destruct (queued_fresh _ _ _ _ _ _ _ _ _ _ Hok Hu Hg0 Hhc Hd Hp H0 Hrun Hd' Hp')
    as (Hsch & Hq & Hdev & Hr & _ & Hidle & _ & _ & Hs & _ & Hop & Hpend).
  assert (pending_work (λ _, false) schema id (base t) = inr (None, Some (with_generation g cs))) as Hw.
  { rewrite Hb. eapply pending_change_set; [done|exact Hd'|rewrite Hop; apply Hidle|exact Hpend|by apply decode_pending|done|lia]. }
  apply String.eqb_neq in Htok. assert (stored_token t id = dr_token r) as Hst by (unfold stored_token; by rewrite Hat).
  unfold GetDeviceConfigHandler. rewrite Hname, Htok, andb_false_r, Hten. cbn [andb].
  destruct (SafeSchemaIdent schema) as [s|] eqn:Es; [|done]. apply safe_ident in Es as ->. cbn [mbind option_bind]. rewrite Ht.
  cbn [mbind option_bind]. unfold config_device. rewrite Hid, Htok. cbn [mbind option_bind negb andb]. rewrite Hst, Htok, String.eqb_refl.
  cbn [negb orb]. unfold serve_config. rewrite Hb, Hd', Htok. cbn [andb]. rewrite <- Hb, Hw, Hs, Hsite.
  destruct (provision_wlans _ _) as [wlans conflicts]. eexists. split; [done|]. done.
Qed.

(** ** An enrolled device is served *)

Lemma only_with_token_none f token aliases db m : m ≠ "" →
  (∀ alias s t, alias ∈ aliases → readable f alias db = Some (s, t) → token_known token t = false) →
  only_with_token f token aliases db m = Ok m.
Proof.
  intros Hm. induction aliases as [|a aliases IH]; intros Hall; cbn [only_with_token]; [by rewrite (proj2 (String.eqb_neq _ _) Hm)|].
  destruct (readable f a db) as [[s t]|] eqn:Hr; [rewrite (Hall a s t) by (done || by left)|]; apply IH; intros; (eapply Hall; [by right|done]).
Qed.
Lemma only_with_token_one f token aliases db alias schema t : NoDup aliases → alias ∈ aliases →
  readable f alias db = Some (schema, t) → token_known token t = true →
  (∀ alias' s t', alias' ∈ aliases → alias' ≠ alias → readable f alias' db = Some (s, t') → token_known token t' = false) →
  only_with_token f token aliases db "" = Ok schema.
Proof.
  intros Hnd Hin Hr Hk Hall. induction aliases as [|a aliases IH]; [by apply elem_of_nil in Hin|].
  apply NoDup_cons in Hnd as [Hna Hnd]. cbn [only_with_token]. destruct (decide (a = alias)) as [->|Hne].
  - rewrite Hr, Hk. cbn [String.eqb negb]. apply only_with_token_none.
    + apply readable_Some in Hr as [Hs _]. apply tenant_schema_safe in Hs. by intros ->.
    + intros al s t' Hin' Hr'. eapply Hall; [by right| |exact Hr']. by intros ->.
  - apply elem_of_cons in Hin as [?|Hin]; [congruence|].
    assert (only_with_token f token aliases db "" = Ok schema) as HIH by (apply IH; [done..|]; intros; eapply Hall; [by right|done|done]).
    destruct (readable f a db) as [[s t']|] eqn:Hr'; [|done]. by rewrite (Hall a s t') by (done || by left).
Qed.
Lemma active_aliases_nodup l : registered l → NoDup (active_aliases l).
Proof.
  intros [_ Hd]. unfold active_aliases.
  assert (∀ kvs : list (string * tenant_row), NoDup (map fst kvs) → (∀ k t, (k, t) ∈ kvs → tenants l !! k = Some t) →
    NoDup (map tr_alias (filter (λ t, tr_active t = true) (map snd kvs)))) as Hgen.
  { induction kvs as [|[k t] kvs IH]; intros Hnd Hin; [apply NoDup_nil_2|]. cbn [map fst snd] in *. apply NoDup_cons in Hnd as [Hk Hnd].
    assert (NoDup (map tr_alias (filter (λ t, tr_active t = true) (map snd kvs)))) as HIH by (apply IH; [done|]; intros; apply Hin; by right).
    rewrite filter_cons. destruct (decide (tr_active t = true)); [|done]. cbn [map]. apply NoDup_cons. split; [|done].
    intros (t' & He & Hf)%list_elem_of_In%in_map_iff. apply list_elem_of_In, list_elem_of_filter in Hf as [_ Hf].
    apply list_elem_of_In, in_map_iff in Hf as ([k' t''] & <- & Hf). apply list_elem_of_In in Hf. cbn [snd] in He.
    apply Hk. apply list_elem_of_In, in_map_iff. exists (k', t''). split; [|by apply list_elem_of_In]. cbn.
    eapply Hd; [apply Hin; by right|apply Hin; by left|done]. }
  apply Hgen; [apply NoDup_fst_map_to_list|]. intros k t. apply elem_of_map_to_list.
Qed.
Lemma resolve_unique id t d : devices (base t) !! id = Some d →
  (∀ id' d', devices (base t) !! id' = Some d' → to_lower id' = to_lower id → id' = id) → resolveDeviceIdentity id t = Some id.
Proof.
  intros Hd Hu. unfold resolveDeviceIdentity. destruct (find_device _ t) as [id'|] eqn:Hf.
  - apply find_device_Some in Hf as (d' & Hd' & He). apply String.eqb_eq in He. by rewrite (Hu id' d' Hd' He).
  - unfold find_device in Hf. destruct (filter _ _) as [|[k v] l0] eqn:E; [|done]. exfalso.
    assert ((id, d) ∈ filter (λ kv : string * device_row, (to_lower kv.1 =? to_lower id) = true) (map_to_list (devices (base t)))) as Hin.
    { apply list_elem_of_filter. split; [apply String.eqb_refl|]. by apply elem_of_map_to_list. }
    rewrite E in Hin. by apply elem_of_nil in Hin.
Qed.


(** ** Concrete devices *)

Definition keyed_site : site_auth := SiteAuth (Some "key-1") (Some true) (Some (sha256_hex site_token)) (Some (hours 20)).
Definition keyed_db : schemas :=
  {["tenant_acme" := Tables empty_tenant {[acme_id := keyed_site]} ∅ ∅; "tenant_bob_2" := Tables empty_tenant ∅ ∅ ∅]}.
Lemma keyed_db_lookup schema t : keyed_db !! schema = Some t →
  devices (base t) = ∅ ∧ device_auths t = ∅ ∧ ∀ id s, site_auths t !! id = Some s → id = acme_id ∧ s = keyed_site.
Proof.
  unfold keyed_db. intros [[_ <-]|[_ [_ <-]%lookup_singleton_Some]]%lookup_insert_Some; (split; [done|]; split; [done|]); cbn [site_auths].
  - by intros id s [<- <-]%lookup_singleton_Some.
  - intros id s. by rewrite lookup_empty.
Qed.
Lemma keyed_db_canonical : canonical_sites keyed_db.
Proof. intros schema t id s (_ & _ & H)%keyed_db_lookup [-> _]%H. vm_compute. reflexivity. Qed.
Definition joined_token : string := hex_encode (map N.of_nat (seq 0 32)).
Definition joined_db : schemas := (joined 5 "aa:01" keyed_db).2.
Definition no_wireless : wireless_tables := WirelessTables (λ _, None) (λ _ _, []).
Definition report : list (string * json) := [("device_id", JStr "AA:01")].



Definition demo_landlord : landlord := (RegisterTenant no_register_faults 1 acme_id "Demo" "demo" sample_users).2.
Definition queued_tenant : tenant :=
  tn (queueDeviceChangeSet 1600 schema_name (Some scenario_owner) "ap-1" (Some (change_set_json change_set)) (World claimed [])).2.
Definition demo_tables : schema_tables := Tables queued_tenant ∅ {["ap-1" := DeviceAuth (Some "tok-1") None None None]} ∅.
Lemma queued_change_set_delivered_witness :
  ∃ c, (GetDeviceConfigHandler no_lookup_faults no_lookup_faults (λ _, false) false None demo_landlord no_wireless
    (DeviceRequest "ap-1" "" "tok-1" "") {["tenant_demo" := demo_tables]}).1 = ConfigApply "tenant_demo" c ∧
    dc_change_set c = Some (with_generation 4 change_set).
Proof.
  destruct (queued_change_set_delivered rollout_id "ap-1" ConfirmationLocalAuto scenario_operations None change_set 1600 "tenant_demo"
    "ap-1" site_id "AP-1" (Some scenario_owner) (World claimed []) (World queued_tenant []) access_point
    (default access_point (devices queued_tenant !! "ap-1")) 4 no_lookup_faults no_lookup_faults false None demo_landlord no_wireless
    (DeviceRequest "ap-1" "" "tok-1" "") {["tenant_demo" := demo_tables]} demo_tables) as (c & Hc & _ & _ & _ & Hcs).
  all: try (vm_compute; reflexivity).
  - vm_compute. discriminate.
  - discriminate.
  - exists c. split; [exact (f_equal fst Hc)|exact Hcs].
Defined.
